(** * lz77ppm: a shallow embedding of the LZ77 codec and its properties

    The development follows the C sources of liblz77ppm:
    - [tinyhuff.c]  the static prefix code for match lengths,
    - [tree.c]      the binary search tree kept in an array of slots,
    - [ustream.c]   the uncompressed side (window, look-ahead, tree),
    - [cstream.c]   the compressed side (bit reader and writer, header),
    - [bit.c]       single-bit access to byte buffers,
    - [lz77.c]      the two codec loops.

    C integers are modelled as [Z] with the wrap-around of every typed
    assignment written out ([u8], [u16], [u32], [u64]).  A C function that
    can return a negative value, fail an [assert], run into undefined
    behaviour or loop for ever returns an [outcome].  Buffers are lists of
    bytes that hold exactly the valid bytes ([0 .. end)); pointers into a
    buffer are offsets from its start. *)

From Stdlib Require Import ZArith List Lia Bool.
Import ListNotations.
Local Open Scope Z_scope.

(** ** Outcomes of C functions *)

Inductive fault : Type :=
| Negative      (* the function returned a negative value *)
| AssertFailed  (* an [assert] did not hold: the process is aborted *)
| Undefined     (* undefined behaviour (out-of-range index or shift) *)
| Diverges      (* a loop whose state repeats: it never exits *)
| OutOfFuel.    (* the iteration bound of the model was reached *)

Inductive outcome (A : Type) : Type :=
| Ret (a : A)
| Stop (f : fault).

Arguments Ret {A} a.
Arguments Stop {A} f.

Definition bind {A B} (m : outcome A) (k : A -> outcome B) : outcome B :=
  match m with
  | Ret a => k a
  | Stop f => Stop f
  end.

Declare Scope outcome_scope.
Delimit Scope outcome_scope with outcome.
Notation "x <- m ;; k" := (bind m (fun x => k))
  (at level 61, m at next level, right associativity) : outcome_scope.
Notation "' p <- m ;; k" := (bind m (fun x => let p := x in k))
  (at level 61, p pattern, m at next level, right associativity) : outcome_scope.
Notation "m ;;; k" := (bind m (fun _ => k))
  (at level 61, right associativity) : outcome_scope.
Local Open Scope outcome_scope.

Definition assert (b : bool) : outcome unit :=
  if b then Ret tt else Stop AssertFailed.

Definition defined (b : bool) : outcome unit :=
  if b then Ret tt else Stop Undefined.

(** ** C integer types *)

Definition u8 (z : Z) : Z := z mod 2 ^ 8.
Definition u16 (z : Z) : Z := z mod 2 ^ 16.
Definition u32 (z : Z) : Z := z mod 2 ^ 32.
Definition u64 (z : Z) : Z := z mod 2 ^ 64.

(** Array access; an index outside the array is undefined behaviour. *)
Definition rd {A} (l : list A) (i : Z) : outcome A :=
  if (0 <=? i) && (i <? Z.of_nat (length l))
  then match nth_error l (Z.to_nat i) with
       | Some a => Ret a
       | None => Stop Undefined
       end
  else Stop Undefined.

Fixpoint upd_nat {A} (l : list A) (n : nat) (a : A) : list A :=
  match l, n with
  | [], _ => []
  | _ :: t, O => a :: t
  | h :: t, S n' => h :: upd_nat t n' a
  end.

Definition wr {A} (l : list A) (i : Z) (a : A) : outcome (list A) :=
  if (0 <=? i) && (i <? Z.of_nat (length l))
  then Ret (upd_nat l (Z.to_nat i) a)
  else Stop Undefined.

(** A store [data[i] = b] into a buffer whose valid bytes are [d]: the
    byte just after the valid ones is appended. *)
Definition store (d : list Z) (i b : Z) : outcome (list Z) :=
  if i =? Z.of_nat (length d) then Ret (d ++ [b]) else wr d i b.

(** [memcpy(data + i, bytes, length bytes)]. *)
Fixpoint store_bytes (d : list Z) (i : Z) (bytes : list Z) : outcome (list Z) :=
  match bytes with
  | [] => Ret d
  | b :: bytes' => d <- store d i b ;; store_bytes d (i + 1) bytes'
  end.

(** The bytes [data[i .. i + n)]. *)
Definition slice (d : list Z) (i n : Z) : outcome (list Z) :=
  defined ((0 <=? i) && (0 <=? n) && (i + n <=? Z.of_nat (length d))) ;;;
  Ret (firstn (Z.to_nat n) (skipn (Z.to_nat i) d)).

(** Constants of [lz77.h]. *)
Definition LZ77PPM_VERSION : Z := 16.
Definition LZ77_TYPE_BITS : Z := 1.
Definition LZ77_NEXT_BITS : Z := 8.
Definition LZ77_SYMBOL_BITS : Z := LZ77_TYPE_BITS + LZ77_NEXT_BITS.
Definition LZ77_MIN_WINDOW_SIZE : Z := 4.
Definition LZ77_MIN_LOOKAHEAD_SIZE : Z := 2.

(** [static uint8_t number_of_bits(uint16_t value)], the same function in
    [tinyhuff.c] and [ustream.c]:
    [r = 1; while (value >>= 1) r++; return r;].  A 16-bit value is zero
    after at most 16 shifts. *)
Fixpoint number_of_bits_loop (fuel : nat) (value r : Z) : Z :=
  match fuel with
  | O => r
  | S fuel' =>
      let value' := Z.shiftr value 1 in
      if value' =? 0 then r else number_of_bits_loop fuel' value' (u8 (r + 1))
  end.

Definition number_of_bits (value : Z) : Z :=
  number_of_bits_loop 16 (u16 value) 1.

(** ** tinyhuff.c: the length code *)

Record enc_entry := { code : Z; enc_nbits : Z }.
Record dec_entry := { value : Z; dec_nbits : Z }.

Definition encoding_table : list enc_entry :=
  [ {| code := 0; enc_nbits := 6 |};   (* 0:            000 000 *)
    {| code := 3; enc_nbits := 2 |};   (* min_value:    11      *)
    {| code := 2; enc_nbits := 2 |};   (* min_value+1:  10      *)
    {| code := 1; enc_nbits := 2 |};   (* min_value+2:  01      *)
    {| code := 1; enc_nbits := 3 |};   (* min_value+3:  001     *)
    {| code := 1; enc_nbits := 4 |};   (* min_value+4:  000 1   *)
    {| code := 1; enc_nbits := 5 |};   (* min_value+5:  000 01  *)
    {| code := 1; enc_nbits := 6 |} ]. (* min_value+6+: 000 001 *)

Definition ENCODING_TABLE_SIZE : Z := Z.of_nat (length encoding_table).
Definition MAX_CODE_BITS : Z := 6.
Definition LZ77_TINYHUFF_MIN_CODE_BITS : Z := 2.

Definition decoding_table : list dec_entry :=
  [ {| value := 0; dec_nbits := 6 |}; {| value := 6; dec_nbits := 6 |} ]
  ++ repeat {| value := 5; dec_nbits := 5 |} 2
  ++ repeat {| value := 4; dec_nbits := 4 |} 4
  ++ repeat {| value := 3; dec_nbits := 3 |} 8
  ++ repeat {| value := 2; dec_nbits := 2 |} 16
  ++ repeat {| value := 1; dec_nbits := 2 |} 16
  ++ repeat {| value := 0; dec_nbits := 2 |} 16.

Record lz77_tinyhuff := {
  min_value : Z;
  max_value : Z;
  max_encoded_value : Z;
  diff_nbits : Z
}.

(** [tinyhuff_init(encoder, min_value, max_value)]; both arguments are
    [uint16_t]. *)
Definition tinyhuff_init (min_v max_v : Z) : lz77_tinyhuff :=
  let min_v := u16 min_v in
  let max_v := u16 max_v in
  let max_enc := u16 (min_v + ENCODING_TABLE_SIZE - 2) in
  let max_diff := max_v - max_enc in
  {| min_value := min_v;
     max_value := max_v;
     max_encoded_value := max_enc;
     diff_nbits := if 0 <=? max_diff then number_of_bits max_diff else 0 |}.

(** [tinyhuff_encode(enc, value, &code)] returns the number of bits and
    stores the right-aligned code in the [uint16_t] cell [code]. *)
Definition tinyhuff_encode (enc : lz77_tinyhuff) (v : Z) : outcome (Z * Z) :=
  assert ((v =? 0) || (min_value enc <=? v)) ;;;
  assert (v <=? max_value enc) ;;;
  let index :=
    if v =? 0 then 0
    else let index := u32 (1 + v - min_value enc) in
         if ENCODING_TABLE_SIZE - 1 <? index then ENCODING_TABLE_SIZE - 1 else index in
  e <- rd encoding_table index ;;
  if max_encoded_value enc <=? v then
    assert (0 <? diff_nbits enc) ;;;
    let diff_code := u16 (v - max_encoded_value enc) in
    assert (diff_code =? Z.land diff_code (Z.shiftl 1 (diff_nbits enc) - 1)) ;;;
    Ret (u8 (enc_nbits e + diff_nbits enc),
         u16 (Z.lor (Z.shiftl (code e) (diff_nbits enc)) diff_code))
  else Ret (enc_nbits e, code e).

Definition tinyhuff_can_encode (enc : lz77_tinyhuff) (v : Z) : bool :=
  (v =? 0) || ((min_value enc <=? v) && (v <=? max_value enc)).

(** [tinyhuff_decode(enc, &peeked_data, peeked_length, &value)] returns the
    number of bits to consume (0: more bits are needed) together with the
    content of the cell [value], which starts as [v0]. *)
Definition tinyhuff_decode (enc : lz77_tinyhuff) (peeked_data peeked_length v0 : Z)
  : outcome (Z * Z) :=
  assert (peeked_length <=? 16) ;;;
  if peeked_length <? LZ77_TINYHUFF_MIN_CODE_BITS then Ret (0, v0)
  else
    let tpos := u16 (16 - MAX_CODE_BITS) in
    let mask := u16 (Z.shiftl 1 MAX_CODE_BITS - 1) in
    let index := u16 (Z.land (Z.shiftr peeked_data tpos) mask) in
    d <- rd decoding_table index ;;
    let v := value d in
    let to_consume := dec_nbits d in
    if peeked_length <? to_consume then Ret (0, v)
    else
      let v := if 0 <? index then u16 (v + min_value enc) else v in
      if v =? max_encoded_value enc then
        assert (0 <? diff_nbits enc) ;;;
        if peeked_length <? to_consume + diff_nbits enc then Ret (0, v)
        else
          let tpos := u16 (tpos - diff_nbits enc) in
          let mask := u16 (Z.shiftl 1 (diff_nbits enc) - 1) in
          let diff := u16 (Z.land (Z.shiftr peeked_data tpos) mask) in
          let v := u16 (v + diff) in
          let to_consume := u8 (to_consume + diff_nbits enc) in
          assert (v <=? max_value enc) ;;;
          assert (to_consume <=? peeked_length) ;;;
          Ret (to_consume, v)
      else
        assert (v <=? max_value enc) ;;;
        assert (to_consume <=? peeked_length) ;;;
        Ret (to_consume, v).

(** ** tree.c: the search tree, an array of [window_maxsize + 1] slots *)

Record lz77_tree := { parent : Z; smaller : Z; larger : Z }.

(** [static const uint16_t UNUSED = -1;] *)
Definition UNUSED : Z := u16 (-1).

Definition set_parent (n : lz77_tree) (v : Z) : lz77_tree :=
  {| parent := u16 v; smaller := smaller n; larger := larger n |}.
Definition set_smaller (n : lz77_tree) (v : Z) : lz77_tree :=
  {| parent := parent n; smaller := u16 v; larger := larger n |}.
Definition set_larger (n : lz77_tree) (v : Z) : lz77_tree :=
  {| parent := parent n; smaller := smaller n; larger := u16 v |}.

(** [tree[i].parent = v;] and the like. *)
Definition wr_parent (t : list lz77_tree) (i v : Z) : outcome (list lz77_tree) :=
  n <- rd t i ;; wr t i (set_parent n v).
Definition wr_smaller (t : list lz77_tree) (i v : Z) : outcome (list lz77_tree) :=
  n <- rd t i ;; wr t i (set_smaller n v).
Definition wr_larger (t : list lz77_tree) (i v : Z) : outcome (list lz77_tree) :=
  n <- rd t i ;; wr t i (set_larger n v).

Definition lz77_tree_contract_node (t : list lz77_tree) (old new : Z)
  : outcome (list lz77_tree) :=
  assert (negb (old =? UNUSED)) ;;;
  assert (negb (new =? old)) ;;;
  o <- rd t old ;;
  let parent_ := parent o in
  p <- rd t parent_ ;;
  assert ((larger p =? old) || (smaller p =? old)) ;;;
  assert ((larger o =? new) || (smaller o =? new)) ;;;
  assert ((larger o =? UNUSED) || (smaller o =? UNUSED)) ;;;
  (if new =? UNUSED then Ret tt
   else n <- rd t new ;; assert (parent n =? old)) ;;;
  t <- (if negb (new =? UNUSED) then wr_parent t new parent_ else Ret t) ;;
  p <- rd t parent_ ;;
  t <- (if larger p =? old then wr_larger t parent_ new
        else wr_smaller t parent_ new) ;;
  wr_parent t old UNUSED.

Definition lz77_tree_replace_node (t : list lz77_tree) (old new : Z)
  : outcome (list lz77_tree) :=
  assert (negb (old =? UNUSED)) ;;;
  assert (negb (new =? UNUSED)) ;;;
  assert (negb (new =? old)) ;;;
  n <- rd t new ;;
  assert (parent n =? UNUSED) ;;;
  o <- rd t old ;;
  let parent_ := parent o in
  t <- (if parent_ =? UNUSED then Ret t
        else p <- rd t parent_ ;;
             if smaller p =? old then wr_smaller t parent_ new
             else wr_larger t parent_ new) ;;
  o <- rd t old ;;
  t <- wr t new o ;;
  new_node <- rd t new ;;
  t <- (if negb (smaller new_node =? UNUSED)
        then wr_parent t (smaller new_node) new else Ret t) ;;
  new_node <- rd t new ;;
  t <- (if negb (larger new_node =? UNUSED)
        then wr_parent t (larger new_node) new else Ret t) ;;
  wr_parent t old UNUSED.

(** [while (tree[next].larger != UNUSED) next = tree[next].larger;] *)
Fixpoint find_next_loop (fuel : nat) (t : list lz77_tree) (next : Z) : outcome Z :=
  match fuel with
  | O => Stop OutOfFuel
  | S fuel' =>
      n <- rd t next ;;
      if negb (larger n =? UNUSED) then find_next_loop fuel' t (larger n)
      else Ret next
  end.

Definition lz77_tree_find_next_node (t : list lz77_tree) (index : Z) : outcome Z :=
  assert (negb (index =? UNUSED)) ;;;
  n <- rd t index ;;
  find_next_loop (S (length t)) t (smaller n).

Fixpoint delete_node_rec (fuel : nat) (t : list lz77_tree) (index : Z)
  : outcome (list lz77_tree) :=
  match fuel with
  | O => Stop OutOfFuel
  | S fuel' =>
      assert (negb (index =? UNUSED)) ;;;
      n <- rd t index ;;
      if parent n =? UNUSED then Ret t
      else if negb (smaller n =? UNUSED) && negb (larger n =? UNUSED) then
        replacement <- lz77_tree_find_next_node t index ;;
        t <- delete_node_rec fuel' t replacement ;;
        lz77_tree_replace_node t index replacement
      else if negb (smaller n =? UNUSED) then
        lz77_tree_contract_node t index (smaller n)
      else
        lz77_tree_contract_node t index (larger n)
  end.

(** The replacement found by [lz77_tree_find_next_node] has no larger
    child, so the nested call never recurses again: two levels are all the
    recursion there is (lemma [delete_node_rec_fuel] below). *)
Definition lz77_tree_delete_node (t : list lz77_tree) (index : Z)
  : outcome (list lz77_tree) :=
  delete_node_rec 2 t index.

(** ** ustream.c: the uncompressed side

    [us_data] holds the valid bytes of the buffer [data]/[cdata];
    [us_window] and [us_lookahead] are the offsets of the two pointers from
    the start of the buffer.  A descriptor is modelled as a plain file:
    [us_file] holds the bytes not yet read (input stream) or the bytes
    written so far (output stream); [read] delivers as many bytes as
    requested while there are some, [write] accepts all the bytes it is
    given.  [us_heap] is the largest block [realloc] can deliver. *)

Record lz77_ustream := {
  us_fd : Z;
  us_data : list Z;
  us_size : Z;
  us_end : Z;
  us_can_realloc : Z;
  us_is_input : Z;
  us_window : Z;
  us_window_maxsize : Z;
  us_window_currsize : Z;
  us_window_nbits : Z;
  us_lookahead : Z;
  us_lookahead_maxsize : Z;
  us_lookahead_currsize : Z;
  us_tree : list lz77_tree;
  us_length_encoder : lz77_tinyhuff;
  us_processed_bytes : Z;
  us_file : list Z;
  us_heap : Z
}.

Definition set_us_tree (u : lz77_ustream) (t : list lz77_tree) : lz77_ustream :=
  {| us_fd := us_fd u; us_data := us_data u; us_size := us_size u;
     us_end := us_end u; us_can_realloc := us_can_realloc u;
     us_is_input := us_is_input u; us_window := us_window u;
     us_window_maxsize := us_window_maxsize u;
     us_window_currsize := us_window_currsize u;
     us_window_nbits := us_window_nbits u; us_lookahead := us_lookahead u;
     us_lookahead_maxsize := us_lookahead_maxsize u;
     us_lookahead_currsize := us_lookahead_currsize u;
     us_tree := t; us_length_encoder := us_length_encoder u;
     us_processed_bytes := us_processed_bytes u; us_file := us_file u;
     us_heap := us_heap u |}.

(** The window and the look-ahead: both pointers and both current sizes. *)
Definition set_us_view (u : lz77_ustream) (w wsize la lsize : Z) : lz77_ustream :=
  {| us_fd := us_fd u; us_data := us_data u; us_size := us_size u;
     us_end := us_end u; us_can_realloc := us_can_realloc u;
     us_is_input := us_is_input u; us_window := w;
     us_window_maxsize := us_window_maxsize u;
     us_window_currsize := wsize;
     us_window_nbits := us_window_nbits u; us_lookahead := la;
     us_lookahead_maxsize := us_lookahead_maxsize u;
     us_lookahead_currsize := lsize;
     us_tree := us_tree u; us_length_encoder := us_length_encoder u;
     us_processed_bytes := us_processed_bytes u; us_file := us_file u;
     us_heap := us_heap u |}.

(** The buffer: its bytes, its capacity, the end of valid data and the
    descriptor behind it. *)
Definition set_us_buffer (u : lz77_ustream) (d : list Z) (sz e : Z) (f : list Z)
  : lz77_ustream :=
  {| us_fd := us_fd u; us_data := d; us_size := sz;
     us_end := e; us_can_realloc := us_can_realloc u;
     us_is_input := us_is_input u; us_window := us_window u;
     us_window_maxsize := us_window_maxsize u;
     us_window_currsize := us_window_currsize u;
     us_window_nbits := us_window_nbits u; us_lookahead := us_lookahead u;
     us_lookahead_maxsize := us_lookahead_maxsize u;
     us_lookahead_currsize := us_lookahead_currsize u;
     us_tree := us_tree u; us_length_encoder := us_length_encoder u;
     us_processed_bytes := us_processed_bytes u; us_file := f;
     us_heap := us_heap u |}.

Definition set_us_processed_bytes (u : lz77_ustream) (n : Z) : lz77_ustream :=
  {| us_fd := us_fd u; us_data := us_data u; us_size := us_size u;
     us_end := us_end u; us_can_realloc := us_can_realloc u;
     us_is_input := us_is_input u; us_window := us_window u;
     us_window_maxsize := us_window_maxsize u;
     us_window_currsize := us_window_currsize u;
     us_window_nbits := us_window_nbits u; us_lookahead := us_lookahead u;
     us_lookahead_maxsize := us_lookahead_maxsize u;
     us_lookahead_currsize := us_lookahead_currsize u;
     us_tree := us_tree u; us_length_encoder := us_length_encoder u;
     us_processed_bytes := n; us_file := us_file u;
     us_heap := us_heap u |}.

(** The parameters fixed by [ustream_open]. *)
Definition set_us_params (u : lz77_ustream) (w wbits l : Z) (enc : lz77_tinyhuff)
  : lz77_ustream :=
  {| us_fd := us_fd u; us_data := us_data u; us_size := us_size u;
     us_end := us_end u; us_can_realloc := us_can_realloc u;
     us_is_input := us_is_input u; us_window := us_window u;
     us_window_maxsize := w;
     us_window_currsize := us_window_currsize u;
     us_window_nbits := wbits; us_lookahead := us_lookahead u;
     us_lookahead_maxsize := l;
     us_lookahead_currsize := us_lookahead_currsize u;
     us_tree := us_tree u; us_length_encoder := enc;
     us_processed_bytes := us_processed_bytes u; us_file := us_file u;
     us_heap := us_heap u |}.

(** What a creation function returns: the new object, or [NULL] with
    [errno] set to [EINVAL], or [NULL] after a failed allocation. *)
Inductive created (A : Type) : Type :=
| Object (a : A)
| Null_EINVAL
| Null_alloc.
Arguments Object {A} a.
Arguments Null_EINVAL {A}.
Arguments Null_alloc {A}.

(** Content of freshly allocated, not yet initialised tree slots. *)
Definition raw_slot : lz77_tree := {| parent := 0; smaller := 0; larger := 0 |}.
Definition zero_encoder : lz77_tinyhuff :=
  {| min_value := 0; max_value := 0; max_encoded_value := 0; diff_nbits := 0 |}.

(** [lz77_ustream_from_memory(data, size, window_size, lookahead_size)];
    [data = None] is the [NULL] pointer, [heap] the room left for
    [calloc]/[malloc] ([alloc_ok]: the three allocations succeed). *)
Definition lz77_ustream_from_memory (data : option (list Z)) (size window_size
  lookahead_size : Z) (alloc_ok : bool) (heap : Z) : created lz77_ustream :=
  let window_size := u16 window_size in
  let lookahead_size := u16 lookahead_size in
  match data with
  | None => Null_EINVAL
  | Some d =>
      if window_size <? LZ77_MIN_WINDOW_SIZE then Null_EINVAL
      else if lookahead_size <? LZ77_MIN_LOOKAHEAD_SIZE then Null_EINVAL
      else if negb alloc_ok then Null_alloc
      else Object
        {| us_fd := -1; us_data := d; us_size := u32 size; us_end := u32 size;
           us_can_realloc := 0; us_is_input := 1; us_window := 0;
           us_window_maxsize := u16 window_size; us_window_currsize := 0;
           us_window_nbits := u8 (number_of_bits (window_size - 1));
           us_lookahead := 0; us_lookahead_maxsize := u16 lookahead_size;
           us_lookahead_currsize := 0;
           us_tree := repeat raw_slot (Z.to_nat (window_size + 1));
           us_length_encoder := zero_encoder; us_processed_bytes := 0;
           us_file := []; us_heap := heap |}
  end.

(** [lz77_ustream_from_descriptor(fd, window_size, lookahead_size)];
    [file] is the content behind the descriptor. *)
Definition lz77_ustream_from_descriptor (fd window_size lookahead_size : Z)
  (file : list Z) (alloc_ok : bool) (heap : Z) : created lz77_ustream :=
  let window_size := u16 window_size in
  let lookahead_size := u16 lookahead_size in
  if fd <? 0 then Null_EINVAL
  else if window_size <? LZ77_MIN_WINDOW_SIZE then Null_EINVAL
  else if lookahead_size <? LZ77_MIN_LOOKAHEAD_SIZE then Null_EINVAL
  else if negb alloc_ok then Null_alloc
  else
    let data_size := (window_size + lookahead_size) * 10 in
    Object
      {| us_fd := fd; us_data := []; us_size := u32 data_size; us_end := 0;
         us_can_realloc := 1; us_is_input := 1; us_window := 0;
         us_window_maxsize := u16 window_size; us_window_currsize := 0;
         us_window_nbits := u8 (number_of_bits (window_size - 1));
         us_lookahead := 0; us_lookahead_maxsize := u16 lookahead_size;
         us_lookahead_currsize := 0;
         us_tree := repeat raw_slot (Z.to_nat (window_size + 1));
         us_length_encoder := zero_encoder; us_processed_bytes := 0;
         us_file := file; us_heap := heap |}.

(** [lz77_ustream_to_memory(from, data, size, can_realloc)]; [from_null]
    tells whether [from] is [NULL], [data_null] whether [data] is. *)
Definition lz77_ustream_to_memory (from_null data_null : bool) (size can_realloc : Z)
  (alloc_ok : bool) (heap : Z) : created lz77_ustream :=
  if from_null then Null_EINVAL
  else if negb alloc_ok then Null_alloc
  else Object
    {| us_fd := -1; us_data := []; us_size := if data_null then 0 else u32 size;
       us_end := 0; us_can_realloc := u8 can_realloc; us_is_input := 0;
       us_window := 0; us_window_maxsize := 0; us_window_currsize := 0;
       us_window_nbits := 0; us_lookahead := 0; us_lookahead_maxsize := 0;
       us_lookahead_currsize := 0; us_tree := [];
       us_length_encoder := zero_encoder; us_processed_bytes := 0;
       us_file := []; us_heap := heap |}.


(** ** cstream_internal.h: the compressed side

    [cs_data] holds the valid bytes of the buffer; [cs_pos] and [cs_end]
    count bits.  [cs_heap] is the largest block [realloc] can deliver.
    [cs_file] holds the bytes behind the descriptor: those not yet read
    (input stream) or those written so far (output stream).  The
    descriptor may fail, and it may transfer fewer bytes than it is asked
    for, as a pipe or a socket does: [cs_os] lists what it does at the
    calls of [read] and [write] to come.  A negative entry makes the call
    return -1; any other entry is the most bytes the call transfers; past
    the end of [cs_os] every call transfers all it can. *)

Record lz77_cstream := {
  cs_fd : Z;
  cs_data : list Z;
  cs_size : Z;
  cs_pos : Z;
  cs_end : Z;
  cs_cached : Z;
  cs_cached_nbits : Z;
  cs_can_realloc : Z;
  cs_is_input : Z;
  cs_window_maxsize : Z;
  cs_lookahead_maxsize : Z;
  cs_processed_bits : Z;
  cs_file : list Z;
  cs_os : list Z;
  cs_heap : Z
}.

(** ** tree.c, continued: search and insertion *)

Definition lz77_tree_init (u : lz77_ustream) : outcome lz77_ustream :=
  t <- wr (us_tree u) (us_window_maxsize u)
         {| parent := UNUSED; smaller := UNUSED; larger := UNUSED |} ;;
  Ret (set_us_tree u t).

(** The inner loop of [lz77_find_and_add]:
    [while (i < lookahead_currsize) { delta = lookahead[i] - window[k + i];
       if (delta != 0) break; i++; }]
    started with [n] iterations to go; [la] and [wk] are the offsets of
    [lookahead] and of [window + k].  It returns [i] and [delta].  ([i]
    never exceeds [lookahead_currsize], so it does not wrap.) *)
Fixpoint compare_loop (n : nat) (d : list Z) (la wk i : Z) : outcome (Z * Z) :=
  match n with
  | O => Ret (i, 0)
  | S n' =>
      a <- rd d (la + i) ;;
      b <- rd d (wk + i) ;;
      let delta := a - b in
      if negb (delta =? 0) then Ret (i, delta)
      else compare_loop n' d la wk (i + 1)
  end.

Definition child_of (n : lz77_tree) (delta : Z) : Z :=
  if 0 <? delta then larger n else smaller n.

Definition wr_child (t : list lz77_tree) (i delta v : Z) : outcome (list lz77_tree) :=
  if 0 <? delta then wr_larger t i v else wr_smaller t i v.

(** The outer [while (1)] of [lz77_find_and_add]; the result is
    [(longest, *offset, tree)]. *)
Fixpoint find_and_add_loop (fuel : nat) (u : lz77_ustream) (curr begin : Z)
  (t : list lz77_tree) (test longest offset : Z) : outcome (Z * Z * list lz77_tree) :=
  match fuel with
  | O => Stop OutOfFuel
  | S fuel' =>
      let k := test - begin in
      let k := if k <? 0 then k + us_window_maxsize u else k in
      '(i, delta) <- compare_loop (Z.to_nat (us_lookahead_currsize u)) (us_data u)
                       (us_lookahead u) (us_window u + k) 0 ;;
      let found := longest <? i in
      let offset := if found then u16 k else offset in
      let longest := if found then i else longest in
      if found && (longest =? us_lookahead_currsize u) then
        (* a match for the whole look-ahead buffer: replace the old node *)
        if negb (test =? curr) then
          t <- lz77_tree_delete_node t curr ;;
          t <- lz77_tree_replace_node t test curr ;;
          Ret (longest, offset, t)
        else Ret (longest, offset, t)
      else
        assert (negb (delta =? 0)) ;;;
        n <- rd t test ;;
        if child_of n delta =? UNUSED then
          if test =? curr then Ret (longest, offset, t)
          else
            c <- rd t curr ;;
            t <- (if negb (parent c =? UNUSED) then lz77_tree_delete_node t curr
                  else Ret t) ;;
            n <- rd t test ;;
            if child_of n delta =? UNUSED then
              t <- wr_child t test delta curr ;;
              t <- wr_parent t curr test ;;
              t <- wr_larger t curr UNUSED ;;
              t <- wr_smaller t curr UNUSED ;;
              Ret (longest, offset, t)
            else find_and_add_loop fuel' u curr begin t (child_of n delta) longest offset
        else find_and_add_loop fuel' u curr begin t (child_of n delta) longest offset
  end.

(** [lz77_find_and_add(ustream, curr, &offset)]; [offset] is the content of
    the cell before the call.  Every iteration of the outer loop moves one
    level down the tree, which has [window_maxsize] slots. *)
Definition lz77_find_and_add (u : lz77_ustream) (curr offset : Z)
  : outcome (Z * Z * lz77_ustream) :=
  assert ((0 <=? curr) && (curr <? us_window_maxsize u)) ;;;
  root <- rd (us_tree u) (us_window_maxsize u) ;;
  let test := larger root in
  let begin := Z.rem (us_window u) (us_window_maxsize u) in
  '(longest, offset, t) <-
     find_and_add_loop (2 * length (us_tree u) + 2) u curr begin (us_tree u) test 0 offset ;;
  Ret (longest, offset, set_us_tree u t).

(** ** ustream.c, continued *)

(** [read(fd, buf, count)] on a plain file: the bytes delivered and the
    rest of the file. *)
Definition file_read (file : list Z) (count : Z) : list Z * list Z :=
  (firstn (Z.to_nat count) file, skipn (Z.to_nat count) file).

(** [ustream_open(ustream)]; [from] is the compressed stream the output
    stream was created from ([ustream->from]). *)
Definition ustream_open (u : lz77_ustream) (from : lz77_cstream) : outcome lz77_ustream :=
  assert ((us_window_currsize u =? 0) && (us_lookahead_currsize u =? 0)) ;;;
  assert (negb (us_is_input u =? 0) || (us_window_nbits u =? 0)) ;;;
  (if us_is_input u =? 0 then
     assert (LZ77_MIN_WINDOW_SIZE <=? cs_window_maxsize from) ;;;
     assert (LZ77_MIN_LOOKAHEAD_SIZE <=? cs_lookahead_maxsize from)
   else Ret tt) ;;;
  u <- (if negb (us_is_input u =? 0) then
          (* Fill the look-ahead buffer. *)
          let u :=
            if 0 <=? us_fd u then
              let '(chunk, rest) := file_read (us_file u) (us_size u) in
              let readcount := Z.of_nat (length chunk) in
              let u := set_us_buffer u chunk (us_size u) (u32 readcount) rest in
              set_us_view u (us_window u) (us_window_currsize u) (us_lookahead u)
                (u16 (us_end u))
            else
              set_us_view u (us_window u) (us_window_currsize u) (us_lookahead u)
                (u16 (us_size u)) in
          let u :=
            if us_lookahead_maxsize u <? us_lookahead_currsize u then
              set_us_view u (us_window u) (us_window_currsize u) (us_lookahead u)
                (us_lookahead_maxsize u)
            else u in
          lz77_tree_init u
        else
          let w := cs_window_maxsize from in
          let u := set_us_params u w (u8 (number_of_bits (w - 1))) (cs_lookahead_maxsize from)
                     (us_length_encoder u) in
          if 0 <=? us_fd u then
            let data_size := us_window_maxsize u * 10 in
            if us_heap u <? data_size then Stop Negative
            else
              let u := set_us_buffer u [] (u32 data_size) (us_end u) (us_file u) in
              Ret (set_us_view u 0 (us_window_currsize u) (us_lookahead u)
                     (us_lookahead_currsize u))
          else Ret u) ;;
  let min_match_length := LZ77_TYPE_BITS + us_window_nbits u + LZ77_TINYHUFF_MIN_CODE_BITS in
  let min_match_length := Z.quot min_match_length LZ77_SYMBOL_BITS + 1 in
  Ret (set_us_params u (us_window_maxsize u) (us_window_nbits u) (us_lookahead_maxsize u)
         (tinyhuff_init min_match_length (us_lookahead_maxsize u))).

Definition ustream_close (u : lz77_ustream) : outcome lz77_ustream :=
  if (0 <=? us_fd u) && (us_is_input u =? 0) then
    (* Flush the data buffer when in output mode. *)
    flushed <- slice (us_data u) 0 (us_end u) ;;
    Ret (set_us_buffer u [] (us_size u) 0 (us_file u ++ flushed))
  else Ret u.

(** The inner [while] of [rotate_tree_array]:
    [while (i + shift < size) { v[i] = v[i + shift]; i += shift; }];
    [base] is the offset of [v] in the tree array. *)
Fixpoint rotate_chain (fuel : nat) (v : list lz77_tree) (base size shift i : Z)
  : outcome (list lz77_tree * Z) :=
  match fuel with
  | O => Stop OutOfFuel
  | S fuel' =>
      if i + shift <? size then
        a <- rd v (base + i + shift) ;;
        v <- wr v (base + i) a ;;
        rotate_chain fuel' v base size shift (i + shift)
      else Ret (v, i)
  end.

(** [for (offset = 0; offset < shift; offset++) { ... }] with [n]
    iterations to go. *)
Fixpoint rotate_offsets (n : nat) (v : list lz77_tree) (base size shift offset : Z)
  : outcome (list lz77_tree) :=
  match n with
  | O => Ret v
  | S n' =>
      a <- rd v (base + offset) ;;
      '(v, i) <- rotate_chain (S (Z.to_nat size)) v base size shift offset ;;
      v <- wr v (base + i) a ;;
      rotate_offsets n' v base size shift (offset + 1)
  end.

(** [rotate_tree_array(v, size, shift)]: left-rotates the tree array. *)
Fixpoint rotate_tree_array (fuel : nat) (v : list lz77_tree) (base size shift : Z)
  : outcome (list lz77_tree) :=
  match fuel with
  | O => Stop OutOfFuel
  | S fuel' =>
      if size <=? 1 then Ret v
      else
        defined (negb (size =? 0)) ;;;
        if Z.rem shift size =? 0 then Ret v
        else
          v <- rotate_offsets (Z.to_nat shift) v base size shift 0 ;;
          defined (negb (shift =? 0)) ;;;
          rotate_tree_array fuel' v (base + size - shift) shift (shift - Z.rem size shift)
  end.

Definition shift_index (size shift i : Z) : Z :=
  if i - shift <? 0 then u16 (size + i - shift) else u16 (i - shift).

(** One iteration of the loop of [shift_tree_indices]. *)
Definition shift_slot (size shift : Z) (n : lz77_tree) : lz77_tree :=
  let n := if negb (parent n =? UNUSED) && negb (parent n =? size)
           then set_parent n (shift_index size shift (parent n)) else n in
  let n := if negb (smaller n =? UNUSED)
           then set_smaller n (shift_index size shift (smaller n)) else n in
  if negb (larger n =? UNUSED)
  then set_larger n (shift_index size shift (larger n)) else n.

(** [shift_tree_indices(v, size, shift)]: slots [0 .. size] are updated
    one by one, each from its own fields only. *)
Definition shift_tree_indices (v : list lz77_tree) (size shift : Z)
  : outcome (list lz77_tree) :=
  defined (size <? Z.of_nat (length v)) ;;;
  Ret (map (shift_slot size shift) (firstn (Z.to_nat (size + 1)) v)
       ++ skipn (Z.to_nat (size + 1)) v).

(** The first call of [ustream_find_and_advance]: slot 0 becomes the right
    child of the root, the other slots are cleared. *)
Fixpoint clear_slots (n : nat) (t : list lz77_tree) (i : Z) : outcome (list lz77_tree) :=
  match n with
  | O => Ret t
  | S n' =>
      t <- wr_parent t i UNUSED ;;
      t <- wr_larger t i UNUSED ;;
      t <- wr_smaller t i UNUSED ;;
      clear_slots n' t (i + 1)
  end.

Definition seed_tree (u : lz77_ustream) : outcome lz77_ustream :=
  let w := us_window_maxsize u in
  t <- wr_larger (us_tree u) w 0 ;;
  t <- wr_parent t 0 w ;;
  t <- wr_larger t 0 UNUSED ;;
  t <- wr_smaller t 0 UNUSED ;;
  t <- clear_slots (Z.to_nat (w - 1)) t 1 ;;
  Ret (set_us_tree u t).

(** The refill of a descriptor-backed input stream inside the loop of
    [ustream_find_and_advance]: the window and the look-ahead buffer move
    to the beginning of the data buffer and the tree array is rotated. *)
Definition refill (u : lz77_ustream) : outcome lz77_ustream :=
  assert (us_window_currsize u =? us_window_maxsize u) ;;;
  let lookah_size := us_end u - us_lookahead u in
  let data_size := us_window_maxsize u + lookah_size in
  moved <- slice (us_data u) (us_window u) data_size ;;
  let max_count := us_size u - data_size in
  let '(chunk, rest) := file_read (us_file u) max_count in
  let readcount := Z.of_nat (length chunk) in
  (* Rotate the tree array. *)
  let x := Z.rem (us_window u) (us_window_maxsize u) in
  t <- rotate_tree_array (S (Z.to_nat (us_window_maxsize u))) (us_tree u) 0
         (us_window_maxsize u) x ;;
  t <- shift_tree_indices t (us_window_maxsize u) x ;;
  (* Update status variables. *)
  let u := set_us_tree u t in
  let u := set_us_buffer u (moved ++ chunk) (us_size u) (u32 (data_size + readcount)) rest in
  let u := set_us_view u 0 (us_window_currsize u) (us_window_maxsize u)
             (u16 (lookah_size + readcount)) in
  Ret (if us_lookahead_maxsize u <? us_lookahead_currsize u
       then set_us_view u (us_window u) (us_window_currsize u) (us_lookahead u)
              (us_lookahead_maxsize u)
       else u).

(** The [for (int i = 0; i < count; i++)] loop of
    [ustream_find_and_advance], with [n] iterations to go. *)
Fixpoint advance_loop (n : nat) (u : lz77_ustream) (i count : Z) : outcome lz77_ustream :=
  match n with
  | O => Ret u
  | S n' =>
      u <- (if i <? count - 1 then
              let curr := Z.rem (us_lookahead u + 1) (us_window_maxsize u) in
              t <- lz77_tree_delete_node (us_tree u) curr ;;
              Ret (set_us_tree u t)
            else Ret u) ;;
      (* Update the sliding window. *)
      let u := if us_window_currsize u =? us_window_maxsize u
               then set_us_view u (us_window u + 1) (us_window_currsize u)
                      (us_lookahead u) (us_lookahead_currsize u)
               else set_us_view u (us_window u) (u16 (us_window_currsize u + 1))
                      (us_lookahead u) (us_lookahead_currsize u) in
      assert (us_window_currsize u <=? us_window_maxsize u) ;;;
      assert (us_window u + us_window_currsize u <=? us_size u) ;;;
      (* Shift the look-ahead buffer. *)
      let u := set_us_view u (us_window u) (us_window_currsize u)
                 (us_lookahead u + 1) (us_lookahead_currsize u) in
      let data_end := us_end u in
      let lkah_end := us_lookahead u + us_lookahead_currsize u in
      u <- (if data_end <? lkah_end then
              assert (lkah_end =? data_end + 1) ;;;
              let eof := us_lookahead_currsize u <? us_lookahead_maxsize u in
              let canmove := 0 <? us_window u in
              u <- (if (0 <=? us_fd u) && negb eof && canmove then refill u
                    else Ret (set_us_view u (us_window u) (us_window_currsize u)
                                (us_lookahead u) (u16 (us_lookahead_currsize u - 1)))) ;;
              assert (us_lookahead_currsize u <=? us_lookahead_maxsize u) ;;;
              Ret u
            else Ret u) ;;
      u <- (if i <? count - 1 then
              let curr := Z.rem (us_lookahead u) (us_window_maxsize u) in
              '(_, _, u) <- lz77_find_and_add u curr 0 ;;
              Ret u
            else Ret u) ;;
      advance_loop n' u (i + 1) count
  end.

(** [ustream_find_and_advance(ustream, &offset, &length, &next)].  The
    three cells are passed in and returned; the first component of the
    result is the returned count (0: end of the input). *)
Definition ustream_find_and_advance (u : lz77_ustream) (offset length_ next : Z)
  : outcome (Z * (Z * Z * Z) * lz77_ustream) :=
  if us_lookahead_currsize u =? 0 then Ret (0, (offset, length_, next), u)
  else
    '(length_, offset, u) <-
       (if us_window_currsize u =? 0 then
          u <- seed_tree u ;; Ret (0, offset, u)
        else
          let curr := Z.rem (us_lookahead u) (us_window_maxsize u) in
          lz77_find_and_add u curr offset) ;;
    let can_encode := tinyhuff_can_encode (us_length_encoder u) length_ in
    '(count, offset, length_, next) <-
       (if (length_ =? 0) || negb can_encode then
          b <- rd (us_data u) (us_lookahead u) ;;
          Ret (1, 0, 0, b)
        else Ret (length_, offset, length_, next)) ;;
    assert (count <=? us_lookahead_currsize u) ;;;
    u <- advance_loop (Z.to_nat count) u 0 count ;;
    Ret (count, (offset, length_, next),
         set_us_processed_bytes u (u64 (us_processed_bytes u + count))).

(** The byte-by-byte copy of [ustream_save]:
    [for (i = 0; i < length; i++) data[end + i] = window[offset + i];]
    with [n] iterations to go; [dst] and [src] are the offsets of
    [data + end + i] and of [window + offset + i]. *)
Fixpoint copy_bytes (n : nat) (d : list Z) (dst src : Z) : outcome (list Z) :=
  match n with
  | O => Ret d
  | S n' =>
      b <- rd d src ;;
      d <- store d dst b ;;
      copy_bytes n' d (dst + 1) (src + 1)
  end.

(** The first part of [ustream_save]: when the buffer cannot take [count]
    more bytes, the bytes before the window are written to the descriptor
    and the window moves to the start of the buffer, or the buffer is
    reallocated. *)
Definition ustream_make_room (u : lz77_ustream) (count : Z) : outcome lz77_ustream :=
  if us_size u <? u32 (us_end u + count) then
    if 0 <=? us_fd u then
      assert (us_window_maxsize u =? us_window_currsize u) ;;;
      flushed <- slice (us_data u) 0 (us_window u) ;;
      kept <- slice (us_data u) (us_window u) (us_window_maxsize u) ;;
      let u := set_us_buffer u kept (us_size u) (us_window_maxsize u)
                 (us_file u ++ flushed) in
      Ret (set_us_view u 0 (us_window_currsize u) (us_lookahead u)
             (us_lookahead_currsize u))
    else if us_can_realloc u =? 0 then Stop Negative
    else
      let new_size := u32 (us_end u + count) in
      let new_size := if new_size <? 1024 then 1024 else new_size in
      (* [if (new_size < size * 1.1) new_size = size * 1.1;] *)
      let new_size := if new_size * 10 <? us_size u * 11
                      then u32 (us_size u * 11 / 10) else new_size in
      if us_heap u <? new_size then Stop Negative
      else Ret (set_us_buffer u (us_data u) new_size (us_end u) (us_file u))
  else Ret u.

(** The copy of [ustream_save]: the symbol, the phrase copied at once
    ([memcpy]) or byte by byte.  The result is the buffer and the number
    of bytes written. *)
Definition ustream_copy (u : lz77_ustream) (offset length_ next : Z)
  : outcome (list Z * Z) :=
  if length_ =? 0 then
    d <- store (us_data u) (us_end u) next ;;
    Ret (d, u16 (length_ + 1))
  else if us_window u + offset + length_ <=? us_end u then
    bytes <- slice (us_data u) (us_window u + offset) length_ ;;
    d <- store_bytes (us_data u) (us_end u) bytes ;;
    Ret (d, length_)
  else
    (* Copy one byte at a time, since source and destination overlap. *)
    d <- copy_bytes (Z.to_nat length_) (us_data u) (us_end u) (us_window u + offset) ;;
    Ret (d, length_).

(** The slide of the window by [length] bytes in [ustream_save]. *)
Definition ustream_slide (u : lz77_ustream) (length_ : Z) : lz77_ustream :=
  if us_window_currsize u =? us_window_maxsize u then
    set_us_view u (us_window u + length_) (us_window_currsize u)
      (us_lookahead u) (us_lookahead_currsize u)
  else
    let max_increment := us_window_maxsize u - us_window_currsize u in
    if length_ <=? max_increment then
      set_us_view u (us_window u) (u16 (us_window_currsize u + length_))
        (us_lookahead u) (us_lookahead_currsize u)
    else
      set_us_view u (us_window u + (length_ - max_increment)) (us_window_maxsize u)
        (us_lookahead u) (us_lookahead_currsize u).

(** [ustream_save(ustream, offset, length, next)]. *)
Definition ustream_save (u : lz77_ustream) (offset length_ next : Z) : outcome lz77_ustream :=
  assert ((length_ =? 0) || (offset <=? us_window_currsize u)) ;;;
  assert (us_window u + us_window_currsize u =? us_end u) ;;;
  let count := if length_ =? 0 then 1 else length_ in
  u <- ustream_make_room u count ;;
  (* Check that the offset is strictly inside the window. *)
  assert ((length_ =? 0) || (us_window u + offset <? us_end u)) ;;;
  r <- ustream_copy u offset length_ next ;;
  let d := fst r in
  let length_ := snd r in
  (* Update the sliding window. *)
  let u := ustream_slide u length_ in
  assert (us_window_currsize u <=? us_window_maxsize u) ;;;
  assert (us_window u + us_window_currsize u <=? us_size u) ;;;
  let u := set_us_buffer u d (us_size u) (u32 (us_end u + length_)) (us_file u) in
  Ret (set_us_processed_bytes u (u64 (us_processed_bytes u + length_))).

(** ** bit.c *)

(** [bit_get(bits, pos)]; [pos] is an [int]. *)
Definition bit_get (bits : list Z) (pos : Z) : outcome Z :=
  b <- rd bits (Z.quot pos 8) ;;
  Ret (Z.land (Z.shiftr b (7 - Z.rem pos 8)) 1).

(** [bit_set(bits, pos, state)]. *)
Definition bit_set (bits : list Z) (pos state : Z) : outcome (list Z) :=
  b <- rd bits (Z.quot pos 8) ;;
  if negb (state =? 0)
  then wr bits (Z.quot pos 8) (u8 (Z.lor b (Z.shiftr 128 (Z.rem pos 8))))
  else wr bits (Z.quot pos 8) (u8 (Z.land b (Z.lnot (Z.shiftr 128 (Z.rem pos 8))))).

(** ** cstream.c *)

Definition set_cs_buffer (c : lz77_cstream) (d : list Z) (sz p e : Z) (f : list Z)
  : lz77_cstream :=
  {| cs_fd := cs_fd c; cs_data := d; cs_size := sz; cs_pos := p;
     cs_end := e; cs_cached := cs_cached c;
     cs_cached_nbits := cs_cached_nbits c; cs_can_realloc := cs_can_realloc c;
     cs_is_input := cs_is_input c; cs_window_maxsize := cs_window_maxsize c;
     cs_lookahead_maxsize := cs_lookahead_maxsize c;
     cs_processed_bits := cs_processed_bits c; cs_file := f;
     cs_os := cs_os c; cs_heap := cs_heap c |}.

Definition set_cs_cache (c : lz77_cstream) (cached nbits : Z) : lz77_cstream :=
  {| cs_fd := cs_fd c; cs_data := cs_data c; cs_size := cs_size c;
     cs_pos := cs_pos c; cs_end := cs_end c; cs_cached := cached;
     cs_cached_nbits := nbits; cs_can_realloc := cs_can_realloc c;
     cs_is_input := cs_is_input c; cs_window_maxsize := cs_window_maxsize c;
     cs_lookahead_maxsize := cs_lookahead_maxsize c;
     cs_processed_bits := cs_processed_bits c; cs_file := cs_file c;
     cs_os := cs_os c; cs_heap := cs_heap c |}.

Definition set_cs_params (c : lz77_cstream) (w l : Z) : lz77_cstream :=
  {| cs_fd := cs_fd c; cs_data := cs_data c; cs_size := cs_size c;
     cs_pos := cs_pos c; cs_end := cs_end c; cs_cached := cs_cached c;
     cs_cached_nbits := cs_cached_nbits c; cs_can_realloc := cs_can_realloc c;
     cs_is_input := cs_is_input c; cs_window_maxsize := w;
     cs_lookahead_maxsize := l;
     cs_processed_bits := cs_processed_bits c; cs_file := cs_file c;
     cs_os := cs_os c; cs_heap := cs_heap c |}.

Definition set_cs_processed_bits (c : lz77_cstream) (n : Z) : lz77_cstream :=
  {| cs_fd := cs_fd c; cs_data := cs_data c; cs_size := cs_size c;
     cs_pos := cs_pos c; cs_end := cs_end c; cs_cached := cs_cached c;
     cs_cached_nbits := cs_cached_nbits c; cs_can_realloc := cs_can_realloc c;
     cs_is_input := cs_is_input c; cs_window_maxsize := cs_window_maxsize c;
     cs_lookahead_maxsize := cs_lookahead_maxsize c;
     cs_processed_bits := n; cs_file := cs_file c;
     cs_os := cs_os c; cs_heap := cs_heap c |}.

(** One call of [read] or [write] is over: the descriptor goes on with the
    rest of [cs_os]. *)
Definition set_cs_os (c : lz77_cstream) (os : list Z) : lz77_cstream :=
  {| cs_fd := cs_fd c; cs_data := cs_data c; cs_size := cs_size c;
     cs_pos := cs_pos c; cs_end := cs_end c; cs_cached := cs_cached c;
     cs_cached_nbits := cs_cached_nbits c; cs_can_realloc := cs_can_realloc c;
     cs_is_input := cs_is_input c; cs_window_maxsize := cs_window_maxsize c;
     cs_lookahead_maxsize := cs_lookahead_maxsize c;
     cs_processed_bits := cs_processed_bits c; cs_file := cs_file c;
     cs_os := os; cs_heap := cs_heap c |}.

(** What a call of [read] or [write] returns when the descriptor can
    transfer [avail] bytes at most: for [write] the bytes it is given, for
    [read] the bytes left in the file, as far as the buffer takes them. *)
Definition transferred (os : list Z) (avail : Z) : Z :=
  match os with
  | [] => avail
  | k :: _ => if k <? 0 then -1 else Z.min k avail
  end.

(** [lz77_cstream_get_processed_bits(cstream)] for a non-[NULL] stream. *)
Definition lz77_cstream_get_processed_bits (c : lz77_cstream) : Z :=
  u64 (cs_processed_bits c + cs_cached_nbits c).

(** [lz77_cstream_from_memory(data, size)]. *)
Definition lz77_cstream_from_memory (data : option (list Z)) (size : Z)
  (alloc_ok : bool) (heap : Z) : created lz77_cstream :=
  match data with
  | None => Null_EINVAL
  | Some d =>
      if negb alloc_ok then Null_alloc
      else Object
        {| cs_fd := -1; cs_data := d; cs_size := u32 size; cs_pos := 0;
           cs_end := u64 (u32 size * 8); cs_cached := 0; cs_cached_nbits := 0;
           cs_can_realloc := 0; cs_is_input := 1; cs_window_maxsize := 0;
           cs_lookahead_maxsize := 0; cs_processed_bits := 0; cs_file := [];
           cs_os := []; cs_heap := heap |}
  end.

(** [lz77_cstream_from_descriptor(fd)]; [file] is the content behind the
    descriptor and [os] what the descriptor does when it is read. *)
Definition lz77_cstream_from_descriptor (fd : Z) (file os : list Z)
  (alloc_ok : bool) (heap : Z) : created lz77_cstream :=
  if fd <? 0 then Null_EINVAL
  else if negb alloc_ok then Null_alloc
  else Object
    {| cs_fd := fd; cs_data := []; cs_size := 1024; cs_pos := 0; cs_end := 0;
       cs_cached := 0; cs_cached_nbits := 0; cs_can_realloc := 1;
       cs_is_input := 1; cs_window_maxsize := 0; cs_lookahead_maxsize := 0;
       cs_processed_bits := 0; cs_file := file; cs_os := os; cs_heap := heap |}.

(** [lz77_cstream_to_descriptor(from, fd)]; [from = None] is [NULL], and
    [os] is what the descriptor does when it is written. *)
Definition lz77_cstream_to_descriptor (from : option lz77_ustream) (fd : Z)
  (os : list Z) (alloc_ok : bool) (heap : Z) : created lz77_cstream :=
  match from with
  | None => Null_EINVAL
  | Some u =>
      if fd <? 0 then Null_EINVAL
      else if negb alloc_ok then Null_alloc
      else Object
        {| cs_fd := fd; cs_data := []; cs_size := 1024; cs_pos := 0; cs_end := 0;
           cs_cached := 0; cs_cached_nbits := 0; cs_can_realloc := 1;
           cs_is_input := 0; cs_window_maxsize := us_window_maxsize u;
           cs_lookahead_maxsize := us_lookahead_maxsize u;
           cs_processed_bits := 0; cs_file := []; cs_os := os; cs_heap := heap |}
  end.

(** [lz77_cstream_to_memory(from, data, size, can_realloc)]. *)
Definition lz77_cstream_to_memory (from : option lz77_ustream) (data_null : bool)
  (size can_realloc : Z) (alloc_ok : bool) (heap : Z) : created lz77_cstream :=
  match from with
  | None => Null_EINVAL
  | Some u =>
      if negb alloc_ok then Null_alloc
      else Object
        {| cs_fd := -1; cs_data := []; cs_size := if data_null then 0 else u32 size;
           cs_pos := 0; cs_end := 0; cs_cached := 0; cs_cached_nbits := 0;
           cs_can_realloc := u8 can_realloc; cs_is_input := 0;
           cs_window_maxsize := us_window_maxsize u;
           cs_lookahead_maxsize := us_lookahead_maxsize u;
           cs_processed_bits := 0; cs_file := []; cs_os := []; cs_heap := heap |}
  end.

(** The loop that writes the buffer to the descriptor, in [cstream_write]
    and in [cstream_close]:
    [while (writecount != count) { writecount = write(fd, data, count);
    if (writecount < 0) return -1; data += writecount; count -= writecount; }].
    [from] is the offset of [data] in the buffer.  The loop ends as soon as
    a call of [write] returns as many bytes as are left after it.  Every
    round uses up an entry of [cs_os]; once there is none left, the next
    call writes all that is left and the one after it writes nothing. *)
Fixpoint flush_loop (fuel : nat) (c : lz77_cstream) (from count writecount : Z)
  : outcome (Z * lz77_cstream) :=
  match fuel with
  | O => Stop OutOfFuel
  | S fuel' =>
      if writecount =? count then Ret (0, c)
      else
        let writecount := transferred (cs_os c) count in
        let c := set_cs_os c (tl (cs_os c)) in
        if writecount <? 0 then Ret (-1, c)
        else
          sent <- slice (cs_data c) from writecount ;;
          let c := set_cs_buffer c (cs_data c) (cs_size c) (cs_pos c) (cs_end c)
                     (cs_file c ++ sent) in
          flush_loop fuel' c (from + writecount) (u32 (count - writecount)) writecount
  end.

(** The first part of [cstream_write]: when the buffer cannot take
    [nbytes] more bytes, it is flushed to the descriptor or reallocated.
    The result is 0, or -1 when [cstream_write] returns -1 here. *)
Definition cstream_make_room (c : lz77_cstream) (nbytes : Z) : outcome (Z * lz77_cstream) :=
  if cs_size c <? cs_end c / 8 + nbytes then
    if 0 <=? cs_fd c then
      r <- flush_loop (length (cs_os c) + 3) c 0 (u32 (cs_end c / 8)) 0 ;;
      if fst r <? 0 then Ret (-1, snd r)
      else
        let c := snd r in
        Ret (0, set_cs_buffer c [] (cs_size c) (cs_pos c) 0 (cs_file c))
    else if cs_can_realloc c =? 0 then Ret (-1, c)
    else
      let new_size := u32 (cs_end c / 8 + nbytes) in
      let new_size := if new_size <? 1024 then 1024 else new_size in
      (* [if (new_size < size * 1.1) new_size = size * 1.1;] *)
      let new_size := if new_size * 10 <? cs_size c * 11
                      then u32 (cs_size c * 11 / 10) else new_size in
      if cs_heap c <? new_size
      then Ret (-1, set_cs_buffer c [] (cs_size c) (cs_pos c) (cs_end c) (cs_file c))
      else Ret (0, set_cs_buffer c (cs_data c) new_size (cs_pos c) (cs_end c) (cs_file c))
  else Ret (0, c).

(** [cstream_write(cstream, buffer, nbytes)] with [buffer] holding the
    [nbytes] bytes [bytes].  The result is the returned value (0 or -1)
    and the stream. *)
Definition cstream_write (c : lz77_cstream) (bytes : list Z) : outcome (Z * lz77_cstream) :=
  let nbytes := u32 (Z.of_nat (length bytes)) in
  assert (cs_is_input c =? 0) ;;;
  (* We should have written multiple of bytes to the output stream. *)
  assert (Z.rem (cs_end c) 8 =? 0) ;;;
  r <- cstream_make_room c nbytes ;;
  if fst r <? 0 then Ret r
  else
    let c := snd r in
    assert (cs_end c / 8 + nbytes <=? cs_size c) ;;;
    d <- store_bytes (cs_data c) (cs_end c / 8) bytes ;;
    let c := set_cs_buffer c d (cs_size c) (cs_pos c) (u64 (cs_end c + nbytes * 8))
               (cs_file c) in
    Ret (0, set_cs_processed_bits c (u64 (cs_processed_bits c + nbytes * 8))).

(** The first [count] bytes of [htobe64(cached)] as they lie in memory. *)
Definition be64_bytes (cached : Z) (count : Z) : list Z :=
  map (fun j => Z.land (Z.shiftr cached (56 - 8 * Z.of_nat j)) 255)
      (seq 0 (Z.to_nat count)).

(** The first part of [cstream_write_bits]: when the cache cannot take
    [nbits] more bits, its whole bytes are written out. *)
Definition cstream_flush_cache (c : lz77_cstream) (nbits : Z) : outcome (Z * lz77_cstream) :=
  if 64 <? cs_cached_nbits c + nbits then
    (* Be sure we will write at least one byte. *)
    assert (1 <? cs_cached_nbits c / 8) ;;;
    let count := cs_cached_nbits c / 8 in
    r <- cstream_write c (be64_bytes (cs_cached c) count) ;;
    let c := snd r in
    (* Force clearing of register also when it is shifted by 64 bits. *)
    let cached := u64 (Z.shiftl (cs_cached c) 1) in
    defined (cs_cached_nbits c / 8 * 8 - 1 <? 64) ;;;
    let cached := u64 (Z.shiftl cached (cs_cached_nbits c / 8 * 8 - 1)) in
    Ret (fst r, set_cs_cache c cached (u8 (cs_cached_nbits c mod 8)))
  else Ret (0, c).

(** [cstream_write_bits(cstream, &reg, startbit, nbits)]. *)
Definition cstream_write_bits (c : lz77_cstream) (reg startbit nbits : Z)
  : outcome (Z * lz77_cstream) :=
  assert (startbit + nbits <=? 64) ;;;
  assert (cs_is_input c =? 0) ;;;
  r <- cstream_flush_cache c nbits ;;
  let result := fst r in
  let c := snd r in
  let value_ := u64 reg in
  defined ((0 <=? 64 - startbit - nbits) && (64 - startbit - nbits <? 64)) ;;;
  let value_ := Z.shiftr value_ (64 - startbit - nbits) in
  (* [(1 << nbits) - 1] is computed in [int]. *)
  defined ((0 <=? nbits) && (nbits <? 31)) ;;;
  let value_ := Z.land value_ (Z.shiftl 1 nbits - 1) in
  defined ((0 <=? 64 - nbits - cs_cached_nbits c) && (64 - nbits - cs_cached_nbits c <? 64)) ;;;
  let value_ := u64 (Z.shiftl value_ (64 - nbits - cs_cached_nbits c)) in
  Ret (result, set_cs_cache c (Z.lor (cs_cached c) value_) (u8 (cs_cached_nbits c + nbits))).

(** [cstream_close(cstream)]: the returned value (0 or -1) and the stream;
    the value returned by [cstream_write] is ignored. *)
Definition cstream_close (c : lz77_cstream) : outcome (Z * lz77_cstream) :=
  c <- (if 0 <? cs_cached_nbits c then
          let nbytes := (cs_cached_nbits c + 7) / 8 in
          r <- cstream_write c (be64_bytes (cs_cached c) nbytes) ;;
          Ret (set_cs_cache (snd r) (cs_cached (snd r)) 0)
        else Ret c) ;;
  if (0 <=? cs_fd c) && (cs_is_input c =? 0) then
    (* Flush the data buffer when in output mode. *)
    r <- flush_loop (length (cs_os c) + 3) c 0 (u32 ((cs_end c + 7) / 8)) 0 ;;
    if fst r <? 0 then Ret (-1, snd r)
    else
      let c := snd r in
      Ret (0, set_cs_buffer c [] (cs_size c) (cs_pos c) 0 (cs_file c))
  else Ret (0, c).

(** The copy loop of [cstream_peek]:
    [for (; i < nbits && pos + i < end; i++)] with [n] iterations to go. *)
Fixpoint peek_loop (n : nat) (c : lz77_cstream) (buffer : list Z) (startbit i : Z)
  : outcome (Z * list Z) :=
  match n with
  | O => Ret (i, buffer)
  | S n' =>
      if cs_pos c + i <? cs_end c then
        defined (cs_pos c + i <? 2 ^ 31) ;;;
        b <- bit_get (cs_data c) (cs_pos c + i) ;;
        buffer <- (if negb (b =? 0) then bit_set buffer (startbit + i) 1
                   else b' <- bit_get buffer (startbit + i) ;;
                        assert (b' =? 0) ;;; Ret buffer) ;;
        peek_loop n' c buffer startbit (i + 1)
      else Ret (i, buffer)
  end.

(** [cstream_peek(cstream, buffer, startbit, nbits)]: the number of bits
    copied (or the negative value returned by [read]), the buffer and the
    stream. *)
Definition cstream_peek (c : lz77_cstream) (buffer : list Z) (startbit nbits : Z)
  : outcome (Z * list Z * lz77_cstream) :=
  assert (negb (cs_is_input c =? 0)) ;;;
  r <- (if (cs_end c <? cs_pos c + nbits) && (0 <=? cs_fd c) then
          (* Move bytes between pos and end at the beginning of the buffer. *)
          let pos_byte := cs_pos c / 8 in
          let end_byte := (cs_end c + 7) / 8 in
          moved <- slice (cs_data c) pos_byte (end_byte - pos_byte) ;;
          let pos' := u64 (cs_pos c - pos_byte * 8) in
          let end' := u64 (cs_end c - pos_byte * 8) in
          (* Try to refill the data buffer. *)
          let end_byte := (end' + 7) / 8 in
          let max_count := cs_size c - end_byte in
          defined (0 <=? max_count) ;;;
          let count := transferred (cs_os c)
                         (Z.min max_count (Z.of_nat (length (cs_file c)))) in
          let c := set_cs_os c (tl (cs_os c)) in
          if count <? 0
          then Ret (count, set_cs_buffer c moved (cs_size c) pos' end' (cs_file c))
          else
            let '(chunk, rest) := file_read (cs_file c) count in
            Ret (0, set_cs_buffer c (moved ++ chunk) (cs_size c) pos'
                      (u64 (end' + count * 8)) rest)
        else Ret (0, c)) ;;
  let c := snd r in
  if fst r <? 0 then Ret (fst r, buffer, c)
  else
    '(i, buffer) <- peek_loop (Z.to_nat nbits) c buffer startbit 0 ;;
    Ret (i, buffer, c).

(** [cstream_consume(cstream, nbits)]. *)
Definition cstream_consume (c : lz77_cstream) (nbits : Z) : outcome (Z * lz77_cstream) :=
  assert (negb (cs_is_input c =? 0)) ;;;
  assert (cs_pos c + nbits <=? cs_end c) ;;;
  let nbits := if cs_end c - cs_pos c <? nbits then u16 (cs_end c - cs_pos c) else nbits in
  let c := set_cs_buffer c (cs_data c) (cs_size c) (u64 (cs_pos c + nbits)) (cs_end c)
             (cs_file c) in
  Ret (nbits, set_cs_processed_bits c (u64 (cs_processed_bits c + nbits))).

(** The [while (1)] of [cstream_read]; a peek returns at most [nbits], and
    the loop goes on only while the count changes. *)
Fixpoint read_loop (fuel : nat) (c : lz77_cstream) (buffer : list Z)
  (startbit nbits i : Z) : outcome (Z * list Z * lz77_cstream) :=
  match fuel with
  | O => Stop OutOfFuel
  | S fuel' =>
      '(ii, buffer, c) <- cstream_peek c buffer startbit nbits ;;
      if ii <=? 0 then Ret (ii, buffer, c)   (* Error or EOF. *)
      else if (ii =? i) || (ii =? nbits) then
        '(_, c) <- cstream_consume c ii ;;
        Ret (ii, buffer, c)
      else read_loop fuel' c buffer startbit nbits ii
  end.

(** [cstream_read(cstream, buffer, startbit, nbits)]. *)
Definition cstream_read (c : lz77_cstream) (buffer : list Z) (startbit nbits : Z)
  : outcome (Z * list Z * lz77_cstream) :=
  assert (negb (cs_is_input c =? 0)) ;;;
  read_loop (Z.to_nat nbits + 2) c buffer startbit nbits 0.

(** The header as it lies in memory ([cstream_header], 12 bytes); the two
    sizes are stored with [htons], high byte first. *)
Definition magic : list Z := [76; 90; 55; 55].   (* "LZ77" *)

Definition header_bytes (w l : Z) : list Z :=
  magic ++ [LZ77PPM_VERSION] ++ [0; 0; 0]
  ++ [Z.shiftr w 8; Z.land w 255] ++ [Z.shiftr l 8; Z.land l 255].

(** [ntohs] of the 16-bit field stored at bytes [i] and [i + 1]. *)
Definition be16_at (bytes : list Z) (i : Z) : outcome Z :=
  hi <- rd bytes i ;;
  lo <- rd bytes (i + 1) ;;
  Ret (hi * 256 + lo).

Definition list_eqb (a b : list Z) : bool :=
  if list_eq_dec Z.eq_dec a b then true else false.

(** [cstream_open(cstream)]: the returned value (0 or -1) and the stream. *)
Definition cstream_open (c : lz77_cstream) : outcome (Z * lz77_cstream) :=
  assert (cs_pos c =? 0) ;;;
  assert ((cs_is_input c =? 0)
          || ((cs_window_maxsize c =? 0) && (cs_lookahead_maxsize c =? 0))) ;;;
  if negb (cs_is_input c =? 0) then
    '(n, header, c) <- cstream_read c (repeat 0 12) 0 (12 * 8) ;;
    if negb (n =? 12 * 8) then Ret (-1, c)
    else if negb (list_eqb (firstn 4 header) magic) then Ret (-1, c)
    else
      version <- rd header 4 ;;
      if negb (version =? LZ77PPM_VERSION) then Ret (-1, c)
      else
        w <- be16_at header 8 ;;
        let c := set_cs_params c (u16 w) (cs_lookahead_maxsize c) in
        if cs_window_maxsize c <? LZ77_MIN_WINDOW_SIZE then Ret (-1, c)
        else
          l <- be16_at header 10 ;;
          let c := set_cs_params c (cs_window_maxsize c) (u16 l) in
          if cs_lookahead_maxsize c <? LZ77_MIN_LOOKAHEAD_SIZE then Ret (-1, c)
          else if cs_window_maxsize c <? cs_lookahead_maxsize c then Ret (-1, c)
          else Ret (0, c)
  else
    r <- cstream_write c
           (header_bytes (cs_window_maxsize c) (cs_lookahead_maxsize c)) ;;
    if fst r <? 0 then Ret (-1, snd r) else Ret (0, snd r).

(** ** lz77.c: the codec

    [lz77_compress] and [lz77_decompress] return [-1] as [Stop Negative];
    otherwise the result is the returned count and the two streams. *)

(** The token for the cells [offset], [length] and [next] set by
    [ustream_find_and_advance]: the token register and its number of
    bits. *)
Definition make_token (u : lz77_ustream) (offset length_ next : Z) : outcome (Z * Z) :=
  let winoff_bits := us_window_nbits u in
  if negb (length_ =? 0) then
    (* Encode a phrase token. *)
    let token := 1 in
    let token := u64 (Z.lor (Z.shiftl token winoff_bits) offset) in
    '(tbits, length_) <- tinyhuff_encode (us_length_encoder u) length_ ;;
    let token := u64 (Z.lor (Z.shiftl token tbits) length_) in
    Ret (token, u16 (LZ77_TYPE_BITS + winoff_bits + tbits))
  else
    (* Encode a symbol token. *)
    let token := 0 in
    let token := u64 (Z.lor (Z.shiftl token LZ77_NEXT_BITS) next) in
    Ret (token, LZ77_SYMBOL_BITS).

(** [while (ustream_find_and_advance(...) > 0) { ... }]; every iteration
    consumes at least one byte of the input. *)
Fixpoint compress_loop (fuel : nat) (u : lz77_ustream) (c : lz77_cstream)
  (offset length_ next : Z) : outcome (lz77_ustream * lz77_cstream) :=
  match fuel with
  | O => Stop OutOfFuel
  | S fuel' =>
      '(count, cells, u) <- ustream_find_and_advance u offset length_ next ;;
      let '(offset, length_, next) := cells in
      if 0 <? count then
        '(token, tbits) <- make_token u offset length_ next ;;
        (* the phrase branch leaves the code in the cell [length] *)
        let startbit := u16 (64 - tbits) in
        '(r, c) <- cstream_write_bits c token startbit tbits ;;
        if r <? 0 then Stop Negative
        else compress_loop fuel' u c offset length_ next
      else Ret (u, c)
  end.

Definition lz77_compress (original : lz77_ustream) (compressed : lz77_cstream)
  : outcome (Z * lz77_ustream * lz77_cstream) :=
  u <- ustream_open original compressed ;;
  '(r, c) <- cstream_open compressed ;;
  if r <? 0 then Stop Negative
  else
    let winoff_bits := us_window_nbits u in
    let fuel := S (length (us_data u) + length (us_file u)) in
    '(u, c) <- compress_loop fuel u c 0 0 0 ;;
    (* Encode the terminating token. *)
    let token := u64 (Z.shiftl 1 winoff_bits) in
    '(tbits, length_) <- tinyhuff_encode (us_length_encoder u) 0 ;;
    let token := u64 (Z.lor (Z.shiftl token tbits) length_) in
    let tbits := u16 (LZ77_TYPE_BITS + winoff_bits + tbits) in
    let startbit := u32 (64 - tbits) in
    '(r, c) <- cstream_write_bits c token startbit tbits ;;
    if r <? 0 then Stop Negative
    else
      u <- ustream_close u ;;
      '(_, c) <- cstream_close c ;;
      Ret ((lz77_cstream_get_processed_bits c + 7) / 8, u, c).

(** Did a peek leave the stream as it was? *)
Definition cs_unchanged (c c' : lz77_cstream) : bool :=
  (cs_pos c =? cs_pos c') && (cs_end c =? cs_end c')
  && list_eqb (cs_data c) (cs_data c') && list_eqb (cs_file c) (cs_file c')
  && list_eqb (cs_os c) (cs_os c').

(** The inner [while (1)] of [lz77_decompress], which peeks 16 bits and
    decodes a length until the decoder consumes something.  When a round
    consumes nothing and leaves the stream as it was, every later round
    does the same: the loop never exits.  Any other round that consumes
    nothing has called [read]; [lz77_decompress] gives the loop a round
    for every entry of [cs_os] and three more. *)
Fixpoint decode_length_loop (fuel : nat) (enc : lz77_tinyhuff) (c : lz77_cstream)
  (length_ : Z) : outcome (Z * lz77_cstream) :=
  match fuel with
  | O => Stop OutOfFuel
  | S fuel' =>
      '(p, peek, c') <- cstream_peek c [0; 0] 0 16 ;;
      peek <- be16_at peek 0 ;;
      '(n, length_) <- tinyhuff_decode enc peek (u16 p) length_ ;;
      if 0 <? n then
        '(_, c') <- cstream_consume c' n ;;
        Ret (length_, c')
      else if cs_unchanged c c' then Stop Diverges
      else decode_length_loop fuel' enc c' length_
  end.

(** The outer [while (1)] of [lz77_decompress]. *)
Fixpoint decompress_loop (fuel : nat) (c : lz77_cstream) (u : lz77_ustream)
  : outcome (lz77_cstream * lz77_ustream) :=
  match fuel with
  | O => Stop OutOfFuel
  | S fuel' =>
      let winoff_bits := us_window_nbits u in
      '(_, state, c) <- cstream_read c [0; 0; 0; 0] 0 LZ77_TYPE_BITS ;;
      if negb (list_eqb state [0; 0; 0; 0]) then
        let tpos := 16 - winoff_bits in
        '(_, offset, c) <- cstream_read c [0; 0] tpos winoff_bits ;;
        '(length_, c) <- decode_length_loop (length (cs_os c) + 3) (us_length_encoder u) c 0 ;;
        offset <- be16_at offset 0 ;;
        if length_ =? 0 then Ret (c, u)   (* the terminating token *)
        else
          u <- ustream_save u offset length_ 0 ;;
          decompress_loop fuel' c u
      else
        let tpos := 8 - LZ77_NEXT_BITS in
        '(n, next, c) <- cstream_read c [0] tpos LZ77_NEXT_BITS ;;
        if negb (n =? LZ77_NEXT_BITS) then Stop Negative
        else
          next <- rd next 0 ;;
          u <- ustream_save u 0 0 next ;;
          decompress_loop fuel' c u
  end.

Definition lz77_decompress (compressed : lz77_cstream) (original : lz77_ustream)
  : outcome (Z * lz77_cstream * lz77_ustream) :=
  '(r, c) <- cstream_open compressed ;;
  if r <? 0 then Stop Negative
  else
    u <- ustream_open original c ;;
    let fuel := S (Z.to_nat (cs_end c) + 8 * length (cs_file c)) in
    '(c, u) <- decompress_loop fuel c u ;;
    '(_, c) <- cstream_close c ;;
    u <- ustream_close u ;;
    Ret (us_processed_bytes u, c, u).

(** ** The library's own test driver: memory to memory

    [test_variable_length_i] compresses a buffer into a reallocatable
    memory stream and decompresses the result into another one. *)

Definition heap_limit : Z := 2 ^ 32 - 1.

Definition compress_memory (s : list Z) (w l : Z) : outcome (Z * list Z) :=
  match lz77_ustream_from_memory (Some s) (Z.of_nat (length s)) w l true heap_limit with
  | Object original =>
      match lz77_cstream_to_memory (Some original) true 0 1 true heap_limit with
      | Object compressed =>
          '(n, _, c) <- lz77_compress original compressed ;;
          Ret (n, cs_data c)
      | _ => Stop Negative
      end
  | _ => Stop Negative
  end.

Definition decompress_memory (bytes : list Z) (size : Z) : outcome (Z * list Z) :=
  match lz77_cstream_from_memory (Some bytes) size true heap_limit with
  | Object compressed =>
      match lz77_ustream_to_memory false true 0 1 true heap_limit with
      | Object decompressed =>
          '(n, _, u) <- lz77_decompress compressed decompressed ;;
          Ret (n, us_data u)
      | _ => Stop Negative
      end
  | _ => Stop Negative
  end.

(** ** Definitions used to state the properties *)

(** The spec's bit width: [1 + floor (log2 (max 1 n))]. *)
Definition bit_width (n : Z) : Z := 1 + Z.log2 (Z.max 1 n).




Definition sample_cstream (w l : Z) : lz77_cstream :=
  {| cs_fd := -1; cs_data := []; cs_size := 0; cs_pos := 0; cs_end := 0;
     cs_cached := 0; cs_cached_nbits := 0; cs_can_realloc := 1; cs_is_input := 0;
     cs_window_maxsize := w; cs_lookahead_maxsize := l; cs_processed_bits := 0;
     cs_file := []; cs_os := []; cs_heap := heap_limit |}.

(** The first 16 bits of a code of [nbits] bits, as the decoder peeks them
    from the stream (zero bits follow a shorter code). *)
Definition peeked16 (code nbits : Z) : Z :=
  if nbits <=? 16 then Z.shiftl code (16 - nbits) else Z.shiftr code (nbits - 16).

(** The encoder of an opened stream with parameters [w] and [l]. *)
Definition encoder_of (w l : Z) : lz77_tinyhuff :=
  tinyhuff_init (Z.quot (LZ77_TYPE_BITS + u8 (number_of_bits (w - 1))
                         + LZ77_TINYHUFF_MIN_CODE_BITS) LZ77_SYMBOL_BITS + 1) l.

(** A stream with [W = 4], [L = 2] whose first token is a phrase with
    offset 0 and length 1: the window is still empty. *)
Definition bad_offset_stream : list Z := header_bytes 4 2 ++ [152].

(** A stream with [W = 4], [L = 2]: the symbol 65, then a phrase with
    offset 0 and the length code [001], that is length 4. *)
Definition bad_length_stream : list Z := header_bytes 4 2 ++ [32; 194].

(** The scenarios of the test [test_explicit] do round-trip. *)
Definition roundtrip_ok (s : list Z) (w l : Z) : bool :=
  match compress_memory s w l with
  | Ret (n, bytes) =>
      match decompress_memory bytes n with
      | Ret (m, out) => (m =? Z.of_nat (length s)) && list_eqb out s
      | Stop _ => false
      end
  | Stop _ => false
  end.




(** A writer as the two creation functions make it. *)
Definition fresh_writer (c : lz77_cstream) : Prop :=
  exists from heap,
    (exists data_null size can_realloc,
        lz77_cstream_to_memory (Some from) data_null size can_realloc true heap = Object c)
    \/ (exists fd os, lz77_cstream_to_descriptor (Some from) fd os true heap = Object c).

(** The bytes a writer has produced: those already written to the
    descriptor, then those in the buffer. *)
Definition output (c : lz77_cstream) : list Z := cs_file c ++ cs_data c.

(** A writer to memory: its buffer holds the [end / 8] bytes written to
    it, within its capacity, and [realloc] is never refused. *)
Definition writer_ok (c : lz77_cstream) : Prop :=
  cs_end c = 8 * Z.of_nat (length (cs_data c))
  /\ Z.of_nat (length (cs_data c)) <= cs_size c < 2 ^ 32
  /\ cs_is_input c = 0
  /\ heap_limit <= cs_heap c
  /\ cs_fd c < 0.

Definition extends (c c' : lz77_cstream) : Prop :=
  exists extra, output c' = output c ++ extra.

(** The buffer of an output stream holds the [end] bytes written so far. *)
Definition output_ok (u : lz77_ustream) : Prop :=
  us_end u = Z.of_nat (length (us_data u)) /\ 0 <= us_window u.

Definition byte_at (l : list Z) (k : Z) : Z := nth (Z.to_nat k) l 0.

(** Bit [p] of a buffer, counted from the most significant bit of the
    first byte. *)
Definition bit (l : list Z) (p : Z) : bool :=
  Z.testbit (byte_at l (p / 8)) (7 - p mod 8).

Definition bytes_ok (l : list Z) : Prop := Forall (fun b => 0 <= b < 256) l.

(** The number of bits a peek of [n] bits copies when [i] are done. *)
Definition peeked (c : lz77_cstream) (n i : Z) : Z :=
  Z.max 0 (Z.min n (cs_end c - cs_pos c - i)).

(** A reader over a memory buffer, before [cstream_open]. *)
Definition memory_reader (c : lz77_cstream) : Prop :=
  cs_fd c < 0 /\ cs_is_input c <> 0 /\ cs_pos c = 0
  /\ cs_end c = 8 * Z.of_nat (length (cs_data c))
  /\ cs_window_maxsize c = 0 /\ cs_lookahead_maxsize c = 0
  /\ bytes_ok (cs_data c).

(** The two sizes decoded from the header. *)
Definition header_window (bytes : list Z) : Z := byte_at bytes 8 * 256 + byte_at bytes 9.
Definition header_lookahead (bytes : list Z) : Z := byte_at bytes 10 * 256 + byte_at bytes 11.

(** The conditions under which the claim says the reader refuses a
    stream. *)
Definition header_refused (bytes : list Z) : Prop :=
  (length bytes < 12)%nat
  \/ firstn 4 bytes <> magic
  \/ byte_at bytes 4 <> LZ77PPM_VERSION
  \/ header_window bytes < LZ77_MIN_WINDOW_SIZE
  \/ header_lookahead bytes < LZ77_MIN_LOOKAHEAD_SIZE
  \/ header_window bytes < header_lookahead bytes.

(** The input stream [lz77_ustream_from_memory] creates for the two bytes
    ["AB"] with [W = 4] and [L = 2]. *)
Definition sample_ustream : lz77_ustream :=
  {| us_fd := -1; us_data := [65; 66]; us_size := 2; us_end := 2;
     us_can_realloc := 0; us_is_input := 1; us_window := 0;
     us_window_maxsize := 4; us_window_currsize := 0; us_window_nbits := 2;
     us_lookahead := 0; us_lookahead_maxsize := 2; us_lookahead_currsize := 0;
     us_tree := repeat raw_slot 5; us_length_encoder := zero_encoder;
     us_processed_bytes := 0; us_file := []; us_heap := heap_limit |}.

(** An output stream in the middle of a decompression with [W = 4]: the
    byte 65 has been written. *)
Definition sample_output : lz77_ustream :=
  {| us_fd := -1; us_data := [65]; us_size := 1024; us_end := 1;
     us_can_realloc := 1; us_is_input := 0; us_window := 0;
     us_window_maxsize := 4; us_window_currsize := 1; us_window_nbits := 2;
     us_lookahead := 0; us_lookahead_maxsize := 2; us_lookahead_currsize := 0;
     us_tree := []; us_length_encoder := tinyhuff_init 1 2;
     us_processed_bytes := 1; us_file := []; us_heap := heap_limit |}.

(** The reader [lz77_cstream_from_memory] creates over the compressed form
    of the empty input with [W = 4] and [L = 2]. *)
Definition sample_reader : lz77_cstream :=
  {| cs_fd := -1; cs_data := header_bytes 4 2 ++ [128; 0]; cs_size := 14;
     cs_pos := 0; cs_end := 112; cs_cached := 0; cs_cached_nbits := 0;
     cs_can_realloc := 0; cs_is_input := 1; cs_window_maxsize := 0;
     cs_lookahead_maxsize := 0; cs_processed_bits := 0; cs_file := [];
     cs_os := [];
     cs_heap := heap_limit |}.

(** The slot [tree[i]]. *)
Definition node (t : list lz77_tree) (i : Z) : lz77_tree :=
  match rd t i with
  | Ret n => n
  | Stop _ => raw_slot
  end.

(** A slot is in the tree when its [parent] field is not [UNUSED]: that is
    the test [lz77_tree_delete_node] and [lz77_find_and_add] make.  [w] is
    [window_maxsize]; the slots are [0 .. w - 1] and the root is slot [w]. *)
Definition in_tree (w : Z) (t : list lz77_tree) (i : Z) : Prop :=
  0 <= i < w /\ parent (node t i) <> UNUSED.

Definition is_node (w : Z) (t : list lz77_tree) (p : Z) : Prop :=
  p = w \/ in_tree w t p.

(** [c] is a child of [p]. *)
Definition links (t : list lz77_tree) (p c : Z) : Prop :=
  smaller (node t p) = c \/ larger (node t p) = c.

(** The slots in the tree form a binary tree below the root: the parent of
    a slot in the tree is the root or a slot in the tree and has it as a
    child; a child of a node is in the tree and has it as its parent; the
    two children of a node differ; and parents come before their children
    in some ranking, so that following the [parent] fields ends at the
    root. *)
Record well_formed (w : Z) (t : list lz77_tree) : Prop := {
  wf_size : 1 <= w <= 65534;
  wf_length : Z.of_nat (length t) = w + 1;
  wf_up : forall i, in_tree w t i ->
          is_node w t (parent (node t i)) /\ links t (parent (node t i)) i;
  wf_down : forall p c, is_node w t p -> c <> UNUSED -> links t p c ->
            in_tree w t c /\ parent (node t c) = p;
  wf_sides : forall p, is_node w t p ->
             smaller (node t p) = larger (node t p) -> smaller (node t p) = UNUSED;
  wf_rank : exists rank : Z -> nat,
            forall i, in_tree w t i -> (rank (parent (node t i)) < rank i)%nat
}.

(** The key of the look-ahead buffer, all [lookahead_currsize] bytes of it,
    is found at [offset] in the window. *)
Definition key_matches (u : lz77_ustream) (offset : Z) : Prop :=
  forall j, 0 <= j < us_lookahead_currsize u ->
    exists b, rd (us_data u) (us_lookahead u + j) = Ret b
              /\ rd (us_data u) (us_window u + offset + j) = Ret b.

(** What [lz77_find_and_add] leaves, from the tree [t]: the slot [curr] is
    in the tree; the other slots are in the tree as before, but for the one
    whose key matched the whole look-ahead buffer; that one is replaced in
    place by [curr] in the tree without [curr]. *)
Definition added (u : lz77_ustream) (curr begin : Z) (t : list lz77_tree)
  (longest offset : Z) (t' : list lz77_tree) : Prop :=
  let w := us_window_maxsize u in
  let found := (offset + begin) mod w in
  well_formed w t' /\ in_tree w t' curr
  /\ (forall s, s <> curr ->
        (in_tree w t' s <-> in_tree w t s /\ ~ (longest = us_lookahead_currsize u /\ s = found)))
  /\ (longest = us_lookahead_currsize u ->
        key_matches u offset /\ in_tree w t found
        /\ (found <> curr ->
              exists t1, well_formed w t1
                         /\ (forall s, in_tree w t1 s <-> in_tree w t s /\ s <> curr)
                         /\ lz77_tree_replace_node t1 found curr = Ret t'
                         /\ node t' curr = node t1 found)).


(** The node reached from [s] by following the [parent] field [k] times. *)
Fixpoint ancestor (t : list lz77_tree) (k : nat) (s : Z) : Z :=
  match k with
  | O => s
  | S k' => ancestor t k' (parent (node t s))
  end.

(** The slot [s] is the slot of a position of the window: the tree array
    is indexed by the position modulo [window_maxsize]. *)
Definition window_slot (u : lz77_ustream) (s : Z) : Prop :=
  exists p, us_window u <= p < us_window u + us_window_currsize u
            /\ p mod us_window_maxsize u = s.

(** The window and the look-ahead buffer of a stream that reads from
    memory: the window grows from the start of the data up to its maximum
    size, then slides; the look-ahead buffer starts where it ends. *)
Definition view_ok (u : lz77_ustream) : Prop :=
  2 <= us_window_maxsize u <= 65534
  /\ us_fd u < 0
  /\ 0 <= us_window u
  /\ 0 <= us_window_currsize u <= us_window_maxsize u
  /\ us_lookahead u = us_window u + us_window_currsize u
  /\ (us_window_currsize u < us_window_maxsize u -> us_window u = 0).

(** The tree after a completed step: it is in shape, its slots are slots
    of window positions, and the last position of the window is in it. *)
Definition tree_state (u : lz77_ustream) : Prop :=
  well_formed (us_window_maxsize u) (us_tree u)
  /\ (forall s, in_tree (us_window_maxsize u) (us_tree u) s -> window_slot u s)
  /\ in_tree (us_window_maxsize u) (us_tree u) ((us_lookahead u - 1) mod us_window_maxsize u).

(** The tree inside a step, once the position at the start of the
    look-ahead buffer has been added. *)
Definition searching (u : lz77_ustream) : Prop :=
  well_formed (us_window_maxsize u) (us_tree u)
  /\ (forall s, in_tree (us_window_maxsize u) (us_tree u) s ->
        us_window_currsize u = us_window_maxsize u \/ s <= us_window_currsize u)
  /\ in_tree (us_window_maxsize u) (us_tree u) (us_lookahead u mod us_window_maxsize u).

(** A stream between two calls of [ustream_find_and_advance]. *)
Definition compressing (u : lz77_ustream) : Prop :=
  view_ok u
  /\ Z.of_nat (length (us_tree u)) = us_window_maxsize u + 1
  /\ (us_window_currsize u = 0 ->
      smaller (node (us_tree u) (us_window_maxsize u)) = UNUSED)
  /\ (0 < us_window_currsize u -> tree_state u).

(** [n] calls of [ustream_find_and_advance], as the loop of
    [lz77_compress] makes them: the three cells go from one call to the
    next. *)
Fixpoint next_tokens (n : nat) (u : lz77_ustream) (offset length_ next : Z)
  : outcome lz77_ustream :=
  match n with
  | O => Ret u
  | S n' =>
      '(_, cells, u) <- ustream_find_and_advance u offset length_ next ;;
      let '(offset, length_, next) := cells in
      next_tokens n' u offset length_ next
  end.


(** The input ["AAAA"] with [W = 4] and [L = 2], opened. *)
Definition four_equal_bytes : lz77_ustream :=
  {| us_fd := -1; us_data := [65; 65; 65; 65]; us_size := 4; us_end := 4;
     us_can_realloc := 0; us_is_input := 1; us_window := 0;
     us_window_maxsize := 4; us_window_currsize := 0; us_window_nbits := 2;
     us_lookahead := 0; us_lookahead_maxsize := 2; us_lookahead_currsize := 0;
     us_tree := repeat raw_slot 5; us_length_encoder := zero_encoder;
     us_processed_bytes := 0; us_file := []; us_heap := heap_limit |}.

(** The first [n] bytes of the look-ahead buffer are found at [offset] in
    the window. *)
Definition prefix_matches (u : lz77_ustream) (offset n : Z) : Prop :=
  forall j, 0 <= j < n ->
    exists b, rd (us_data u) (us_lookahead u + j) = Ret b
              /\ rd (us_data u) (us_window u + offset + j) = Ret b.

(** A phrase the decompressor can copy: it starts inside the window and
    its bytes are those of the look-ahead buffer. *)
Definition phrase_found (u : lz77_ustream) (longest offset : Z) : Prop :=
  longest = 0
  \/ (0 <= offset < us_window_currsize u
      /\ 0 < longest <= us_lookahead_currsize u
      /\ prefix_matches u offset longest).

(** A tree with [window_maxsize = 4]: the slot 0 below the root, the slots
    1 and 2 below it, the slot 3 free. *)
Definition sample_tree : list lz77_tree :=
  [ {| parent := 4; smaller := 1; larger := 2 |};
    {| parent := 0; smaller := 65535; larger := 65535 |};
    {| parent := 0; smaller := 65535; larger := 65535 |};
    {| parent := 65535; smaller := 65535; larger := 65535 |};
    {| parent := 65535; smaller := 65535; larger := 0 |} ].

(** The stream [four_equal_bytes] after [ustream_open]. *)
Definition four_equal_opened : lz77_ustream :=
  {| us_fd := -1; us_data := [65; 65; 65; 65]; us_size := 4; us_end := 4;
     us_can_realloc := 0; us_is_input := 1; us_window := 0;
     us_window_maxsize := 4; us_window_currsize := 0; us_window_nbits := 2;
     us_lookahead := 0; us_lookahead_maxsize := 2; us_lookahead_currsize := 2;
     us_tree := [raw_slot; raw_slot; raw_slot; raw_slot;
                 {| parent := 65535; smaller := 65535; larger := 65535 |}];
     us_length_encoder := {| min_value := 1; max_value := 2; max_encoded_value := 7;
                             diff_nbits := 0 |};
     us_processed_bytes := 0; us_file := []; us_heap := heap_limit |}.

(** The same stream after the first call of [ustream_find_and_advance],
    which returns the symbol 65. *)
Definition four_equal_after_one : lz77_ustream :=
  {| us_fd := -1; us_data := [65; 65; 65; 65]; us_size := 4; us_end := 4;
     us_can_realloc := 0; us_is_input := 1; us_window := 0;
     us_window_maxsize := 4; us_window_currsize := 1; us_window_nbits := 2;
     us_lookahead := 1; us_lookahead_maxsize := 2; us_lookahead_currsize := 2;
     us_tree := [{| parent := 4; smaller := 65535; larger := 65535 |};
                 {| parent := 65535; smaller := 65535; larger := 65535 |};
                 {| parent := 65535; smaller := 65535; larger := 65535 |};
                 {| parent := 65535; smaller := 65535; larger := 65535 |};
                 {| parent := 65535; smaller := 65535; larger := 0 |}];
     us_length_encoder := {| min_value := 1; max_value := 2; max_encoded_value := 7;
                             diff_nbits := 0 |};
     us_processed_bytes := 1; us_file := []; us_heap := heap_limit |}.

(** The decoding table, read by ranges of its index. *)
Definition dec_of (index : Z) : dec_entry :=
  if index =? 0 then {| value := 0; dec_nbits := 6 |}
  else if index =? 1 then {| value := 6; dec_nbits := 6 |}
  else if index <? 4 then {| value := 5; dec_nbits := 5 |}
  else if index <? 8 then {| value := 4; dec_nbits := 4 |}
  else if index <? 16 then {| value := 3; dec_nbits := 3 |}
  else if index <? 32 then {| value := 2; dec_nbits := 2 |}
  else if index <? 48 then {| value := 1; dec_nbits := 2 |}
  else {| value := 0; dec_nbits := 2 |}.

Definition dec_entry_eqb (a b : dec_entry) : bool :=
  (value a =? value b) && (dec_nbits a =? dec_nbits b).

(** The code of a length, in closed form: number of bits and code. *)
Definition length_code (enc : lz77_tinyhuff) (v : Z) : Z * Z :=
  if v =? 0 then (6, 0)
  else if max_encoded_value enc <=? v
       then (6 + diff_nbits enc, 2 ^ diff_nbits enc + (v - max_encoded_value enc))
       else let j := v - min_value enc in
            (if j <? 3 then 2 else j, if j <? 3 then 3 - j else 1).

Definition written (c : lz77_cstream) : Z :=
  8 * Z.of_nat (length (output c)) + cs_cached_nbits c.

Definition wbit (c : lz77_cstream) (q : Z) : bool :=
  if q <? 8 * Z.of_nat (length (output c)) then bit (output c) q
  else Z.testbit (cs_cached c) (63 - (q - 8 * Z.of_nat (length (output c)))).

(** The cache holds [cached_nbits] bits at its top, and zeros below. *)
Definition cache_ok (c : lz77_cstream) : Prop :=
  0 <= cs_cached_nbits c <= 64
  /\ forall k, 0 <= k < 64 - cs_cached_nbits c -> Z.testbit (cs_cached c) k = false.

(** A writer to memory whose buffer may be reallocated. *)
Definition growable (c : lz77_cstream) : Prop :=
  cs_can_realloc c <> 0.

(** The fields of a writer that no write changes. *)
Definition same_writer (c c' : lz77_cstream) : Prop :=
  cs_fd c' = cs_fd c /\ cs_can_realloc c' = cs_can_realloc c
  /\ cs_window_maxsize c' = cs_window_maxsize c
  /\ cs_lookahead_maxsize c' = cs_lookahead_maxsize c.

(** A memory writer with two bytes out and 60 bits waiting in the cache. *)
Definition busy_writer : lz77_cstream :=
  {| cs_fd := -1; cs_data := [1; 2]; cs_size := 2; cs_pos := 0; cs_end := 16;
     cs_cached := 2 ^ 63 + 2 ^ 4; cs_cached_nbits := 60; cs_can_realloc := 1;
     cs_is_input := 0; cs_window_maxsize := 4; cs_lookahead_maxsize := 2;
     cs_processed_bits := 16; cs_file := []; cs_os := []; cs_heap := heap_limit |}.

(** A reader over a memory buffer, at any position. *)
Definition reading (c : lz77_cstream) : Prop :=
  cs_fd c < 0 /\ cs_is_input c <> 0
  /\ 0 <= cs_pos c <= cs_end c
  /\ cs_end c = 8 * Z.of_nat (length (cs_data c))
  /\ cs_end c + 16 <= 2 ^ 31
  /\ bytes_ok (cs_data c).

(** The reader after [n] bits have been consumed. *)
Definition consumed (c : lz77_cstream) (n : Z) : lz77_cstream :=
  set_cs_processed_bits
    (set_cs_buffer c (cs_data c) (cs_size c) (u64 (cs_pos c + n)) (cs_end c) (cs_file c))
    (u64 (cs_processed_bits c + n)).

(** The [n] bits of the stream from position [p] on are the binary digits
    of [x], most significant first. *)
Definition field_at (d : list Z) (p n x : Z) : Prop :=
  0 <= x < 2 ^ n /\ forall j, 0 <= j < n -> bit d (p + j) = Z.testbit x (n - 1 - j).

(** The LZ77 copy: [n] bytes are appended, each one the byte at [src] of
    the buffer as it is when the byte is appended. *)
Fixpoint lz_copy (n : nat) (d : list Z) (src : nat) : list Z :=
  match n with
  | O => d
  | S n' => lz_copy n' (d ++ [nth src d 0]) (S src)
  end.

(** An output stream over a memory buffer that [realloc] can extend. *)
Definition saving (u : lz77_ustream) : Prop :=
  us_fd u < 0 /\ us_can_realloc u <> 0 /\ heap_limit <= us_heap u
  /\ us_end u = Z.of_nat (length (us_data u))
  /\ 0 <= us_window u
  /\ 0 <= us_window_currsize u <= us_window_maxsize u
  /\ us_window_maxsize u < 65536
  /\ us_window u + us_window_currsize u = us_end u
  /\ 0 <= us_size u < 2 ^ 32.

(** An output stream that has taken the five bytes [1 .. 5] with a
    window of four bytes. *)
Definition five_saved : lz77_ustream :=
  {| us_fd := -1; us_data := [1; 2; 3; 4; 5]; us_size := 1024; us_end := 5;
     us_can_realloc := 1; us_is_input := 0; us_window := 1;
     us_window_maxsize := 4; us_window_currsize := 4; us_window_nbits := 2;
     us_lookahead := 0; us_lookahead_maxsize := 2; us_lookahead_currsize := 0;
     us_tree := []; us_length_encoder := tinyhuff_init 2 2;
     us_processed_bytes := 5; us_file := []; us_heap := heap_limit |}.

(** The fields [ustream_find_and_advance] never changes on a stream that
    reads from memory. *)
Definition same_input (u u' : lz77_ustream) : Prop :=
  us_end u' = us_end u /\ us_size u' = us_size u
  /\ us_window_nbits u' = us_window_nbits u
  /\ us_lookahead_maxsize u' = us_lookahead_maxsize u
  /\ us_length_encoder u' = us_length_encoder u
  /\ us_window_maxsize u' = us_window_maxsize u
  /\ us_data u' = us_data u.

(** The look-ahead buffer ends inside the data. *)
Definition lookahead_ok (u : lz77_ustream) : Prop :=
  0 <= us_lookahead_currsize u < 65536
  /\ us_lookahead u + us_lookahead_currsize u <= us_end u.

(** The buffer [bytes] holds the bits [c] has written. *)
Definition holds (bytes : list Z) (c : lz77_cstream) : Prop :=
  forall q, 0 <= q < written c -> bit bytes q = wbit c q.

(** A writer in a state the writer functions leave. *)
Definition writing (c : lz77_cstream) : Prop :=
  writer_ok c /\ cache_ok c /\ bytes_ok (output c).

(** The reader stands at bit [p] of [bytes]. *)
Definition reader_at (bytes : list Z) (p : Z) (r : lz77_cstream) : Prop :=
  reading r /\ cs_data r = bytes /\ cs_pos r = p /\ cs_cached_nbits r = 0.

(** An encoder whose codes the decoder can take. *)
Definition good_encoder (enc : lz77_tinyhuff) : Prop :=
  exists mn mx,
    enc = tinyhuff_init mn mx /\ 1 <= mn /\ mn + 6 < 65536 /\ 0 <= mx < 65536
    /\ diff_nbits enc <= 10.

(** The output stream has taken the first [la] bytes of [s], with a
    window of [ws] bytes. *)
Definition decoding (s : list Z) (w wb : Z) (enc : lz77_tinyhuff) (la ws : Z)
  (d : lz77_ustream) : Prop :=
  saving d /\ us_data d = firstn (Z.to_nat la) s /\ us_end d = la
  /\ 0 <= la <= Z.of_nat (length s)
  /\ us_window_currsize d = ws /\ us_window_maxsize d = w
  /\ us_window_nbits d = wb /\ us_length_encoder d = enc
  /\ us_processed_bytes d = la.

(** A writer into memory: nothing goes to a descriptor, and
    [processed_bits] counts the bits of the buffer. *)
Definition mem_writer (c : lz77_cstream) : Prop :=
  cs_fd c < 0 /\ cs_file c = [] /\ cs_processed_bits c = cs_end c.

(** The input stream in the course of a compression of [s]. *)
Definition feeding (s : list Z) (w wb : Z) (enc : lz77_tinyhuff) (u : lz77_ustream) : Prop :=
  compressing u /\ lookahead_ok u
  /\ us_data u = s /\ us_end u = Z.of_nat (length s)
  /\ us_window_maxsize u = w /\ us_window_nbits u = wb /\ us_length_encoder u = enc
  /\ (us_lookahead_currsize u = 0 -> us_lookahead u = us_end u).

(** An input stream with a window of 40000 bytes and a look-ahead buffer of
    200 bytes, as far as [make_token] looks at it. *)
Definition wide_stream : lz77_ustream :=
  {| us_fd := -1; us_data := []; us_size := 0; us_end := 0;
     us_can_realloc := 0; us_is_input := 1; us_window := 0;
     us_window_maxsize := 40000; us_window_currsize := 0; us_window_nbits := 16;
     us_lookahead := 0; us_lookahead_maxsize := 200; us_lookahead_currsize := 0;
     us_tree := []; us_length_encoder := tinyhuff_init 3 200;
     us_processed_bytes := 0; us_file := []; us_heap := heap_limit |}.

(** Where slot [i] of the [size] slots goes when the array is rotated to
    the left by [shift]; the root, slot [size], and [UNUSED] stay. *)
Definition renumbered (size shift i : Z) : Z :=
  if (0 <=? i) && (i <? size) then (i - shift) mod size else i.

(** A slot with its three links renumbered. *)
Definition renumbered_slot (size shift : Z) (n : lz77_tree) : lz77_tree :=
  {| parent := renumbered size shift (parent n);
     smaller := renumbered size shift (smaller n);
     larger := renumbered size shift (larger n) |}.

(** The links of a slot are slots, or [UNUSED]; only a parent can be the
    root. *)
Definition links_in_range (size : Z) (n : lz77_tree) : Prop :=
  (0 <= parent n <= size \/ parent n = UNUSED)
  /\ (0 <= smaller n < size \/ smaller n = UNUSED)
  /\ (0 <= larger n < size \/ larger n = UNUSED).

Definition five_slots : list lz77_tree :=
  [ {| parent := 4; smaller := UNUSED; larger := 2 |};
    {| parent := 2; smaller := UNUSED; larger := UNUSED |};
    {| parent := 0; smaller := 1; larger := 3 |};
    {| parent := 2; smaller := UNUSED; larger := UNUSED |};
    {| parent := UNUSED; smaller := UNUSED; larger := 0 |} ].

Definition refilled_stream : lz77_ustream :=
  {| us_fd := 3; us_data := [10; 11; 12; 13; 14; 15; 16; 17]; us_size := 8;
     us_end := 8; us_can_realloc := 0; us_is_input := 1;
     us_window := 2; us_window_maxsize := 4; us_window_currsize := 4;
     us_window_nbits := 3; us_lookahead := 6; us_lookahead_maxsize := 2;
     us_lookahead_currsize := 2; us_tree := five_slots;
     us_length_encoder := tinyhuff_init 2 2; us_processed_bytes := 6;
     us_file := [18; 19; 20]; us_heap := 0 |}.

(** The test of [lz77_tree_delete_node] on a slot. *)
Definition used (t : list lz77_tree) (i : Z) : bool :=
  negb (parent (node t i) =? UNUSED).

Definition slots (w : Z) : list Z := map Z.of_nat (seq 0 (Z.to_nat w)).

(** How many slots of the tree come after [x] in a ranking. *)
Definition above (w : Z) (t : list lz77_tree) (rank : Z -> nat) (x : Z) : nat :=
  length (filter (fun i => used t i && (rank x <? rank i)%nat) (slots w)).

(** The search starts at the larger child of the root: the root never has
    a smaller child. *)
Definition rooted (w : Z) (t : list lz77_tree) : Prop :=
  smaller (node t w) = UNUSED.

(** What a stream that reads from memory keeps besides its shape: the
    root of the tree has no smaller child, the look-ahead buffer is not
    larger than allowed, and the data fill the buffer. *)
Definition steady (u : lz77_ustream) : Prop :=
  rooted (us_window_maxsize u) (us_tree u)
  /\ us_lookahead_currsize u <= us_lookahead_maxsize u
  /\ us_end u <= us_size u
  /\ us_end u = Z.of_nat (length (us_data u)).

(** The widest token [lz77_compress] can write for a window of [w] bytes
    and a look-ahead buffer of [l]: the flag, the offset and the longest
    length code. *)
Definition widest_token (w l : Z) : Z :=
  let wb := u8 (number_of_bits (w - 1)) in
  let mn := Z.quot (LZ77_TYPE_BITS + wb + LZ77_TINYHUFF_MIN_CODE_BITS) LZ77_SYMBOL_BITS + 1 in
  LZ77_TYPE_BITS + wb + MAX_CODE_BITS + diff_nbits (tinyhuff_init mn l).

(** The output stream on descriptor 3, whose first [write] takes 8
    bytes. *)
Definition short_write_output : lz77_cstream :=
  {| cs_fd := 3; cs_data := []; cs_size := 1024; cs_pos := 0; cs_end := 0;
     cs_cached := 0; cs_cached_nbits := 0; cs_can_realloc := 1; cs_is_input := 0;
     cs_window_maxsize := 4; cs_lookahead_maxsize := 2; cs_processed_bits := 0;
     cs_file := []; cs_os := [8]; cs_heap := heap_limit |}.

(** The output stream over a buffer of 15 bytes that may be reallocated,
    when [realloc] has nothing to give. *)
Definition full_heap_output : lz77_cstream :=
  {| cs_fd := -1; cs_data := []; cs_size := 15; cs_pos := 0; cs_end := 0;
     cs_cached := 0; cs_cached_nbits := 0; cs_can_realloc := 1; cs_is_input := 0;
     cs_window_maxsize := 4; cs_lookahead_maxsize := 2; cs_processed_bits := 0;
     cs_file := []; cs_os := []; cs_heap := 0 |}.



(** The bytes that come from a descriptor before a call of [read] returns
    0 or -1: the compressed stream as the reader can see it. *)
Fixpoint arriving (os : list Z) (file : list Z) : list Z :=
  match os with
  | [] => file
  | k :: os' =>
      if k <=? 0 then []
      else firstn (Z.to_nat k) file ++ arriving os' (skipn (Z.to_nat k) file)
  end.

(** A reader over a descriptor, as [lz77_cstream_from_descriptor] creates
    it. *)
Definition descriptor_reader (c : lz77_cstream) : Prop :=
  0 <= cs_fd c /\ cs_is_input c <> 0 /\ cs_pos c = 0 /\ cs_end c = 0
  /\ cs_data c = [] /\ cs_size c = 1024
  /\ cs_window_maxsize c = 0 /\ cs_lookahead_maxsize c = 0
  /\ bytes_ok (cs_file c).

(** The byte stream presented to a reader. *)
Definition presented (c : lz77_cstream) : list Z :=
  if cs_fd c <? 0 then cs_data c else arriving (cs_os c) (cs_file c).

(** The reader has taken the first [got] bytes of [file0] into its buffer
    and into the header. *)
Definition header_read (file0 : list Z) (got : nat) (c : lz77_cstream) (buf : list Z)
  : Prop :=
  0 <= cs_fd c /\ cs_is_input c <> 0 /\ cs_pos c = 0
  /\ cs_end c = 8 * Z.of_nat got /\ cs_size c = 1024
  /\ cs_data c = firstn got file0 /\ cs_file c = skipn got file0
  /\ (got <= length file0)%nat /\ bytes_ok file0
  /\ length buf = 12%nat /\ bytes_ok buf
  /\ forall q, 0 <= q -> bit buf q = (q <? Z.min 96 (8 * Z.of_nat got)) && bit file0 q.

(** The header comes in two pieces of 5 and 9 bytes. *)
Definition piecewise_reader : lz77_cstream :=
  {| cs_fd := 3; cs_data := []; cs_size := 1024; cs_pos := 0; cs_end := 0;
     cs_cached := 0; cs_cached_nbits := 0; cs_can_realloc := 1; cs_is_input := 1;
     cs_window_maxsize := 0; cs_lookahead_maxsize := 0; cs_processed_bits := 0;
     cs_file := header_bytes 4 2 ++ [128; 0]; cs_os := [5; 9]; cs_heap := heap_limit |}.

(** The window and the look-ahead buffer of an input stream, read from
    memory or from a descriptor: the window grows from the start of the
    buffer up to its maximum size, then slides; the look-ahead buffer
    starts where it ends. *)
Definition frame (u : lz77_ustream) : Prop :=
  2 <= us_window_maxsize u <= 65534
  /\ 0 <= us_window u
  /\ 0 <= us_window_currsize u <= us_window_maxsize u
  /\ us_lookahead u = us_window u + us_window_currsize u
  /\ (us_window_currsize u < us_window_maxsize u -> us_window u = 0).







(** * Properties *)

(** ** Outcomes *)

Lemma bind_Ret_inv {A B} (m : outcome A) (k : A -> outcome B) (b : B) :
  bind m k = Ret b -> exists a, m = Ret a /\ k a = Ret b.
Proof. destruct m as [a|f]; simpl; [eauto | discriminate]. Qed.

Lemma assert_Ret_inv (b : bool) (u : unit) : assert b = Ret u -> b = true.
Proof. destruct b; simpl; [reflexivity | discriminate]. Qed.

Lemma defined_Ret_inv (b : bool) (u : unit) : defined b = Ret u -> b = true.
Proof. destruct b; simpl; [reflexivity | discriminate]. Qed.

(** ** Wrap-around *)

Lemma u8_small z : 0 <= z < 2 ^ 8 -> u8 z = z.
Proof. intros; unfold u8; apply Z.mod_small; assumption. Qed.
Lemma u16_small z : 0 <= z < 2 ^ 16 -> u16 z = z.
Proof. intros; unfold u16; apply Z.mod_small; assumption. Qed.
Lemma u32_small z : 0 <= z < 2 ^ 32 -> u32 z = z.
Proof. intros; unfold u32; apply Z.mod_small; assumption. Qed.
Lemma u64_small z : 0 <= z < 2 ^ 64 -> u64 z = z.
Proof. intros; unfold u64; apply Z.mod_small; assumption. Qed.

(** ** The bit width of a number *)

Lemma number_of_bits_loop_log2 (fuel : nat) :
  forall v r, 0 <= v < 2 ^ Z.of_nat fuel -> 0 <= r -> r + Z.of_nat fuel < 2 ^ 8 ->
  number_of_bits_loop fuel v r = r + Z.log2 (Z.max 1 v).
Proof.
  induction fuel as [|fuel IH]; intros v r Hv Hr Hb.
  - simpl in *. assert (v = 0) by lia. subst v. simpl. lia.
  - cbn [number_of_bits_loop].
    rewrite Z.shiftr_div_pow2 by lia. change (2 ^ 1) with 2.
    destruct (Z.eqb_spec (v / 2) 0) as [E|E].
    + assert (v = 0 \/ v = 1) as [->| ->] by (assert (v < 2) by (apply Z.div_small_iff in E; lia); lia);
        simpl; lia.
    + assert (2 <= v).
      { destruct (Z_lt_le_dec v 2) as [L|L]; [|assumption].
        exfalso; apply E; apply Z.div_small; lia. }
      rewrite u8_small by lia.
      rewrite IH.
      * rewrite !Z.max_r by (try lia; apply Z.div_le_lower_bound; lia).
        change 2 with (2 ^ 1) at 1. rewrite <- Z.shiftr_div_pow2 by lia.
        rewrite Z.log2_shiftr by lia.
        assert (1 <= Z.log2 v) by (apply Z.log2_le_pow2; simpl; lia).
        lia.
      * split; [apply Z.div_pos; lia|].
        apply Z.div_lt_upper_bound; [lia|].
        rewrite Nat2Z.inj_succ, Z.pow_succ_r in Hv by lia. lia.
      * lia.
      * lia.
Qed.

Lemma number_of_bits_bit_width v : 0 <= v < 2 ^ 16 -> number_of_bits v = bit_width v.
Proof.
  intros Hv. unfold number_of_bits, bit_width.
  rewrite u16_small by assumption.
  rewrite number_of_bits_loop_log2; simpl; lia.
Qed.

Lemma bit_width_bounds v : 0 <= v < 2 ^ 16 -> 1 <= bit_width v <= 16.
Proof.
  intros Hv. unfold bit_width.
  assert (0 <= Z.log2 (Z.max 1 v)) by apply Z.log2_nonneg.
  assert (Z.log2 (Z.max 1 v) < 16) by (apply Z.log2_lt_pow2; lia).
  lia.
Qed.

(** ** C5: the parameters of the length encoder *)

Lemma rd_repeat_last {A} (a : A) (n : Z) :
  0 <= n -> rd (repeat a (Z.to_nat (n + 1))) n = Ret a.
Proof.
  intros Hn. unfold rd. rewrite repeat_length.
  assert ((0 <=? n) && (n <? Z.of_nat (Z.to_nat (n + 1))) = true) as ->
      by (apply andb_true_intro; split; [apply Z.leb_le| apply Z.ltb_lt]; lia).
  destruct (nth_error (repeat a (Z.to_nat (n + 1))) (Z.to_nat n)) eqn:E.
  - apply nth_error_In, repeat_spec in E. now subst.
  - apply nth_error_None in E. rewrite repeat_length in E. lia.
Qed.



Lemma window_nbits_bit_width (w : Z) :
  4 <= w <= 65535 ->
  u8 (number_of_bits (u16 w - 1)) = bit_width (w - 1) /\ 2 <= bit_width (w - 1) <= 16.
Proof.
  intros Hw. rewrite (u16_small w) by lia.
  rewrite number_of_bits_bit_width by lia.
  assert (1 <= bit_width (w - 1) <= 16) by (apply bit_width_bounds; lia).
  assert (1 <= Z.log2 (Z.max 1 (w - 1))).
  { rewrite Z.max_r by lia. apply Z.log2_le_pow2; simpl; lia. }
  unfold bit_width in *. rewrite u8_small by lia. lia.
Qed.












(** ** C2: the length code at a large look-ahead size *)

(** C2 at [W = L = 1032] and the length 9: [min_value] is 2, the length
    can be encoded, its code has 17 bits, and the decoder, given the first
    16 of them, asks for more bits instead of returning the length. *)
Theorem tinyhuff_long_code :
  let enc := encoder_of 1032 1032 in
  min_value enc = 2
  /\ tinyhuff_can_encode enc 9 = true
  /\ tinyhuff_encode enc 9 = Ret (17, 2049)
  /\ tinyhuff_decode enc (peeked16 2049 17) 16 0 = Ret (0, 8).
Proof. vm_compute. repeat split; reflexivity. Qed.

(** The decoder never reports more bits than it was given. *)
Lemma tinyhuff_decode_consumed enc peek plen v0 n v :
  tinyhuff_decode enc peek plen v0 = Ret (n, v) -> n = 0 \/ n <= plen.
Proof.
  unfold tinyhuff_decode. intros H.
  repeat match type of H with
         | bind ?m _ = Ret _ =>
             let E := fresh "E" in destruct m eqn:E; cbn [bind] in H; [|discriminate H]
         | (if ?b then _ else _) = Ret _ => destruct b
         | (let _ := _ in _) = Ret _ => cbv zeta in H
         end;
    injection H as <- <-;
    try (left; reflexivity);
    repeat match goal with
           | A : assert _ = Ret _ |- _ => apply assert_Ret_inv in A
           end;
    right; apply Z.leb_le; assumption.
Qed.

(** No 16 bits make the decoder return that length: it needs
    [6 + diff_nbits = 17] bits and never gets more than 16. *)
Lemma tinyhuff_long_code_any_peek (peek v0 v : Z) :
  tinyhuff_decode (encoder_of 1032 1032) peek 16 v0 <> Ret (17, v).
Proof. intros H. apply tinyhuff_decode_consumed in H. lia. Qed.

(** ** C9: creating an input stream with a look-ahead larger than the window *)

(** C9 at [window_size = 4] and [lookahead_size = 5]: the look-ahead size
    exceeds the window size, and both creation functions return a stream
    instead of failing with [EINVAL]. *)
Theorem ustream_create_lookahead_above_window :
  (exists u, lz77_ustream_from_memory (Some [65; 66]) 2 4 5 true heap_limit = Object u
             /\ us_window_maxsize u = 4 /\ us_lookahead_maxsize u = 5)
  /\ (exists u, lz77_ustream_from_descriptor 3 4 5 [65; 66] true heap_limit = Object u
                /\ us_window_maxsize u = 4 /\ us_lookahead_maxsize u = 5).
Proof. split; eexists; (split; [reflexivity|]); split; reflexivity. Qed.

(** The stream compressed with these parameters is refused by the reader
    side of [cstream_open]: the decompression returns [-1]. *)
Lemma lookahead_above_window_not_decompressed :
  let bytes := header_bytes 4 5 ++ [32; 144; 160; 0] in
  compress_memory [65; 66] 4 5 = Ret (16, bytes)
  /\ decompress_memory bytes 16 = Stop Negative.
Proof. split; vm_compute; reflexivity. Qed.

(** ** C8: malformed phrase tokens *)

(** C8 on these two streams: neither makes [lz77_decompress] return [-1];
    an [assert] fails, in [ustream_save] for the offset and in
    [tinyhuff_decode] for the length. *)
Theorem decompress_malformed_phrase :
  decompress_memory bad_offset_stream 13 = Stop AssertFailed
  /\ decompress_memory bad_length_stream 14 = Stop AssertFailed.
Proof. split; vm_compute; reflexivity. Qed.

(** ** C1: compressing and decompressing *)

(** C1 at [W = 4], [L = 2] and an input of 65536 bytes: [ustream_open]
    stores the size in the 16-bit [lookahead_currsize], which becomes 0;
    the compressor takes the input for empty and the decompressor returns
    no byte at all. *)
Theorem roundtrip_fails_at_65536_bytes :
  let s := repeat 0 (Z.to_nat 65536) in
  let bytes := header_bytes 4 2 ++ [128; 0] in
  compress_memory s 4 2 = Ret (14, bytes)
  /\ decompress_memory bytes 14 = Ret (0, []).
Proof. split; vm_compute; reflexivity. Qed.

(** C1 at [W = L = 1032] and ten equal bytes: the phrase of length 9 is
    written with a 17-bit length code, and the decompressor, which peeks 16
    bits, never gets past it. *)
Lemma roundtrip_fails_at_long_code :
  let s := repeat 97 10 in
  let bytes := header_bytes 1032 1032 ++ [48; 192; 0; 32; 6; 0; 0] in
  compress_memory s 1032 1032 = Ret (19, bytes)
  /\ decompress_memory bytes 19 = Stop Diverges.
Proof. split; vm_compute; reflexivity. Qed.

Example roundtrip_test_explicit :
  roundtrip_ok [66; 66; 65; 65; 65; 66; 66; 67] 4 2 = true
  /\ roundtrip_ok [66; 65; 65; 65; 66; 66; 67; 65] 4 2 = true
  /\ roundtrip_ok [65; 65; 65; 66; 66; 67; 65; 66] 4 2 = true
  /\ roundtrip_ok [89; 65; 90; 65; 66; 67; 68; 69; 70; 71; 72; 73] 8 4 = true
  /\ roundtrip_ok [] 4 2 = true.
Proof. vm_compute. repeat split; reflexivity. Qed.

(** ** Inversion of successful runs *)

Ltac inv_ret H :=
  repeat match type of H with
         | bind ?m _ = Ret _ =>
             let E := fresh "E" in
             destruct m eqn:E; cbn [bind] in H; [|discriminate H]
         | Stop _ = Ret _ => discriminate H
         | (let '(_, _) := ?p in _) = Ret _ => destruct p
         end.

Ltac inv_checks :=
  repeat match goal with
         | A : assert _ = Ret _ |- _ => apply assert_Ret_inv in A
         | A : defined _ = Ret _ |- _ => apply defined_Ret_inv in A
         end.

Ltac cs_simpl :=
  cbn [cs_fd cs_data cs_size cs_pos cs_end cs_cached cs_cached_nbits cs_can_realloc
       cs_is_input cs_window_maxsize cs_lookahead_maxsize cs_processed_bits cs_file cs_os
       cs_heap set_cs_buffer set_cs_cache set_cs_params set_cs_processed_bits set_cs_os
       fst snd] in *.

(** ** C10: the number of processed bits of a writer *)

Lemma be64_bytes_length cached count :
  length (be64_bytes cached count) = Z.to_nat count.
Proof. unfold be64_bytes. rewrite length_map, length_seq. reflexivity. Qed.

(** The loop that writes the buffer out leaves the counters alone. *)
Lemma flush_loop_counters fuel : forall c from count writecount r c',
  flush_loop fuel c from count writecount = Ret (r, c') ->
  cs_cached_nbits c' = cs_cached_nbits c /\ cs_cached c' = cs_cached c
  /\ cs_processed_bits c' = cs_processed_bits c
  /\ cs_is_input c' = cs_is_input c
  /\ cs_fd c' = cs_fd c /\ cs_size c' = cs_size c /\ cs_pos c' = cs_pos c
  /\ cs_end c' = cs_end c /\ cs_data c' = cs_data c
  /\ cs_can_realloc c' = cs_can_realloc c /\ cs_heap c' = cs_heap c
  /\ cs_window_maxsize c' = cs_window_maxsize c
  /\ cs_lookahead_maxsize c' = cs_lookahead_maxsize c
  /\ (r = 0 \/ r = -1).
Proof.
  induction fuel as [|fuel IH]; intros c from count writecount r c' H;
    cbn [flush_loop] in H; [discriminate|].
  destruct (writecount =? count).
  - injection H as <- <-. intuition.
  - cbv zeta in H. destruct (transferred (cs_os c) count <? 0).
    + injection H as <- <-. cs_simpl. intuition.
    + destruct (slice _ _ _) as [sent|]; cbn [bind] in H; [|discriminate].
      apply IH in H. cs_simpl. exact H.
Qed.

Lemma cstream_make_room_counters c nbytes r c' :
  cstream_make_room c nbytes = Ret (r, c') ->
  cs_cached_nbits c' = cs_cached_nbits c /\ cs_cached c' = cs_cached c
  /\ cs_processed_bits c' = cs_processed_bits c
  /\ cs_is_input c' = cs_is_input c
  /\ (r = 0 \/ r = -1).
Proof.
  unfold cstream_make_room. intros H.
  destruct (cs_size c <? cs_end c / 8 + nbytes); [|injection H as <- <-; intuition].
  destruct (0 <=? cs_fd c).
  - destruct (flush_loop _ _ _ _ _) as [[r0 c0]|] eqn:F; cbn [bind fst snd] in H;
      [|discriminate].
    apply flush_loop_counters in F. destruct F as (F1 & F2 & F3 & F4 & _).
    destruct (r0 <? 0); injection H as <- <-; cs_simpl; intuition.
  - repeat match type of H with
           | (if ?b then _ else _) = _ => destruct b
           end;
      injection H as <- <-; cs_simpl; intuition.
Qed.

Lemma cstream_write_counters c bytes r c' :
  cstream_write c bytes = Ret (r, c') ->
  Z.of_nat (length bytes) < 2 ^ 32 ->
  cs_cached_nbits c' = cs_cached_nbits c
  /\ cs_cached c' = cs_cached c
  /\ cs_is_input c' = cs_is_input c
  /\ (r = 0 \/ r = -1)
  /\ (r = 0 -> cs_processed_bits c' = u64 (cs_processed_bits c + Z.of_nat (length bytes) * 8)).
Proof.
  unfold cstream_write. intros H Hlen.
  rewrite (u32_small (Z.of_nat (length bytes))) in H by lia.
  inv_ret H.
  match goal with
  | A : cstream_make_room _ _ = Ret ?x |- _ =>
      destruct x as [res c0]; apply cstream_make_room_counters in A;
      destruct A as (K1 & K2 & K3 & K4 & K5)
  end.
  cbn [fst snd] in H.
  destruct K5 as [-> | ->]; cbn [Z.ltb Z.compare] in H.
  - inv_ret H. injection H as <- <-. cs_simpl. rewrite K1, K2, K3, K4. intuition.
  - injection H as <- <-. intuition; discriminate.
Qed.







Lemma fresh_writer_fields c :
  fresh_writer c ->
  cs_is_input c = 0 /\ cs_pos c = 0 /\ cs_end c = 0 /\ cs_data c = [] /\ cs_file c = []
  /\ cs_cached c = 0 /\ cs_cached_nbits c = 0 /\ cs_processed_bits c = 0.
Proof.
  intros (from & heap & [(dn & size & cr & H) | (fd & os & H)]).
  - unfold lz77_cstream_to_memory in H. cbn [negb] in H. injection H as <-.
    cbn. intuition.
  - unfold lz77_cstream_to_descriptor in H. destruct (fd <? 0); [discriminate|].
    cbn [negb] in H. injection H as <-. cbn. intuition.
Qed.

Lemma cstream_open_writer c0 c1 :
  cs_is_input c0 = 0 ->
  cstream_open c0 = Ret (0, c1) ->
  cstream_write c0 (header_bytes (cs_window_maxsize c0) (cs_lookahead_maxsize c0))
  = Ret (0, c1).
Proof.
  intros Hin H. unfold cstream_open in H. rewrite Hin in H.
  cbn [Z.eqb negb] in H. inv_ret H.
  match goal with
  | A : cstream_write _ _ = Ret ?x |- _ =>
      destruct x as [r c]; pose proof A as A';
      apply cstream_write_counters in A'; [|cbn; lia]
  end.
  cbn [fst snd] in H. destruct A' as (_ & _ & _ & [-> | ->] & _); cbn in H.
  - exact H.
  - discriminate.
Qed.


(** ** C6: the header of the compressed output *)

Lemma extends_refl c : extends c c.
Proof. exists []. now rewrite app_nil_r. Qed.

Lemma extends_trans c1 c2 c3 : extends c1 c2 -> extends c2 c3 -> extends c1 c3.
Proof.
  intros [e1 H1] [e2 H2]. exists (e1 ++ e2). now rewrite H2, H1, app_assoc.
Qed.

Lemma store_bytes_append bytes : forall d,
  store_bytes d (Z.of_nat (length d)) bytes = Ret (d ++ bytes).
Proof.
  induction bytes as [|b bytes IH]; intros d; cbn [store_bytes].
  - now rewrite app_nil_r.
  - unfold store. rewrite Z.eqb_refl. cbn [bind].
    replace (Z.of_nat (length d) + 1) with (Z.of_nat (length (d ++ [b])))
      by (rewrite length_app; cbn; lia).
    rewrite IH, <- app_assoc. reflexivity.
Qed.

Lemma slice_all d n :
  n = Z.of_nat (length d) -> slice d 0 n = Ret d.
Proof.
  intros ->. unfold slice.
  replace ((0 <=? 0) && (0 <=? Z.of_nat (length d))
           && (0 + Z.of_nat (length d) <=? Z.of_nat (length d))) with true.
  - cbn [defined bind]. rewrite Nat2Z.id. cbn [Z.to_nat skipn].
    now rewrite firstn_all.
  - symmetry. rewrite !andb_true_iff, !Z.leb_le. lia.
Qed.

Lemma u32_le_limit z : u32 z <= heap_limit.
Proof.
  unfold u32, heap_limit.
  pose proof (Z.mod_pos_bound z (2 ^ 32) ltac:(lia)). lia.
Qed.

Lemma cstream_make_room_output c nbytes r c' :
  writer_ok c -> 0 <= nbytes < 2 ^ 32 ->
  cstream_make_room c nbytes = Ret (r, c') ->
  (r = -1 /\ c' = c)
  \/ (r = 0 /\ output c' = output c
      /\ cs_end c' = 8 * Z.of_nat (length (cs_data c'))
      /\ 0 <= cs_size c' < 2 ^ 32
      /\ cs_is_input c' = 0 /\ heap_limit <= cs_heap c' /\ cs_fd c' < 0).
Proof.
  intros (Hend & Hsz & Hin & Hheap & Hfd) Hn. unfold cstream_make_room.
  assert (cs_end c / 8 = Z.of_nat (length (cs_data c))) as Hdiv
      by (rewrite Hend, Z.mul_comm, Z.div_mul; lia).
  rewrite Hdiv.
  destruct (cs_size c <? Z.of_nat (length (cs_data c)) + nbytes).
  - destruct (Z.leb_spec 0 (cs_fd c)) as [C|_]; [lia|].
    + destruct (cs_can_realloc c =? 0).
      * intros [= <- <-]. left. split; reflexivity.
      * match goal with
        | |- context [cs_heap c <? ?x] =>
            assert (0 <= x <= heap_limit) as Hx
              by (repeat match goal with
                         | |- context [if ?b then _ else _] => destruct b
                         end;
                  first [ split; [apply Z.mod_pos_bound; lia | apply u32_le_limit]
                        | unfold heap_limit; lia ]);
            destruct (Z.ltb_spec (cs_heap c) x) as [C|_]; [lia|]
        end.
        intros [= <- <-]. right. unfold output. cs_simpl. unfold heap_limit in Hx.
        repeat split; try assumption; try lia.
  - intros [= <- <-]. right. repeat split; try assumption; try lia.
Qed.

Lemma cstream_write_output c bytes r c' :
  writer_ok c -> Z.of_nat (length bytes) < 2 ^ 32 ->
  cstream_write c bytes = Ret (r, c') ->
  (r = -1 /\ c' = c)
  \/ (r = 0 /\ output c' = output c ++ bytes /\ writer_ok c').
Proof.
  intros Hok Hlen. unfold cstream_write.
  rewrite (u32_small (Z.of_nat (length bytes))) by lia.
  intros H. inv_ret H.
  match goal with
  | A : cstream_make_room _ _ = Ret ?x |- _ =>
      destruct x as [r0 c0]; apply cstream_make_room_output in A; [|assumption|lia]
  end.
  cbn [fst snd] in H.
  destruct E1 as [(-> & ->) | (-> & Hout & Hend & Hsz & Hin & Hheap & Hfd)].
  - cbn in H. injection H as <- <-. left. split; reflexivity.
  - cbn [Z.ltb Z.compare] in H. inv_ret H. inv_checks. injection H as <- <-. right.
    assert (cs_end c0 / 8 = Z.of_nat (length (cs_data c0))) as Hdiv
        by (rewrite Hend, Z.mul_comm, Z.div_mul; lia).
    rewrite Hdiv in *.
    match goal with
    | A : store_bytes _ _ _ = Ret _ |- _ => rewrite store_bytes_append in A; injection A as <-
    end.
    match goal with
    | A : (_ <=? _) = true |- _ => apply Z.leb_le in A
    end.
    unfold output, writer_ok in *. cs_simpl.
    rewrite length_app, app_assoc, Hout.
    rewrite u64_small by lia.
    repeat split; try assumption; try lia.
Qed.

Lemma writer_ok_cache c cached nbits :
  writer_ok c -> writer_ok (set_cs_cache c cached nbits)
                 /\ output (set_cs_cache c cached nbits) = output c.
Proof. intros H. split; [exact H | reflexivity]. Qed.

Lemma cstream_flush_cache_output c nbits r c' :
  writer_ok c -> 0 <= cs_cached_nbits c <= 64 ->
  cstream_flush_cache c nbits = Ret (r, c') ->
  writer_ok c' /\ extends c c'
  /\ 0 <= cs_cached_nbits c' <= cs_cached_nbits c
  /\ (64 < cs_cached_nbits c + nbits -> cs_cached_nbits c' < 8).
Proof.
  intros Hok Hc. unfold cstream_flush_cache.
  destruct (Z.ltb_spec 64 (cs_cached_nbits c + nbits)) as [Hfl|Hfl].
  - intros F. inv_ret F. inv_checks. injection F as <- <-.
    match goal with
    | A : cstream_write _ _ = Ret ?x |- _ =>
        destruct x as [r0 c0]; pose proof A as W;
        apply cstream_write_counters in W;
        [apply cstream_write_output in A; [rename A into O|assumption|]|]
    end.
    + cs_simpl. destruct W as (K1 & _).
      assert (writer_ok c0 /\ extends c c0) as [Hok0 Hext].
      { destruct O as [(_ & ->) | (_ & Hout & Hok0)].
        - split; [assumption | apply extends_refl].
        - split; [assumption | eexists; eassumption]. }
      pose proof (Z.mod_pos_bound (cs_cached_nbits c) 8 ltac:(lia)).
      pose proof (Z.mod_le (cs_cached_nbits c) 8 ltac:(lia) ltac:(lia)).
      rewrite K1. rewrite u8_small by lia.
      split; [exact Hok0|]. split; [exact Hext|]. lia.
    + rewrite be64_bytes_length.
      assert (0 <= cs_cached_nbits c / 8 <= 8)
        by (split; [apply Z.div_pos; lia | apply Z.div_le_upper_bound; lia]).
      lia.
    + rewrite be64_bytes_length.
      assert (0 <= cs_cached_nbits c / 8 <= 8)
        by (split; [apply Z.div_pos; lia | apply Z.div_le_upper_bound; lia]).
      lia.
  - intros [= <- <-]. split; [assumption|]. split; [apply extends_refl|]. lia.
Qed.

Lemma cstream_write_bits_output c reg startbit nbits r c' :
  writer_ok c -> 0 <= cs_cached_nbits c <= 64 ->
  cstream_write_bits c reg startbit nbits = Ret (r, c') ->
  writer_ok c' /\ extends c c' /\ 0 <= cs_cached_nbits c' <= 64.
Proof.
  intros Hok Hc. unfold cstream_write_bits. intros H.
  inv_ret H. inv_checks. injection H as <- <-.
  repeat match goal with
         | A : _ && _ = true |- _ => apply andb_prop in A; destruct A
         | A : (_ <=? _) = true |- _ => apply Z.leb_le in A
         | A : (_ <? _) = true |- _ => apply Z.ltb_lt in A
         end.
  match goal with
  | A : cstream_flush_cache _ _ = Ret ?x |- _ =>
      destruct x as [r0 c0]; apply cstream_flush_cache_output in A;
      [destruct A as (Hok0 & Hext & Hc0 & _)|assumption|assumption]
  end.
  cs_simpl. rewrite u8_small by lia.
  split; [exact Hok0|]. split; [exact Hext|]. lia.
Qed.

Lemma cstream_close_output c r c' :
  writer_ok c -> 0 <= cs_cached_nbits c <= 64 ->
  cstream_close c = Ret (r, c') ->
  extends c c'.
Proof.
  intros Hok Hc. unfold cstream_close. intros H.
  destruct (if 0 <? cs_cached_nbits c then _ else _) as [c1|] eqn:F in H;
    cbn [bind] in H; [|discriminate].
  assert (writer_ok c1 /\ extends c c1) as [Hok1 Hext1].
  { destruct (0 <? cs_cached_nbits c).
    - inv_ret F. injection F as <-.
      match goal with
      | A : cstream_write _ _ = Ret ?x |- _ =>
          destruct x as [r0 c0]; apply cstream_write_output in A; [rename A into O|assumption|]
      end.
      + cs_simpl. destruct O as [(_ & ->) | (_ & Hout & Hok0)].
        * split; [exact Hok | exact (extends_refl c)].
        * split; [exact Hok0 | eexists; exact Hout].
      + rewrite be64_bytes_length.
        assert (0 <= (cs_cached_nbits c + 7) / 8 < 9)
          by (split; [apply Z.div_pos; lia | apply Z.div_lt_upper_bound; lia]).
        lia.
    - injection F as <-. split; [assumption | apply extends_refl]. }
  destruct Hok1 as (_ & _ & _ & _ & Hfd).
  destruct (Z.leb_spec 0 (cs_fd c1)) as [C|_]; [lia|].
  cbn [andb] in H. injection H as _ <-. exact Hext1.
Qed.

Lemma compress_loop_output fuel : forall u c offset length_ next u' c',
  compress_loop fuel u c offset length_ next = Ret (u', c') ->
  writer_ok c -> 0 <= cs_cached_nbits c <= 64 ->
  writer_ok c' /\ extends c c' /\ 0 <= cs_cached_nbits c' <= 64.
Proof.
  induction fuel as [|fuel IH]; intros u c offset length_ next u' c' H Hok Hc;
    cbn [compress_loop] in H; [discriminate|].
  destruct (ustream_find_and_advance u offset length_ next) as [[[count cells] u1]|];
    cbn [bind] in H; [|discriminate].
  destruct cells as [[offset1 length1] next1].
  destruct (0 <? count).
  - destruct (make_token u1 offset1 length1 next1) as [[token tbits]|];
      cbn [bind] in H; [|discriminate].
    destruct (cstream_write_bits c token (u16 (64 - tbits)) tbits) as [[r c1]|] eqn:W;
      cbn [bind] in H; [|discriminate].
    destruct (r <? 0); [discriminate|].
    apply cstream_write_bits_output in W; [|assumption|assumption].
    destruct W as (Hok1 & Hext1 & Hc1).
    apply IH in H; [|assumption|assumption].
    destruct H as (Hok' & Hext' & Hc').
    split; [assumption|]. split; [eapply extends_trans; eassumption | assumption].
  - injection H as <- <-. split; [assumption|]. split; [apply extends_refl | assumption].
Qed.

Lemma fresh_writer_ok c :
  fresh_writer c -> heap_limit <= cs_heap c -> cs_fd c < 0 -> writer_ok c.
Proof.
  intros (from & heap & [(dn & size & cr & H) | (fd & os & H)]) Hheap Hfd.
  - unfold lz77_cstream_to_memory in H. cbn [negb] in H. injection H as <-.
    unfold writer_ok. cs_simpl. cbn [length].
    pose proof (Z.mod_pos_bound size (2 ^ 32) ltac:(lia)).
    unfold u32. destruct dn; repeat split; try assumption; try lia.
  - unfold lz77_cstream_to_descriptor in H. destruct (Z.ltb_spec fd 0); [discriminate|].
    cbn [negb] in H. injection H as <-. cs_simpl. lia.
Qed.

Lemma header_bytes_spelled (w l : Z) :
  0 <= w -> 0 <= l ->
  header_bytes w l
  = [76; 90; 55; 55; 16; 0; 0; 0; w / 256; w mod 256; l / 256; l mod 256].
Proof.
  intros Hw Hl. unfold header_bytes, magic, LZ77PPM_VERSION. cbn [app].
  rewrite !Z.shiftr_div_pow2 by lia.
  change 255 with (Z.ones 8). rewrite !Z.land_ones by lia.
  reflexivity.
Qed.

(** Whenever [lz77_compress] into a memory stream returns a count and no
    [realloc] was refused, the bytes in the buffer begin with the 12 bytes
    of the header: ["LZ77"], the version [0x10], three zero bytes, [W] and
    [L] as big-endian 16-bit integers. *)
Lemma compress_memory_header original compressed n u c :
  fresh_writer compressed ->
  heap_limit <= cs_heap compressed -> cs_fd compressed < 0 ->
  0 <= cs_window_maxsize compressed -> 0 <= cs_lookahead_maxsize compressed ->
  lz77_compress original compressed = Ret (n, u, c) ->
  let w := cs_window_maxsize compressed in
  let l := cs_lookahead_maxsize compressed in
  firstn 12 (output c)
  = [76; 90; 55; 55; 16; 0; 0; 0; w / 256; w mod 256; l / 256; l mod 256].
Proof.
  intros Hfresh Hheap Hfd Hw Hl H w l.
  pose proof (fresh_writer_ok _ Hfresh Hheap Hfd) as Hok.
  destruct (fresh_writer_fields _ Hfresh) as (Hin & _ & _ & Hdata & Hfile & _ & Hcn & _).
  unfold lz77_compress in H.
  destruct (ustream_open original compressed) as [u0|]; cbn [bind] in H; [|discriminate].
  destruct (cstream_open compressed) as [[r c1]|] eqn:O; cbn [bind] in H; [|discriminate].
  destruct (Z.ltb_spec r 0) as [Hr|Hr]; [discriminate|].
  assert (r = 0) as ->.
  { unfold cstream_open in O. rewrite Hin in O. cbn [Z.eqb negb] in O. inv_ret O.
    match goal with A : context [fst ?x <? 0] |- _ => destruct (fst x <? 0) end;
      injection O as <- _; lia. }
  apply cstream_open_writer in O; [|assumption].
  pose proof O as O'. apply cstream_write_counters in O'; [|cbn; lia].
  destruct O' as (Kc & _).
  apply cstream_write_output in O; [|assumption|cbn; lia].
  destruct O as [(C & _) | (_ & Hout & Hok1)]; [discriminate|].
  unfold output at 2 in Hout. rewrite Hdata, Hfile in Hout. cbn [app] in Hout.
  destruct (compress_loop _ u0 c1 0 0 0) as [[u1 c2]|] eqn:L; cbn [bind] in H; [|discriminate].
  apply compress_loop_output in L; [|assumption|lia].
  destruct L as (Hok2 & Hext2 & Hc2).
  destruct (tinyhuff_encode _ 0) as [[tbits len]|]; cbn [bind] in H; [|discriminate].
  destruct (cstream_write_bits c2 _ _ _) as [[r3 c3]|] eqn:W; cbn [bind] in H; [|discriminate].
  destruct (r3 <? 0); [discriminate|].
  apply cstream_write_bits_output in W; [|assumption|assumption].
  destruct W as (Hok3 & Hext3 & Hc3).
  destruct (ustream_close u1) as [u2|]; cbn [bind] in H; [|discriminate].
  destruct (cstream_close c3) as [[r4 c4]|] eqn:C; cbn [bind] in H; [|discriminate].
  injection H as _ _ <-.
  apply cstream_close_output in C; [|assumption|assumption].
  destruct (extends_trans _ _ _ Hext2 (extends_trans _ _ _ Hext3 C)) as [extra He].
  rewrite He, Hout.
  rewrite header_bytes_spelled by assumption.
  reflexivity.
Qed.

Ltac us_simpl :=
  cbn [us_fd us_data us_size us_end us_can_realloc us_is_input us_window
       us_window_maxsize us_window_currsize us_window_nbits us_lookahead
       us_lookahead_maxsize us_lookahead_currsize us_tree us_length_encoder
       us_processed_bytes us_file us_heap set_us_tree set_us_view set_us_buffer
       set_us_processed_bytes set_us_params fst snd] in *.

(** ** C4: a phrase that runs into the bytes being written *)

Lemma rd_nth (d : list Z) (i b : Z) :
  rd d i = Ret b -> 0 <= i < Z.of_nat (length d) /\ nth (Z.to_nat i) d 0 = b.
Proof.
  unfold rd.
  destruct ((0 <=? i) && (i <? Z.of_nat (length d))) eqn:E; [|discriminate].
  apply andb_prop in E. destruct E as [E1 E2].
  apply Z.leb_le in E1. apply Z.ltb_lt in E2.
  destruct (nth_error d (Z.to_nat i)) eqn:N; [|discriminate].
  intros [= <-]. split; [lia|]. now apply nth_error_nth.
Qed.

(** The byte-by-byte copy appends [n] bytes, and byte [i] is the byte at
    offset [src + i] of the buffer as it stands when bytes [0 .. i - 1]
    have been appended. *)
Lemma copy_bytes_overlap (n : nat) : forall d dst src d',
  dst = Z.of_nat (length d) -> 0 <= src ->
  copy_bytes n d dst src = Ret d' ->
  exists out,
    d' = d ++ out /\ length out = n
    /\ forall i, (i < n)%nat ->
         nth i out 0 = nth (Z.to_nat src + i) (d ++ firstn i out) 0.
Proof.
  induction n as [|n IH]; intros d dst src d' Hdst Hsrc H; cbn [copy_bytes] in H.
  - injection H as <-. exists []. rewrite app_nil_r. repeat split. intros i Hi. lia.
  - destruct (rd d src) as [b|] eqn:R; cbn [bind] in H; [|discriminate].
    unfold store in H. subst dst. rewrite Z.eqb_refl in H. cbn [bind] in H.
    apply rd_nth in R. destruct R as [Hr Hb].
    apply IH in H; [|rewrite length_app; cbn; lia|lia].
    destruct H as (out & -> & Hlen & Hout).
    exists (b :: out). split; [now rewrite <- app_assoc|].
    split; [cbn; now rewrite Hlen|].
    intros [|i] Hi.
    + cbn [nth firstn]. rewrite app_nil_r, Nat.add_0_r. now symmetry.
    + cbn [nth firstn]. rewrite Hout by lia.
      rewrite <- app_assoc. cbn [app].
      f_equal. lia.
Qed.

Lemma ustream_make_room_ok u count u1 :
  output_ok u -> 0 <= us_window_maxsize u ->
  us_window u + us_window_currsize u = us_end u ->
  ustream_make_room u count = Ret u1 ->
  output_ok u1
  /\ us_window u1 + us_window_currsize u1 = us_end u1
  /\ us_window_currsize u1 = us_window_currsize u
  /\ (us_fd u < 0 -> us_data u1 = us_data u /\ us_window u1 = us_window u)
  /\ (0 <= us_fd u ->
      (u1 = u
       \/ us_file u1 ++ us_data u1 = us_file u ++ us_data u /\ us_window u1 = 0)).
Proof.
  intros (Hend & Hwin) Hw Hwe. unfold ustream_make_room.
  destruct (us_size u <? u32 (us_end u + count)).
  - destruct (Z.leb_spec 0 (us_fd u)) as [Hfd|Hfd].
    + intros H. inv_ret H. inv_checks. injection H as <-.
      match goal with A : (_ =? _) = true |- _ => apply Z.eqb_eq in A; rename A into Hfull end.
      unfold slice in *.
      repeat match goal with
             | A : bind (defined ?b) _ = Ret _ |- _ =>
                 let D := fresh "D" in
                 destruct b eqn:D; cbn [defined bind] in A; [|discriminate A];
                 injection A as <-
             end.
      repeat match goal with
             | A : _ && _ = true |- _ => apply andb_prop in A; destruct A
             | A : (_ <=? _) = true |- _ => apply Z.leb_le in A
             end.
      unfold output_ok. us_simpl. cbn [Z.to_nat skipn].
      rewrite length_firstn, length_skipn.
      repeat split; try lia.
      right. split; [|reflexivity].
      rewrite <- app_assoc. f_equal.
      rewrite <- (firstn_skipn (Z.to_nat (us_window u)) (us_data u)) at 3.
      f_equal. apply firstn_all2. rewrite length_skipn. lia.
    + destruct (us_can_realloc u =? 0); [discriminate|].
      destruct (us_heap u <? _); [discriminate|].
      intros [= <-]. unfold output_ok. us_simpl.
      repeat split; try assumption; try lia.
  - intros [= <-]. repeat split; try assumption; try lia. intros; left; reflexivity.
Qed.

(** C4: for a phrase token with [offset + length > wsize], [ustream_save]
    appends exactly [length] bytes to the buffer (as [ustream_make_room]
    left it), and byte [i] is the byte at window position [offset + i] of
    the buffer as it stands after bytes [0 .. i - 1] of the token have been
    written. *)
Theorem ustream_save_overlap u offset length_ next u' :
  output_ok u -> 0 <= us_window_maxsize u -> 0 <= offset -> 0 < length_ ->
  us_window_currsize u < offset + length_ ->
  ustream_save u offset length_ next = Ret u' ->
  exists u1 out,
    ustream_make_room u length_ = Ret u1
    /\ us_data u' = us_data u1 ++ out
    /\ Z.of_nat (length out) = length_
    /\ (forall i, 0 <= i < length_ ->
          nth (Z.to_nat i) out 0
          = nth (Z.to_nat (us_window u1 + offset + i))
                (us_data u1 ++ firstn (Z.to_nat i) out) 0)
    /\ (us_fd u < 0 -> us_data u1 = us_data u /\ us_window u1 = us_window u).
Proof.
  intros Hok Hw Hoff Hlen Hover H. unfold ustream_save in H.
  destruct (Z.eqb_spec length_ 0) as [C|_]; [lia|]. cbn [orb] in H.
  inv_ret H. inv_checks. injection H as <-.
  match goal with
  | A : ustream_make_room _ _ = Ret ?x |- _ => rename x into u1; rename A into M
  end.
  repeat match goal with
         | A : (_ =? _) = true |- _ => apply Z.eqb_eq in A
         | A : (_ <=? _) = true |- _ => apply Z.leb_le in A
         | A : (_ <? _) = true |- _ => apply Z.ltb_lt in A
         end.
  pose proof M as M'.
  apply ustream_make_room_ok in M'; [|assumption|assumption|assumption].
  destruct M' as ((Hend1 & Hwin1) & Hwe1 & Hws1 & Hmem & _).
  match goal with
  | A : ustream_copy _ _ _ _ = Ret ?x |- _ => destruct x as [d len']; rename A into C
  end.
  unfold ustream_copy in C.
  destruct (Z.eqb_spec length_ 0) as [C0|_]; [lia|].
  destruct (Z.leb_spec (us_window u1 + offset + length_) (us_end u1)) as [C1|_]; [lia|].
  inv_ret C. injection C as <- <-.
  match goal with
  | A : copy_bytes _ _ _ _ = Ret _ |- _ =>
      apply copy_bytes_overlap in A; [destruct A as (out & -> & Hlo & Hout)|assumption|lia]
  end.
  exists u1, out. split; [reflexivity|]. us_simpl.
  split; [reflexivity|]. split; [lia|]. split; [|assumption].
  intros i Hi. rewrite Hout by lia. f_equal. lia.
Qed.

(** ** Bits of byte buffers *)

Lemma rd_ok {A} (l : list A) (i : Z) (d : A) :
  0 <= i < Z.of_nat (length l) -> rd l i = Ret (nth (Z.to_nat i) l d).
Proof.
  intros Hi. unfold rd.
  replace ((0 <=? i) && (i <? Z.of_nat (length l))) with true
    by (symmetry; rewrite andb_true_iff, Z.leb_le, Z.ltb_lt; lia).
  destruct (nth_error l (Z.to_nat i)) eqn:N.
  - now rewrite (nth_error_nth _ _ d N).
  - apply nth_error_None in N. lia.
Qed.

Lemma upd_nat_length {A} (l : list A) : forall n a, length (upd_nat l n a) = length l.
Proof. induction l as [|h t IH]; intros [|n] a; cbn; auto. Qed.

Lemma upd_nat_nth {A} (l : list A) : forall n m a d,
  (n < length l)%nat ->
  nth m (upd_nat l n a) d = if Nat.eqb m n then a else nth m l d.
Proof.
  induction l as [|h t IH]; intros [|n] [|m] a d Hn; cbn in *; try lia; try reflexivity.
  apply IH. lia.
Qed.

Lemma wr_ok {A} (l : list A) (i : Z) (a : A) :
  0 <= i < Z.of_nat (length l) -> wr l i a = Ret (upd_nat l (Z.to_nat i) a).
Proof.
  intros Hi. unfold wr.
  replace ((0 <=? i) && (i <? Z.of_nat (length l))) with true
    by (symmetry; rewrite andb_true_iff, Z.leb_le, Z.ltb_lt; lia).
  reflexivity.
Qed.

Lemma div8_bounds p n : 0 <= p < 8 * n -> 0 <= p / 8 < n.
Proof.
  intros Hp. split; [apply Z.div_pos; lia | apply Z.div_lt_upper_bound; lia].
Qed.

Lemma bit_get_ok (l : list Z) (p : Z) :
  0 <= p < 8 * Z.of_nat (length l) ->
  bit_get l p = Ret (Z.b2z (bit l p)).
Proof.
  intros Hp. unfold bit_get, bit, byte_at.
  rewrite Z.quot_div_nonneg, Z.rem_mod_nonneg by lia.
  pose proof (div8_bounds _ _ Hp).
  rewrite (rd_ok l (p / 8) 0) by lia. cbn [bind].
  pose proof (Z.mod_pos_bound p 8 ltac:(lia)).
  change 1 with (Z.ones 1). rewrite Z.land_ones by lia.
  change (2 ^ 1) with 2. rewrite <- Z.bit0_mod.
  rewrite Z.shiftr_spec by lia. reflexivity.
Qed.

Lemma shiftr_128 r : 0 <= r < 8 -> Z.shiftr 128 r = 2 ^ (7 - r).
Proof.
  intros Hr.
  assert (r = 0 \/ r = 1 \/ r = 2 \/ r = 3 \/ r = 4 \/ r = 5 \/ r = 6 \/ r = 7) by lia.
  intuition (subst; reflexivity).
Qed.

Lemma bytes_ok_nth l k : bytes_ok l -> 0 <= byte_at l k < 256.
Proof.
  intros H. unfold byte_at.
  destruct (Nat.lt_ge_cases (Z.to_nat k) (length l)) as [L|L].
  - unfold bytes_ok in H. rewrite Forall_forall in H. apply H. now apply nth_In.
  - rewrite nth_overflow by assumption. lia.
Qed.

Lemma bytes_ok_upd l n b : bytes_ok l -> 0 <= b < 256 -> bytes_ok (upd_nat l n b).
Proof.
  unfold bytes_ok. intros H Hb. revert n.
  induction H as [|h t Hh Ht IH]; intros [|n]; cbn; constructor; auto.
Qed.

Lemma bit_set_ok (l : list Z) (p : Z) :
  0 <= p < 8 * Z.of_nat (length l) ->
  exists l',
    bit_set l p 1 = Ret l' /\ length l' = length l
    /\ (bytes_ok l -> bytes_ok l')
    /\ forall q, 0 <= q -> bit l' q = (q =? p) || bit l q.
Proof.
  intros Hp. unfold bit_set.
  rewrite Z.quot_div_nonneg, Z.rem_mod_nonneg by lia.
  pose proof (div8_bounds _ _ Hp) as Hk.
  pose proof (Z.mod_pos_bound p 8 ltac:(lia)) as Hr.
  rewrite (rd_ok l (p / 8) 0) by lia. cbn [bind Z.eqb negb].
  rewrite wr_ok by lia. eexists. split; [reflexivity|].
  split; [apply upd_nat_length|].
  split.
  - intros Hl. apply bytes_ok_upd; [assumption|]. unfold u8. apply Z.mod_pos_bound. lia.
  - intros q Hq. unfold bit, byte_at.
    rewrite upd_nat_nth by lia.
    pose proof (Z.mod_pos_bound q 8 ltac:(lia)) as Hrq.
    assert (0 <= q / 8) by (apply Z.div_pos; lia).
    destruct (Nat.eqb_spec (Z.to_nat (q / 8)) (Z.to_nat (p / 8))) as [E|E].
    + assert (q / 8 = p / 8) as Eq by lia.
      unfold u8. rewrite Z.mod_pow2_bits_low by lia.
      rewrite Z.lor_spec, shiftr_128 by lia.
      rewrite Z.pow2_bits_eqb by lia.
      rewrite Eq, orb_comm. f_equal.
      pose proof (Z.div_mod q 8 ltac:(lia)). pose proof (Z.div_mod p 8 ltac:(lia)).
      destruct (Z.eqb_spec (7 - p mod 8) (7 - q mod 8)), (Z.eqb_spec q p); try reflexivity; lia.
    + destruct (Z.eqb_spec q p) as [->|]; [contradiction|]. reflexivity.
Qed.

Lemma peek_loop_spec (n : nat) : forall c buf sb i,
  0 <= cs_pos c -> 0 <= i -> 0 <= sb ->
  cs_end c <= 8 * Z.of_nat (length (cs_data c)) ->
  cs_pos c + i + Z.of_nat n <= 2 ^ 31 ->
  sb + i + Z.of_nat n <= 8 * Z.of_nat (length buf) ->
  (forall q, sb + i <= q -> bit buf q = true -> bit (cs_data c) (cs_pos c + q - sb) = true) ->
  let m := peeked c (Z.of_nat n) i in
  exists buf',
    peek_loop n c buf sb i = Ret (i + m, buf')
    /\ length buf' = length buf
    /\ (bytes_ok buf -> bytes_ok buf')
    /\ forall q, 0 <= q ->
         bit buf' q = if (sb + i <=? q) && (q <? sb + i + m)
                      then bit (cs_data c) (cs_pos c + q - sb) else bit buf q.
Proof.
  induction n as [|n IH]; intros c buf sb i Hpos Hi Hsb Hend H31 Hbuf Hpre m.
  - subst m. unfold peeked. cbn [peek_loop].
    replace (Z.max 0 (Z.min (Z.of_nat 0) (cs_end c - cs_pos c - i))) with 0 by lia.
    exists buf. rewrite !Z.add_0_r. repeat split; auto.
    intros q Hq.
    destruct (Z.leb_spec (sb + i) q), (Z.ltb_spec q (sb + i)); cbn; try reflexivity; lia.
  - cbn [peek_loop]. subst m. unfold peeked.
    destruct (Z.ltb_spec (cs_pos c + i) (cs_end c)) as [Hav|Hav].
    + replace (cs_pos c + i <? 2 ^ 31) with true by (symmetry; apply Z.ltb_lt; lia).
      cbn [defined bind].
      rewrite bit_get_ok by lia. cbn [bind].
      assert (exists buf1,
                 (if negb (Z.b2z (bit (cs_data c) (cs_pos c + i)) =? 0)
                  then bit_set buf (sb + i) 1
                  else b' <- bit_get buf (sb + i) ;; assert (b' =? 0) ;;; Ret buf)
                 = Ret buf1
                 /\ length buf1 = length buf
                 /\ (bytes_ok buf -> bytes_ok buf1)
                 /\ forall q, 0 <= q ->
                      bit buf1 q = if q =? sb + i then bit (cs_data c) (cs_pos c + i)
                                   else bit buf q) as (buf1 & -> & Hl1 & Hb1 & Hq1).
      { destruct (bit (cs_data c) (cs_pos c + i)) eqn:B; cbn [Z.b2z Z.eqb negb].
        - destruct (bit_set_ok buf (sb + i)) as (buf1 & E & Hl1 & Hb1 & Hq1); [lia|].
          exists buf1. repeat split; auto.
        - exists buf. rewrite bit_get_ok by lia.
          assert (bit buf (sb + i) = false) as Hz.
          { destruct (bit buf (sb + i)) eqn:B'; [|reflexivity].
            apply Hpre in B'; [|lia].
            replace (cs_pos c + (sb + i) - sb) with (cs_pos c + i) in B' by lia.
            congruence. }
          rewrite Hz. cbn [Z.b2z bind Z.eqb assert]. repeat split; auto.
          intros q Hq. destruct (Z.eqb_spec q (sb + i)) as [->|]; auto. }
      cbn [bind].
      assert (sb + (i + 1) + Z.of_nat n <= 8 * Z.of_nat (length buf1)) as Hbuf1
          by (rewrite Hl1; lia).
      assert (forall q, sb + (i + 1) <= q -> bit buf1 q = true ->
                        bit (cs_data c) (cs_pos c + q - sb) = true) as Hpre1.
      { intros q Hq B. rewrite Hq1 in B by lia.
        destruct (Z.eqb_spec q (sb + i)); [lia|]. apply Hpre; [lia | assumption]. }
      destruct (IH c buf1 sb (i + 1) Hpos ltac:(lia) Hsb Hend ltac:(lia) Hbuf1 Hpre1)
        as (buf' & E & Hl' & Hb' & Hq').
      unfold peeked in E.
      replace (i + Z.max 0 (Z.min (Z.of_nat (S n)) (cs_end c - cs_pos c - i)))
        with (i + 1 + Z.max 0 (Z.min (Z.of_nat n) (cs_end c - cs_pos c - (i + 1)))) by lia.
      exists buf'. split; [exact E|]. split; [congruence|]. split; [auto|].
      intros q Hq. rewrite Hq' by assumption. unfold peeked.
      rewrite Hq1 by assumption.
      set (m' := Z.max 0 (Z.min (Z.of_nat n) (cs_end c - cs_pos c - (i + 1)))).
      replace (Z.max 0 (Z.min (Z.of_nat (S n)) (cs_end c - cs_pos c - i))) with (1 + m') by lia.
      destruct (Z.leb_spec (sb + (i + 1)) q), (Z.ltb_spec q (sb + (i + 1) + m')),
        (Z.leb_spec (sb + i) q), (Z.ltb_spec q (sb + i + (1 + m'))),
        (Z.eqb_spec q (sb + i)); cbn [andb]; try reflexivity; try lia.
      subst q. f_equal. lia.
    + replace (Z.max 0 (Z.min (Z.of_nat (S n)) (cs_end c - cs_pos c - i))) with 0 by lia.
      exists buf. rewrite !Z.add_0_r. repeat split; auto.
      intros q Hq.
      destruct (Z.leb_spec (sb + i) q), (Z.ltb_spec q (sb + i)); cbn; try reflexivity; lia.
Qed.

Lemma bit_zeros k q : bit (repeat 0 k) q = false.
Proof.
  unfold bit, byte_at.
  replace (nth (Z.to_nat (q / 8)) (repeat 0 k) 0) with 0; [apply Z.testbit_0_l|].
  symmetry. destruct (Nat.lt_ge_cases (Z.to_nat (q / 8)) (length (repeat 0 k))) as [L|L].
  - apply (repeat_spec k 0). now apply nth_In.
  - now apply nth_overflow.
Qed.

Lemma bytes_ok_zeros k : bytes_ok (repeat 0 k).
Proof. apply Forall_forall. intros x Hx. apply repeat_spec in Hx. lia. Qed.

Lemma byte_bits_eq a b :
  0 <= a < 256 -> 0 <= b < 256 ->
  (forall j, 0 <= j < 8 -> Z.testbit a j = Z.testbit b j) -> a = b.
Proof.
  intros Ha Hb H. apply Z.bits_inj'. intros j Hj.
  destruct (Z_lt_le_dec j 8) as [L|L]; [apply H; lia|].
  rewrite <- (Z.mod_small a (2 ^ 8)), <- (Z.mod_small b (2 ^ 8)) by (simpl; lia).
  now rewrite !Z.mod_pow2_bits_high by lia.
Qed.

(** Two buffers with the same first [8 * k] bits have the same first [k]
    bytes. *)
Lemma bytes_from_bits (k : nat) (a b : list Z) :
  bytes_ok a -> bytes_ok b -> length a = k -> (k <= length b)%nat ->
  (forall q, 0 <= q < 8 * Z.of_nat k -> bit a q = bit b q) ->
  a = firstn k b.
Proof.
  intros Ha Hb Hla Hlb H.
  apply (nth_ext _ _ 0 0).
  - rewrite length_firstn. lia.
  - intros n Hn. rewrite nth_firstn.
    replace (n <? k)%nat with true by (symmetry; apply Nat.ltb_lt; lia).
    apply byte_bits_eq.
    + pose proof (bytes_ok_nth a (Z.of_nat n) Ha) as K. unfold byte_at in K.
      now rewrite Nat2Z.id in K.
    + pose proof (bytes_ok_nth b (Z.of_nat n) Hb) as K. unfold byte_at in K.
      now rewrite Nat2Z.id in K.
    + intros j Hj.
      specialize (H (8 * Z.of_nat n + (7 - j)) ltac:(lia)).
      unfold bit, byte_at in H.
      replace ((8 * Z.of_nat n + (7 - j)) / 8) with (Z.of_nat n) in H
        by (apply Z.div_unique with (r := 7 - j); lia).
      replace ((8 * Z.of_nat n + (7 - j)) mod 8) with (7 - j) in H
        by (apply Z.mod_unique with (q := Z.of_nat n); lia).
      rewrite Nat2Z.id in H. replace (7 - (7 - j)) with j in H by lia. exact H.
Qed.

(** ** Opening the reader side *)

Lemma cstream_peek_memory c buf sb nbits :
  cs_fd c < 0 -> cs_is_input c <> 0 ->
  cstream_peek c buf sb nbits
  = ('(i, buffer) <- peek_loop (Z.to_nat nbits) c buf sb 0 ;; Ret (i, buffer, c)).
Proof.
  intros Hfd Hin. unfold cstream_peek.
  destruct (Z.eqb_spec (cs_is_input c) 0) as [C|_]; [contradiction|].
  cbn [negb assert bind].
  replace (0 <=? cs_fd c) with false by (symmetry; apply Z.leb_gt; lia).
  rewrite andb_false_r. reflexivity.
Qed.

(** Reading the 96 bits of the header from a memory buffer: with 12 bytes
    or more the header is the first 12 bytes, with fewer the count is not
    96. *)
Lemma cstream_read_header c :
  memory_reader c ->
  (12 <= length (cs_data c))%nat ->
  cstream_read c (repeat 0 12) 0 (12 * 8)
  = Ret (96, firstn 12 (cs_data c),
         set_cs_processed_bits
           (set_cs_buffer c (cs_data c) (cs_size c) (u64 (cs_pos c + 96)) (cs_end c) (cs_file c))
           (u64 (cs_processed_bits c + 96))).
Proof.
  intros (Hfd & Hin & Hpos & Hend & _ & _ & Hok) Hlen.
  unfold cstream_read.
  destruct (Z.eqb_spec (cs_is_input c) 0) as [C|_]; [contradiction|].
  cbn [negb assert bind]. change (12 * 8) with 96.
  change (Z.to_nat 96 + 2)%nat with (S 97). cbn [read_loop].
  rewrite cstream_peek_memory by assumption.
  change (Z.to_nat 96) with 96%nat.
  destruct (peek_loop_spec 96 c (repeat 0 12) 0 0) as (buf' & E & Hl & Hb & Hq).
  { lia. } { lia. } { lia. } { lia. }
  { rewrite Hpos. cbn. lia. }
  { rewrite repeat_length. lia. }
  { intros q _ B. now rewrite bit_zeros in B. }
  unfold peeked in *. rewrite Hpos, Hend in *.
  replace (Z.max 0 (Z.min (Z.of_nat 96) (8 * Z.of_nat (length (cs_data c)) - 0 - 0)))
    with 96 in * by lia.
  rewrite E. cbn [bind Z.add Z.leb Z.compare Z.eqb Pos.eqb orb].
  unfold cstream_consume.
  destruct (Z.eqb_spec (cs_is_input c) 0) as [C|_]; [contradiction|].
  cbn [negb assert bind]. rewrite Hpos, Hend.
  replace (0 + 96 <=? 8 * Z.of_nat (length (cs_data c))) with true
    by (symmetry; apply Z.leb_le; lia).
  cbn [assert bind].
  replace (8 * Z.of_nat (length (cs_data c)) - 0 <? 96) with false
    by (symmetry; apply Z.ltb_ge; lia).
  cbn [bind]. rewrite <- Hend.
  replace buf' with (firstn 12 (cs_data c)); [reflexivity|]. symmetry.
  apply bytes_from_bits.
  - apply Hb, bytes_ok_zeros.
  - assumption.
  - now rewrite Hl, repeat_length.
  - assumption.
  - intros q Hq'. rewrite Hq by lia. rewrite bit_zeros.
    replace ((0 + 0 <=? q) && (q <? 0 + 0 + 96)) with true
      by (symmetry; rewrite andb_true_iff, Z.leb_le, Z.ltb_lt; lia).
    f_equal. lia.
Qed.

Lemma cstream_read_short c :
  memory_reader c ->
  (length (cs_data c) < 12)%nat ->
  exists n buf c', cstream_read c (repeat 0 12) 0 (12 * 8) = Ret (n, buf, c') /\ n <> 96.
Proof.
  intros (Hfd & Hin & Hpos & Hend & _ & _ & Hok) Hlen.
  unfold cstream_read.
  destruct (Z.eqb_spec (cs_is_input c) 0) as [C|_]; [contradiction|].
  cbn [negb assert bind]. change (12 * 8) with 96.
  change (Z.to_nat 96 + 2)%nat with (S (S 96)). cbn [read_loop].
  rewrite cstream_peek_memory by assumption.
  change (Z.to_nat 96) with 96%nat.
  destruct (peek_loop_spec 96 c (repeat 0 12) 0 0) as (buf1 & E1 & Hl1 & Hb1 & Hq1).
  { lia. } { lia. } { lia. } { lia. }
  { rewrite Hpos. cbn. lia. }
  { rewrite repeat_length. lia. }
  { intros q _ B. now rewrite bit_zeros in B. }
  unfold peeked in *. rewrite Hpos, Hend in *.
  set (avail := 8 * Z.of_nat (length (cs_data c))) in *.
  replace (Z.max 0 (Z.min (Z.of_nat 96) (avail - 0 - 0))) with avail in * by lia.
  rewrite E1. cbn [bind Z.add].
  destruct (Z.leb_spec avail 0) as [Hz|Hz].
  - do 3 eexists. split; [reflexivity | lia].
  - destruct (Z.eqb_spec avail 0) as [C|_]; [lia|].
    destruct (Z.eqb_spec avail 96) as [C|_]; [lia|]. cbn [orb].
    rewrite cstream_peek_memory by assumption.
    change (Z.to_nat 96) with 96%nat.
    destruct (peek_loop_spec 96 c buf1 0 0) as (buf2 & E2 & Hl2 & Hb2 & Hq2).
    { lia. } { lia. } { lia. } { lia. }
    { rewrite Hpos. cbn. lia. }
    { rewrite Hl1, repeat_length. lia. }
    { intros q Hq B. rewrite Hq1 in B by lia. rewrite bit_zeros in B.
      rewrite Hpos.
      destruct ((0 + 0 <=? q) && (q <? 0 + 0 + avail)); [exact B | discriminate]. }
    unfold peeked in *. rewrite Hpos, Hend in *. fold avail in E2.
    replace (Z.max 0 (Z.min (Z.of_nat 96) (avail - 0 - 0))) with avail in * by lia.
    rewrite E2. cbn [bind Z.add].
    destruct (Z.leb_spec avail 0) as [C|_]; [lia|].
    rewrite Z.eqb_refl. cbn [orb].
    unfold cstream_consume.
    destruct (Z.eqb_spec (cs_is_input c) 0) as [C|_]; [contradiction|].
    cbn [negb assert bind]. rewrite Hpos, Hend. fold avail.
    replace (0 + avail <=? avail) with true by (symmetry; apply Z.leb_le; lia).
    cbn [assert bind].
    do 3 eexists. split; [reflexivity | lia].
Qed.

Lemma list_eqb_spec a b : reflect (a = b) (list_eqb a b).
Proof. unfold list_eqb. destruct (list_eq_dec Z.eq_dec a b); constructor; assumption. Qed.

Lemma rd_firstn12 (d : list Z) (k : Z) :
  (12 <= length d)%nat -> 0 <= k < 12 ->
  rd (firstn 12 d) k = Ret (byte_at d k).
Proof.
  intros Hlen Hk. rewrite (rd_ok _ _ 0) by (rewrite length_firstn; lia).
  unfold byte_at. rewrite nth_firstn.
  replace (Z.to_nat k <? 12)%nat with true by (symmetry; apply Nat.ltb_lt; lia).
  reflexivity.
Qed.

(** The stream over a buffer of [size] bytes, as
    [lz77_cstream_from_memory] creates it. *)
Lemma from_memory_reader bytes size heap c :
  bytes_ok bytes -> size = Z.of_nat (length bytes) -> size < 2 ^ 32 ->
  lz77_cstream_from_memory (Some bytes) size true heap = Object c ->
  memory_reader c /\ cs_data c = bytes.
Proof.
  intros Hok Hsize Hlt. unfold lz77_cstream_from_memory. cbn [negb]. intros [= <-].
  unfold memory_reader. cs_simpl.
  rewrite (u32_small size), u64_small by lia.
  repeat split; try assumption; lia.
Qed.

Lemma sample_ustream_created :
  lz77_ustream_from_memory (Some [65; 66]) 2 4 2 true heap_limit = Object sample_ustream.
Proof. reflexivity. Qed.

Lemma sample_cstream_created :
  lz77_cstream_to_memory (Some sample_ustream) true 0 1 true heap_limit
  = Object (sample_cstream 4 2).
Proof. reflexivity. Qed.

Lemma sample_reader_created :
  lz77_cstream_from_memory (Some (header_bytes 4 2 ++ [128; 0])) 14 true heap_limit
  = Object sample_reader.
Proof. reflexivity. Qed.

Lemma sample_cstream_fresh : fresh_writer (sample_cstream 4 2).
Proof.
  exists sample_ustream, heap_limit. left. exists true, 0, 1. reflexivity.
Defined.

Lemma ustream_save_overlap_witness :
  exists u' u1 out,
    ustream_save sample_output 0 3 0 = Ret u'
    /\ ustream_make_room sample_output 3 = Ret u1
    /\ us_data u' = us_data u1 ++ out
    /\ Z.of_nat (length out) = 3
    /\ (forall i, 0 <= i < 3 ->
          nth (Z.to_nat i) out 0
          = nth (Z.to_nat (us_window u1 + 0 + i))
                (us_data u1 ++ firstn (Z.to_nat i) out) 0)
    /\ (us_fd sample_output < 0 ->
        us_data u1 = us_data sample_output /\ us_window u1 = us_window sample_output).
Proof.
  eexists.
  assert (ustream_save sample_output 0 3 0 = Ret ?[u']) as H by (vm_compute; reflexivity).
  destruct (ustream_save_overlap sample_output 0 3 0 _
              ltac:(split; [reflexivity | vm_compute; discriminate])
              ltac:(vm_compute; discriminate) ltac:(lia) ltac:(lia)
              ltac:(vm_compute; reflexivity) H) as (u1 & out & K).
  exists u1, out. split; [exact H | exact K].
Defined.

Lemma sample_reader_memory : memory_reader sample_reader.
Proof.
  unfold memory_reader. cbn.
  split; [lia|]. split; [discriminate|]. split; [reflexivity|]. split; [reflexivity|].
  split; [reflexivity|]. split; [reflexivity|].
  unfold bytes_ok, LZ77PPM_VERSION. repeat (constructor; [lia|]). constructor.
Defined.

(** ** The search tree: its shape *)

Lemma UNUSED_value : UNUSED = 65535.
Proof. reflexivity. Qed.

Lemma node_nth (t : list lz77_tree) (i : Z) :
  0 <= i < Z.of_nat (length t) -> node t i = nth (Z.to_nat i) t raw_slot.
Proof. intros Hi. unfold node. rewrite (rd_ok t i raw_slot Hi). reflexivity. Qed.

Lemma rd_range {A} (l : list A) (i : Z) (a : A) :
  rd l i = Ret a -> 0 <= i < Z.of_nat (length l).
Proof.
  unfold rd. destruct ((0 <=? i) && (i <? Z.of_nat (length l))) eqn:E; [|discriminate].
  apply andb_prop in E. destruct E as [E1 E2].
  apply Z.leb_le in E1. apply Z.ltb_lt in E2. lia.
Qed.

Lemma node_outside (t : list lz77_tree) (i : Z) :
  ~ 0 <= i < Z.of_nat (length t) -> node t i = raw_slot.
Proof.
  intros Hi. unfold node. destruct (rd t i) eqn:E; [|reflexivity].
  apply rd_range in E. contradiction.
Qed.

Lemma rd_node (t : list lz77_tree) (i : Z) (n : lz77_tree) :
  rd t i = Ret n -> 0 <= i < Z.of_nat (length t) /\ n = node t i.
Proof. intros H. split; [eapply rd_range; eassumption|]. unfold node. now rewrite H. Qed.

Lemma wr_node (t : list lz77_tree) (i : Z) (x : lz77_tree) (t' : list lz77_tree) :
  wr t i x = Ret t' ->
  0 <= i < Z.of_nat (length t) /\ length t' = length t
  /\ forall j, node t' j = if j =? i then x else node t j.
Proof.
  unfold wr. destruct ((0 <=? i) && (i <? Z.of_nat (length t))) eqn:E; [|discriminate].
  apply andb_prop in E. destruct E as [E1 E2].
  apply Z.leb_le in E1. apply Z.ltb_lt in E2.
  intros [= <-]. split; [lia|]. split; [apply upd_nat_length|].
  intros j.
  destruct (Z_lt_dec j 0) as [Hj|Hj];
    [|destruct (Z_lt_dec j (Z.of_nat (length t))) as [Hl|Hl]].
  - rewrite !node_outside by (rewrite ?upd_nat_length; lia).
    destruct (Z.eqb_spec j i); [lia|reflexivity].
  - rewrite !node_nth by (rewrite ?upd_nat_length; lia).
    rewrite upd_nat_nth by lia.
    destruct (Z.eqb_spec j i) as [->|N].
    + now rewrite Nat.eqb_refl.
    + destruct (Nat.eqb_spec (Z.to_nat j) (Z.to_nat i)); [lia|reflexivity].
  - rewrite !node_outside by (rewrite ?upd_nat_length; lia).
    destruct (Z.eqb_spec j i); [lia|reflexivity].
Qed.

(** The three field updates, for values that fit 16 bits. *)
Lemma wr_parent_node (t : list lz77_tree) (i v : Z) (t' : list lz77_tree) :
  0 <= v < 65536 -> wr_parent t i v = Ret t' ->
  length t' = length t
  /\ forall j, node t' j =
       if j =? i then {| parent := v; smaller := smaller (node t i); larger := larger (node t i) |}
       else node t j.
Proof.
  intros Hv. unfold wr_parent. intros H.
  destruct (rd t i) as [n|] eqn:E; [|discriminate]. cbn [bind] in H.
  apply rd_node in E. destruct E as [_ ->].
  apply wr_node in H. destruct H as (_ & Hl & Hn). split; [exact Hl|].
  intros j. rewrite Hn. unfold set_parent. rewrite u16_small by (change (2 ^ 16) with 65536; lia).
  reflexivity.
Qed.

Lemma wr_smaller_node (t : list lz77_tree) (i v : Z) (t' : list lz77_tree) :
  0 <= v < 65536 -> wr_smaller t i v = Ret t' ->
  length t' = length t
  /\ forall j, node t' j =
       if j =? i then {| parent := parent (node t i); smaller := v; larger := larger (node t i) |}
       else node t j.
Proof.
  intros Hv. unfold wr_smaller. intros H.
  destruct (rd t i) as [n|] eqn:E; [|discriminate]. cbn [bind] in H.
  apply rd_node in E. destruct E as [_ ->].
  apply wr_node in H. destruct H as (_ & Hl & Hn). split; [exact Hl|].
  intros j. rewrite Hn. unfold set_smaller. rewrite u16_small by (change (2 ^ 16) with 65536; lia).
  reflexivity.
Qed.

Lemma wr_larger_node (t : list lz77_tree) (i v : Z) (t' : list lz77_tree) :
  0 <= v < 65536 -> wr_larger t i v = Ret t' ->
  length t' = length t
  /\ forall j, node t' j =
       if j =? i then {| parent := parent (node t i); smaller := smaller (node t i); larger := v |}
       else node t j.
Proof.
  intros Hv. unfold wr_larger. intros H.
  destruct (rd t i) as [n|] eqn:E; [|discriminate]. cbn [bind] in H.
  apply rd_node in E. destruct E as [_ ->].
  apply wr_node in H. destruct H as (_ & Hl & Hn). split; [exact Hl|].
  intros j. rewrite Hn. unfold set_larger. rewrite u16_small by (change (2 ^ 16) with 65536; lia).
  reflexivity.
Qed.

(** Consequences of the shape. *)
Lemma in_tree_range w t i : in_tree w t i -> 0 <= i < w.
Proof. intros [H _]. exact H. Qed.

Lemma is_node_range w t p : 0 <= w -> is_node w t p -> 0 <= p <= w.
Proof. intros Hw [->|[H _]]; lia. Qed.

Lemma is_node_used w t p : well_formed w t -> is_node w t p -> p <> UNUSED.
Proof.
  intros Hwf Hp. pose proof (wf_size _ _ Hwf).
  apply is_node_range in Hp; [|lia]. rewrite UNUSED_value. lia.
Qed.

Lemma parent_is_node w t i :
  well_formed w t -> in_tree w t i -> is_node w t (parent (node t i)).
Proof. intros Hwf Hi. apply (wf_up _ _ Hwf), Hi. Qed.

Lemma parent_differs w t i :
  well_formed w t -> in_tree w t i -> parent (node t i) <> i.
Proof.
  intros Hwf Hi E. destruct (wf_rank _ _ Hwf) as [rank Hr].
  specialize (Hr i Hi). rewrite E in Hr. lia.
Qed.

Lemma child_in_tree w t p c :
  well_formed w t -> is_node w t p -> c <> UNUSED -> links t p c ->
  in_tree w t c /\ parent (node t c) = p.
Proof. intros Hwf. apply (wf_down _ _ Hwf). Qed.

(** ** [lz77_tree_contract_node] *)

Ltac inv_rd :=
  repeat match goal with
         | A : rd _ _ = Ret _ |- _ =>
             apply rd_node in A; let R := fresh "R" in destruct A as [R A]; try subst
         end.

Lemma child_differs w t i c :
  well_formed w t -> in_tree w t i -> c <> UNUSED -> links t i c ->
  in_tree w t c /\ parent (node t c) = i /\ c <> i /\ c <> parent (node t i).
Proof.
  intros Hwf Hi Hc Hl.
  destruct (wf_down _ _ Hwf i c (or_intror Hi) Hc Hl) as [Hin Hp].
  destruct (wf_rank _ _ Hwf) as [rank Hr].
  pose proof (Hr i Hi) as R1. pose proof (Hr c Hin) as R2. rewrite Hp in R2.
  split; [exact Hin|]. split; [exact Hp|]. split.
  - intros E. rewrite E in R2. lia.
  - intros E. rewrite <- E in R1. lia.
Qed.

Ltac eqb_cases :=
  repeat match goal with
         | |- context [Z.eqb ?a ?b] => destruct (Z.eqb_spec a b); try subst; cbn [andb negb orb]
         end.

Lemma contract_node_exec w t old new t' :
  well_formed w t -> in_tree w t old ->
  lz77_tree_contract_node t old new = Ret t' ->
  new <> old /\ links t old new
  /\ (larger (node t old) = UNUSED \/ smaller (node t old) = UNUSED)
  /\ length t' = length t
  /\ forall j, node t' j =
       if j =? old then
         {| parent := UNUSED; smaller := smaller (node t old); larger := larger (node t old) |}
       else if j =? parent (node t old) then
         let p := node t (parent (node t old)) in
         if larger p =? old
         then {| parent := parent p; smaller := smaller p; larger := new |}
         else {| parent := parent p; smaller := new; larger := larger p |}
       else if (j =? new) && negb (new =? UNUSED) then
         {| parent := parent (node t old); smaller := smaller (node t new);
            larger := larger (node t new) |}
       else node t j.
Proof.
  intros Hwf Hold H. unfold lz77_tree_contract_node in H.
  inv_ret H. inv_checks.
  pose proof (wf_size _ _ Hwf) as Hw.
  pose proof (parent_is_node _ _ _ Hwf Hold) as Hp.
  assert (0 <= parent (node t old) <= w) as Hpr by (apply (is_node_range w t); [lia|exact Hp]).
  pose proof (parent_differs _ _ _ Hwf Hold) as Hpo.
  apply rd_node in E1. destruct E1 as [_ ->].
  apply rd_node in E2. destruct E2 as [_ ->].
  apply negb_true_iff, Z.eqb_neq in E0.
  assert (links t old new) as Hl.
  { apply orb_prop in E4. unfold links. destruct E4 as [A|A]; apply Z.eqb_eq in A; auto. }
  assert (larger (node t old) = UNUSED \/ smaller (node t old) = UNUSED) as Hone.
  { apply orb_prop in E5. destruct E5 as [A|A]; apply Z.eqb_eq in A; auto. }
  split; [exact E0|]. split; [exact Hl|]. split; [exact Hone|].
  destruct (Z.eqb_spec new UNUSED) as [Hn|Hn]; cbn [negb] in E7.
  - injection E7 as <-.
    apply rd_node in E8. destruct E8 as [_ ->].
    assert (length a9 = length t
            /\ forall j, node a9 j =
                 if j =? parent (node t old) then
                   let p := node t (parent (node t old)) in
                   if larger p =? old
                   then {| parent := parent p; smaller := smaller p; larger := new |}
                   else {| parent := parent p; smaller := new; larger := larger p |}
                 else node t j) as [L9 N9].
    { cbv zeta. destruct (larger (node t (parent (node t old))) =? old).
      - apply wr_larger_node in E9; [exact E9 | rewrite Hn, UNUSED_value; lia].
      - apply wr_smaller_node in E9; [exact E9 | rewrite Hn, UNUSED_value; lia]. }
    apply wr_parent_node in H; [|rewrite UNUSED_value; lia].
    destruct H as [L N]. split; [congruence|].
    intros j. rewrite N, !N9.
    destruct (Z.eqb_spec old (parent (node t old))) as [C|_]; [congruence|].
    eqb_cases; try reflexivity; try congruence.
  - destruct (rd t new) as [n|] eqn:E10; [|discriminate]. cbn [bind] in E6.
    inv_checks. apply rd_node in E10. destruct E10 as [Hnr ->].
    apply Z.eqb_eq in E6.
    destruct (child_differs _ _ _ _ Hwf Hold Hn Hl) as (Hnin & _ & _ & Hnp).
    apply wr_parent_node in E7; [|lia]. destruct E7 as [L7 N7].
    apply rd_node in E8. destruct E8 as [_ ->].
    assert (node a7 (parent (node t old)) = node t (parent (node t old))) as Ep.
    { rewrite N7. destruct (Z.eqb_spec (parent (node t old)) new); [congruence|reflexivity]. }
    rewrite Ep in E9.
    assert (length a9 = length a7
            /\ forall j, node a9 j =
                 if j =? parent (node t old) then
                   let p := node t (parent (node t old)) in
                   if larger p =? old
                   then {| parent := parent p; smaller := smaller p; larger := new |}
                   else {| parent := parent p; smaller := new; larger := larger p |}
                 else node a7 j) as [L9 N9].
    { cbv zeta. pose proof (in_tree_range _ _ _ Hnin).
      destruct (larger (node t (parent (node t old))) =? old).
      - apply wr_larger_node in E9; [|lia]. rewrite Ep in E9. exact E9.
      - apply wr_smaller_node in E9; [|lia]. rewrite Ep in E9. exact E9. }
    apply wr_parent_node in H; [|rewrite UNUSED_value; lia].
    destruct H as [L N]. split; [congruence|].
    intros j. rewrite N, !N9, !N7.
    destruct (Z.eqb_spec old (parent (node t old))) as [C|_]; [congruence|].
    destruct (Z.eqb_spec old new) as [C|_]; [congruence|].
    eqb_cases; try reflexivity; try congruence.
Qed.

Lemma contract_node_fields w t old new t' :
  well_formed w t -> in_tree w t old ->
  lz77_tree_contract_node t old new = Ret t' ->
  let p := parent (node t old) in
  length t' = length t
  /\ (forall j, parent (node t' j) =
        if j =? old then UNUSED
        else if (j =? new) && negb (new =? UNUSED) then p
        else parent (node t j))
  /\ (forall q, q <> p ->
        smaller (node t' q) = smaller (node t q) /\ larger (node t' q) = larger (node t q))
  /\ (smaller (node t' p), larger (node t' p)) =
       (if larger (node t p) =? old then (smaller (node t p), new)
        else (new, larger (node t p))).
Proof.
  intros Hwf Hold H p.
  destruct (contract_node_exec _ _ _ _ _ Hwf Hold H) as (Hno & Hl & Hone & Hlen & N).
  pose proof (parent_differs _ _ _ Hwf Hold) as Hpo. fold p in Hpo.
  assert (new <> UNUSED -> new <> p) as Hnp.
  { intros Hn. destruct (child_differs _ _ _ _ Hwf Hold Hn Hl) as (_ & _ & _ & C). exact C. }
  split; [exact Hlen|]. split; [|split].
  - intros j. rewrite N. fold p.
    destruct (Z.eqb_spec j old) as [->|Hjo]; [reflexivity|].
    destruct (Z.eqb_spec j p) as [->|Hjp].
    + destruct (Z.eqb_spec p new) as [E|_].
      * destruct (Z.eqb_spec new UNUSED) as [U|U]; cbn [negb andb].
        -- cbv zeta. destruct (larger (node t p) =? old); reflexivity.
        -- exfalso. apply (Hnp U). congruence.
      * cbn [andb]. cbv zeta. destruct (larger (node t p) =? old); reflexivity.
    + destruct ((j =? new) && negb (new =? UNUSED)); reflexivity.
  - intros q Hq. rewrite N. fold p.
    destruct (Z.eqb_spec q old) as [->|Hqo]; [split; reflexivity|].
    destruct (Z.eqb_spec q p) as [C|_]; [contradiction|].
    destruct (Z.eqb_spec q new) as [->|_]; cbn [andb]; [|split; reflexivity].
    destruct (negb (new =? UNUSED)); split; reflexivity.
  - rewrite N. fold p.
    destruct (Z.eqb_spec p old) as [C|_]; [contradiction|].
    rewrite Z.eqb_refl. cbv zeta. fold p.
    destruct (larger (node t p) =? old); reflexivity.
Qed.

(** Contracting a node that has at most the child [new] takes it out of the
    tree and leaves the rest of the tree in shape. *)
Lemma contract_node_ok w t old new t' :
  well_formed w t -> in_tree w t old ->
  (forall c, links t old c -> c = new \/ c = UNUSED) ->
  lz77_tree_contract_node t old new = Ret t' ->
  well_formed w t' /\ forall s, in_tree w t' s <-> in_tree w t s /\ s <> old.
Proof.
  intros Hwf Hold Honly H.
  destruct (contract_node_exec _ _ _ _ _ Hwf Hold H) as (Hno & Hl & _ & _ & _).
  destruct (contract_node_fields _ _ _ _ _ Hwf Hold H) as (Hlen & P & C & Cp).
  cbv zeta in *.
  set (p := parent (node t old)) in *.
  pose proof (wf_size _ _ Hwf) as Hw.
  pose proof (parent_differs _ _ _ Hwf Hold) as Hpo. fold p in Hpo.
  destruct (wf_up _ _ Hwf old Hold) as [Hp Hpl]. fold p in Hp, Hpl.
  assert (old <> UNUSED /\ old <> w) as [HoU How]
      by (destruct Hold as [? _]; rewrite UNUSED_value; lia).
  assert (new <> UNUSED -> in_tree w t new /\ parent (node t new) = old /\ new <> p) as Hnew.
  { intros Hn. destruct (child_differs _ _ _ _ Hwf Hold Hn Hl) as (A & B & _ & D). auto. }
  (* membership *)
  assert (forall s, in_tree w t' s <-> in_tree w t s /\ s <> old) as Hmem.
  { intros s. unfold in_tree. rewrite P.
    destruct (Z.eqb_spec s old) as [->|Hso]; [tauto|].
    destruct (Z.eqb_spec s new) as [->|Hsn]; cbn [andb].
    - destruct (Z.eqb_spec new UNUSED) as [U|U]; cbn [negb]; [tauto|].
      destruct (Hnew U) as ([_ A] & _).
      pose proof (is_node_used _ _ _ Hwf Hp). tauto.
    - tauto. }
  assert (forall q, is_node w t' q <-> is_node w t q /\ q <> old) as Hnode.
  { intros q. unfold is_node. rewrite Hmem. intuition congruence. }
  (* the children of the parent *)
  assert (smaller (node t p) <> larger (node t p)) as Hdiff.
  { intros E. pose proof (wf_sides _ _ Hwf p Hp E) as U.
    destruct Hpl as [A|A]; congruence. }
  assert (forall c, links t' p c <-> c = new \/ (links t p c /\ c <> old)) as Lp.
  { intros c. unfold links in *.
    destruct (Z.eqb_spec (larger (node t p)) old) as [E|E]; injection Cp as -> ->.
    - split; [intros [<-|<-]; [right; split; [auto|congruence] | auto] |].
      intros [->|[[A|A] B]]; [auto | auto | congruence].
    - assert (smaller (node t p) = old) as E' by (destruct Hpl; congruence).
      split; [intros [<-|<-]; [auto | right; split; [auto|congruence]] |].
      intros [->|[[A|A] B]]; [auto | congruence | auto]. }
  assert (forall q c, q <> p -> (links t' q c <-> links t q c)) as Lq.
  { intros q c Hq. unfold links. destruct (C q Hq) as [-> ->]. tauto. }
  split; [|exact Hmem].
  constructor.
  - exact Hw.
  - rewrite Hlen. apply (wf_length _ _ Hwf).
  - (* up *)
    intros i Hi. apply Hmem in Hi. destruct Hi as [Hi Hio].
    rewrite P. destruct (Z.eqb_spec i old) as [C0|_]; [contradiction|].
    destruct (Z.eqb_spec i new) as [->|Hin]; cbn [andb].
    + destruct (Z.eqb_spec new UNUSED) as [U|U]; cbn [negb].
      * exfalso. destruct Hi as [Hr _]. rewrite U, UNUSED_value in Hr. lia.
      * split; [apply Hnode; auto | apply Lp; auto].
    + destruct (wf_up _ _ Hwf i Hi) as [Hq Hql].
      assert (parent (node t i) <> old) as Hqo.
      { intros E. rewrite E in Hql. destruct (Honly _ Hql) as [A|A]; [congruence|].
        destruct Hi as [Hr _]. rewrite A, UNUSED_value in Hr. lia. }
      split; [apply Hnode; auto|].
      destruct (Z.eq_dec (parent (node t i)) p) as [E|E].
      * rewrite E in *. apply Lp. auto.
      * apply Lq; assumption.
  - (* down *)
    intros q c Hq Hc Hqc. apply Hnode in Hq. destruct Hq as [Hq Hqo].
    assert (forall c, c <> old -> c <> new -> parent (node t' c) = parent (node t c)) as Po.
    { intros c0 A B. rewrite P.
      destruct (Z.eqb_spec c0 old); [contradiction|].
      destruct (Z.eqb_spec c0 new); [contradiction|reflexivity]. }
    assert (new <> UNUSED -> parent (node t' new) = p) as Pn.
    { intros U. rewrite P. destruct (Z.eqb_spec new old); [contradiction|].
      rewrite Z.eqb_refl. destruct (Z.eqb_spec new UNUSED); [contradiction|reflexivity]. }
    destruct (Z.eq_dec q p) as [->|Hqp].
    + apply Lp in Hqc. destruct Hqc as [->|[A B]].
      * destruct (Hnew Hc) as (A & B & D). split; [apply Hmem; auto | auto].
      * destruct (wf_down _ _ Hwf p c Hp Hc A) as [A1 A2].
        split; [apply Hmem; auto|]. rewrite Po; [exact A2 | exact B |].
        intros ->. destruct (Hnew Hc) as (_ & B' & _). congruence.
    + apply Lq in Hqc; [|exact Hqp].
      destruct (wf_down _ _ Hwf q c Hq Hc Hqc) as [A1 A2].
      assert (c <> old) as Hco by (intros ->; fold p in A2; congruence).
      split; [apply Hmem; auto|]. rewrite Po; [exact A2 | exact Hco |].
      intros ->. destruct (Hnew Hc) as (_ & B' & _). congruence.
  - (* sides *)
    intros q Hq. apply Hnode in Hq. destruct Hq as [Hq Hqo].
    destruct (Z.eq_dec q p) as [->|Hqp].
    + assert (smaller (node t' p) = larger (node t' p) -> new = UNUSED) as Hu.
      { destruct (Z.eqb_spec (larger (node t p)) old) as [E|E]; injection Cp as -> ->;
          intros E'; destruct (Z.eq_dec new UNUSED) as [U|U]; try exact U; exfalso;
          destruct (Hnew U) as (_ & B & D);
          (assert (links t p new) as Hl' by (unfold links; auto));
          destruct (wf_down _ _ Hwf p new Hp U Hl') as [_ A2]; congruence. }
      intros E. pose proof (Hu E) as U.
      destruct (Z.eqb_spec (larger (node t p)) old); injection Cp as A B; congruence.
    + destruct (C q Hqp) as [-> ->]. apply (wf_sides _ _ Hwf q Hq).
  - (* rank *)
    destruct (wf_rank _ _ Hwf) as [rank Hr]. exists rank.
    intros i Hi. apply Hmem in Hi. destruct Hi as [Hi Hio].
    rewrite P. destruct (Z.eqb_spec i old) as [C0|_]; [contradiction|].
    destruct (Z.eqb_spec i new) as [->|Hin]; cbn [andb]; [|apply Hr, Hi].
    destruct (Z.eqb_spec new UNUSED) as [U|U]; cbn [negb]; [apply Hr, Hi|].
    destruct (Hnew U) as (A & B & D).
    pose proof (Hr new A) as R1. pose proof (Hr old Hold) as R2.
    rewrite B in R1. fold p in R2. lia.
Qed.

(** ** [lz77_tree_replace_node] *)

Lemma replace_node_exec w t old new t' :
  well_formed w t -> in_tree w t old -> 0 <= new < w ->
  lz77_tree_replace_node t old new = Ret t' ->
  let p := parent (node t old) in
  let cs := smaller (node t old) in
  let cl := larger (node t old) in
  parent (node t new) = UNUSED
  /\ length t' = length t
  /\ forall j, node t' j =
       if j =? old then {| parent := UNUSED; smaller := cs; larger := cl |}
       else if (j =? cl) && negb (cl =? UNUSED) then
         {| parent := new; smaller := smaller (node t cl); larger := larger (node t cl) |}
       else if (j =? cs) && negb (cs =? UNUSED) then
         {| parent := new; smaller := smaller (node t cs); larger := larger (node t cs) |}
       else if j =? new then node t old
       else if j =? p then
         if smaller (node t p) =? old
         then {| parent := parent (node t p); smaller := new; larger := larger (node t p) |}
         else {| parent := parent (node t p); smaller := smaller (node t p); larger := new |}
       else node t j.
Proof.
  intros Hwf Hold Hnew H p cs cl. unfold lz77_tree_replace_node in H.
  inv_ret H. inv_checks.
  pose proof (wf_size _ _ Hwf) as Hw.
  apply negb_true_iff, Z.eqb_neq in E0, E1.
  apply rd_node in E2. destruct E2 as [_ ->]. apply Z.eqb_eq in E3.
  apply rd_node in E4. destruct E4 as [_ ->]. fold p in E5.
  pose proof (parent_is_node _ _ _ Hwf Hold) as Hp. fold p in Hp.
  pose proof (parent_differs _ _ _ Hwf Hold) as Hpo. fold p in Hpo.
  pose proof (is_node_used _ _ _ Hwf Hp) as HpU.
  assert (~ is_node w t new) as Hnn.
  { intros [A|[_ A]]; [clear - A Hnew; lia | contradiction]. }
  assert (p <> new) as Hpn by (intros A; apply Hnn; rewrite <- A; exact Hp).
  assert (forall c, c <> UNUSED -> links t old c ->
                    c <> old /\ c <> new /\ c <> p /\ 0 <= c < 65536) as Hch.
  { intros c Hc Hl. destruct (child_differs _ _ _ _ Hwf Hold Hc Hl) as (A & B & C & D).
    pose proof (in_tree_range _ _ _ A) as Hr.
    split; [exact C|]. split; [intros ->; apply Hnn; right; exact A|].
    split; [exact D|]. clear - Hw Hr. lia. }
  assert (cs <> UNUSED -> cs <> old /\ cs <> new /\ cs <> p /\ 0 <= cs < 65536) as Hcs
      by (intros A; apply Hch; [exact A | left; reflexivity]).
  assert (cl <> UNUSED -> cl <> old /\ cl <> new /\ cl <> p /\ 0 <= cl < 65536) as Hcl
      by (intros A; apply Hch; [exact A | right; reflexivity]).
  assert (cs <> UNUSED -> cl <> UNUSED -> cs <> cl) as Hsl.
  { intros A B E'. apply A. apply (wf_sides _ _ Hwf old (or_intror Hold) E'). }
  (* the link of the parent *)
  destruct (Z.eqb_spec p UNUSED) as [C|_]; [contradiction|].
  destruct (rd t p) as [pn|] eqn:E12; [|discriminate]. cbn [bind] in E5.
  apply rd_node in E12. destruct E12 as [_ ->].
  assert (length a5 = length t
          /\ forall j, node a5 j =
               if j =? p then
                 if smaller (node t p) =? old
                 then {| parent := parent (node t p); smaller := new; larger := larger (node t p) |}
                 else {| parent := parent (node t p); smaller := smaller (node t p); larger := new |}
               else node t j) as [L5 N5].
  { destruct (smaller (node t p) =? old).
    - apply wr_smaller_node in E5; [exact E5 | clear - Hw Hnew; lia].
    - apply wr_larger_node in E5; [exact E5 | clear - Hw Hnew; lia]. }
  clear E5.
  (* the copy *)
  apply rd_node in E6. destruct E6 as [_ ->].
  assert (node a5 old = node t old) as E5o.
  { rewrite N5. destruct (Z.eqb_spec old p); [congruence|reflexivity]. }
  rewrite E5o in E7.
  apply wr_node in E7. destruct E7 as (_ & L7 & N7).
  apply rd_node in E8. destruct E8 as [_ ->].
  assert (node a7 new = node t old) as E7n by (rewrite N7, Z.eqb_refl; reflexivity).
  rewrite E7n in E9. fold cs in E9.
  (* the children *)
  assert (length a9 = length a7
          /\ forall j, node a9 j =
               if (j =? cs) && negb (cs =? UNUSED) then
                 {| parent := new; smaller := smaller (node t cs); larger := larger (node t cs) |}
               else node a7 j) as [L9 N9].
  { destruct (Z.eqb_spec cs UNUSED) as [U|U]; cbn [negb] in *.
    - injection E9 as <-. split; [reflexivity|]. intros j. rewrite andb_false_r. reflexivity.
    - destruct (Hcs U) as (A & B & C & D).
      apply wr_parent_node in E9; [|clear - Hw Hnew; lia]. destruct E9 as [L9 N9]. split; [exact L9|].
      intros j. rewrite N9, andb_true_r.
      destruct (Z.eqb_spec j cs) as [->|]; [|reflexivity].
      rewrite N7, N5.
      destruct (Z.eqb_spec cs new); [contradiction|].
      destruct (Z.eqb_spec cs p); [contradiction|]. reflexivity. }
  clear E9.
  apply rd_node in E10. destruct E10 as [_ ->].
  assert (node a9 new = node t old) as E9n.
  { rewrite N9. destruct (Z.eqb_spec new cs) as [A|_]; cbn [andb]; [|exact E7n].
    destruct (Z.eqb_spec cs UNUSED) as [U|U]; cbn [negb]; [exact E7n|].
    destruct (Hcs U) as (_ & B & _). congruence. }
  rewrite E9n in E11. fold cl in E11.
  assert (length a11 = length a9
          /\ forall j, node a11 j =
               if (j =? cl) && negb (cl =? UNUSED) then
                 {| parent := new; smaller := smaller (node t cl); larger := larger (node t cl) |}
               else node a9 j) as [L11 N11].
  { destruct (Z.eqb_spec cl UNUSED) as [U|U]; cbn [negb] in *.
    - injection E11 as <-. split; [reflexivity|]. intros j. rewrite andb_false_r. reflexivity.
    - destruct (Hcl U) as (A & B & C & D).
      apply wr_parent_node in E11; [|clear - Hw Hnew; lia]. destruct E11 as [L11 N11]. split; [exact L11|].
      intros j. rewrite N11, andb_true_r.
      destruct (Z.eqb_spec j cl) as [->|]; [|reflexivity].
      rewrite N9, N7, N5.
      destruct (Z.eqb_spec cl cs) as [A'|_]; cbn [andb].
      + destruct (Z.eqb_spec cs UNUSED) as [U'|U']; cbn [negb].
        * congruence.
        * exfalso. apply (Hsl U' U). congruence.
      + destruct (Z.eqb_spec cl new); [contradiction|].
        destruct (Z.eqb_spec cl p); [contradiction|]. reflexivity. }
  clear E11.
  apply wr_parent_node in H; [|rewrite UNUSED_value; lia]. destruct H as [L N].
  split; [exact E3|]. split; [congruence|].
  assert (node a11 old = node t old) as E11o.
  { rewrite N11, N9, N7, N5.
    destruct (Z.eqb_spec old cl) as [A|_]; cbn [andb].
    - destruct (Z.eqb_spec cl UNUSED) as [U|U]; cbn [negb];
        [|destruct (Hcl U) as (B & _); congruence].
      destruct (Z.eqb_spec old cs) as [A'|_]; cbn [andb].
      + destruct (Z.eqb_spec cs UNUSED) as [U'|U']; cbn [negb];
          [|destruct (Hcs U') as (B & _); congruence].
        destruct (Z.eqb_spec old new); [congruence|].
        destruct (Z.eqb_spec old p); [congruence|]. reflexivity.
      + destruct (Z.eqb_spec old new); [congruence|].
        destruct (Z.eqb_spec old p); [congruence|]. reflexivity.
    - destruct (Z.eqb_spec old cs) as [A'|_]; cbn [andb].
      + destruct (Z.eqb_spec cs UNUSED) as [U'|U']; cbn [negb];
          [|destruct (Hcs U') as (B & _); congruence].
        destruct (Z.eqb_spec old new); [congruence|].
        destruct (Z.eqb_spec old p); [congruence|]. reflexivity.
      + destruct (Z.eqb_spec old new); [congruence|].
        destruct (Z.eqb_spec old p); [congruence|]. reflexivity. }
  intros j. rewrite N, E11o. fold cs cl.
  destruct (Z.eqb_spec j old) as [->|Hjo]; [reflexivity|].
  rewrite N11. destruct ((j =? cl) && negb (cl =? UNUSED)); [reflexivity|].
  rewrite N9. destruct ((j =? cs) && negb (cs =? UNUSED)); [reflexivity|].
  rewrite N7. destruct (j =? new); [reflexivity|].
  rewrite N5. reflexivity.
Qed.

Lemma children_of w t i j :
  well_formed w t -> in_tree w t i ->
  (links t i j /\ j <> UNUSED <-> in_tree w t j /\ parent (node t j) = i).
Proof.
  intros Hwf Hi. split.
  - intros [Hl Hj]. apply (wf_down _ _ Hwf i j (or_intror Hi) Hj Hl).
  - intros [Hj Hp]. destruct (wf_up _ _ Hwf j Hj) as [_ Hl]. rewrite Hp in Hl.
    split; [exact Hl|]. pose proof (wf_size _ _ Hwf). destruct Hj as [Hr _].
    rewrite UNUSED_value. lia.
Qed.

Lemma replace_node_fields w t old new t' :
  well_formed w t -> in_tree w t old -> 0 <= new < w ->
  lz77_tree_replace_node t old new = Ret t' ->
  let p := parent (node t old) in
  parent (node t new) = UNUSED
  /\ length t' = length t
  /\ parent (node t' old) = UNUSED
  /\ parent (node t' new) = p
  /\ (forall j, in_tree w t j -> parent (node t j) = old -> parent (node t' j) = new)
  /\ (forall j, j <> old -> j <> new -> ~ (in_tree w t j /\ parent (node t j) = old) ->
        parent (node t' j) = parent (node t j))
  /\ (forall q, q <> p -> q <> new ->
        smaller (node t' q) = smaller (node t q) /\ larger (node t' q) = larger (node t q))
  /\ smaller (node t' new) = smaller (node t old)
  /\ larger (node t' new) = larger (node t old)
  /\ (smaller (node t' p), larger (node t' p)) =
       (if smaller (node t p) =? old then (new, larger (node t p))
        else (smaller (node t p), new)).
Proof.
  intros Hwf Hold Hnew H p.
  destruct (replace_node_exec _ _ _ _ _ Hwf Hold Hnew H) as (HnU & Hlen & N).
  cbv zeta in N. fold p in N.
  set (cs := smaller (node t old)) in *. set (cl := larger (node t old)) in *.
  pose proof (wf_size _ _ Hwf) as Hw.
  pose proof (parent_is_node _ _ _ Hwf Hold) as Hp. fold p in Hp.
  pose proof (parent_differs _ _ _ Hwf Hold) as Hpo. fold p in Hpo.
  assert (~ is_node w t new) as Hnn.
  { intros [A|[_ A]]; [clear - A Hnew; lia | contradiction]. }
  assert (p <> new) as Hpn by (intros A; apply Hnn; rewrite <- A; exact Hp).
  assert (new <> old) as Hno by (intros ->; apply Hnn; right; exact Hold).
  assert (forall c, c <> UNUSED -> links t old c -> c <> old /\ c <> new /\ c <> p) as Hch.
  { intros c Hc Hl. destruct (child_differs _ _ _ _ Hwf Hold Hc Hl) as (A & B & C & D).
    split; [exact C|]. split; [intros ->; apply Hnn; right; exact A|exact D]. }
  assert (forall j, (j =? cl) && negb (cl =? UNUSED) = true -> links t old j /\ j <> UNUSED) as Hbl.
  { intros j A. apply andb_prop in A. destruct A as [A B].
    apply Z.eqb_eq in A. apply negb_true_iff, Z.eqb_neq in B. subst j.
    split; [right; reflexivity | exact B]. }
  assert (forall j, (j =? cs) && negb (cs =? UNUSED) = true -> links t old j /\ j <> UNUSED) as Hbs.
  { intros j A. apply andb_prop in A. destruct A as [A B].
    apply Z.eqb_eq in A. apply negb_true_iff, Z.eqb_neq in B. subst j.
    split; [left; reflexivity | exact B]. }
  split; [exact HnU|]. split; [exact Hlen|].
  split; [rewrite N, Z.eqb_refl; reflexivity|].
  assert (node t' new = node t old) as Nnew.
  { rewrite N. destruct (Z.eqb_spec new old); [contradiction|].
    destruct ((new =? cl) && negb (cl =? UNUSED)) eqn:A.
    { destruct (Hbl _ A) as [A1 A2]. destruct (Hch _ A2 A1) as (_ & B & _). congruence. }
    destruct ((new =? cs) && negb (cs =? UNUSED)) eqn:A'.
    { destruct (Hbs _ A') as [A1 A2]. destruct (Hch _ A2 A1) as (_ & B & _). congruence. }
    rewrite Z.eqb_refl. reflexivity. }
  split; [rewrite Nnew; reflexivity|].
  split; [|split; [|split; [|split; [|split]]]].
  - intros j Hj Hjp.
    destruct (proj2 (children_of _ _ _ j Hwf Hold) (conj Hj Hjp)) as [Hl HjU].
    destruct (Hch _ HjU Hl) as (A & B & C).
    rewrite N. destruct (Z.eqb_spec j old); [contradiction|].
    destruct (Z.eqb_spec j cl) as [E|E]; cbn [andb].
    + destruct (Z.eqb_spec cl UNUSED); [congruence|reflexivity].
    + assert (j = cs) as -> by (destruct Hl as [Hl|Hl]; [symmetry; exact Hl | contradiction E; symmetry; exact Hl]).
      rewrite Z.eqb_refl. destruct (Z.eqb_spec cs UNUSED); [congruence|reflexivity].
  - intros j Hjo Hjn Hnc. rewrite N.
    destruct (Z.eqb_spec j old); [contradiction|].
    destruct ((j =? cl) && negb (cl =? UNUSED)) eqn:A.
    { exfalso. apply Hnc. apply (children_of _ _ _ j Hwf Hold). apply Hbl, A. }
    destruct ((j =? cs) && negb (cs =? UNUSED)) eqn:A'.
    { exfalso. apply Hnc. apply (children_of _ _ _ j Hwf Hold). apply Hbs, A'. }
    destruct (Z.eqb_spec j new); [contradiction|].
    destruct (Z.eqb_spec j p) as [->|]; [|reflexivity].
    destruct (smaller (node t p) =? old); reflexivity.
  - intros q Hqp Hqn. rewrite N.
    destruct (Z.eqb_spec q old) as [->|]; [split; reflexivity|].
    destruct ((q =? cl) && negb (cl =? UNUSED)) eqn:A.
    { apply andb_prop in A. destruct A as [A _]. apply Z.eqb_eq in A. subst q.
      split; reflexivity. }
    destruct ((q =? cs) && negb (cs =? UNUSED)) eqn:A'.
    { apply andb_prop in A'. destruct A' as [A' _]. apply Z.eqb_eq in A'. subst q.
      split; reflexivity. }
    destruct (Z.eqb_spec q new); [contradiction|].
    destruct (Z.eqb_spec q p); [contradiction|]. split; reflexivity.
  - rewrite Nnew. reflexivity.
  - rewrite Nnew. reflexivity.
  - rewrite N. destruct (Z.eqb_spec p old); [contradiction|].
    destruct ((p =? cl) && negb (cl =? UNUSED)) eqn:A.
    { destruct (Hbl _ A) as [A1 A2]. destruct (Hch _ A2 A1) as (_ & _ & B). congruence. }
    destruct ((p =? cs) && negb (cs =? UNUSED)) eqn:A'.
    { destruct (Hbs _ A') as [A1 A2]. destruct (Hch _ A2 A1) as (_ & _ & B). congruence. }
    destruct (Z.eqb_spec p new); [contradiction|].
    rewrite Z.eqb_refl. destruct (smaller (node t p) =? old); reflexivity.
Qed.

(** Replacing the node [old] by the free slot [new] puts [new] in the
    place of [old]: same parent, same children. *)
Lemma replace_node_ok w t old new t' :
  well_formed w t -> in_tree w t old -> 0 <= new < w ->
  lz77_tree_replace_node t old new = Ret t' ->
  well_formed w t'
  /\ (forall s, in_tree w t' s <-> s = new \/ (in_tree w t s /\ s <> old))
  /\ parent (node t' new) = parent (node t old)
  /\ smaller (node t' new) = smaller (node t old)
  /\ larger (node t' new) = larger (node t old).
Proof.
  intros Hwf Hold Hnew H.
  destruct (replace_node_fields _ _ _ _ _ Hwf Hold Hnew H)
    as (HnU & Hlen & Pold & Pnew & Pch & Poth & Cq & Cns & Cnl & Cp).
  cbv zeta in *.
  set (p := parent (node t old)) in *.
  pose proof (wf_size _ _ Hwf) as Hw.
  pose proof (parent_differs _ _ _ Hwf Hold) as Hpo. fold p in Hpo.
  destruct (wf_up _ _ Hwf old Hold) as [Hp Hpl]. fold p in Hp, Hpl.
  pose proof (is_node_used _ _ _ Hwf Hp) as HpU.
  assert (old <> UNUSED /\ old <> w /\ new <> UNUSED) as (HoU & How & HnewU)
      by (destruct Hold as [? _]; rewrite UNUSED_value; clear - Hw Hnew H0; lia).
  assert (~ in_tree w t new) as Hnt by (intros [_ A]; contradiction).
  assert (~ is_node w t new) as Hnn.
  { intros [A|A]; [clear - A Hnew; lia | contradiction]. }
  assert (p <> new) as Hpn by (intros A; apply Hnn; rewrite <- A; exact Hp).
  assert (new <> old) as Hno by (intros ->; apply Hnn; right; exact Hold).
  (* membership *)
  assert (forall s, in_tree w t' s <-> s = new \/ (in_tree w t s /\ s <> old)) as Hmem.
  { intros s. unfold in_tree at 1.
    destruct (Z.eq_dec s old) as [->|Hso].
    { rewrite Pold. intuition congruence. }
    destruct (Z.eq_dec s new) as [->|Hsn].
    { rewrite Pnew. intuition congruence. }
    destruct (Z.eq_dec (parent (node t s)) old) as [E|E].
    - split.
      + intros [Hr A]. right. split; [|exact Hso]. split; [exact Hr|]. congruence.
      + intros [A|[A _]]; [contradiction|]. rewrite (Pch s A E).
        split; [apply A | exact HnewU].
    - rewrite Poth by tauto. unfold in_tree. tauto. }
  assert (forall q, is_node w t' q <-> q = new \/ (is_node w t q /\ q <> old)) as Hnode.
  { intros q. unfold is_node. rewrite Hmem. intuition congruence. }
  (* links *)
  assert (forall c, links t' new c <-> links t old c) as Lnew.
  { intros c. unfold links. rewrite Cns, Cnl. tauto. }
  assert (forall c, links t' p c <-> c = new \/ (links t p c /\ c <> old)) as Lp.
  { intros c. unfold links in *.
    assert (smaller (node t p) <> larger (node t p)) as Hdiff.
    { intros E. pose proof (wf_sides _ _ Hwf p Hp E) as U. destruct Hpl as [A|A]; congruence. }
    destruct (Z.eqb_spec (smaller (node t p)) old) as [E|E]; injection Cp as -> ->.
    - split; [intros [<-|<-]; [auto | right; split; [auto|congruence]] |].
      intros [->|[[A|A] B]]; [auto | congruence | auto].
    - assert (larger (node t p) = old) as E' by (destruct Hpl; congruence).
      split; [intros [<-|<-]; [right; split; [auto|congruence] | auto] |].
      intros [->|[[A|A] B]]; [auto | auto | congruence]. }
  assert (forall q c, q <> p -> q <> new -> (links t' q c <-> links t q c)) as Lq.
  { intros q c Hq Hq'. unfold links. destruct (Cq q Hq Hq') as [-> ->]. tauto. }
  split; [|split; [exact Hmem | auto]].
  constructor.
  - exact Hw.
  - rewrite Hlen. apply (wf_length _ _ Hwf).
  - (* up *)
    intros i Hi. apply Hmem in Hi. destruct Hi as [->|[Hi Hio]].
    + rewrite Pnew. split; [apply Hnode; auto | apply Lp; auto].
    + assert (i <> new) as Hin by (intros ->; contradiction).
      destruct (wf_up _ _ Hwf i Hi) as [Hq Hql].
      destruct (Z.eq_dec (parent (node t i)) old) as [E|E].
      * rewrite (Pch i Hi E). split; [apply Hnode; auto|].
        apply Lnew. rewrite E in Hql. exact Hql.
      * rewrite Poth by tauto.
        split; [apply Hnode; auto|].
        destruct (Z.eq_dec (parent (node t i)) p) as [E'|E'].
        -- rewrite E' in *. apply Lp. auto.
        -- apply Lq; [exact E' | | exact Hql]. intros A. apply Hnn. rewrite <- A. exact Hq.
  - (* down *)
    intros q c Hq Hc Hqc. apply Hnode in Hq.
    destruct Hq as [->|[Hq Hqo]].
    + apply Lnew in Hqc.
      destruct (wf_down _ _ Hwf old c (or_intror Hold) Hc Hqc) as [A1 A2].
      pose proof (parent_differs _ _ _ Hwf A1) as A3. rewrite A2 in A3.
      split; [apply Hmem; auto | apply Pch; assumption].
    + assert (q <> new) as Hqn by (intros ->; contradiction).
      destruct (Z.eq_dec q p) as [->|Hqp].
      * apply Lp in Hqc. destruct Hqc as [->|[A B]].
        -- split; [apply Hmem; auto | exact Pnew].
        -- destruct (wf_down _ _ Hwf p c Hp Hc A) as [A1 A2].
           split; [apply Hmem; auto|].
           rewrite Poth; [exact A2 | exact B | intros ->; contradiction |].
           intros [_ A3]. congruence.
      * apply Lq in Hqc; [|exact Hqp|exact Hqn].
        destruct (wf_down _ _ Hwf q c Hq Hc Hqc) as [A1 A2].
        assert (c <> old) as Hco by (intros ->; fold p in A2; congruence).
        split; [apply Hmem; auto|].
        rewrite Poth; [exact A2 | exact Hco | intros ->; contradiction |].
        intros [_ A3]. congruence.
  - (* sides *)
    intros q Hq. apply Hnode in Hq. destruct Hq as [->|[Hq Hqo]].
    + rewrite Cns, Cnl. apply (wf_sides _ _ Hwf old). right. exact Hold.
    + assert (q <> new) as Hqn by (intros ->; contradiction).
      destruct (Z.eq_dec q p) as [->|Hqp].
      * intros E. exfalso. apply Hnt.
        assert (links t p new) as Hl'.
        { unfold links.
          destruct (Z.eqb_spec (smaller (node t p)) old); injection Cp as A B;
            rewrite A, B in E; [right|left]; congruence. }
        apply (wf_down _ _ Hwf p new Hp HnewU Hl').
      * destruct (Cq q Hqp Hqn) as [-> ->]. apply (wf_sides _ _ Hwf q Hq).
  - (* rank *)
    destruct (wf_rank _ _ Hwf) as [rank Hr].
    exists (fun j => if j =? new then rank old else rank j).
    intros i Hi. apply Hmem in Hi. destruct Hi as [->|[Hi Hio]].
    + rewrite Pnew, Z.eqb_refl.
      destruct (Z.eqb_spec p new); [contradiction|]. apply (Hr old Hold).
    + assert (i <> new) as Hin by (intros ->; contradiction).
      destruct (Z.eqb_spec i new); [contradiction|].
      destruct (Z.eq_dec (parent (node t i)) old) as [E|E].
      * rewrite (Pch i Hi E), Z.eqb_refl. rewrite <- E. apply (Hr i Hi).
      * rewrite Poth by tauto.
        destruct (Z.eqb_spec (parent (node t i)) new) as [A|_]; [|apply (Hr i Hi)].
        exfalso. apply Hnn. rewrite <- A. apply (parent_is_node _ _ _ Hwf Hi).
Qed.

(** ** [lz77_tree_find_next_node] and [lz77_tree_delete_node] *)

Lemma find_next_loop_ok w t (rank : Z -> nat) (bound : nat) :
  well_formed w t ->
  (forall i, in_tree w t i -> (rank (parent (node t i)) < rank i)%nat) ->
  forall fuel next r,
    in_tree w t next -> (bound < rank next)%nat ->
    find_next_loop fuel t next = Ret r ->
    in_tree w t r /\ larger (node t r) = UNUSED /\ (bound < rank r)%nat.
Proof.
  intros Hwf Hr. induction fuel as [|fuel IH]; intros next r Hn Hb H; [discriminate|].
  cbn [find_next_loop] in H.
  destruct (rd t next) as [n|] eqn:E; [|discriminate]. cbn [bind] in H.
  apply rd_node in E. destruct E as [_ ->].
  destruct (Z.eqb_spec (larger (node t next)) UNUSED) as [U|U]; cbn [negb] in H.
  - injection H as <-. auto.
  - destruct (wf_down _ _ Hwf next (larger (node t next)) (or_intror Hn) U
                (or_intror eq_refl)) as [A B].
    apply (IH _ _ A); [|exact H].
    pose proof (Hr _ A) as R. rewrite B in R. lia.
Qed.

Lemma delete_node_rec_S fuel t index :
  delete_node_rec (S fuel) t index =
  (assert (negb (index =? UNUSED)) ;;;
   n <- rd t index ;;
   if parent n =? UNUSED then Ret t
   else if negb (smaller n =? UNUSED) && negb (larger n =? UNUSED) then
     replacement <- lz77_tree_find_next_node t index ;;
     t <- delete_node_rec fuel t replacement ;;
     lz77_tree_replace_node t index replacement
   else if negb (smaller n =? UNUSED) then
     lz77_tree_contract_node t index (smaller n)
   else
     lz77_tree_contract_node t index (larger n)).
Proof. reflexivity. Qed.

Lemma delete_leaf_ok w t index fuel t' :
  well_formed w t -> in_tree w t index ->
  smaller (node t index) = UNUSED \/ larger (node t index) = UNUSED ->
  delete_node_rec (S fuel) t index = Ret t' ->
  well_formed w t' /\ forall s, in_tree w t' s <-> in_tree w t s /\ s <> index.
Proof.
  intros Hwf Hi Hone H. rewrite delete_node_rec_S in H.
  destruct (assert (negb (index =? UNUSED))); [|discriminate]. cbn [bind] in H.
  destruct (rd t index) as [n|] eqn:E; [|discriminate]. cbn [bind] in H.
  apply rd_node in E. destruct E as [_ ->].
  destruct (Z.eqb_spec (parent (node t index)) UNUSED) as [U|_]; [destruct Hi; contradiction|].
  destruct (Z.eqb_spec (smaller (node t index)) UNUSED) as [S|S]; cbn [negb andb] in H.
  - apply (contract_node_ok _ _ _ _ _ Hwf Hi) in H; [exact H|].
    intros c [A|A]; [right; congruence | left; congruence].
  - destruct (Z.eqb_spec (larger (node t index)) UNUSED) as [L|L]; cbn [negb] in H;
      [|destruct Hone; contradiction].
    apply (contract_node_ok _ _ _ _ _ Hwf Hi) in H; [exact H|].
    intros c [A|A]; [left; congruence | right; congruence].
Qed.

(** Deleting a slot takes it out of the tree, whatever its place, and
    leaves every other slot in. *)
Lemma delete_node_ok w t index t' :
  well_formed w t -> 0 <= index < w ->
  lz77_tree_delete_node t index = Ret t' ->
  well_formed w t' /\ forall s, in_tree w t' s <-> in_tree w t s /\ s <> index.
Proof.
  intros Hwf Hr H. unfold lz77_tree_delete_node in H.
  pose proof H as H0. rewrite delete_node_rec_S in H.
  destruct (assert (negb (index =? UNUSED))); [|discriminate]. cbn [bind] in H.
  destruct (rd t index) as [n|] eqn:E; [|discriminate]. cbn [bind] in H.
  apply rd_node in E. destruct E as [_ ->].
  destruct (Z.eqb_spec (parent (node t index)) UNUSED) as [U|U].
  { injection H as <-. split; [exact Hwf|]. intros s. split; [|tauto].
    intros A. split; [exact A|]. intros ->. destruct A. contradiction. }
  assert (in_tree w t index) as Hi by (split; assumption).
  destruct (Z.eqb_spec (smaller (node t index)) UNUSED) as [S|S]; cbn [negb andb] in H.
  { apply (delete_leaf_ok _ _ _ _ _ Hwf Hi (or_introl S) H0). }
  destruct (Z.eqb_spec (larger (node t index)) UNUSED) as [L|L]; cbn [negb] in H.
  { apply (delete_leaf_ok _ _ _ _ _ Hwf Hi (or_intror L) H0). }
  clear H0.
  destruct (lz77_tree_find_next_node t index) as [r|] eqn:F; [|discriminate].
  cbn [bind] in H.
  destruct (delete_node_rec 1 t r) as [t1|] eqn:D; [|discriminate]. cbn [bind] in H.
  unfold lz77_tree_find_next_node in F.
  destruct (assert (negb (index =? UNUSED))); [|discriminate]. cbn [bind] in F.
  destruct (rd t index) as [n|] eqn:E; [|discriminate]. cbn [bind] in F.
  apply rd_node in E. destruct E as [_ ->].
  destruct (wf_rank _ _ Hwf) as [rank Hrank].
  destruct (wf_down _ _ Hwf index (smaller (node t index)) (or_intror Hi) S
              (or_introl eq_refl)) as [A B].
  assert (rank index < rank (smaller (node t index)))%nat as R
      by (pose proof (Hrank _ A) as R; rewrite B in R; exact R).
  destruct (find_next_loop_ok _ _ rank (rank index) Hwf Hrank _ _ _ A R F)
    as (Hrin & HrL & Rr).
  assert (r <> index) as Hri by (intros ->; lia).
  destruct (delete_leaf_ok _ _ _ _ _ Hwf Hrin (or_intror HrL) D) as [Hwf1 Hmem1].
  assert (in_tree w t1 index) as Hi1 by (apply Hmem1; auto).
  destruct (replace_node_ok _ _ _ _ _ Hwf1 Hi1 (in_tree_range _ _ _ Hrin) H)
    as (Hwf' & Hmem' & _).
  split; [exact Hwf'|].
  intros s. rewrite Hmem', Hmem1. split.
  - intros [->|[[A1 A2] A3]]; auto.
  - intros [A1 A2]. destruct (Z.eq_dec s r); auto.
Qed.

(** ** [lz77_find_and_add] *)

(** The four stores that hang the free slot [curr] below [test]. *)
Lemma insert_leaf_ok w t test delta curr t1 t2 t3 t' :
  well_formed w t -> in_tree w t test -> 0 <= curr < w -> ~ in_tree w t curr ->
  child_of (node t test) delta = UNUSED ->
  wr_child t test delta curr = Ret t1 ->
  wr_parent t1 curr test = Ret t2 ->
  wr_larger t2 curr UNUSED = Ret t3 ->
  wr_smaller t3 curr UNUSED = Ret t' ->
  well_formed w t' /\ forall s, in_tree w t' s <-> s = curr \/ in_tree w t s.
Proof.
  intros Hwf Htest Hcurr Hfree Hch W1 W2 W3 W4.
  pose proof (wf_size _ _ Hwf) as Hw.
  pose proof (in_tree_range _ _ _ Htest) as Htr.
  assert (test <> curr) as Htc by (intros ->; contradiction).
  assert (~ is_node w t curr) as Hnn.
  { intros [A|A]; [clear - A Hcurr; lia | contradiction]. }
  assert (curr <> UNUSED) as HcU by (rewrite UNUSED_value; clear - Hw Hcurr; lia).
  assert (test <> UNUSED) as HtU by (rewrite UNUSED_value; clear - Hw Htr; lia).
  assert (length t' = length t
          /\ forall j, node t' j =
               if j =? curr then {| parent := test; smaller := UNUSED; larger := UNUSED |}
               else if j =? test then
                 if 0 <? delta
                 then {| parent := parent (node t test); smaller := smaller (node t test);
                         larger := curr |}
                 else {| parent := parent (node t test); smaller := curr;
                         larger := larger (node t test) |}
               else node t j) as [Hlen N].
  { assert (length t1 = length t
            /\ forall j, node t1 j =
                 if j =? test then
                   if 0 <? delta
                   then {| parent := parent (node t test); smaller := smaller (node t test);
                           larger := curr |}
                   else {| parent := parent (node t test); smaller := curr;
                           larger := larger (node t test) |}
                 else node t j) as [L1 N1].
    { unfold wr_child in W1. destruct (0 <? delta).
      - apply wr_larger_node in W1; [exact W1 | clear - Hw Hcurr; lia].
      - apply wr_smaller_node in W1; [exact W1 | clear - Hw Hcurr; lia]. }
    apply wr_parent_node in W2; [|clear - Hw Htr; lia]. destruct W2 as [L2 N2].
    apply wr_larger_node in W3; [|rewrite UNUSED_value; lia]. destruct W3 as [L3 N3].
    apply wr_smaller_node in W4; [|rewrite UNUSED_value; lia]. destruct W4 as [L4 N4].
    split; [congruence|].
    intros j. rewrite N4, !N3, !N2, !N1.
    destruct (Z.eqb_spec j curr) as [->|]; [|reflexivity].
    rewrite Z.eqb_refl. reflexivity. }
  assert (forall j, parent (node t' j) = if j =? curr then test else parent (node t j)) as P.
  { intros j. rewrite N. destruct (j =? curr); [reflexivity|].
    destruct (Z.eqb_spec j test) as [->|]; [|reflexivity].
    destruct (0 <? delta); reflexivity. }
  assert (forall s, in_tree w t' s <-> s = curr \/ in_tree w t s) as Hmem.
  { intros s. unfold in_tree at 1. rewrite P.
    destruct (Z.eqb_spec s curr) as [->|]; [tauto|]. unfold in_tree. tauto. }
  assert (forall q, is_node w t' q <-> q = curr \/ is_node w t q) as Hnode.
  { intros q. unfold is_node. rewrite Hmem. tauto. }
  assert (forall c, c <> UNUSED -> (links t' test c <-> c = curr \/ links t test c)) as Lt.
  { intros c Hc. unfold links, child_of in *. rewrite N.
    destruct (Z.eqb_spec test curr); [contradiction|]. rewrite Z.eqb_refl.
    destruct (0 <? delta); cbn [smaller larger];
      split; intros A; intuition congruence. }
  assert (forall q c, q <> test -> q <> curr -> (links t' q c <-> links t q c)) as Lq.
  { intros q c A B. unfold links. rewrite N.
    destruct (Z.eqb_spec q curr); [contradiction|].
    destruct (Z.eqb_spec q test); [contradiction|]. tauto. }
  assert (smaller (node t' curr) = UNUSED /\ larger (node t' curr) = UNUSED) as [Cs Cl]
      by (rewrite N, Z.eqb_refl; split; reflexivity).
  split; [|exact Hmem].
  constructor.
  - exact Hw.
  - rewrite Hlen. apply (wf_length _ _ Hwf).
  - intros i Hi. rewrite P. apply Hmem in Hi.
    destruct (Z.eqb_spec i curr) as [->|Hic].
    + split; [apply Hnode; right; right; exact Htest | apply Lt; auto].
    + destruct Hi as [A|Hi]; [contradiction|].
      destruct (wf_up _ _ Hwf i Hi) as [Hq Hql].
      split; [apply Hnode; auto|].
      destruct (Z.eq_dec (parent (node t i)) test) as [E|E].
      * rewrite E in *. apply Lt; [|right; exact Hql].
        destruct Hi as [Hr _]. rewrite UNUSED_value. clear - Hr Hw. lia.
      * apply Lq; [exact E | | exact Hql]. intros A. apply Hnn. rewrite <- A. exact Hq.
  - intros q c Hq Hc Hqc. apply Hnode in Hq. rewrite P.
    destruct Hq as [->|Hq].
    + exfalso. unfold links in Hqc. rewrite Cs, Cl in Hqc. destruct Hqc; congruence.
    + assert (q <> curr) as Hqc' by (intros ->; contradiction).
      destruct (Z.eq_dec q test) as [->|Hqt].
      * apply Lt in Hqc; [|exact Hc]. destruct Hqc as [->|A].
        -- rewrite Z.eqb_refl. split; [apply Hmem; auto | reflexivity].
        -- destruct (wf_down _ _ Hwf test c Hq Hc A) as [A1 A2].
           destruct (Z.eqb_spec c curr) as [->|]; [contradiction|].
           split; [apply Hmem; auto | exact A2].
      * apply Lq in Hqc; [|exact Hqt|exact Hqc'].
        destruct (wf_down _ _ Hwf q c Hq Hc Hqc) as [A1 A2].
        destruct (Z.eqb_spec c curr) as [->|]; [contradiction|].
        split; [apply Hmem; auto | exact A2].
  - intros q Hq. apply Hnode in Hq. destruct Hq as [->|Hq].
    + rewrite Cs. reflexivity.
    + assert (q <> curr) as Hqc' by (intros ->; contradiction).
      destruct (Z.eq_dec q test) as [->|Hqt].
      * intros E. exfalso. apply Hfree.
        assert (links t test curr) as A.
        { unfold links. rewrite N in E.
          destruct (Z.eqb_spec test curr); [contradiction|]. rewrite Z.eqb_refl in E.
          destruct (0 <? delta); cbn [smaller larger] in E; [left|right]; congruence. }
        apply (wf_down _ _ Hwf test curr Hq HcU A).
      * assert (smaller (node t' q) = smaller (node t q)
                /\ larger (node t' q) = larger (node t q)) as [-> ->].
        { rewrite N. destruct (Z.eqb_spec q curr); [contradiction|].
          destruct (Z.eqb_spec q test); [contradiction|]. split; reflexivity. }
        apply (wf_sides _ _ Hwf q Hq).
  - destruct (wf_rank _ _ Hwf) as [rank Hr].
    exists (fun j => if j =? curr then S (rank test) else rank j).
    intros i Hi. rewrite P. apply Hmem in Hi.
    destruct (Z.eqb_spec i curr) as [->|Hic].
    + destruct (Z.eqb_spec test curr); [contradiction|]. lia.
    + destruct Hi as [A|Hi]; [contradiction|].
      destruct (Z.eqb_spec (parent (node t i)) curr) as [A|_]; [|apply (Hr i Hi)].
      exfalso. apply Hnn. rewrite <- A. apply (parent_is_node _ _ _ Hwf Hi).
Qed.

Lemma compare_loop_ok (n : nat) (d : list Z) (la wk : Z) :
  forall i i' delta,
    compare_loop n d la wk i = Ret (i', delta) ->
    i <= i' <= i + Z.of_nat n
    /\ (forall j, i <= j < i' ->
          exists b, rd d (la + j) = Ret b /\ rd d (wk + j) = Ret b)
    /\ (i' < i + Z.of_nat n ->
          exists a b, rd d (la + i') = Ret a /\ rd d (wk + i') = Ret b
                      /\ delta = a - b /\ a <> b)
    /\ (i' = i + Z.of_nat n -> delta = 0).
Proof.
  induction n as [|n IH]; intros i i' delta H.
  - cbn in H. injection H as <- <-. repeat split; intros; lia.
  - cbn [compare_loop] in H.
    destruct (rd d (la + i)) as [a|] eqn:Ea; [|discriminate]. cbn [bind] in H.
    destruct (rd d (wk + i)) as [b|] eqn:Eb; [|discriminate]. cbn [bind] in H.
    destruct (Z.eqb_spec (a - b) 0) as [E|E]; cbn [negb] in H.
    + apply IH in H. destruct H as (H1 & H2 & H3 & H4).
      split; [lia|]. split; [|split].
      * intros j Hj. destruct (Z.eq_dec j i) as [->|Hji].
        -- exists a. split; [exact Ea|]. rewrite Eb. f_equal. lia.
        -- apply H2. lia.
      * intros Hlt. apply H3. lia.
      * intros Heq. apply H4. lia.
    + injection H as <- <-. split; [lia|]. split; [|split].
      * intros j Hj. lia.
      * intros _. exists a, b. repeat split; try assumption. lia.
      * intros Heq. lia.
Qed.

Lemma find_and_add_loop_S fuel u curr begin t test longest offset :
  find_and_add_loop (S fuel) u curr begin t test longest offset =
  (let k := test - begin in
   let k := if k <? 0 then k + us_window_maxsize u else k in
   '(i, delta) <- compare_loop (Z.to_nat (us_lookahead_currsize u)) (us_data u)
                    (us_lookahead u) (us_window u + k) 0 ;;
   let found := longest <? i in
   let offset := if found then u16 k else offset in
   let longest := if found then i else longest in
   if found && (longest =? us_lookahead_currsize u) then
     if negb (test =? curr) then
       t <- lz77_tree_delete_node t curr ;;
       t <- lz77_tree_replace_node t test curr ;;
       Ret (longest, offset, t)
     else Ret (longest, offset, t)
   else
     assert (negb (delta =? 0)) ;;;
     n <- rd t test ;;
     if child_of n delta =? UNUSED then
       if test =? curr then Ret (longest, offset, t)
       else
         c <- rd t curr ;;
         t <- (if negb (parent c =? UNUSED) then lz77_tree_delete_node t curr
               else Ret t) ;;
         n <- rd t test ;;
         if child_of n delta =? UNUSED then
           t <- wr_child t test delta curr ;;
           t <- wr_parent t curr test ;;
           t <- wr_larger t curr UNUSED ;;
           t <- wr_smaller t curr UNUSED ;;
           Ret (longest, offset, t)
         else find_and_add_loop fuel u curr begin t (child_of n delta) longest offset
     else find_and_add_loop fuel u curr begin t (child_of n delta) longest offset).
Proof. reflexivity. Qed.

Lemma added_from u curr begin t0 t longest offset t' :
  (forall s, s <> curr -> (in_tree (us_window_maxsize u) t s
                           <-> in_tree (us_window_maxsize u) t0 s)) ->
  (in_tree (us_window_maxsize u) t curr -> in_tree (us_window_maxsize u) t0 curr) ->
  added u curr begin t longest offset t' -> added u curr begin t0 longest offset t'.
Proof.
  intros Hs Hc (A & B & C & D). unfold added. cbv zeta.
  split; [exact A|]. split; [exact B|]. split.
  - intros s Hsc. rewrite (C s Hsc), (Hs s Hsc). tauto.
  - intros E. destruct (D E) as (D1 & D2 & D3). split; [exact D1|]. split.
    + destruct (Z.eq_dec ((offset + begin) mod us_window_maxsize u) curr) as [E'|E'].
      * rewrite E' in *. auto.
      * apply Hs; assumption.
    + intros N. destruct (D3 N) as (t1 & T1 & T2 & T3). exists t1.
      split; [exact T1|]. split; [|exact T3].
      intros s. rewrite T2. destruct (Z.eq_dec s curr) as [->|Hsc]; [tauto|].
      rewrite (Hs s Hsc). tauto.
Qed.

Lemma child_of_links (n : lz77_tree) (t : list lz77_tree) (p delta : Z) :
  n = node t p -> links t p (child_of n delta).
Proof. intros ->. unfold links, child_of. destruct (0 <? delta); auto. Qed.

Lemma slot_of_offset (w begin test : Z) :
  1 <= w <= 65534 -> 0 <= begin < w -> 0 <= test < w ->
  let k := test - begin in
  let k := if k <? 0 then k + w else k in
  u16 k = k /\ 0 <= k < w /\ (u16 k + begin) mod w = test.
Proof.
  intros Hw Hb Ht. cbv zeta.
  destruct (Z.ltb_spec (test - begin) 0) as [C|C].
  - rewrite u16_small by (change (2 ^ 16) with 65536; lia).
    split; [reflexivity|]. split; [lia|].
    replace (test - begin + w + begin) with (test + 1 * w) by ring.
    rewrite Z.mod_add by lia. apply Z.mod_small. lia.
  - rewrite u16_small by (change (2 ^ 16) with 65536; lia).
    split; [reflexivity|]. split; [lia|].
    replace (test - begin + begin) with test by ring. apply Z.mod_small. lia.
Qed.

Lemma find_and_add_loop_ok u curr begin :
  0 <= curr < us_window_maxsize u -> 0 <= begin < us_window_maxsize u ->
  forall fuel t test longest offset longest' offset' t',
    well_formed (us_window_maxsize u) t ->
    test = UNUSED \/ in_tree (us_window_maxsize u) t test ->
    longest <> us_lookahead_currsize u ->
    find_and_add_loop fuel u curr begin t test longest offset = Ret (longest', offset', t') ->
    added u curr begin t longest' offset' t'.
Proof.
  intros Hcurr Hbegin. set (w := us_window_maxsize u) in *.
  induction fuel as [|fuel IH]; intros t test longest offset longest' offset' t' Hwf Htest Hlg H;
    [discriminate|].
  pose proof (wf_size _ _ Hwf) as Hw.
  pose proof (wf_length _ _ Hwf) as Hlen.
  assert (curr <> UNUSED) as HcU by (rewrite UNUSED_value; clear - Hw Hcurr; lia).
  rewrite find_and_add_loop_S in H. cbv zeta in H. fold w in H.
  destruct (compare_loop _ _ _ _ _) as [[i delta]|] eqn:Ecmp; [|discriminate].
  cbn [bind] in H.
  (* the branch that goes down the tree or adds a leaf *)
  assert (forall lg off, lg <> us_lookahead_currsize u ->
            (assert (negb (delta =? 0)) ;;;
             n <- rd t test ;;
             if child_of n delta =? UNUSED then
               if test =? curr then Ret (lg, off, t)
               else
                 c <- rd t curr ;;
                 t <- (if negb (parent c =? UNUSED) then lz77_tree_delete_node t curr
                       else Ret t) ;;
                 n <- rd t test ;;
                 if child_of n delta =? UNUSED then
                   t <- wr_child t test delta curr ;;
                   t <- wr_parent t curr test ;;
                   t <- wr_larger t curr UNUSED ;;
                   t <- wr_smaller t curr UNUSED ;;
                   Ret (lg, off, t)
                 else find_and_add_loop fuel u curr begin t (child_of n delta) lg off
             else find_and_add_loop fuel u curr begin t (child_of n delta) lg off)
            = Ret (longest', offset', t') ->
            added u curr begin t longest' offset' t') as Hdown.
  { clear H. intros lg off Hlg' H.
    destruct (assert (negb (delta =? 0))); [|discriminate]. cbn [bind] in H.
    destruct (rd t test) as [n|] eqn:En; [|discriminate]. cbn [bind] in H.
    apply rd_node in En. destruct En as [Htr ->].
    destruct Htest as [U|Htest]; [rewrite U, UNUSED_value in Htr; clear - Htr Hlen Hw; lia|].
    destruct (Z.eqb_spec (child_of (node t test) delta) UNUSED) as [Ech|Ech].
    - destruct (Z.eqb_spec test curr) as [Etc|Etc].
      + injection H as <- <- <-. subst test. unfold added. cbv zeta. fold w.
        split; [exact Hwf|]. split; [exact Htest|]. split; [intros s Hs; tauto|].
        intros C. contradiction.
      + destruct (rd t curr) as [c|] eqn:Ec; [|discriminate]. cbn [bind] in H.
        apply rd_node in Ec. destruct Ec as [_ ->].
        destruct (if negb (parent (node t curr) =? UNUSED)
                  then lz77_tree_delete_node t curr else Ret t) as [t1|] eqn:Edel;
          [|discriminate].
        cbn [bind] in H.
        assert (well_formed w t1 /\ forall s, in_tree w t1 s <-> in_tree w t s /\ s <> curr)
          as [Hwf1 Hmem1].
        { destruct (Z.eqb_spec (parent (node t curr)) UNUSED) as [U|U]; cbn [negb] in Edel.
          - injection Edel as <-. split; [exact Hwf|]. intros s. split; [|tauto].
            intros A. split; [exact A|]. intros ->. destruct A. contradiction.
          - apply (delete_node_ok _ _ _ _ Hwf Hcurr Edel). }
        assert (in_tree w t1 test) as Htest1 by (apply Hmem1; auto).
        assert (~ in_tree w t1 curr) as Hfree by (rewrite Hmem1; tauto).
        destruct (rd t1 test) as [n|] eqn:En; [|discriminate]. cbn [bind] in H.
        apply rd_node in En. destruct En as [_ ->].
        destruct (Z.eqb_spec (child_of (node t1 test) delta) UNUSED) as [Ech1|Ech1].
        * destruct (wr_child t1 test delta curr) as [t2|] eqn:W1; [|discriminate].
          cbn [bind] in H.
          destruct (wr_parent t2 curr test) as [t3|] eqn:W2; [|discriminate].
          cbn [bind] in H.
          destruct (wr_larger t3 curr UNUSED) as [t4|] eqn:W3; [|discriminate].
          cbn [bind] in H.
          destruct (wr_smaller t4 curr UNUSED) as [t5|] eqn:W4; [|discriminate].
          cbn [bind] in H. injection H as <- <- <-.
          destruct (insert_leaf_ok _ _ _ _ _ _ _ _ _ Hwf1 Htest1 Hcurr Hfree Ech1 W1 W2 W3 W4)
            as [Hwf5 Hmem5].
          unfold added. cbv zeta. fold w.
          split; [exact Hwf5|]. split; [apply Hmem5; auto|]. split.
          -- intros s Hs. rewrite Hmem5, Hmem1. tauto.
          -- intros C. contradiction.
        * apply (added_from u curr begin t t1).
          -- intros s Hs. fold w. rewrite Hmem1. tauto.
          -- fold w. intros C. contradiction.
          -- apply (IH _ _ _ _ _ _ _ Hwf1) in H; [exact H | | exact Hlg'].
             right. apply (wf_down _ _ Hwf1 test _ (or_intror Htest1) Ech1).
             apply child_of_links. reflexivity.
    - apply (IH _ _ _ _ _ _ _ Hwf) in H; [exact H | | exact Hlg'].
      right. apply (wf_down _ _ Hwf test _ (or_intror Htest) Ech).
      apply child_of_links. reflexivity. }
  destruct (longest <? i) eqn:Efound; cbn [andb] in H; [|apply (Hdown _ _ Hlg H)].
  destruct (Z.eqb_spec i (us_lookahead_currsize u)) as [EL|EL]; [|apply (Hdown _ _ EL H)].
  clear Hdown.
  (* a match for the whole look-ahead buffer *)
  assert (in_tree w t test) as Htest'.
  { destruct Htest as [U|A]; [|exact A]. exfalso. subst test.
    destruct (Z.eqb_spec UNUSED curr) as [C|_]; [congruence|]. cbn [negb] in H.
    destruct (lz77_tree_delete_node t curr) as [t1|]; [|discriminate]. cbn [bind] in H.
    unfold lz77_tree_replace_node in H. rewrite Z.eqb_refl in H. discriminate. }
  pose proof (in_tree_range _ _ _ Htest') as Htr.
  destruct (slot_of_offset w begin test Hw Hbegin Htr) as (Ek & Hk & Eslot).
  cbv zeta in Ek, Hk, Eslot.
  assert (key_matches u (u16 (if test - begin <? 0 then test - begin + w else test - begin)))
    as Hkey.
  { apply compare_loop_ok in Ecmp. destruct Ecmp as (C1 & C2 & _).
    intros j Hj. rewrite Ek. destruct (C2 j) as (b & B1 & B2); [lia|].
    exists b. split; [exact B1|]. rewrite <- B2. f_equal. }
  destruct (Z.eqb_spec test curr) as [Etc|Etc]; cbn [negb] in H.
  - injection H as <- <- <-. subst test. unfold added. cbv zeta. fold w. rewrite Eslot.
    split; [exact Hwf|]. split; [exact Htest'|]. split; [intros s Hs; tauto|].
    intros _. split; [exact Hkey|]. split; [exact Htest'|]. intros C. contradiction.
  - destruct (lz77_tree_delete_node t curr) as [t1|] eqn:Edel; [|discriminate].
    cbn [bind] in H.
    destruct (lz77_tree_replace_node t1 test curr) as [t2|] eqn:Erep; [|discriminate].
    cbn [bind] in H. injection H as <- <- <-.
    destruct (delete_node_ok _ _ _ _ Hwf Hcurr Edel) as [Hwf1 Hmem1].
    assert (in_tree w t1 test) as Htest1 by (apply Hmem1; auto).
    destruct (replace_node_ok _ _ _ _ _ Hwf1 Htest1 Hcurr Erep)
      as (Hwf2 & Hmem2 & Rp & Rs & Rl).
    unfold added. cbv zeta. fold w. rewrite Eslot.
    split; [exact Hwf2|]. split; [apply Hmem2; auto|]. split.
    + intros s Hs. rewrite Hmem2, Hmem1. tauto.
    + intros _. split; [exact Hkey|]. split; [exact Htest'|]. intros _.
      exists t1. split; [exact Hwf1|]. split; [exact Hmem1|]. split; [exact Erep|].
      destruct (node t2 curr) as [p2 s2 l2], (node t1 test) as [p1 s1 l1].
      cbn [parent smaller larger] in *. congruence.
Qed.

Lemma find_and_add_loop_longest u curr begin :
  forall fuel t test longest offset longest' offset' t',
    0 <= longest ->
    find_and_add_loop fuel u curr begin t test longest offset = Ret (longest', offset', t') ->
    0 <= longest' /\ 0 <= longest' <= Z.max longest (us_lookahead_currsize u).
Proof.
  induction fuel as [|fuel IH]; intros t test longest offset longest' offset' t' Hlg H;
    [discriminate|].
  rewrite find_and_add_loop_S in H. cbv zeta in H.
  destruct (compare_loop _ _ _ _ _) as [[i delta]|] eqn:Ecmp; [|discriminate].
  cbn [bind] in H.
  apply compare_loop_ok in Ecmp. destruct Ecmp as (Hi & _).
  assert (0 <= (if longest <? i then i else longest)
          <= Z.max longest (us_lookahead_currsize u)) as Hlg'.
  { destruct (Z.ltb_spec longest i); lia. }
  assert (forall x, 0 <= x <= Z.max (if longest <? i then i else longest)
                                    (us_lookahead_currsize u) ->
                    0 <= x /\ 0 <= x <= Z.max longest (us_lookahead_currsize u)) as Hmax.
  { intros x. destruct (Z.ltb_spec longest i); lia. }
  repeat match type of H with
         | (if ?b then _ else _) = Ret _ => destruct b
         | bind ?m _ = Ret _ =>
             let E := fresh "E" in destruct m eqn:E; cbn [bind] in H; [|discriminate H]
         | Ret _ = Ret _ => injection H as <- <- <-
         | find_and_add_loop _ _ _ _ _ _ _ _ = Ret _ => apply IH in H; [apply Hmax, H | lia]
         end; try (split; lia).
Qed.

(** [lz77_find_and_add] on a tree in shape. *)
Lemma find_and_add_ok (u : lz77_ustream) (curr offset longest offset' : Z) (u' : lz77_ustream) :
  well_formed (us_window_maxsize u) (us_tree u) -> 0 <= us_window u ->
  lz77_find_and_add u curr offset = Ret (longest, offset', u') ->
  u' = set_us_tree u (us_tree u')
  /\ 0 <= curr < us_window_maxsize u
  /\ 0 <= longest <= us_lookahead_currsize u
  /\ added u curr (us_window u mod us_window_maxsize u) (us_tree u) longest offset' (us_tree u').
Proof.
  intros Hwf Hwin H. unfold lz77_find_and_add in H.
  pose proof (wf_size _ _ Hwf) as Hw.
  destruct (assert _) eqn:Ea; [|discriminate]. cbn [bind] in H.
  apply assert_Ret_inv in Ea. apply andb_prop in Ea. destruct Ea as [E1 E2].
  apply Z.leb_le in E1. apply Z.ltb_lt in E2.
  destruct (rd (us_tree u) (us_window_maxsize u)) as [root|] eqn:Er; [|discriminate].
  cbn [bind] in H. apply rd_node in Er. destruct Er as [_ ->].
  destruct (find_and_add_loop _ _ _ _ _ _ _ _) as [[[lg off] t]|] eqn:El; [|discriminate].
  cbn [bind] in H. injection H as <- <- <-.
  rewrite Z.rem_mod_nonneg in El by lia.
  assert (0 < us_lookahead_currsize u) as HL.
  { destruct (Z_lt_le_dec 0 (us_lookahead_currsize u)) as [C|C]; [exact C|exfalso].
    replace (2 * length (us_tree u) + 2)%nat
      with (S (2 * length (us_tree u) + 1)) in El by lia.
    rewrite find_and_add_loop_S in El. cbv zeta in El.
    replace (Z.to_nat (us_lookahead_currsize u)) with O in El by lia.
    cbn [compare_loop bind Z.ltb Z.compare andb Z.eqb negb assert] in El.
    discriminate. }
  split; [reflexivity|]. split; [lia|].
  assert (0 <= us_window u mod us_window_maxsize u < us_window_maxsize u) as Hb
      by (apply Z.mod_pos_bound; lia).
  pose proof (find_and_add_loop_longest _ _ _ _ _ _ _ _ _ _ _ (Z.le_refl 0) El) as [Hl0 Hl1].
  split; [lia|].
  cbn [us_tree set_us_tree].
  apply (find_and_add_loop_ok u curr _ (conj E1 E2) Hb) in El; [exact El | exact Hwf | | lia].
  destruct (Z.eq_dec (larger (node (us_tree u) (us_window_maxsize u))) UNUSED) as [U|U];
    [left; exact U|right].
  apply (wf_down _ _ Hwf (us_window_maxsize u) _ (or_introl eq_refl) U).
  right. reflexivity.
Qed.

(** ** What the shape says about one slot *)



(** ** The depth of the recursion of [lz77_tree_delete_node] *)

Lemma find_next_loop_larger (fuel : nat) :
  forall t next r, find_next_loop fuel t next = Ret r -> larger (node t r) = UNUSED.
Proof.
  induction fuel as [|fuel IH]; intros t next r H; [discriminate|].
  cbn [find_next_loop] in H.
  destruct (rd t next) as [n|] eqn:E; [|discriminate]. cbn [bind] in H.
  apply rd_node in E. destruct E as [_ ->].
  destruct (Z.eqb_spec (larger (node t next)) UNUSED) as [U|U]; cbn [negb] in H.
  - injection H as <-. exact U.
  - apply (IH _ _ _ H).
Qed.

(** X4: the node [lz77_tree_find_next_node] returns has no larger child, so
    the call of [lz77_tree_delete_node] on it does not recurse: with any
    deeper bound the function returns what it returns with two levels. *)
Lemma delete_node_rec_fuel (fuel : nat) (t : list lz77_tree) (index : Z) :
  delete_node_rec (S (S fuel)) t index = lz77_tree_delete_node t index.
Proof.
  unfold lz77_tree_delete_node. rewrite !(delete_node_rec_S _ t index).
  destruct (assert (negb (index =? UNUSED))); [|reflexivity]. cbn [bind].
  destruct (rd t index) as [n|]; [|reflexivity]. cbn [bind].
  destruct (parent n =? UNUSED); [reflexivity|].
  destruct (negb (smaller n =? UNUSED) && negb (larger n =? UNUSED)); [|reflexivity].
  destruct (lz77_tree_find_next_node t index) as [r|] eqn:F; [|reflexivity]. cbn [bind].
  assert (delete_node_rec (S fuel) t r = delete_node_rec 1 t r) as ->; [|reflexivity].
  unfold lz77_tree_find_next_node in F.
  destruct (assert (negb (index =? UNUSED))); [|discriminate]. cbn [bind] in F.
  destruct (rd t index) as [m|]; [|discriminate]. cbn [bind] in F.
  apply find_next_loop_larger in F.
  rewrite !(delete_node_rec_S _ t r).
  destruct (assert (negb (r =? UNUSED))); [|reflexivity]. cbn [bind].
  destruct (rd t r) as [nr|] eqn:E; [|reflexivity]. cbn [bind].
  apply rd_node in E. destruct E as [_ ->]. rewrite F, Z.eqb_refl.
  cbn [negb]. rewrite !andb_false_r. reflexivity.
Qed.

(** ** The search tree during a compression from memory *)

Lemma window_slot_iff (u : lz77_ustream) (s : Z) :
  view_ok u ->
  (window_slot u s <->
   0 <= s < us_window_maxsize u
   /\ (us_window_currsize u = us_window_maxsize u \/ s < us_window_currsize u)).
Proof.
  intros (Hw & _ & Hwin & Hsz & _ & Hfill). unfold window_slot. split.
  - intros (p & Hp & <-). split; [apply Z.mod_pos_bound; lia|].
    destruct (Z.eq_dec (us_window_currsize u) (us_window_maxsize u)) as [E|E]; [auto|right].
    rewrite Hfill in Hp by lia. rewrite Z.mod_small by lia. lia.
  - intros [Hs Hor].
    destruct (Z.eq_dec (us_window_currsize u) (us_window_maxsize u)) as [E|E];
      [|assert (s < us_window_currsize u) as E' by (destruct Hor; [contradiction|assumption])].
    + exists (us_window u + (s - us_window u) mod us_window_maxsize u). split.
      * assert (0 <= (s - us_window u) mod us_window_maxsize u < us_window_maxsize u)
          by (apply Z.mod_pos_bound; lia).
        lia.
      * rewrite Zplus_mod_idemp_r. replace (us_window u + (s - us_window u)) with s by ring.
        apply Z.mod_small. lia.
    + exists s. rewrite Hfill by lia. split; [lia|]. apply Z.mod_small. lia.
Qed.

(** The first call: [clear_slots] and [seed_tree]. *)
Lemma clear_slots_node (n : nat) :
  forall t i t',
    clear_slots n t i = Ret t' ->
    length t' = length t
    /\ forall j, node t' j =
         if (i <=? j) && (j <? i + Z.of_nat n)
         then {| parent := UNUSED; smaller := UNUSED; larger := UNUSED |}
         else node t j.
Proof.
  induction n as [|n IH]; intros t i t' H.
  - cbn in H. injection H as <-. split; [reflexivity|]. intros j.
    destruct (Z.leb_spec i j), (Z.ltb_spec j (i + Z.of_nat 0)); cbn [andb]; try reflexivity. lia.
  - cbn [clear_slots] in H.
    destruct (wr_parent t i UNUSED) as [t1|] eqn:W1; [|discriminate]. cbn [bind] in H.
    destruct (wr_larger t1 i UNUSED) as [t2|] eqn:W2; [|discriminate]. cbn [bind] in H.
    destruct (wr_smaller t2 i UNUSED) as [t3|] eqn:W3; [|discriminate]. cbn [bind] in H.
    apply wr_parent_node in W1; [|rewrite UNUSED_value; lia]. destruct W1 as [L1 N1].
    apply wr_larger_node in W2; [|rewrite UNUSED_value; lia]. destruct W2 as [L2 N2].
    apply wr_smaller_node in W3; [|rewrite UNUSED_value; lia]. destruct W3 as [L3 N3].
    apply IH in H. destruct H as [L N]. split; [congruence|].
    intros j. rewrite N, N3, !N2, !N1.
    destruct (Z.eqb_spec j i) as [->|Hji].
    + rewrite Z.eqb_refl. cbn [parent smaller larger].
      destruct (Z.leb_spec (i + 1) i), (Z.ltb_spec i (i + 1 + Z.of_nat n)),
        (Z.leb_spec i i), (Z.ltb_spec i (i + Z.of_nat (S n))); cbn [andb];
        try reflexivity; lia.
    + destruct (Z.leb_spec (i + 1) j), (Z.ltb_spec j (i + 1 + Z.of_nat n)),
        (Z.leb_spec i j), (Z.ltb_spec j (i + Z.of_nat (S n))); cbn [andb];
        try reflexivity; lia.
Qed.

Lemma seed_tree_ok (u u' : lz77_ustream) :
  2 <= us_window_maxsize u <= 65534 ->
  Z.of_nat (length (us_tree u)) = us_window_maxsize u + 1 ->
  smaller (node (us_tree u) (us_window_maxsize u)) = UNUSED ->
  seed_tree u = Ret u' ->
  u' = set_us_tree u (us_tree u')
  /\ well_formed (us_window_maxsize u) (us_tree u')
  /\ forall s, in_tree (us_window_maxsize u) (us_tree u') s <-> s = 0.
Proof.
  intros Hw Hlen Hroot H. unfold seed_tree in H. cbv zeta in H.
  set (w := us_window_maxsize u) in *.
  destruct (wr_larger (us_tree u) w 0) as [t1|] eqn:W1; [|discriminate]. cbn [bind] in H.
  destruct (wr_parent t1 0 w) as [t2|] eqn:W2; [|discriminate]. cbn [bind] in H.
  destruct (wr_larger t2 0 UNUSED) as [t3|] eqn:W3; [|discriminate]. cbn [bind] in H.
  destruct (wr_smaller t3 0 UNUSED) as [t4|] eqn:W4; [|discriminate]. cbn [bind] in H.
  destruct (clear_slots (Z.to_nat (w - 1)) t4 1) as [t5|] eqn:W5; [|discriminate].
  cbn [bind] in H. injection H as <-. cbn [us_tree set_us_tree].
  split; [reflexivity|].
  apply wr_larger_node in W1; [|lia]. destruct W1 as [L1 N1].
  apply wr_parent_node in W2; [|lia]. destruct W2 as [L2 N2].
  apply wr_larger_node in W3; [|rewrite UNUSED_value; lia]. destruct W3 as [L3 N3].
  apply wr_smaller_node in W4; [|rewrite UNUSED_value; lia]. destruct W4 as [L4 N4].
  apply clear_slots_node in W5. destruct W5 as [L5 N5].
  assert (forall j, node t5 j =
            if j =? 0 then {| parent := w; smaller := UNUSED; larger := UNUSED |}
            else if (1 <=? j) && (j <? w)
                 then {| parent := UNUSED; smaller := UNUSED; larger := UNUSED |}
                 else if j =? w
                      then {| parent := parent (node (us_tree u) w); smaller := UNUSED;
                              larger := 0 |}
                      else node (us_tree u) j) as N.
  { intros j. rewrite N5, N4, !N3, !N2, !N1.
    replace (1 + Z.of_nat (Z.to_nat (w - 1))) with w by lia.
    destruct (Z.eqb_spec j 0) as [->|Hj0].
    - cbn [Z.leb Z.compare andb Z.eqb]. reflexivity.
    - destruct ((1 <=? j) && (j <? w)); [reflexivity|].
      destruct (Z.eqb_spec j w) as [->|]; [|reflexivity].
      rewrite Hroot. reflexivity. }
  assert (UNUSED <> w /\ w <> 0) as [HUw Hw0] by (rewrite UNUSED_value; lia).
  assert (forall s, in_tree w t5 s <-> s = 0) as Hmem.
  { intros s. unfold in_tree. rewrite N.
    destruct (Z.eqb_spec s 0) as [->|Hs0]; cbn [parent].
    - split; [reflexivity|]. intros _. split; [lia|congruence].
    - destruct (Z.leb_spec 1 s), (Z.ltb_spec s w); cbn [andb parent]; split;
        try (intros [A B]; try lia; contradiction); intros; contradiction. }
  assert (forall q, is_node w t5 q <-> q = w \/ q = 0) as Hnode.
  { intros q. unfold is_node. rewrite Hmem. tauto. }
  split; [|exact Hmem].
  assert (node t5 0 = {| parent := w; smaller := UNUSED; larger := UNUSED |}) as N0
      by (rewrite N; reflexivity).
  assert (smaller (node t5 w) = UNUSED /\ larger (node t5 w) = 0) as [Nws Nwl].
  { rewrite N. destruct (Z.eqb_spec w 0); [contradiction|].
    destruct (Z.leb_spec 1 w), (Z.ltb_spec w w); cbn [andb]; try lia.
    rewrite Z.eqb_refl. split; reflexivity. }
  constructor.
  - lia.
  - rewrite L5, L4, L3, L2, L1. exact Hlen.
  - intros i Hi. apply Hmem in Hi. subst i. rewrite N0. cbn [parent].
    split; [left; reflexivity|]. right. exact Nwl.
  - intros p c Hp Hc Hl. apply Hnode in Hp. unfold links in Hl.
    destruct Hp as [->| ->].
    + rewrite Nws, Nwl in Hl. destruct Hl as [A|A]; [congruence|]. subst c.
      split; [apply Hmem; reflexivity | rewrite N0; reflexivity].
    + rewrite N0 in Hl. cbn [smaller larger] in Hl. destruct Hl; congruence.
  - intros p Hp. apply Hnode in Hp. destruct Hp as [->| ->].
    + rewrite Nws. reflexivity.
    + rewrite N0. reflexivity.
  - exists (fun j => if j =? w then O else 1%nat).
    intros i Hi. apply Hmem in Hi. subst i. rewrite N0. cbn [parent].
    rewrite Z.eqb_refl. destruct (Z.eqb_spec 0 w); [congruence|]. lia.
Qed.

(** The loop of [ustream_find_and_advance]. *)
Lemma advance_loop_S n u i count :
  advance_loop (S n) u i count =
  (u <- (if i <? count - 1 then
           let curr := Z.rem (us_lookahead u + 1) (us_window_maxsize u) in
           t <- lz77_tree_delete_node (us_tree u) curr ;;
           Ret (set_us_tree u t)
         else Ret u) ;;
   let u := if us_window_currsize u =? us_window_maxsize u
            then set_us_view u (us_window u + 1) (us_window_currsize u)
                   (us_lookahead u) (us_lookahead_currsize u)
            else set_us_view u (us_window u) (u16 (us_window_currsize u + 1))
                   (us_lookahead u) (us_lookahead_currsize u) in
   assert (us_window_currsize u <=? us_window_maxsize u) ;;;
   assert (us_window u + us_window_currsize u <=? us_size u) ;;;
   let u := set_us_view u (us_window u) (us_window_currsize u)
              (us_lookahead u + 1) (us_lookahead_currsize u) in
   let data_end := us_end u in
   let lkah_end := us_lookahead u + us_lookahead_currsize u in
   u <- (if data_end <? lkah_end then
           assert (lkah_end =? data_end + 1) ;;;
           let eof := us_lookahead_currsize u <? us_lookahead_maxsize u in
           let canmove := 0 <? us_window u in
           u <- (if (0 <=? us_fd u) && negb eof && canmove then refill u
                 else Ret (set_us_view u (us_window u) (us_window_currsize u)
                             (us_lookahead u) (u16 (us_lookahead_currsize u - 1)))) ;;
           assert (us_lookahead_currsize u <=? us_lookahead_maxsize u) ;;;
           Ret u
         else Ret u) ;;
   u <- (if i <? count - 1 then
           let curr := Z.rem (us_lookahead u) (us_window_maxsize u) in
           '(_, _, u) <- lz77_find_and_add u curr 0 ;;
           Ret u
         else Ret u) ;;
   advance_loop n u (i + 1) count).
Proof. reflexivity. Qed.

Lemma next_slot_differs (x w : Z) : 2 <= w -> (x + 1) mod w <> x mod w.
Proof.
  intros Hw E.
  assert (((x + 1) - x) mod w = 0) as C by (rewrite Zminus_mod, E, Z.sub_diag; apply Z.mod_0_l; lia).
  replace (x + 1 - x) with 1 in C by ring. rewrite Z.mod_small in C by lia. discriminate.
Qed.

(** The part of one iteration between the two tree operations: the window
    grows or slides by one byte and the look-ahead buffer follows. *)
Lemma slide_view (u u' : lz77_ustream) :
  view_ok u ->
  (let u1 := if us_window_currsize u =? us_window_maxsize u
             then set_us_view u (us_window u + 1) (us_window_currsize u)
                    (us_lookahead u) (us_lookahead_currsize u)
             else set_us_view u (us_window u) (u16 (us_window_currsize u + 1))
                    (us_lookahead u) (us_lookahead_currsize u) in
   assert (us_window_currsize u1 <=? us_window_maxsize u1) ;;;
   assert (us_window u1 + us_window_currsize u1 <=? us_size u1) ;;;
   let u2 := set_us_view u1 (us_window u1) (us_window_currsize u1)
               (us_lookahead u1 + 1) (us_lookahead_currsize u1) in
   let data_end := us_end u2 in
   let lkah_end := us_lookahead u2 + us_lookahead_currsize u2 in
   if data_end <? lkah_end then
     assert (lkah_end =? data_end + 1) ;;;
     let eof := us_lookahead_currsize u2 <? us_lookahead_maxsize u2 in
     let canmove := 0 <? us_window u2 in
     u3 <- (if (0 <=? us_fd u2) && negb eof && canmove then refill u2
            else Ret (set_us_view u2 (us_window u2) (us_window_currsize u2)
                        (us_lookahead u2) (u16 (us_lookahead_currsize u2 - 1)))) ;;
     assert (us_lookahead_currsize u3 <=? us_lookahead_maxsize u3) ;;;
     Ret u3
   else Ret u2) = Ret u' ->
  view_ok u'
  /\ us_tree u' = us_tree u
  /\ us_window_maxsize u' = us_window_maxsize u
  /\ us_lookahead u' = us_lookahead u + 1
  /\ 0 < us_window_currsize u'
  /\ (us_window_currsize u' = us_window_maxsize u
      \/ us_window_currsize u' = us_window_currsize u + 1).
Proof.
  intros (Hw & Hfd & Hwin & Hsz & Hla & Hfill) H. cbv zeta in H.
  assert ((0 <=? us_fd u) = false) as Efd by (apply Z.leb_gt; exact Hfd).
  destruct (Z.eqb_spec (us_window_currsize u) (us_window_maxsize u)) as [E|E].
  - us_simpl.
    destruct (assert _); [|discriminate]. cbn [bind] in H.
    destruct (assert _); [|discriminate]. cbn [bind] in H.
    rewrite Efd in H. cbn [andb] in H.
    assert (forall l, view_ok (set_us_view u (us_window u + 1) (us_window_currsize u)
                                 (us_lookahead u + 1) l)) as V.
    { intros l. unfold view_ok. us_simpl. repeat split; try lia. }
    destruct (_ <? _) in H.
    + destruct (assert _); [|discriminate]. cbn [bind] in H.
      destruct (assert _); [|discriminate]. cbn [bind] in H.
      injection H as <-. us_simpl. split; [apply V|]. repeat split; try lia. 
    + injection H as <-. us_simpl. split; [apply V|]. repeat split; try lia.
  - us_simpl.
    rewrite u16_small in H by (change (2 ^ 16) with 65536; lia).
    destruct (assert _); [|discriminate]. cbn [bind] in H.
    destruct (assert _); [|discriminate]. cbn [bind] in H.
    rewrite Efd in H. cbn [andb] in H.
    assert (forall l, view_ok (set_us_view u (us_window u) (us_window_currsize u + 1)
                                 (us_lookahead u + 1) l)) as V.
    { intros l. unfold view_ok. us_simpl. repeat split; try lia. }
    destruct (_ <? _) in H.
    + destruct (assert _); [|discriminate]. cbn [bind] in H.
      destruct (assert _); [|discriminate]. cbn [bind] in H.
      injection H as <-. us_simpl. split; [apply V|]. repeat split; try lia.
    + injection H as <-. us_simpl. split; [apply V|]. repeat split; try lia.
Qed.

Lemma advance_loop_ok (n : nat) :
  forall u i count u',
    view_ok u -> searching u -> Z.of_nat n = count - i -> (0 < n)%nat ->
    advance_loop n u i count = Ret u' ->
    view_ok u' /\ tree_state u' /\ 0 < us_window_currsize u'
    /\ us_window_maxsize u' = us_window_maxsize u.
Proof.
  induction n as [|n IH]; intros u i count u' Hv Hs Hn Hpos H; [lia|].
  rewrite advance_loop_S in H.
  destruct Hs as (Hwf & Hslots & Hlast).
  pose proof Hv as (Hw & Hfd & Hwin & Hsz & Hla & Hfill).
  set (w := us_window_maxsize u) in *.
  (* the slot that the next position will take leaves the tree *)
  match type of H with
  | bind ?m _ = _ => destruct m as [u1|] eqn:E1; [|discriminate]
  end.
  cbn [bind] in H.
  assert (us_tree u1 = us_tree u \/ (i < count - 1 /\ exists t,
            lz77_tree_delete_node (us_tree u) ((us_lookahead u + 1) mod w) = Ret t
            /\ u1 = set_us_tree u t)) as Hu1.
  { destruct (Z.ltb_spec i (count - 1)) as [C|C].
    - cbv zeta in E1. rewrite Z.rem_mod_nonneg in E1 by lia.
      destruct (lz77_tree_delete_node _ _) as [t|] eqn:D; [|discriminate].
      cbn [bind] in E1. injection E1 as <-. right. split; [exact C|]. exists t. auto.
    - injection E1 as <-. left. reflexivity. }
  assert (view_ok u1 /\ us_window_maxsize u1 = w /\ us_window_currsize u1 = us_window_currsize u
          /\ us_lookahead u1 = us_lookahead u /\ searching u1) as (Hv1 & Hw1 & Hsz1 & Hla1 & Hs1).
  { destruct (Z.ltb_spec i (count - 1)) as [C|C].
    - cbv zeta in E1. rewrite Z.rem_mod_nonneg in E1 by lia. fold w in E1.
      destruct (lz77_tree_delete_node _ _) as [t|] eqn:D; [|discriminate].
      cbn [bind] in E1. injection E1 as <-.
      assert (0 <= (us_lookahead u + 1) mod w < w) as Hr by (apply Z.mod_pos_bound; lia).
      destruct (delete_node_ok _ _ _ _ Hwf Hr D) as [Hwf1 Hmem1].
      split; [exact Hv|]. split; [reflexivity|]. split; [reflexivity|]. split; [reflexivity|].
      unfold searching. us_simpl. fold w. split; [exact Hwf1|]. split.
      + intros s A. apply Hmem1 in A. apply Hslots, A.
      + apply Hmem1. split; [exact Hlast|]. intros C'. symmetry in C'.
        apply (next_slot_differs (us_lookahead u) w); [lia | exact C'].
    - injection E1 as <-.
      split; [exact Hv|]. split; [reflexivity|]. split; [reflexivity|]. split; [reflexivity|].
      exact (conj Hwf (conj Hslots Hlast)). }
  clear Hu1.
  (* the window and the look-ahead buffer move *)
  cbv zeta in H.
  destruct (assert (us_window_currsize _ <=? _)) eqn:A1; [|discriminate]. cbn [bind] in H.
  destruct (assert (us_window _ + _ <=? _)) eqn:A2; [|discriminate]. cbn [bind] in H.
  match type of H with
  | bind ?m _ = _ => destruct m as [u2|] eqn:E2; [|discriminate]
  end.
  cbn [bind] in H.
  assert (view_ok u2 /\ us_tree u2 = us_tree u1 /\ us_window_maxsize u2 = w
          /\ us_lookahead u2 = us_lookahead u + 1 /\ 0 < us_window_currsize u2
          /\ (us_window_currsize u2 = w \/ us_window_currsize u2 = us_window_currsize u + 1))
    as (Hv2 & Ht2 & Hw2 & Hla2 & Hpos2 & Hsz2).
  { destruct (slide_view u1 u2 Hv1) as (B1 & B2 & B3 & B4 & B5 & B6).
    { cbv zeta. rewrite A1. cbn [bind]. rewrite A2. cbn [bind]. exact E2. }
    rewrite Hw1 in *. rewrite Hsz1, Hla1 in *. auto 10. }
  clear E2 A1 A2.
  assert (tree_state u2) as Hts2.
  { destruct Hs1 as (Hwf1 & Hslots1 & Hlast1). unfold tree_state.
    rewrite Ht2, Hw2, Hla2. rewrite Hw1, Hsz1, Hla1 in *.
    split; [exact Hwf1|]. split.
    - intros s A. apply (window_slot_iff u2 s Hv2). rewrite Hw2.
      split; [apply (in_tree_range _ _ _ A)|].
      pose proof Hv2 as (_ & _ & _ & B & _). rewrite Hw2 in B.
      specialize (Hslots1 s A). lia.
    - replace (us_lookahead u + 1 - 1) with (us_lookahead u) by ring. exact Hlast1. }
  (* the new position is added, but in the last iteration *)
  destruct (Z.ltb_spec i (count - 1)) as [C|C].
  - cbv zeta in H.
    destruct (lz77_find_and_add _ _ _) as [[[lg off] u3]|] eqn:F; [|discriminate].
    cbn [bind] in H.
    destruct Hts2 as (Hwf2 & Hslots2 & Hlast2).
    pose proof Hv2 as (Hw' & Hfd' & Hwin' & Hsz' & Hla' & Hfill').
    rewrite Z.rem_mod_nonneg in F by lia.
    destruct (find_and_add_ok _ _ _ _ _ _ Hwf2 Hwin' F) as (Eu3 & Hcr & _ & Hadd).
    destruct Hadd as (Hwf3 & Hin3 & Hmem3 & _).
    assert (view_ok u3 /\ us_window_maxsize u3 = w /\ searching u3) as (Hv3 & Hw3 & Hs3).
    { rewrite Eu3. unfold view_ok, searching. us_simpl. rewrite Hw2 in *.
      split; [tauto|]. split; [reflexivity|].
      split; [exact Hwf3|]. split; [|exact Hin3].
      intros s A.
      destruct (Z.eq_dec s (us_lookahead u2 mod w)) as [->|Hne].
      - destruct (Z.eq_dec (us_window_currsize u2) w) as [E|E]; [auto|right].
        rewrite Hla', Hfill' by lia. rewrite Z.mod_small by lia. lia.
      - apply Hmem3 in A; [|exact Hne]. destruct A as [A _].
        apply Hslots2 in A. apply (window_slot_iff u2 s Hv2) in A. rewrite Hw2 in A. lia. }
    apply (IH u3 (i + 1) count u' Hv3 Hs3) in H; [|lia|lia].
    rewrite Hw3 in H. exact H.
  - cbn [bind] in H. destruct n; [|lia]. cbn [advance_loop] in H. injection H as <-.
    auto.
Qed.

(** One call of [ustream_find_and_advance]. *)
Lemma find_and_advance_ok (u : lz77_ustream) (offset length_ next count : Z)
  (cells : Z * Z * Z) (u' : lz77_ustream) :
  compressing u ->
  ustream_find_and_advance u offset length_ next = Ret (count, cells, u') ->
  compressing u' /\ us_window_maxsize u' = us_window_maxsize u
  /\ (0 < count -> 0 < us_window_currsize u').
Proof.
  intros (Hv & Hlen & Hroot & Hts) H. unfold ustream_find_and_advance in H.
  destruct (Z.eqb_spec (us_lookahead_currsize u) 0) as [E0|E0].
  { injection H as <- <- <-. split; [exact (conj Hv (conj Hlen (conj Hroot Hts)))|].
    split; [reflexivity|]. intros C. lia. }
  pose proof Hv as (Hw & Hfd & Hwin & Hsz & Hla & Hfill).
  set (w := us_window_maxsize u) in *.
  match type of H with
  | bind ?m _ = _ => destruct m as [[[lg off] u1]|] eqn:E1; [|discriminate]
  end.
  cbn [bind] in H.
  assert (0 <= lg /\ view_ok u1 /\ us_window_maxsize u1 = w /\ searching u1)
    as (Hlg & Hv1 & Hw1 & Hs1).
  { destruct (Z.eqb_spec (us_window_currsize u) 0) as [Z0|Z0].
    - destruct (seed_tree u) as [u0|] eqn:Es; [|discriminate]. cbn [bind] in E1.
      injection E1 as <- <- <-.
      destruct (seed_tree_ok u u0 Hw Hlen (Hroot Z0) Es) as (Eu & Hwf & Hmem).
      fold w in Hwf, Hmem.
      split; [lia|]. rewrite Eu. unfold view_ok, searching. us_simpl. fold w.
      split; [tauto|]. split; [reflexivity|].
      split; [exact Hwf|]. split.
      + intros s A. apply Hmem in A. lia.
      + apply Hmem. rewrite Hla, Hfill, Z0 by lia. reflexivity.
    - assert (0 < us_window_currsize u) as Hpos by lia.
      destruct (Hts Hpos) as (Hwf & Hslots & Hlast).
      rewrite Z.rem_mod_nonneg in E1 by lia.
      destruct (find_and_add_ok _ _ _ _ _ _ Hwf Hwin E1) as (Eu & Hcr & Hl & Hadd).
      destruct Hadd as (Hwf1 & Hin1 & Hmem1 & _).
      split; [lia|]. rewrite Eu. unfold view_ok, searching. us_simpl. fold w.
      split; [tauto|]. split; [reflexivity|].
      split; [exact Hwf1|]. split; [|exact Hin1].
      intros s A.
      destruct (Z.eq_dec s (us_lookahead u mod w)) as [->|Hne].
      + destruct (Z.eq_dec (us_window_currsize u) w) as [E|E]; [auto|right].
        rewrite Hla, Hfill by lia. rewrite Z.mod_small by lia. lia.
      + apply Hmem1 in A; [|exact Hne]. destruct A as [A _].
        apply Hslots in A. apply (window_slot_iff u s Hv) in A. fold w in A. lia. }
  clear E1.
  match type of H with
  | bind ?m _ = _ => destruct m as [[[[cnt off'] len'] nxt']|] eqn:E2; [|discriminate]
  end.
  cbn [bind] in H.
  assert (1 <= cnt) as Hcnt.
  { destruct ((lg =? 0) || negb (tinyhuff_can_encode (us_length_encoder u1) lg)) eqn:B.
    - destruct (rd _ _); [|discriminate]. cbn [bind] in E2. injection E2 as <- _ _ _. lia.
    - injection E2 as <- _ _ _. apply orb_false_elim in B. destruct B as [B _].
      apply Z.eqb_neq in B. lia. }
  clear E2.
  destruct (assert _); [|discriminate]. cbn [bind] in H.
  destruct (advance_loop _ _ _ _) as [u2|] eqn:E3; [|discriminate]. cbn [bind] in H.
  injection H as <- <- <-.
  apply (advance_loop_ok _ _ _ _ _ Hv1 Hs1) in E3; [|lia|lia].
  destruct E3 as (Hv2 & Hts2 & Hpos2 & Hw2).
  unfold compressing, view_ok, tree_state in *. us_simpl.
  rewrite Hw2, Hw1 in *.
  split; [|split; [reflexivity | intros _; exact Hpos2]].
  split; [exact Hv2|]. split; [apply (wf_length _ _ (proj1 Hts2))|].
  split; [intros C; lia | intros _; exact Hts2].
Qed.

Lemma next_tokens_ok (n : nat) :
  forall u offset length_ next u',
    compressing u ->
    next_tokens n u offset length_ next = Ret u' ->
    compressing u' /\ us_window_maxsize u' = us_window_maxsize u.
Proof.
  induction n as [|n IH]; intros u offset length_ next u' Hc H.
  - injection H as <-. auto.
  - cbn [next_tokens] in H.
    destruct (ustream_find_and_advance _ _ _ _) as [[[cnt [[o l] x]] u1]|] eqn:E;
      [|discriminate].
    cbn [bind] in H.
    destruct (find_and_advance_ok _ _ _ _ _ _ _ Hc E) as (Hc1 & Hw1 & _).
    apply (IH _ _ _ _ _ Hc1) in H. rewrite Hw1 in H. exact H.
Qed.

(** [ustream_open] on an input stream: the view is left as the creation
    function set it and the root of the tree is initialised. *)
Lemma ustream_open_input_state (u : lz77_ustream) (from : lz77_cstream) (u' : lz77_ustream) :
  (us_is_input u =? 0) = false ->
  ustream_open u from = Ret u' ->
  us_fd u' = us_fd u /\ us_window u' = us_window u
  /\ us_window_currsize u' = us_window_currsize u /\ us_lookahead u' = us_lookahead u
  /\ us_window_maxsize u' = us_window_maxsize u
  /\ wr (us_tree u) (us_window_maxsize u)
       {| parent := UNUSED; smaller := UNUSED; larger := UNUSED |} = Ret (us_tree u').
Proof.
  intros Hin H. unfold ustream_open in H. rewrite Hin in H. cbn [negb] in H.
  destruct (assert _); [|discriminate]. cbn [bind] in H.
  destruct (assert _); [|discriminate]. cbn [bind] in H.
  unfold lz77_tree_init in H.
  destruct (0 <=? us_fd u).
  - destruct (file_read (us_file u) (us_size u)) as [chunk rest].
    match type of H with context [if ?b then _ else _] => destruct b end;
      us_simpl;
      destruct (wr (us_tree u) (us_window_maxsize u) _) as [t|] eqn:W; try discriminate;
      cbn [bind] in H; injection H as <-; us_simpl; auto 10.
  - match type of H with context [if ?b then _ else _] => destruct b end;
      us_simpl;
      destruct (wr (us_tree u) (us_window_maxsize u) _) as [t|] eqn:W; try discriminate;
      cbn [bind] in H; injection H as <-; us_simpl; auto 10.
Qed.

Lemma opened_compressing (s : list Z) (size w l heap : Z) (from : lz77_cstream)
  (u0 u1 : lz77_ustream) :
  4 <= w <= 65534 ->
  lz77_ustream_from_memory (Some s) size w l true heap = Object u0 ->
  ustream_open u0 from = Ret u1 ->
  compressing u1 /\ us_window_maxsize u1 = w.
Proof.
  intros Hw H0 H1. unfold lz77_ustream_from_memory in H0. cbv zeta in H0.
  rewrite (u16_small w) in H0 by (change (2 ^ 16) with 65536; lia).
  destruct (w <? LZ77_MIN_WINDOW_SIZE); [discriminate|].
  destruct (u16 l <? LZ77_MIN_LOOKAHEAD_SIZE); [discriminate|].
  cbn [negb] in H0. injection H0 as <-.
  apply ustream_open_input_state in H1; [|reflexivity].
  us_simpl. rewrite (u16_small w) in H1 by (change (2 ^ 16) with 65536; lia).
  destruct H1 as (Hfd & Hwin & Hsz & Hla & Hwm & Ht).
  apply wr_node in Ht. destruct Ht as (Hr & Hlen & N).
  rewrite repeat_length in Hlen, Hr.
  split; [|exact Hwm].
  unfold compressing, view_ok. rewrite Hfd, Hwin, Hsz, Hla, Hwm, Hlen.
  repeat split; try lia.
  intros _. rewrite N, Z.eqb_refl. reflexivity.
Qed.

Lemma four_equal_bytes_created :
  lz77_ustream_from_memory (Some [65; 65; 65; 65]) 4 4 2 true heap_limit
  = Object four_equal_bytes.
Proof. reflexivity. Qed.


(** ** The match [lz77_find_and_add] returns *)

Lemma find_and_add_loop_match u curr begin :
  0 <= curr < us_window_maxsize u -> 0 <= begin < us_window_maxsize u ->
  0 <= us_window_currsize u <= us_window_maxsize u ->
  (us_window_currsize u < us_window_maxsize u -> begin = 0) ->
  forall fuel t test longest offset longest' offset' t',
    well_formed (us_window_maxsize u) t ->
    (forall s, in_tree (us_window_maxsize u) t s ->
       us_window_currsize u = us_window_maxsize u \/ s < us_window_currsize u) ->
    test = UNUSED \/ in_tree (us_window_maxsize u) t test ->
    phrase_found u longest offset ->
    find_and_add_loop fuel u curr begin t test longest offset = Ret (longest', offset', t') ->
    phrase_found u longest' offset'.
Proof.
  intros Hcurr Hbegin Hsz Hfill. set (w := us_window_maxsize u) in *.
  induction fuel as [|fuel IH];
    intros t test longest offset longest' offset' t' Hwf Hslots Htest Hph H; [discriminate|].
  pose proof (wf_size _ _ Hwf) as Hw.
  pose proof (wf_length _ _ Hwf) as Hlen.
  rewrite find_and_add_loop_S in H. cbv zeta in H. fold w in H.
  destruct (compare_loop _ _ _ _ _) as [[i delta]|] eqn:Ecmp; [|discriminate].
  cbn [bind] in H.
  apply compare_loop_ok in Ecmp. destruct Ecmp as (Hi & Heq & _).
  (* what the round found, when the tested slot is in the tree *)
  assert (in_tree w t test ->
          phrase_found u (if longest <? i then i else longest)
            (if longest <? i
             then u16 (if test - begin <? 0 then test - begin + w else test - begin)
             else offset)) as Hnew.
  { intros Hin. destruct (Z.ltb_spec longest i) as [C|C]; [|exact Hph].
    pose proof (in_tree_range _ _ _ Hin) as Htr.
    destruct (slot_of_offset w begin test Hw Hbegin Htr) as (Ek & Hk & _).
    cbv zeta in Ek, Hk. rewrite Ek. right.
    assert (0 <= longest) as Hl0 by (destruct Hph as [->|(_ & A & _)]; lia).
    split; [|split; [lia|]].
    - destruct (Z.eq_dec (us_window_currsize u) w) as [E|E]; [lia|].
      assert (test < us_window_currsize u) as E' by (destruct (Hslots test Hin); lia).
      assert (begin = 0) as B0 by (apply Hfill; lia).
      rewrite B0. destruct (Z.ltb_spec (test - 0) 0); lia.
    - intros j Hj. destruct (Heq j) as (b & B1 & B2); [lia|].
      exists b. split; [exact B1|]. rewrite <- B2. f_equal; lia. }
  assert (forall t1, well_formed w t1 ->
            (forall s, in_tree w t1 s -> in_tree w t s) ->
            forall s, in_tree w t1 s -> us_window_currsize u = w \/ s < us_window_currsize u)
    as Hsub by (intros t1 _ A s B; apply Hslots, A, B).
  assert (forall lg off, phrase_found u lg off ->
            (assert (negb (delta =? 0)) ;;;
             n <- rd t test ;;
             if child_of n delta =? UNUSED then
               if test =? curr then Ret (lg, off, t)
               else
                 c <- rd t curr ;;
                 t <- (if negb (parent c =? UNUSED) then lz77_tree_delete_node t curr
                       else Ret t) ;;
                 n <- rd t test ;;
                 if child_of n delta =? UNUSED then
                   t <- wr_child t test delta curr ;;
                   t <- wr_parent t curr test ;;
                   t <- wr_larger t curr UNUSED ;;
                   t <- wr_smaller t curr UNUSED ;;
                   Ret (lg, off, t)
                 else find_and_add_loop fuel u curr begin t (child_of n delta) lg off
             else find_and_add_loop fuel u curr begin t (child_of n delta) lg off)
            = Ret (longest', offset', t') ->
            phrase_found u longest' offset') as Hdown.
  { clear H. intros lg off Hph' H.
    destruct (assert (negb (delta =? 0))); [|discriminate]. cbn [bind] in H.
    destruct (rd t test) as [n|] eqn:En; [|discriminate]. cbn [bind] in H.
    apply rd_node in En. destruct En as [Htr ->].
    destruct Htest as [U|Htest]; [rewrite U, UNUSED_value in Htr; clear - Htr Hlen Hw; lia|].
    destruct (Z.eqb_spec (child_of (node t test) delta) UNUSED) as [Ech|Ech].
    - destruct (Z.eqb_spec test curr) as [Etc|Etc].
      + injection H as <- <- _. exact Hph'.
      + destruct (rd t curr) as [c|] eqn:Ec; [|discriminate]. cbn [bind] in H.
        apply rd_node in Ec. destruct Ec as [_ ->].
        destruct (if negb (parent (node t curr) =? UNUSED)
                  then lz77_tree_delete_node t curr else Ret t) as [t1|] eqn:Edel;
          [|discriminate].
        cbn [bind] in H.
        assert (well_formed w t1 /\ forall s, in_tree w t1 s <-> in_tree w t s /\ s <> curr)
          as [Hwf1 Hmem1].
        { destruct (Z.eqb_spec (parent (node t curr)) UNUSED) as [U|U]; cbn [negb] in Edel.
          - injection Edel as <-. split; [exact Hwf|]. intros s. split; [|tauto].
            intros A. split; [exact A|]. intros ->. destruct A. contradiction.
          - apply (delete_node_ok _ _ _ _ Hwf Hcurr Edel). }
        assert (in_tree w t1 test) as Htest1 by (apply Hmem1; auto).
        destruct (rd t1 test) as [n|] eqn:En; [|discriminate]. cbn [bind] in H.
        apply rd_node in En. destruct En as [_ ->].
        destruct (Z.eqb_spec (child_of (node t1 test) delta) UNUSED) as [Ech1|Ech1].
        * repeat match type of H with
                 | bind ?m _ = Ret _ =>
                     let E := fresh "E" in
                     destruct m eqn:E; cbn [bind] in H; [|discriminate H]
                 end.
          injection H as <- <- _. exact Hph'.
        * apply (IH _ _ _ _ _ _ _ Hwf1) in H; [exact H | | | exact Hph'].
          -- apply (Hsub t1 Hwf1). intros s A. apply Hmem1 in A. tauto.
          -- right. apply (wf_down _ _ Hwf1 test _ (or_intror Htest1) Ech1).
             apply child_of_links. reflexivity.
    - apply (IH _ _ _ _ _ _ _ Hwf) in H; [exact H | exact Hslots | | exact Hph'].
      right. apply (wf_down _ _ Hwf test _ (or_intror Htest) Ech).
      apply child_of_links. reflexivity. }
  destruct (longest <? i) eqn:Efound; cbn [andb] in H; [|apply (Hdown _ _ Hph H)].
  assert (in_tree w t test -> phrase_found u i
            (u16 (if test - begin <? 0 then test - begin + w else test - begin))) as Hnew'
      by exact Hnew.
  destruct (Z.eqb_spec i (us_lookahead_currsize u)) as [EL|EL].
  - assert (in_tree w t test) as Htest'.
    { destruct Htest as [U|A]; [|exact A]. exfalso. subst test.
      destruct (Z.eqb_spec UNUSED curr) as [C|_];
        [rewrite UNUSED_value in C; clear - C Hcurr Hw; fold w in Hcurr; lia|].
      cbn [negb] in H.
      destruct (lz77_tree_delete_node t curr) as [t1|]; [|discriminate]. cbn [bind] in H.
      unfold lz77_tree_replace_node in H. rewrite Z.eqb_refl in H. discriminate. }
    destruct (negb (test =? curr)).
    + destruct (lz77_tree_delete_node t curr) as [t1|]; [|discriminate]. cbn [bind] in H.
      destruct (lz77_tree_replace_node t1 test curr) as [t2|]; [|discriminate].
      cbn [bind] in H. injection H as <- <- _. apply Hnew', Htest'.
    + injection H as <- <- _. apply Hnew', Htest'.
  - apply (Hdown i (u16 (if test - begin <? 0 then test - begin + w else test - begin)));
      [|exact H].
    (* the tested slot is in the tree, or the round stops *)
    destruct Htest as [U|A]; [|apply Hnew', A].
    exfalso. subst test.
    destruct (assert (negb (delta =? 0))); [|discriminate]. cbn [bind] in H.
    destruct (rd t UNUSED) as [n|] eqn:En; [|discriminate].
    apply rd_range in En. rewrite UNUSED_value in En. clear - En Hlen Hw. lia.
Qed.

Lemma find_and_add_view (u : lz77_ustream) (curr offset longest offset' : Z) (u' : lz77_ustream) :
  lz77_find_and_add u curr offset = Ret (longest, offset', u') ->
  u' = set_us_tree u (us_tree u').
Proof.
  unfold lz77_find_and_add. intros H.
  destruct (assert _); [|discriminate]. cbn [bind] in H.
  destruct (rd _ _); [|discriminate]. cbn [bind] in H.
  destruct (find_and_add_loop _ _ _ _ _ _ _ _) as [[[lg off] t]|]; [|discriminate].
  cbn [bind] in H. injection H as <- <- <-. reflexivity.
Qed.

Lemma find_and_add_phrase (u : lz77_ustream) (curr offset longest offset' : Z)
  (u' : lz77_ustream) :
  view_ok u -> 0 < us_window_currsize u -> tree_state u ->
  lz77_find_and_add u curr offset = Ret (longest, offset', u') ->
  phrase_found u longest offset'.
Proof.
  intros Hv Hpos (Hwf & Hslots & _) H.
  pose proof Hv as (Hw & Hfd & Hwin & Hsz & Hla & Hfill).
  pose proof (wf_size _ _ Hwf) as Hw'.
  unfold lz77_find_and_add in H.
  destruct (assert _) eqn:Ea; [|discriminate]. cbn [bind] in H.
  apply assert_Ret_inv in Ea. apply andb_prop in Ea. destruct Ea as [E1 E2].
  apply Z.leb_le in E1. apply Z.ltb_lt in E2.
  destruct (rd (us_tree u) (us_window_maxsize u)) as [root|] eqn:Er; [|discriminate].
  cbn [bind] in H. apply rd_node in Er. destruct Er as [_ ->].
  destruct (find_and_add_loop _ _ _ _ _ _ _ _) as [[[lg off] t]|] eqn:El; [|discriminate].
  cbn [bind] in H. injection H as <- <- <-.
  rewrite Z.rem_mod_nonneg in El by lia.
  assert (0 <= us_window u mod us_window_maxsize u < us_window_maxsize u) as Hb
      by (apply Z.mod_pos_bound; lia).
  apply (find_and_add_loop_match u curr _ (conj E1 E2) Hb Hsz) in El; [exact El | | exact Hwf | | |].
  - intros C. rewrite (Hfill C). apply Z.mod_0_l. lia.
  - intros s A. apply Hslots in A. apply (window_slot_iff u s Hv) in A. tauto.
  - destruct (Z.eq_dec (larger (node (us_tree u) (us_window_maxsize u))) UNUSED) as [U|U];
      [left; exact U|right].
    apply (wf_down _ _ Hwf (us_window_maxsize u) _ (or_introl eq_refl) U).
    right. reflexivity.
  - left. reflexivity.
Qed.

(** The loop of [ustream_find_and_advance] moves the look-ahead buffer by
    one byte in every iteration and touches neither the data nor the
    counters. *)
Lemma advance_loop_view (n : nat) :
  forall u i count u',
    view_ok u ->
    advance_loop n u i count = Ret u' ->
    view_ok u'
    /\ us_window_maxsize u' = us_window_maxsize u
    /\ us_lookahead u' = us_lookahead u + Z.of_nat n
    /\ us_window_currsize u'
       = Z.min (us_window_maxsize u) (us_window_currsize u + Z.of_nat n)
    /\ us_data u' = us_data u /\ us_processed_bytes u' = us_processed_bytes u
    /\ us_length_encoder u' = us_length_encoder u.
Proof.
  induction n as [|n IH]; intros u i count u' Hv H.
  - injection H as <-. pose proof Hv as (Hw & Hfd & Hwin & Hsz & Hla & Hfill).
    repeat split; try assumption; try lia; try reflexivity.
  - rewrite advance_loop_S in H.
    pose proof Hv as (Hw & Hfd & Hwin & Hsz & Hla & Hfill).
    match type of H with
    | bind ?m _ = _ => destruct m as [u1|] eqn:E1; [|discriminate]
    end.
    cbn [bind] in H.
    assert (u1 = set_us_tree u (us_tree u1)) as Eu1.
    { destruct (i <? count - 1).
      - cbv zeta in E1. destruct (lz77_tree_delete_node _ _) as [t|]; [|discriminate].
        cbn [bind] in E1. injection E1 as <-. reflexivity.
      - injection E1 as <-. destruct u. reflexivity. }
    clear E1.
    assert (view_ok u1) as Hv1 by (rewrite Eu1; exact Hv).
    cbv zeta in H.
    destruct (assert (us_window_currsize _ <=? _)) eqn:A1; [|discriminate]. cbn [bind] in H.
    destruct (assert (us_window _ + _ <=? _)) eqn:A2; [|discriminate]. cbn [bind] in H.
    match type of H with
    | bind ?m _ = _ => destruct m as [u2|] eqn:E2; [|discriminate]
    end.
    cbn [bind] in H.
    assert (view_ok u2 /\ us_window_maxsize u2 = us_window_maxsize u1
            /\ us_lookahead u2 = us_lookahead u1 + 1
            /\ us_window_currsize u2 = Z.min (us_window_maxsize u1) (us_window_currsize u1 + 1)
            /\ us_data u2 = us_data u1 /\ us_processed_bytes u2 = us_processed_bytes u1
            /\ us_length_encoder u2 = us_length_encoder u1) as (Hv2 & B3 & B4 & B6 & B7 & B8 & B9).
    { destruct (slide_view u1 u2 Hv1) as (B1 & _ & B3 & B4 & _ & B6).
      { cbv zeta. rewrite A1. cbn [bind]. rewrite A2. cbn [bind]. exact E2. }
      split; [exact B1|]. split; [exact B3|]. split; [exact B4|].
      clear - E2 Hv1. destruct Hv1 as (Hw1 & Hfd & _ & Hsz1 & _).
      assert ((0 <=? us_fd u1) = false) as Efd by (apply Z.leb_gt; exact Hfd).
      destruct (Z.eqb_spec (us_window_currsize u1) (us_window_maxsize u1)) as [E|E]; us_simpl;
        rewrite ?u16_small in E2 by (change (2 ^ 16) with 65536; lia);
        rewrite Efd in E2; cbn [andb] in E2;
        destruct (_ <? _) in E2;
        repeat match type of E2 with
               | bind ?m _ = Ret _ =>
                   let E := fresh "E" in
                   destruct m eqn:E; cbn [bind] in E2; [|discriminate E2]
               end;
        injection E2 as <-; us_simpl; (split; [lia|auto]). }
    clear E2 A1 A2.
    match type of H with
    | bind ?m _ = _ => destruct m as [u3|] eqn:E3; [|discriminate]
    end.
    cbn [bind] in H.
    assert (u3 = set_us_tree u2 (us_tree u3)) as Eu3.
    { destruct (i <? count - 1).
      - cbv zeta in E3.
        destruct (lz77_find_and_add _ _ _) as [[[lg off] u4]|] eqn:F; [|discriminate].
        cbn [bind] in E3. injection E3 as <-. apply (find_and_add_view _ _ _ _ _ _ F).
      - injection E3 as <-. destruct u2. reflexivity. }
    clear E3.
    assert (view_ok u3) as Hv3 by (rewrite Eu3; exact Hv2).
    apply (IH _ _ _ _ Hv3) in H. destruct H as (C1 & C2 & C3 & C4 & C5 & C6 & C7).
    rewrite Eu3 in C2, C3, C4, C5, C6, C7. us_simpl.
    rewrite B3, B4, B6, B7, B8, B9 in *. rewrite Eu1 in *. us_simpl.
    split; [exact C1|]. split; [exact C2|]. split; [lia|]. split; [lia|]. auto.
Qed.

Lemma find_and_add_longest (u : lz77_ustream) (curr offset longest offset' : Z)
  (u' : lz77_ustream) :
  lz77_find_and_add u curr offset = Ret (longest, offset', u') -> 0 <= longest.
Proof.
  unfold lz77_find_and_add. intros H.
  destruct (assert _); [|discriminate]. cbn [bind] in H.
  destruct (rd _ _); [|discriminate]. cbn [bind] in H.
  destruct (find_and_add_loop _ _ _ _ _ _ _ _) as [[[lg off] t]|] eqn:El; [|discriminate].
  cbn [bind] in H. injection H as <- <- <-.
  apply (find_and_add_loop_longest _ _ _ _ _ _ _ _ _ _ _ (Z.le_refl 0) El).
Qed.

Lemma seed_tree_view (u u' : lz77_ustream) :
  seed_tree u = Ret u' -> u' = set_us_tree u (us_tree u').
Proof.
  unfold seed_tree. cbv zeta. intros H.
  repeat match type of H with
         | bind ?m _ = Ret _ =>
             let E := fresh "E" in
             destruct m eqn:E; cbn [bind] in H; [|discriminate H]
         end.
  injection H as <-. reflexivity.
Qed.

(** What one call of [ustream_find_and_advance] consumes. *)
Lemma find_and_advance_consumes (u : lz77_ustream) (offset length_ next count : Z)
  (cells : Z * Z * Z) (u' : lz77_ustream) :
  view_ok u ->
  ustream_find_and_advance u offset length_ next = Ret (count, cells, u') ->
  0 <= count <= us_lookahead_currsize u
  /\ (count = 0 <-> us_lookahead_currsize u = 0)
  /\ (count = 0 -> u' = u)
  /\ us_lookahead u' = us_lookahead u + count
  /\ us_window_currsize u' = Z.min (us_window_maxsize u) (us_window_currsize u + count)
  /\ (0 < count -> us_processed_bytes u' = u64 (us_processed_bytes u + count))
  /\ us_data u' = us_data u.
Proof.
  intros Hv H. unfold ustream_find_and_advance in H.
  pose proof Hv as (Hw & Hfd & Hwin & Hsz & Hla & Hfill).
  destruct (Z.eqb_spec (us_lookahead_currsize u) 0) as [E0|E0].
  { injection H as <- <- <-. rewrite E0. repeat split; try lia. }
  match type of H with
  | bind ?m _ = _ => destruct m as [[[lg off] u1]|] eqn:E1; [|discriminate]
  end.
  cbn [bind] in H.
  assert (0 <= lg /\ u1 = set_us_tree u (us_tree u1)) as [Hlg Eu1].
  { destruct (us_window_currsize u =? 0).
    - destruct (seed_tree u) as [u0|] eqn:Es; [|discriminate]. cbn [bind] in E1.
      injection E1 as <- <- <-. split; [lia | apply seed_tree_view, Es].
    - split; [apply (find_and_add_longest _ _ _ _ _ _ E1) | apply (find_and_add_view _ _ _ _ _ _ E1)]. }
  clear E1.
  match type of H with
  | bind ?m _ = _ => destruct m as [[[[cnt off'] len'] nxt']|] eqn:E2; [|discriminate]
  end.
  cbn [bind] in H.
  assert (1 <= cnt) as Hcnt.
  { destruct ((lg =? 0) || negb (tinyhuff_can_encode (us_length_encoder u1) lg)) eqn:B.
    - destruct (rd _ _); [|discriminate]. cbn [bind] in E2. injection E2 as <- _ _ _. lia.
    - injection E2 as <- _ _ _. apply orb_false_elim in B. destruct B as [B _].
      apply Z.eqb_neq in B. lia. }
  clear E2.
  destruct (assert _) eqn:Ea; [|discriminate]. cbn [bind] in H.
  apply assert_Ret_inv, Z.leb_le in Ea.
  destruct (advance_loop _ _ _ _) as [u2|] eqn:E3; [|discriminate]. cbn [bind] in H.
  injection H as <- <- <-.
  assert (view_ok u1) as Hv1 by (rewrite Eu1; exact Hv).
  apply (advance_loop_view _ _ _ _ _ Hv1) in E3.
  destruct E3 as (C1 & C2 & C3 & C4 & C5 & C6 & C7).
  rewrite Eu1 in Ea, C2, C3, C4, C5, C6. us_simpl.
  rewrite Z2Nat.id in C3, C4 by lia. rewrite C6.
  repeat split; try assumption; try lia.
Qed.

(** X7: what one call of [ustream_find_and_advance] consumes.  On a stream
    that reads from memory the call returns 0 exactly at the end of the
    input, and leaves the stream as it is; otherwise it moves the
    look-ahead buffer by the count it returns, which is at most the size of
    the look-ahead buffer, grows the window by as much up to its maximum
    size, adds the count to [processed_bytes] and leaves the data alone. *)
Theorem next_token_consumes (u : lz77_ustream) (offset length_ next count : Z)
  (cells : Z * Z * Z) (u' : lz77_ustream) :
  view_ok u ->
  ustream_find_and_advance u offset length_ next = Ret (count, cells, u') ->
  0 <= count <= us_lookahead_currsize u
  /\ (count = 0 <-> us_lookahead_currsize u = 0)
  /\ (count = 0 -> u' = u)
  /\ us_lookahead u' = us_lookahead u + count
  /\ us_window_currsize u' = Z.min (us_window_maxsize u) (us_window_currsize u + count)
  /\ (0 < count -> us_processed_bytes u' = u64 (us_processed_bytes u + count))
  /\ us_data u' = us_data u.
Proof. exact (find_and_advance_consumes u offset length_ next count cells u'). Qed.

(** The token one call of [ustream_find_and_advance] returns. *)
Lemma find_and_advance_token (u : lz77_ustream) (offset length_ next count : Z)
  (offset' length' next' : Z) (u' : lz77_ustream) :
  compressing u ->
  ustream_find_and_advance u offset length_ next
  = Ret (count, (offset', length', next'), u') ->
  0 < count ->
  (length' = 0 /\ count = 1 /\ offset' = 0
   /\ rd (us_data u) (us_lookahead u) = Ret next')
  \/ (0 < length' /\ count = length'
      /\ tinyhuff_can_encode (us_length_encoder u) length' = true
      /\ phrase_found u length' offset').
Proof.
  intros (Hv & Hlen & Hroot & Hts) H Hcount. unfold ustream_find_and_advance in H.
  destruct (Z.eqb_spec (us_lookahead_currsize u) 0) as [E0|E0].
  { injection H as <- _ _ _ _. lia. }
  match type of H with
  | bind ?m _ = _ => destruct m as [[[lg off] u1]|] eqn:E1; [|discriminate]
  end.
  cbn [bind] in H.
  assert (0 <= lg /\ u1 = set_us_tree u (us_tree u1) /\ phrase_found u lg off)
    as (Hlg & Eu1 & Hph).
  { destruct (Z.eqb_spec (us_window_currsize u) 0) as [Z0|Z0].
    - destruct (seed_tree u) as [u0|] eqn:Es; [|discriminate]. cbn [bind] in E1.
      injection E1 as <- <- <-. split; [lia|]. split; [apply seed_tree_view, Es|].
      left. reflexivity.
    - pose proof Hv as (_ & _ & _ & Hsz & _).
      assert (0 < us_window_currsize u) as Hpos by lia.
      split; [apply (find_and_add_longest _ _ _ _ _ _ E1)|].
      split; [apply (find_and_add_view _ _ _ _ _ _ E1)|].
      apply (find_and_add_phrase _ _ _ _ _ _ Hv Hpos (Hts Hpos) E1). }
  clear E1.
  match type of H with
  | bind ?m _ = _ => destruct m as [[[[cnt off'] len'] nxt']|] eqn:E2; [|discriminate]
  end.
  cbn [bind] in H.
  destruct (assert _); [|discriminate]. cbn [bind] in H.
  destruct (advance_loop _ _ _ _) as [u2|]; [|discriminate]. cbn [bind] in H.
  injection H as <- <- <- <- _.
  rewrite Eu1 in E2. us_simpl.
  destruct ((lg =? 0) || negb (tinyhuff_can_encode (us_length_encoder u) lg)) eqn:B.
  - destruct (rd (us_data u) (us_lookahead u)) as [b|] eqn:Eb; [|discriminate].
    cbn [bind] in E2. injection E2 as <- <- <- <-. left. auto.
  - injection E2 as <- <- <- _. apply orb_false_elim in B. destruct B as [B1 B2].
    apply Z.eqb_neq in B1. apply negb_false_iff in B2.
    right. repeat split; try assumption; lia.
Qed.

(** X8: the token [ustream_find_and_advance] returns.  Between two steps
    of a compression from memory, a call that consumes something returns
    either a symbol token -- length 0, offset 0, one byte consumed and
    [next] the first byte of the look-ahead buffer -- or a phrase token
    whose length the length code can encode, which consumes as many bytes
    as its length and names a true match inside the window. *)
Theorem next_token_describes_input (u : lz77_ustream) (offset length_ next count : Z)
  (offset' length' next' : Z) (u' : lz77_ustream) :
  compressing u ->
  ustream_find_and_advance u offset length_ next
  = Ret (count, (offset', length', next'), u') ->
  0 < count ->
  (length' = 0 /\ count = 1 /\ offset' = 0
   /\ rd (us_data u) (us_lookahead u) = Ret next')
  \/ (0 < length' /\ count = length'
      /\ tinyhuff_can_encode (us_length_encoder u) length' = true
      /\ phrase_found u length' offset').
Proof.
  exact (find_and_advance_token u offset length_ next count offset' length' next' u').
Qed.

(** ** The operations of [tree.c] on a tree in shape *)

Lemma sample_tree_in_tree (i : Z) :
  in_tree 4 sample_tree i <-> i = 0 \/ i = 1 \/ i = 2.
Proof.
  unfold in_tree. split.
  - intros [Hr Hp].
    assert (i = 0 \/ i = 1 \/ i = 2 \/ i = 3) as [->|[->|[->| ->]]] by lia; auto.
    exfalso. apply Hp. reflexivity.
  - intros [->|[->| ->]]; (split; [lia | vm_compute; discriminate]).
Qed.

Lemma sample_tree_is_node (p : Z) :
  is_node 4 sample_tree p <-> p = 0 \/ p = 1 \/ p = 2 \/ p = 4.
Proof. unfold is_node. rewrite sample_tree_in_tree. intuition lia. Qed.

Lemma sample_tree_well_formed : well_formed 4 sample_tree.
Proof.
  constructor.
  - lia.
  - reflexivity.
  - intros i Hi. apply sample_tree_in_tree in Hi. rewrite sample_tree_is_node.
    destruct Hi as [->|[->| ->]]; (split; [vm_compute; auto | vm_compute; auto]).
  - intros p c Hp Hc Hl. apply sample_tree_is_node in Hp. rewrite sample_tree_in_tree.
    destruct Hp as [->|[->|[->| ->]]]; destruct Hl as [<-|<-]; vm_compute in Hc |- *;
      try (exfalso; apply Hc; reflexivity); auto.
  - intros p Hp. apply sample_tree_is_node in Hp.
    destruct Hp as [->|[->|[->| ->]]]; vm_compute; intros E; try reflexivity; discriminate.
  - exists (fun j => if j =? 4 then 0%nat else if j =? 0 then 1%nat else 2%nat).
    intros i Hi. apply sample_tree_in_tree in Hi.
    destruct Hi as [->|[->| ->]]; vm_compute; lia.
Qed.

(** X1: [lz77_tree_contract_node] on a tree in shape, for a node
    [old] of the tree whose only child, if it has one, is [new]: the node
    leaves the tree, every other slot stays as it was, the tree stays in
    shape, and the child takes the parent of the node. *)
Theorem tree_contract_node_removes (w : Z) (t : list lz77_tree) (old new : Z)
  (t' : list lz77_tree) :
  well_formed w t -> in_tree w t old ->
  (forall c, links t old c -> c = new \/ c = UNUSED) ->
  lz77_tree_contract_node t old new = Ret t' ->
  well_formed w t'
  /\ (forall s, in_tree w t' s <-> in_tree w t s /\ s <> old)
  /\ (new <> UNUSED -> parent (node t' new) = parent (node t old)).
Proof.
  intros Hwf Hold Honly H.
  destruct (contract_node_ok _ _ _ _ _ Hwf Hold Honly H) as [A B].
  split; [exact A|]. split; [exact B|].
  intros Hn.
  destruct (contract_node_exec _ _ _ _ _ Hwf Hold H) as (Hno & _).
  destruct (contract_node_fields _ _ _ _ _ Hwf Hold H) as (_ & P & _).
  rewrite P. destruct (Z.eqb_spec new old) as [C|_]; [contradiction|].
  rewrite Z.eqb_refl. destruct (Z.eqb_spec new UNUSED) as [C|_]; [contradiction|].
  reflexivity.
Qed.

Lemma tree_contract_node_removes_witness :
  exists t',
    lz77_tree_contract_node sample_tree 1 65535 = Ret t'
    /\ well_formed 4 t'
    /\ (forall s, in_tree 4 t' s <-> in_tree 4 sample_tree s /\ s <> 1).
Proof.
  eexists. split; [vm_compute; reflexivity|].
  refine (let H := tree_contract_node_removes 4 sample_tree 1 65535 _
                     sample_tree_well_formed _ _ _ in conj (proj1 H) (proj1 (proj2 H))).
  - apply sample_tree_in_tree. right. left. reflexivity.
  - intros c [A|A]; vm_compute in A; right; symmetry; exact A.
  - vm_compute; reflexivity.
Defined.

(** X2: [lz77_tree_replace_node] on a tree in shape, for a node
    [old] of the tree and a free slot [new]: [new] is in the tree with the
    parent and the children [old] had, [old] is out of it, every other slot
    stays as it was and the tree stays in shape. *)
Theorem tree_replace_node_swaps (w : Z) (t : list lz77_tree) (old new : Z)
  (t' : list lz77_tree) :
  well_formed w t -> in_tree w t old -> 0 <= new < w ->
  lz77_tree_replace_node t old new = Ret t' ->
  well_formed w t'
  /\ (forall s, in_tree w t' s <-> s = new \/ (in_tree w t s /\ s <> old))
  /\ ~ in_tree w t new
  /\ parent (node t' new) = parent (node t old)
  /\ smaller (node t' new) = smaller (node t old)
  /\ larger (node t' new) = larger (node t old).
Proof.
  intros Hwf Hold Hnew H.
  destruct (replace_node_ok _ _ _ _ _ Hwf Hold Hnew H) as (A & B & C & D & E).
  destruct (replace_node_fields _ _ _ _ _ Hwf Hold Hnew H) as (F & _).
  split; [exact A|]. split; [exact B|]. split; [|auto].
  intros [_ G]. contradiction.
Qed.

Lemma tree_replace_node_swaps_witness :
  exists t',
    lz77_tree_replace_node sample_tree 1 3 = Ret t'
    /\ well_formed 4 t'
    /\ (forall s, in_tree 4 t' s <-> s = 3 \/ (in_tree 4 sample_tree s /\ s <> 1)).
Proof.
  eexists. split; [vm_compute; reflexivity|].
  refine (let H := tree_replace_node_swaps 4 sample_tree 1 3 _
                     sample_tree_well_formed _ _ _ in conj (proj1 H) (proj1 (proj2 H))).
  - apply sample_tree_in_tree. right. left. reflexivity.
  - lia.
  - vm_compute; reflexivity.
Defined.

(** X3: [lz77_tree_delete_node] on a tree in shape: the slot is
    out of the tree afterwards, whether it was a leaf, had one child or
    two; every other slot stays in the tree or out of it as it was, and the
    tree stays in shape. *)
Theorem tree_delete_node_removes (w : Z) (t : list lz77_tree) (index : Z)
  (t' : list lz77_tree) :
  well_formed w t -> 0 <= index < w ->
  lz77_tree_delete_node t index = Ret t' ->
  well_formed w t' /\ forall s, in_tree w t' s <-> in_tree w t s /\ s <> index.
Proof. intros Hwf Hr H. exact (delete_node_ok _ _ _ _ Hwf Hr H). Qed.

Lemma tree_delete_node_removes_witness :
  exists t',
    lz77_tree_delete_node sample_tree 0 = Ret t'
    /\ well_formed 4 t'
    /\ (forall s, in_tree 4 t' s <-> in_tree 4 sample_tree s /\ s <> 0).
Proof.
  eexists. split; [vm_compute; reflexivity|].
  refine (tree_delete_node_removes 4 sample_tree 0 _ sample_tree_well_formed _ _).
  - lia.
  - vm_compute; reflexivity.
Defined.

Lemma find_next_loop_below (w : Z) (t : list lz77_tree) (index : Z) :
  well_formed w t ->
  forall fuel next r,
    in_tree w t next -> (exists k, ancestor t (S k) next = index) ->
    find_next_loop fuel t next = Ret r ->
    in_tree w t r /\ larger (node t r) = UNUSED /\ exists k, ancestor t (S k) r = index.
Proof.
  intros Hwf. induction fuel as [|fuel IH]; intros next r Hn Hk H; [discriminate|].
  cbn [find_next_loop] in H.
  destruct (rd t next) as [n|] eqn:E; [|discriminate]. cbn [bind] in H.
  apply rd_node in E. destruct E as [_ ->].
  destruct (Z.eqb_spec (larger (node t next)) UNUSED) as [U|U]; cbn [negb] in H.
  - injection H as <-. auto.
  - destruct (wf_down _ _ Hwf next (larger (node t next)) (or_intror Hn) U
                (or_intror eq_refl)) as [A B].
    apply (IH _ _ A); [|exact H].
    destruct Hk as [k Hk]. exists (S k). cbn [ancestor] in *. rewrite B. exact Hk.
Qed.

(** X5: [lz77_tree_find_next_node] on a node of a tree in shape
    that has a smaller child: the node returned is in the tree, lies below
    [index], differs from it and has no larger child. *)
Theorem tree_find_next_node_below (w : Z) (t : list lz77_tree) (index r : Z) :
  well_formed w t -> in_tree w t index -> smaller (node t index) <> UNUSED ->
  lz77_tree_find_next_node t index = Ret r ->
  in_tree w t r /\ larger (node t r) = UNUSED /\ r <> index
  /\ exists k, ancestor t (S k) r = index.
Proof.
  intros Hwf Hi Hs H. unfold lz77_tree_find_next_node in H.
  destruct (assert _); [|discriminate]. cbn [bind] in H.
  destruct (rd t index) as [n|] eqn:E; [|discriminate]. cbn [bind] in H.
  apply rd_node in E. destruct E as [_ ->].
  destruct (wf_down _ _ Hwf index _ (or_intror Hi) Hs (or_introl eq_refl)) as [A B].
  destruct (wf_rank _ _ Hwf) as [rank Hr].
  assert (rank index < rank (smaller (node t index)))%nat as R
      by (pose proof (Hr _ A) as R; rewrite B in R; exact R).
  destruct (find_next_loop_ok _ _ rank (rank index) Hwf Hr _ _ _ A R H) as (C1 & C2 & C3).
  destruct (find_next_loop_below w t index Hwf _ _ r A (ex_intro _ 0%nat B) H)
    as (_ & _ & C4).
  split; [exact C1|]. split; [exact C2|]. split; [|exact C4].
  intros ->. lia.
Qed.

Lemma tree_find_next_node_below_witness :
  exists r,
    lz77_tree_find_next_node sample_tree 0 = Ret r
    /\ in_tree 4 sample_tree r /\ larger (node sample_tree r) = UNUSED /\ r <> 0.
Proof.
  eexists. split; [vm_compute; reflexivity|].
  refine (let H := tree_find_next_node_below 4 sample_tree 0 _ sample_tree_well_formed _ _ _ in
          conj (proj1 H) (conj (proj1 (proj2 H)) (proj1 (proj2 (proj2 H))))).
  - apply sample_tree_in_tree. left. reflexivity.
  - vm_compute; discriminate.
  - vm_compute; reflexivity.
Defined.

(** ** One step of the compression of ["AAAA"] *)

Lemma four_equal_opened_ok :
  ustream_open four_equal_bytes (sample_cstream 4 2) = Ret four_equal_opened.
Proof. vm_compute. reflexivity. Qed.

Lemma four_equal_after_one_ok :
  next_tokens 1 four_equal_opened 0 0 0 = Ret four_equal_after_one.
Proof. vm_compute. reflexivity. Qed.

Lemma four_equal_opened_compressing : compressing four_equal_opened.
Proof.
  apply (opened_compressing [65; 65; 65; 65] 4 4 2 heap_limit (sample_cstream 4 2)
           four_equal_bytes four_equal_opened); [lia | reflexivity | exact four_equal_opened_ok].
Qed.

Lemma four_equal_after_one_compressing : compressing four_equal_after_one.
Proof.
  apply (next_tokens_ok 1 four_equal_opened 0 0 0 four_equal_after_one
           four_equal_opened_compressing four_equal_after_one_ok).
Qed.

(** X6: the match [lz77_find_and_add] returns.  On a stream
    between two steps of a compression from memory, the length returned is
    0 or the length of a true match inside the window: the offset is below
    the current window size, the length is at most the size of the
    look-ahead buffer and the bytes at the offset are the first bytes of
    the look-ahead buffer. *)
Theorem find_and_add_returns_match (u : lz77_ustream) (curr offset longest offset' : Z)
  (u' : lz77_ustream) :
  view_ok u -> 0 < us_window_currsize u -> tree_state u ->
  lz77_find_and_add u curr offset = Ret (longest, offset', u') ->
  phrase_found u longest offset'.
Proof. intros Hv Hpos Hts H. exact (find_and_add_phrase _ _ _ _ _ _ Hv Hpos Hts H). Qed.

Lemma find_and_add_returns_match_witness :
  exists u',
    lz77_find_and_add four_equal_after_one 1 0 = Ret (2, 0, u')
    /\ phrase_found four_equal_after_one 2 0.
Proof.
  eexists. split; [vm_compute; reflexivity|].
  refine (find_and_add_returns_match four_equal_after_one 1 0 2 0 _ _ _ _ _).
  - exact (proj1 four_equal_after_one_compressing).
  - reflexivity.
  - apply (proj2 (proj2 (proj2 four_equal_after_one_compressing))). reflexivity.
  - vm_compute; reflexivity.
Defined.

Lemma next_token_consumes_witness :
  exists u',
    ustream_find_and_advance four_equal_after_one 0 0 65 = Ret (2, (0, 2, 65), u')
    /\ us_lookahead u' = us_lookahead four_equal_after_one + 2
    /\ us_window_currsize u' = Z.min 4 (1 + 2).
Proof.
  eexists. split; [vm_compute; reflexivity|].
  refine (let H := next_token_consumes four_equal_after_one 0 0 65 2 (0, 2, 65) _ _ _ in
          conj (proj1 (proj2 (proj2 (proj2 H))))
               (proj1 (proj2 (proj2 (proj2 (proj2 H)))))).
  - exact (proj1 four_equal_after_one_compressing).
  - vm_compute; reflexivity.
Defined.

Lemma next_token_describes_input_witness :
  exists u',
    ustream_find_and_advance four_equal_after_one 0 0 65 = Ret (2, (0, 2, 65), u')
    /\ ((2 = 0 /\ 2 = 1 /\ 0 = 0
         /\ rd (us_data four_equal_after_one) (us_lookahead four_equal_after_one) = Ret 65)
        \/ (0 < 2 /\ 2 = 2
            /\ tinyhuff_can_encode (us_length_encoder four_equal_after_one) 2 = true
            /\ phrase_found four_equal_after_one 2 0)).
Proof.
  eexists. split; [vm_compute; reflexivity|].
  refine (next_token_describes_input four_equal_after_one 0 0 65 2 0 2 65 _
            four_equal_after_one_compressing _ _).
  - vm_compute; reflexivity.
  - lia.
Defined.

(** ** The length code of [tinyhuff.c] *)

Lemma decoding_table_lookup (index : Z) :
  0 <= index < 64 -> rd decoding_table index = Ret (dec_of index).
Proof.
  intros Hi.
  assert (forallb (fun n => match rd decoding_table (Z.of_nat n) with
                            | Ret d => dec_entry_eqb d (dec_of (Z.of_nat n))
                            | Stop _ => false
                            end) (seq 0 64) = true) as All by (vm_compute; reflexivity).
  rewrite forallb_forall in All.
  specialize (All (Z.to_nat index)). rewrite Z2Nat.id in All by lia.
  assert (In (Z.to_nat index) (seq 0 64)) as Hin by (apply in_seq; lia).
  specialize (All Hin).
  destruct (rd decoding_table index) as [d|]; [|discriminate].
  unfold dec_entry_eqb in All. apply andb_prop in All. destruct All as [A B].
  apply Z.eqb_eq in A, B. destruct d as [dv dn], (dec_of index) as [ev en].
  cbn [value dec_nbits] in A, B. congruence.
Qed.

(** The [k] bits of [c], then [rest], shifted right by the width of
    [rest] and masked to [m] bits. *)
Lemma top_bits (c rest k m : Z) :
  0 <= k -> 0 <= m -> 0 <= rest < 2 ^ k ->
  Z.land (Z.shiftr (c * 2 ^ k + rest) k) (Z.shiftl 1 m - 1) = c mod 2 ^ m.
Proof.
  intros Hk Hm Hr.
  rewrite Z.shiftr_div_pow2 by lia.
  rewrite Z.div_add_l by lia. rewrite (Z.div_small rest) by lia. rewrite Z.add_0_r.
  rewrite Z.shiftl_1_l. change (2 ^ m - 1) with (Z.pred (2 ^ m)).
  rewrite <- Z.ones_equiv. apply Z.land_ones. lia.
Qed.

Lemma bit_width_above (n : Z) : 0 <= n -> n < 2 ^ bit_width n.
Proof.
  intros Hn. unfold bit_width.
  destruct (Z.eq_dec n 0) as [->|N0]; [reflexivity|].
  rewrite Z.max_r by lia.
  replace (1 + Z.log2 n) with (Z.succ (Z.log2 n)) by lia.
  apply Z.log2_spec. lia.
Qed.

(** The encoder [tinyhuff_init] sets up. *)
Lemma tinyhuff_init_fields (mn mx : Z) :
  1 <= mn -> mn + 6 < 65536 -> 0 <= mx < 65536 ->
  let enc := tinyhuff_init mn mx in
  min_value enc = mn /\ max_value enc = mx /\ max_encoded_value enc = mn + 6
  /\ (mn + 6 <= mx -> 1 <= diff_nbits enc <= 16 /\ mx - (mn + 6) < 2 ^ diff_nbits enc)
  /\ (mx < mn + 6 -> diff_nbits enc = 0).
Proof.
  intros Hmn Hmn6 Hmx. cbv zeta. unfold tinyhuff_init.
  cbn [min_value max_value max_encoded_value diff_nbits].
  change ENCODING_TABLE_SIZE with 8.
  rewrite (u16_small mn), (u16_small mx) by (change (2 ^ 16) with 65536; lia).
  rewrite (u16_small (mn + 8 - 2)) by (change (2 ^ 16) with 65536; lia).
  split; [reflexivity|]. split; [reflexivity|]. split; [lia|]. split.
  - intros Hle. destruct (Z.leb_spec 0 (mx - (mn + 8 - 2))) as [_|C]; [|lia].
    rewrite number_of_bits_bit_width by (change (2 ^ 16) with 65536; lia).
    split; [apply bit_width_bounds; change (2 ^ 16) with 65536; lia|].
    replace (mx - (mn + 6)) with (mx - (mn + 8 - 2)) by lia.
    apply bit_width_above. lia.
  - intros Hlt. destruct (Z.leb_spec 0 (mx - (mn + 8 - 2))) as [C|_]; [lia|reflexivity].
Qed.

Lemma can_encode_cases (enc : lz77_tinyhuff) (v : Z) :
  tinyhuff_can_encode enc v = true ->
  v = 0 \/ (min_value enc <= v <= max_value enc).
Proof.
  unfold tinyhuff_can_encode. intros H. apply orb_prop in H.
  destruct H as [H|H]; [left; apply Z.eqb_eq, H|right].
  apply andb_prop in H. destruct H as [A B]. apply Z.leb_le in A, B. lia.
Qed.

Lemma lor_pow2 (d x : Z) : 0 <= d -> 0 <= x < 2 ^ d -> Z.lor (2 ^ d) x = 2 ^ d + x.
Proof.
  intros Hd Hx.
  assert (Z.land (2 ^ d) x = 0) as Hl; [|rewrite <- Z.lxor_lor, Z.add_nocarry_lxor by exact Hl;
                                         reflexivity].
  apply Z.bits_inj_0. intros n. rewrite Z.land_spec.
  destruct (Z_lt_dec n 0) as [N|N]; [rewrite (Z.testbit_neg_r _ n N); reflexivity|].
  rewrite Z.pow2_bits_eqb by lia.
  destruct (Z.eqb_spec d n) as [<-|_]; [|reflexivity].
  cbn [andb]. apply Z.testbit_false; [lia|]. rewrite Z.div_small by lia. reflexivity.
Qed.

Lemma tinyhuff_encode_closed (mn mx v : Z) :
  1 <= mn -> mn + 6 < 65536 -> 0 <= mx < 65536 ->
  diff_nbits (tinyhuff_init mn mx) <= 10 ->
  tinyhuff_can_encode (tinyhuff_init mn mx) v = true ->
  tinyhuff_encode (tinyhuff_init mn mx) v = Ret (length_code (tinyhuff_init mn mx) v).
Proof.
  intros Hmn Hmn6 Hmx Hd10 Hcan.
  destruct (tinyhuff_init_fields mn mx Hmn Hmn6 Hmx) as (Emin & Emax & Eenc & Hd & Hd0).
  cbv zeta in *. set (enc := tinyhuff_init mn mx) in *.
  apply can_encode_cases in Hcan. rewrite Emin, Emax in Hcan.
  unfold tinyhuff_encode, length_code. rewrite Emin, Emax, Eenc.
  destruct Hcan as [->|Hv].
  - cbn [Z.eqb orb assert bind]. destruct (Z.leb_spec 0 mx) as [_|C]; [|lia].
    cbn [assert bind]. cbn [rd encoding_table].
    destruct (Z.leb_spec (mn + 6) 0) as [C|_]; [lia|]. reflexivity.
  - destruct (Z.eqb_spec v 0) as [C|_]; [lia|].
    destruct (Z.leb_spec mn v) as [_|C]; [|lia].
    destruct (Z.leb_spec v mx) as [_|C]; [|lia].
    cbn [orb assert bind]. change (ENCODING_TABLE_SIZE - 1) with 7.
    rewrite u32_small by (change (2 ^ 32) with 4294967296; lia).
    destruct (Z.leb_spec (mn + 6) v) as [Hbig|Hsmall].
    + destruct (Hd ltac:(lia)) as [Hdr Hdm].
      assert (rd encoding_table (if 7 <? 1 + v - mn then 7 else 1 + v - mn)
              = Ret {| code := 1; enc_nbits := 6 |}) as ->.
      { destruct (Z.ltb_spec 7 (1 + v - mn)); [reflexivity|].
        replace (1 + v - mn) with 7 by lia. reflexivity. }
      cbn [bind code enc_nbits].
      destruct (Z.ltb_spec 0 (diff_nbits enc)) as [_|C]; [|lia].
      cbn [assert bind].
      rewrite (u16_small (v - (mn + 6))) by (change (2 ^ 16) with 65536; lia).
      assert (Z.land (v - (mn + 6)) (Z.shiftl 1 (diff_nbits enc) - 1) = v - (mn + 6)) as El.
      { rewrite Z.shiftl_1_l. change (2 ^ diff_nbits enc - 1) with (Z.pred (2 ^ diff_nbits enc)).
        rewrite <- Z.ones_equiv, Z.land_ones by lia. apply Z.mod_small. lia. }
      rewrite El, Z.eqb_refl. cbn [assert bind].
      rewrite u8_small by (change (2 ^ 8) with 256; lia).
      rewrite Z.shiftl_1_l, lor_pow2 by lia.
      assert (2 ^ diff_nbits enc <= 2 ^ 10) by (apply Z.pow_le_mono_r; lia).
      rewrite u16_small by (change (2 ^ 16) with 65536; change (2 ^ 10) with 1024 in *; lia).
      reflexivity.
    + destruct (Z.ltb_spec 7 (1 + v - mn)) as [C|_]; [lia|].
      assert (v - mn = 0 \/ v - mn = 1 \/ v - mn = 2 \/ v - mn = 3 \/ v - mn = 4 \/ v - mn = 5)
        as Hj by lia.
      destruct Hj as [E|[E|[E|[E|[E|E]]]]];
        replace (1 + v - mn) with (1 + (v - mn)) by ring; rewrite E; reflexivity.
Qed.

Lemma decode_index (peek : Z) :
  0 <= peek < 65536 ->
  u16 (Z.land (Z.shiftr peek (u16 (16 - MAX_CODE_BITS))) (u16 (Z.shiftl 1 MAX_CODE_BITS - 1)))
  = peek / 1024.
Proof.
  intros Hp. change (u16 (16 - MAX_CODE_BITS)) with 10.
  change (u16 (Z.shiftl 1 MAX_CODE_BITS - 1)) with (Z.ones 6).
  rewrite Z.shiftr_div_pow2, Z.land_ones by lia. change (2 ^ 10) with 1024. change (2 ^ 6) with 64.
  assert (0 <= peek / 1024 < 64) by (Z.div_mod_to_equations; lia).
  rewrite Z.mod_small by lia. apply u16_small. change (2 ^ 16) with 65536. lia.
Qed.

Ltac dec_of_cases :=
  unfold dec_of;
  repeat match goal with
         | |- context [Z.eqb ?a ?b] => destruct (Z.eqb_spec a b); try lia
         | |- context [Z.ltb ?a ?b] => destruct (Z.ltb_spec a b); try lia
         end.

Lemma dec_of_range (index lo hi : Z) (d : dec_entry) :
  lo <= index < hi ->
  (forall i, lo <= i < hi -> dec_of i = d) -> dec_of index = d.
Proof. intros H A. apply A, H. Qed.

(** A code of at most six bits, followed by anything. *)
Lemma tinyhuff_decode_short (enc : lz77_tinyhuff) (j n c rest plen v0 : Z) :
  1 <= min_value enc -> max_encoded_value enc = min_value enc + 6 ->
  min_value enc + 6 < 65536 ->
  0 <= j <= 5 -> min_value enc + j <= max_value enc ->
  n = (if j <? 3 then 2 else j) -> c = (if j <? 3 then 3 - j else 1) ->
  0 <= rest < 2 ^ (16 - n) -> n <= plen <= 16 ->
  tinyhuff_decode enc (c * 2 ^ (16 - n) + rest) plen v0 = Ret (n, min_value enc + j).
Proof.
  intros Hmn Eenc Hmn6 Hj Hmx En Ec Hrest Hplen.
  assert (forall idx val, 0 < idx < 64 -> dec_of idx = {| value := val; dec_nbits := n |} ->
            val = j ->
            (c * 2 ^ (16 - n) + rest) / 1024 = idx ->
            0 <= c * 2 ^ (16 - n) + rest < 65536 ->
            tinyhuff_decode enc (c * 2 ^ (16 - n) + rest) plen v0
            = Ret (n, min_value enc + j)) as G.
  { intros idx val Hidx Hdec Hval Eidx Hpeek. unfold tinyhuff_decode.
    destruct (Z.leb_spec plen 16) as [_|C]; [|lia]. cbn [assert bind].
    change LZ77_TINYHUFF_MIN_CODE_BITS with 2.
    destruct (Z.ltb_spec plen 2) as [C|_];
      [destruct (Z.ltb_spec j 3); lia|].
    cbv zeta. rewrite (decode_index _ Hpeek), Eidx.
    rewrite decoding_table_lookup by lia. rewrite Hdec. cbn [bind value dec_nbits].
    destruct (Z.ltb_spec plen n) as [C|_]; [lia|].
    destruct (Z.ltb_spec 0 idx) as [_|C]; [|lia].
    rewrite Hval, u16_small by (change (2 ^ 16) with 65536; lia).
    rewrite Eenc. destruct (Z.eqb_spec (j + min_value enc) (min_value enc + 6)) as [C|_]; [lia|].
    destruct (Z.leb_spec (j + min_value enc) (max_value enc)) as [_|C]; [|lia].
    cbn [assert bind].
    destruct (Z.leb_spec n plen) as [_|C]; [|lia].
    cbn [assert bind]. f_equal. f_equal. lia. }
  assert (j = 0 \/ j = 1 \/ j = 2 \/ j = 3 \/ j = 4 \/ j = 5) as Hcases by lia.
  destruct Hcases as [E|[E|[E|[E|[E|E]]]]]; subst j; cbn in En, Ec; subst n c;
    cbn in Hrest |- *.
  - apply (G ((3 * 16384 + rest) / 1024) 0);
      [Z.div_mod_to_equations; lia | | reflexivity | reflexivity | lia].
    assert (48 <= (3 * 16384 + rest) / 1024 < 64) by (Z.div_mod_to_equations; lia).
    dec_of_cases. reflexivity.
  - apply (G ((2 * 16384 + rest) / 1024) 1);
      [Z.div_mod_to_equations; lia | | reflexivity | reflexivity | lia].
    assert (32 <= (2 * 16384 + rest) / 1024 < 48) by (Z.div_mod_to_equations; lia).
    dec_of_cases. reflexivity.
  - apply (G ((1 * 16384 + rest) / 1024) 2);
      [Z.div_mod_to_equations; lia | | reflexivity | reflexivity | lia].
    assert (16 <= (1 * 16384 + rest) / 1024 < 32) by (Z.div_mod_to_equations; lia).
    dec_of_cases. reflexivity.
  - apply (G ((1 * 8192 + rest) / 1024) 3);
      [Z.div_mod_to_equations; lia | | reflexivity | reflexivity | lia].
    assert (8 <= (1 * 8192 + rest) / 1024 < 16) by (Z.div_mod_to_equations; lia).
    dec_of_cases. reflexivity.
  - apply (G ((1 * 4096 + rest) / 1024) 4);
      [Z.div_mod_to_equations; lia | | reflexivity | reflexivity | lia].
    assert (4 <= (1 * 4096 + rest) / 1024 < 8) by (Z.div_mod_to_equations; lia).
    dec_of_cases. reflexivity.
  - apply (G ((1 * 2048 + rest) / 1024) 5);
      [Z.div_mod_to_equations; lia | | reflexivity | reflexivity | lia].
    assert (2 <= (1 * 2048 + rest) / 1024 < 4) by (Z.div_mod_to_equations; lia).
    dec_of_cases. reflexivity.
Qed.

(** The code of the length 0, which ends the stream. *)
Lemma tinyhuff_decode_zero (enc : lz77_tinyhuff) (rest plen v0 : Z) :
  1 <= min_value enc -> max_encoded_value enc = min_value enc + 6 ->
  0 <= max_value enc ->
  0 <= rest < 2 ^ (16 - 6) -> 6 <= plen <= 16 ->
  tinyhuff_decode enc (0 * 2 ^ (16 - 6) + rest) plen v0 = Ret (6, 0).
Proof.
  intros Hmn Eenc Hmx Hrest Hplen. cbn in Hrest |- *. unfold tinyhuff_decode.
  destruct (Z.leb_spec plen 16) as [_|C]; [|lia]. cbn [assert bind].
  change LZ77_TINYHUFF_MIN_CODE_BITS with 2.
  destruct (Z.ltb_spec plen 2) as [C|_]; [lia|].
  cbv zeta. rewrite decode_index by lia. rewrite (Z.div_small rest) by lia.
  rewrite decoding_table_lookup by lia.
  change (dec_of 0) with {| value := 0; dec_nbits := 6 |}. cbn [bind value dec_nbits].
  destruct (Z.ltb_spec plen 6) as [C|_]; [lia|].
  change (0 <? 0) with false. cbv iota.
  rewrite Eenc. destruct (Z.eqb_spec 0 (min_value enc + 6)) as [C|_]; [lia|].
  destruct (Z.leb_spec 0 (max_value enc)) as [_|C]; [|lia]. cbn [assert bind].
  destruct (Z.leb_spec 6 plen) as [_|C]; [|lia]. reflexivity.
Qed.

(** The code of a length from [max_encoded_value] on: the six bits
    [000001], then the difference on [diff_nbits] bits. *)
Lemma tinyhuff_decode_long (enc : lz77_tinyhuff) (diff rest plen v0 : Z) :
  1 <= min_value enc -> max_encoded_value enc = min_value enc + 6 ->
  1 <= diff_nbits enc <= 10 ->
  0 <= diff < 2 ^ diff_nbits enc ->
  min_value enc + 6 + diff <= max_value enc -> max_value enc < 65536 ->
  0 <= rest < 2 ^ (16 - (6 + diff_nbits enc)) -> 6 + diff_nbits enc <= plen <= 16 ->
  tinyhuff_decode enc ((2 ^ diff_nbits enc + diff) * 2 ^ (16 - (6 + diff_nbits enc)) + rest)
    plen v0
  = Ret (6 + diff_nbits enc, min_value enc + 6 + diff).
Proof.
  intros Hmn Eenc Hd Hdiff Hmx Hmx16 Hrest Hplen.
  set (d := diff_nbits enc) in *.
  replace (16 - (6 + d)) with (10 - d) in * by lia.
  assert (2 ^ d * 2 ^ (10 - d) = 1024) as Epow
      by (rewrite <- Z.pow_add_r by lia; replace (d + (10 - d)) with 10 by lia; reflexivity).
  assert (0 < 2 ^ (10 - d)) as Hpos by (apply Z.pow_pos_nonneg; lia).
  assert (0 < 2 ^ d) as Hposd by (apply Z.pow_pos_nonneg; lia).
  set (peek := (2 ^ d + diff) * 2 ^ (10 - d) + rest).
  assert (peek = 1 * 1024 + (diff * 2 ^ (10 - d) + rest)) as Epeek by (unfold peek; nia).
  assert (0 <= diff * 2 ^ (10 - d) + rest < 1024) as Hlow by nia.
  unfold tinyhuff_decode.
  destruct (Z.leb_spec plen 16) as [_|C]; [|lia]. cbn [assert bind].
  change LZ77_TINYHUFF_MIN_CODE_BITS with 2.
  destruct (Z.ltb_spec plen 2) as [C|_]; [lia|].
  cbv zeta. rewrite decode_index by lia.
  assert (peek / 1024 = 1) as ->.
  { rewrite Epeek, Z.div_add_l by lia. rewrite (Z.div_small _ 1024) by lia. reflexivity. }
  rewrite decoding_table_lookup by lia.
  change (dec_of 1) with {| value := 6; dec_nbits := 6 |}. cbn [bind value dec_nbits].
  destruct (Z.ltb_spec plen 6) as [C|_]; [lia|].
  change (0 <? 1) with true. cbv iota.
  rewrite (u16_small (6 + min_value enc)) by (change (2 ^ 16) with 65536; lia).
  rewrite Eenc. destruct (Z.eqb_spec (6 + min_value enc) (min_value enc + 6)) as [_|C]; [|lia].
  fold d. destruct (Z.ltb_spec 0 d) as [_|C]; [|lia]. cbn [assert bind].
  destruct (Z.ltb_spec plen (6 + d)) as [C|_]; [lia|].
  change (u16 (16 - MAX_CODE_BITS)) with 10.
  rewrite (u16_small (10 - d)) by (change (2 ^ 16) with 65536; lia).
  assert (2 ^ d <= 2 ^ 10) as Hd10 by (apply Z.pow_le_mono_r; lia).
  change (2 ^ 10) with 1024 in Hd10.
  rewrite (u16_small (Z.shiftl 1 d - 1))
    by (rewrite Z.shiftl_1_l; change (2 ^ 16) with 65536; lia).
  unfold peek. rewrite top_bits by lia.
  replace ((2 ^ d + diff) mod 2 ^ d) with diff
    by (rewrite <- Z.add_mod_idemp_l, Z.mod_same, Z.add_0_l, Z.mod_small by lia; reflexivity).
  rewrite (u16_small diff) by (change (2 ^ 16) with 65536; lia).
  rewrite (u16_small (6 + min_value enc + diff)) by (change (2 ^ 16) with 65536; lia).
  rewrite (u8_small (6 + d)) by (change (2 ^ 8) with 256; lia).
  destruct (Z.leb_spec (6 + min_value enc + diff) (max_value enc)) as [_|C]; [|lia].
  cbn [assert bind].
  destruct (Z.leb_spec (6 + d) plen) as [_|C]; [|lia].
  cbn [assert bind]. f_equal. f_equal. lia.
Qed.

(** A code [tinyhuff_encode] returns is decoded again, whatever follows it. *)
Lemma tinyhuff_encode_decode (mn mx v : Z) :
  1 <= mn -> mn + 6 < 65536 -> 0 <= mx < 65536 ->
  diff_nbits (tinyhuff_init mn mx) <= 10 ->
  tinyhuff_can_encode (tinyhuff_init mn mx) v = true ->
  exists nbits code,
    tinyhuff_encode (tinyhuff_init mn mx) v = Ret (nbits, code)
    /\ 2 <= nbits <= 16 /\ 0 <= code < 2 ^ nbits
    /\ forall rest plen v0,
         0 <= rest < 2 ^ (16 - nbits) -> nbits <= plen <= 16 ->
         tinyhuff_decode (tinyhuff_init mn mx) (code * 2 ^ (16 - nbits) + rest) plen v0
         = Ret (nbits, v).
Proof.
  intros Hmn Hmn6 Hmx Hd10 Hcan.
  rewrite (tinyhuff_encode_closed mn mx v Hmn Hmn6 Hmx Hd10 Hcan).
  destruct (tinyhuff_init_fields mn mx Hmn Hmn6 Hmx) as (Emin & Emax & Eenc & Hd & Hd0).
  cbv zeta in *. set (enc := tinyhuff_init mn mx) in *.
  apply can_encode_cases in Hcan. rewrite Emin, Emax in Hcan.
  unfold length_code. rewrite Emin, Eenc.
  destruct (Z.eqb_spec v 0) as [->|Hv0].
  - exists 6, 0. split; [reflexivity|]. split; [lia|]. split; [cbn; lia|].
    intros rest plen v0 Hrest Hplen.
    apply tinyhuff_decode_zero; try assumption; try lia.
  - destruct Hcan as [C|Hv]; [contradiction|].
    destruct (Z.leb_spec (mn + 6) v) as [Hbig|Hsmall].
    + destruct (Hd ltac:(lia)) as [Hdr Hdm].
      eexists. eexists. split; [reflexivity|].
      assert (0 < 2 ^ diff_nbits enc) as Hposd by (apply Z.pow_pos_nonneg; lia).
      split; [lia|]. split.
      * rewrite Z.pow_add_r by lia. change (2 ^ 6) with 64. nia.
      * intros rest plen v0 Hrest Hplen.
        rewrite (tinyhuff_decode_long enc (v - (mn + 6)) rest plen v0); try lia.
        f_equal. f_equal. lia.
    + eexists. eexists. split; [reflexivity|].
      assert (v - mn = 0 \/ v - mn = 1 \/ v - mn = 2 \/ v - mn = 3 \/ v - mn = 4 \/ v - mn = 5)
        as Hj by lia.
      split; [destruct (Z.ltb_spec (v - mn) 3); lia|]. split.
      * destruct Hj as [E|[E|[E|[E|[E|E]]]]]; rewrite E; cbn; lia.
      * intros rest plen v0 Hrest Hplen.
        rewrite (tinyhuff_decode_short enc (v - mn) _ _ rest plen v0); try reflexivity; try lia.
        f_equal. f_equal. lia.
Qed.

(** X9: the round trip of the length code, where it holds.  For
    the encoder [tinyhuff_init] sets up with [1 <= min_value], a difference
    field of at most 10 bits and a length [v] that [tinyhuff_can_encode]
    accepts: [tinyhuff_encode] returns a code of 2 to 16 bits, and
    [tinyhuff_decode], given any 16-bit word that starts with this code and
    at least as many peeked bits, returns the length [v] and the number of
    bits of the code, whatever bits follow the code. *)
Theorem tinyhuff_round_trip (mn mx v : Z) :
  1 <= mn -> mn + 6 < 65536 -> 0 <= mx < 65536 ->
  diff_nbits (tinyhuff_init mn mx) <= 10 ->
  tinyhuff_can_encode (tinyhuff_init mn mx) v = true ->
  exists nbits code,
    tinyhuff_encode (tinyhuff_init mn mx) v = Ret (nbits, code)
    /\ 2 <= nbits <= 16 /\ 0 <= code < 2 ^ nbits
    /\ forall rest plen v0,
         0 <= rest < 2 ^ (16 - nbits) -> nbits <= plen <= 16 ->
         tinyhuff_decode (tinyhuff_init mn mx) (code * 2 ^ (16 - nbits) + rest) plen v0
         = Ret (nbits, v).
Proof. exact (tinyhuff_encode_decode mn mx v). Qed.

Lemma tinyhuff_round_trip_witness :
  exists nbits code,
    tinyhuff_encode (tinyhuff_init 2 20) 9 = Ret (nbits, code)
    /\ 2 <= nbits <= 16 /\ 0 <= code < 2 ^ nbits
    /\ forall rest plen v0,
         0 <= rest < 2 ^ (16 - nbits) -> nbits <= plen <= 16 ->
         tinyhuff_decode (tinyhuff_init 2 20) (code * 2 ^ (16 - nbits) + rest) plen v0
         = Ret (nbits, 9).
Proof.
  apply (tinyhuff_round_trip 2 20 9); try lia.
  - vm_compute. discriminate.
  - reflexivity.
Defined.

(** ** More on the length code, the bit width and single bits *)

(** X10: [tinyhuff_decode] never reports more bits than it
    was given.  Whenever it returns, the peeked length is at most 16 and
    the number of bits to consume is 0 (more bits are needed) or at most
    the peeked length; with fewer than [LZ77_TINYHUFF_MIN_CODE_BITS]
    peeked bits it returns 0 and leaves the value cell as it was. *)
Theorem tinyhuff_decode_within_peek (enc : lz77_tinyhuff) (peek plen v0 n v : Z) :
  tinyhuff_decode enc peek plen v0 = Ret (n, v) ->
  plen <= 16 /\ (n = 0 \/ n <= plen) /\ (plen < 2 -> n = 0 /\ v = v0).
Proof.
  intros H. split; [|split].
  - unfold tinyhuff_decode in H.
    destruct (Z.leb_spec plen 16) as [L|L]; [exact L|discriminate H].
  - exact (tinyhuff_decode_consumed enc peek plen v0 n v H).
  - intros Hp. unfold tinyhuff_decode in H.
    destruct (Z.leb_spec plen 16) as [_|L]; [|discriminate H].
    cbn [assert bind] in H. change LZ77_TINYHUFF_MIN_CODE_BITS with 2 in H.
    destruct (Z.ltb_spec plen 2) as [_|C]; [|lia].
    injection H as <- <-. split; reflexivity.
Qed.

Lemma tinyhuff_decode_within_peek_witness :
  16 <= 16 /\ (6 = 0 \/ 6 <= 16) /\ (16 < 2 -> 6 = 0 /\ 0 = 7).
Proof.
  apply (tinyhuff_decode_within_peek (tinyhuff_init 2 20) 0 16 7 6 0).
  reflexivity.
Defined.

(** The encoder returns on every length [tinyhuff_can_encode] accepts. *)
Lemma tinyhuff_encode_returns (mn mx v : Z) :
  1 <= mn -> mn + 6 < 65536 -> 0 <= mx < 65536 ->
  tinyhuff_can_encode (tinyhuff_init mn mx) v = true ->
  exists nbits code,
    tinyhuff_encode (tinyhuff_init mn mx) v = Ret (nbits, code)
    /\ 2 <= nbits <= 6 + diff_nbits (tinyhuff_init mn mx)
    /\ (v < mn + 6 -> nbits <= 6)
    /\ (mn + 6 <= v -> nbits = 6 + diff_nbits (tinyhuff_init mn mx)).
Proof.
  intros Hmn Hmn6 Hmx Hcan.
  destruct (tinyhuff_init_fields mn mx Hmn Hmn6 Hmx) as (Emin & Emax & Eenc & Hd & Hd0).
  cbv zeta in *. set (enc := tinyhuff_init mn mx) in *.
  apply can_encode_cases in Hcan. rewrite Emin, Emax in Hcan.
  assert (0 <= diff_nbits enc) as Hdn.
  { destruct (Z_le_gt_dec (mn + 6) mx) as [A|A]; [destruct (Hd A); lia|rewrite Hd0; lia]. }
  unfold tinyhuff_encode. rewrite Emin, Emax, Eenc.
  destruct Hcan as [->|Hv].
  - cbn [Z.eqb orb assert bind]. destruct (Z.leb_spec 0 mx) as [_|C]; [|lia].
    cbn [assert bind]. cbn [rd encoding_table].
    destruct (Z.leb_spec (mn + 6) 0) as [C|_]; [lia|].
    eexists. eexists. split; [reflexivity|]. cbn [enc_nbits]. lia.
  - destruct (Z.eqb_spec v 0) as [C|_]; [lia|].
    destruct (Z.leb_spec mn v) as [_|C]; [|lia].
    destruct (Z.leb_spec v mx) as [_|C]; [|lia].
    cbn [orb assert bind]. change (ENCODING_TABLE_SIZE - 1) with 7.
    rewrite u32_small by (change (2 ^ 32) with 4294967296; lia).
    destruct (Z.leb_spec (mn + 6) v) as [Hbig|Hsmall].
    + destruct (Hd ltac:(lia)) as [Hdr Hdm].
      assert (rd encoding_table (if 7 <? 1 + v - mn then 7 else 1 + v - mn)
              = Ret {| code := 1; enc_nbits := 6 |}) as ->.
      { destruct (Z.ltb_spec 7 (1 + v - mn)); [reflexivity|].
        replace (1 + v - mn) with 7 by lia. reflexivity. }
      cbn [bind code enc_nbits].
      destruct (Z.ltb_spec 0 (diff_nbits enc)) as [_|C]; [|lia].
      cbn [assert bind].
      rewrite (u16_small (v - (mn + 6))) by (change (2 ^ 16) with 65536; lia).
      assert (Z.land (v - (mn + 6)) (Z.shiftl 1 (diff_nbits enc) - 1) = v - (mn + 6)) as El.
      { rewrite Z.shiftl_1_l. change (2 ^ diff_nbits enc - 1) with (Z.pred (2 ^ diff_nbits enc)).
        rewrite <- Z.ones_equiv, Z.land_ones by lia. apply Z.mod_small. lia. }
      rewrite El, Z.eqb_refl. cbn [assert bind].
      rewrite u8_small by (change (2 ^ 8) with 256; lia).
      eexists. eexists. split; [reflexivity|]. lia.
    + destruct (Z.ltb_spec 7 (1 + v - mn)) as [C|_]; [lia|].
      assert (v - mn = 0 \/ v - mn = 1 \/ v - mn = 2 \/ v - mn = 3 \/ v - mn = 4 \/ v - mn = 5)
        as Hj by lia.
      destruct Hj as [E|[E|[E|[E|[E|E]]]]];
        replace (1 + v - mn) with (1 + (v - mn)) by ring; rewrite E;
        (eexists; eexists; split; [reflexivity|cbn [enc_nbits]; lia]).
Qed.

(** X11: [tinyhuff_can_encode] is the exact precondition of
    [tinyhuff_encode].  For the encoder [tinyhuff_init] sets up with
    [1 <= min_value]: on a length [tinyhuff_can_encode] accepts,
    [tinyhuff_encode] returns a code of 2 to 6 bits below
    [max_encoded_value] and of [6 + diff_nbits] bits from there on; on a
    length it refuses, [tinyhuff_encode] has no error value to return and
    stops at one of its two assertions. *)
Theorem tinyhuff_encode_defined (mn mx v : Z) :
  1 <= mn -> mn + 6 < 65536 -> 0 <= mx < 65536 ->
  let enc := tinyhuff_init mn mx in
  (tinyhuff_can_encode enc v = true ->
   exists nbits code,
     tinyhuff_encode enc v = Ret (nbits, code)
     /\ 2 <= nbits <= 6 + diff_nbits enc
     /\ (v < mn + 6 -> nbits <= 6)
     /\ (mn + 6 <= v -> nbits = 6 + diff_nbits enc))
  /\ (tinyhuff_can_encode enc v = false -> tinyhuff_encode enc v = Stop AssertFailed).
Proof.
  intros Hmn Hmn6 Hmx enc. split.
  - exact (tinyhuff_encode_returns mn mx v Hmn Hmn6 Hmx).
  - unfold tinyhuff_can_encode, tinyhuff_encode. intros H.
    destruct (v =? 0); [discriminate H|]. cbn [orb] in *.
    destruct (min_value enc <=? v); [|reflexivity].
    cbn [andb] in H. rewrite H. reflexivity.
Qed.

Lemma tinyhuff_encode_defined_witness :
  let enc := tinyhuff_init 2 20 in
  (tinyhuff_can_encode enc 1 = true ->
   exists nbits code,
     tinyhuff_encode enc 1 = Ret (nbits, code)
     /\ 2 <= nbits <= 6 + diff_nbits enc
     /\ (1 < 2 + 6 -> nbits <= 6)
     /\ (2 + 6 <= 1 -> nbits = 6 + diff_nbits enc))
  /\ (tinyhuff_can_encode enc 1 = false -> tinyhuff_encode enc 1 = Stop AssertFailed).
Proof. apply (tinyhuff_encode_defined 2 20 1); lia. Defined.

(** X12: [number_of_bits] is the bit width of its 16-bit
    argument: 1 for 0, and otherwise the [n] with
    [2 ^ (n - 1) <= value < 2 ^ n]; the result lies between 1 and 16, and
    an argument outside 16 bits is taken modulo [2 ^ 16]. *)
Theorem number_of_bits_width (v : Z) :
  let n := number_of_bits v in
  1 <= n <= 16
  /\ (u16 v = 0 -> n = 1)
  /\ (u16 v <> 0 -> 2 ^ (n - 1) <= u16 v < 2 ^ n)
  /\ number_of_bits (u16 v) = n.
Proof.
  cbv zeta.
  assert (0 <= u16 v < 2 ^ 16) as Hr by (unfold u16; apply Z.mod_pos_bound; lia).
  assert (number_of_bits v = bit_width (u16 v)) as E.
  { rewrite <- (number_of_bits_bit_width (u16 v) Hr). unfold number_of_bits.
    unfold u16. rewrite Z.mod_mod by lia. reflexivity. }
  rewrite E. split; [apply bit_width_bounds; exact Hr|].
  split; [intros ->; reflexivity|].
  split; [|apply number_of_bits_bit_width; exact Hr].
  intros Hnz. unfold bit_width. rewrite Z.max_r by lia.
  replace (1 + Z.log2 (u16 v) - 1) with (Z.log2 (u16 v)) by lia.
  replace (1 + Z.log2 (u16 v)) with (Z.succ (Z.log2 (u16 v))) by lia.
  apply Z.log2_spec. lia.
Qed.

(** [bit_set] with any state: the bit at [p] becomes the state, the other
    bits stay. *)
Lemma bit_set_spec (l : list Z) (p state : Z) :
  0 <= p < 8 * Z.of_nat (length l) ->
  exists l',
    bit_set l p state = Ret l' /\ length l' = length l
    /\ (bytes_ok l -> bytes_ok l')
    /\ forall q, 0 <= q -> bit l' q = if q =? p then negb (state =? 0) else bit l q.
Proof.
  intros Hp. destruct (Z.eqb_spec state 0) as [->|Hs].
  - unfold bit_set.
    rewrite Z.quot_div_nonneg, Z.rem_mod_nonneg by lia.
    pose proof (div8_bounds _ _ Hp) as Hk.
    pose proof (Z.mod_pos_bound p 8 ltac:(lia)) as Hr.
    rewrite (rd_ok l (p / 8) 0) by lia. cbn [bind Z.eqb negb].
    rewrite wr_ok by lia. eexists. split; [reflexivity|].
    split; [apply upd_nat_length|].
    split.
    + intros Hl. apply bytes_ok_upd; [assumption|]. unfold u8. apply Z.mod_pos_bound. lia.
    + intros q Hq. unfold bit, byte_at.
      rewrite upd_nat_nth by lia.
      pose proof (Z.mod_pos_bound q 8 ltac:(lia)) as Hrq.
      assert (0 <= q / 8) by (apply Z.div_pos; lia).
      destruct (Nat.eqb_spec (Z.to_nat (q / 8)) (Z.to_nat (p / 8))) as [E|E].
      * assert (q / 8 = p / 8) as Eq by lia.
        unfold u8. rewrite Z.mod_pow2_bits_low by lia.
        rewrite Z.land_spec, Z.lnot_spec, shiftr_128 by lia.
        rewrite Z.pow2_bits_eqb by lia. rewrite Eq.
        pose proof (Z.div_mod q 8 ltac:(lia)). pose proof (Z.div_mod p 8 ltac:(lia)).
        destruct (Z.eqb_spec (7 - p mod 8) (7 - q mod 8)), (Z.eqb_spec q p);
          cbn [negb andb]; try lia; try apply andb_false_r; try apply andb_true_r.
      * destruct (Z.eqb_spec q p) as [->|]; [contradiction|]. reflexivity.
  - destruct (bit_set_ok l p Hp) as (l' & E & Hl & Hb & Hq).
    exists l'. split.
    + unfold bit_set in *. destruct (rd l (Z.quot p 8)); [|exact E]. cbn [bind] in *.
      destruct (Z.eqb_spec state 0) as [C|_]; [contradiction|]. exact E.
    + split; [exact Hl|]. split; [exact Hb|].
      intros q Hq'. rewrite (Hq q Hq'). destruct (Z.eqb_spec q p) as [->|_]; [reflexivity|].
      reflexivity.
Qed.

(** X13: [bit_set] and [bit_get] address the same bit, most
    significant bit of the byte first.  For positions [p] and [q] inside
    a buffer, [bit_set] at [p] returns a buffer of the same length in
    which [bit_get] at [p] returns 1 for a non-zero state and 0 for state
    0, and [bit_get] at any other position [q] returns what it returned
    before. *)
Theorem bit_set_then_get (l : list Z) (p state q : Z) :
  0 <= p < 8 * Z.of_nat (length l) ->
  0 <= q < 8 * Z.of_nat (length l) ->
  exists l',
    bit_set l p state = Ret l' /\ length l' = length l
    /\ bit_get l' q = (if q =? p then Ret (if state =? 0 then 0 else 1) else bit_get l q).
Proof.
  intros Hp Hq. destruct (bit_set_spec l p state Hp) as (l' & E & Hl & _ & Hb).
  exists l'. split; [exact E|]. split; [exact Hl|].
  rewrite bit_get_ok by (rewrite Hl; exact Hq).
  rewrite (Hb q) by lia.
  destruct (Z.eqb_spec q p) as [_|_].
  - destruct (state =? 0); reflexivity.
  - rewrite bit_get_ok by exact Hq. reflexivity.
Qed.

Lemma bit_set_then_get_witness :
  exists l',
    bit_set [0; 255] 9 0 = Ret l' /\ length l' = length [0; 255]
    /\ bit_get l' 9 = (if 9 =? 9 then Ret (if 0 =? 0 then 0 else 1) else bit_get [0; 255] 9).
Proof. apply (bit_set_then_get [0; 255] 9 0 9); cbn; lia. Defined.

(** ** The bits a writer has written

    The bits of the bytes handed to the buffer or the descriptor, followed
    by the bits waiting in the 64-bit cache, most significant bit first. *)

Lemma bit_app_l (a b : list Z) (q : Z) :
  0 <= q < 8 * Z.of_nat (length a) -> bit (a ++ b) q = bit a q.
Proof.
  intros H. unfold bit, byte_at. pose proof (div8_bounds _ _ H).
  rewrite app_nth1 by lia. reflexivity.
Qed.

Lemma bit_app_r (a b : list Z) (q : Z) :
  8 * Z.of_nat (length a) <= q -> bit (a ++ b) q = bit b (q - 8 * Z.of_nat (length a)).
Proof.
  intros H. unfold bit, byte_at.
  assert ((q - 8 * Z.of_nat (length a)) / 8 = q / 8 - Z.of_nat (length a)) as E1
      by (Z.div_mod_to_equations; lia).
  assert ((q - 8 * Z.of_nat (length a)) mod 8 = q mod 8) as E2
      by (Z.div_mod_to_equations; lia).
  assert (Z.of_nat (length a) <= q / 8) by (Z.div_mod_to_equations; lia).
  rewrite app_nth2 by lia. rewrite E1, E2. f_equal. f_equal. lia.
Qed.

Lemma nth_map_seq (f : nat -> Z) (n j : nat) :
  (j < n)%nat -> nth j (map f (seq 0 n)) 0 = f j.
Proof.
  intros Hj. rewrite (nth_indep _ 0 (f 0%nat)) by (rewrite length_map, length_seq; lia).
  rewrite map_nth, seq_nth by lia. reflexivity.
Qed.

Lemma be64_bytes_nth (cached count j : Z) :
  0 <= j < count ->
  nth (Z.to_nat j) (be64_bytes cached count) 0 = Z.land (Z.shiftr cached (56 - 8 * j)) 255.
Proof.
  intros Hj. unfold be64_bytes. rewrite nth_map_seq by lia.
  rewrite Z2Nat.id by lia. reflexivity.
Qed.

Lemma be64_bytes_bit (cached count q : Z) :
  0 <= q < 8 * count ->
  bit (be64_bytes cached count) q = Z.testbit cached (63 - q).
Proof.
  intros Hq. unfold bit, byte_at. pose proof (div8_bounds _ _ Hq).
  pose proof (Z.mod_pos_bound q 8 ltac:(lia)).
  rewrite be64_bytes_nth by lia.
  change 255 with (Z.ones 8).
  rewrite Z.land_spec, Z.shiftr_spec, Z.ones_spec_low, andb_true_r by lia.
  f_equal. Z.div_mod_to_equations; lia.
Qed.

Lemma be64_bytes_ok (cached count : Z) : bytes_ok (be64_bytes cached count).
Proof.
  unfold bytes_ok, be64_bytes. apply Forall_forall. intros x Hx.
  apply in_map_iff in Hx. destruct Hx as (j & <- & _).
  change 255 with (Z.ones 8). rewrite Z.land_ones by lia.
  apply Z.mod_pos_bound. lia.
Qed.

Lemma bytes_ok_app (a b : list Z) : bytes_ok a -> bytes_ok b -> bytes_ok (a ++ b).
Proof. unfold bytes_ok. intros. apply Forall_app. split; assumption. Qed.

(** The cache after its first [n8] bits have been shifted out. *)
Lemma shifted_cache_bit (cached n8 k : Z) :
  1 <= n8 -> 0 <= k < 64 ->
  Z.testbit (u64 (Z.shiftl (u64 (Z.shiftl cached 1)) (n8 - 1))) k = Z.testbit cached (k - n8).
Proof.
  intros Hn Hk. unfold u64.
  rewrite Z.mod_pow2_bits_low by lia.
  rewrite Z.shiftl_spec by lia.
  destruct (Z_lt_le_dec (k - (n8 - 1)) 0) as [N|N].
  - rewrite !Z.testbit_neg_r by lia. reflexivity.
  - rewrite Z.mod_pow2_bits_low by lia.
    rewrite Z.shiftl_spec by lia. f_equal. lia.
Qed.

(** ** [cstream_write] on a writer that can grow *)

Lemma cstream_make_room_fields c nbytes r c' :
  cstream_make_room c nbytes = Ret (r, c') ->
  cs_fd c' = cs_fd c /\ cs_can_realloc c' = cs_can_realloc c
  /\ cs_window_maxsize c' = cs_window_maxsize c
  /\ cs_lookahead_maxsize c' = cs_lookahead_maxsize c
  /\ (r = -1 -> cs_fd c < 0 -> cs_can_realloc c <> 0 -> heap_limit <= cs_heap c -> False).
Proof.
  unfold cstream_make_room. intros H.
  destruct (cs_size c <? cs_end c / 8 + nbytes).
  - destruct (Z.leb_spec 0 (cs_fd c)) as [Hfd|Hfd].
    + destruct (flush_loop _ _ _ _ _) as [[r0 c0]|] eqn:F; cbn [bind fst snd] in H;
        [|discriminate].
      apply flush_loop_counters in F.
      destruct F as (_ & _ & _ & _ & F1 & _ & _ & _ & _ & F2 & _ & F3 & F4 & _).
      destruct (r0 <? 0); injection H as <- <-; cs_simpl;
        repeat split; try assumption; intros; lia.
    + destruct (Z.eqb_spec (cs_can_realloc c) 0) as [Hr|Hr].
      * injection H as <- <-. repeat split; try reflexivity; intros; try lia; contradiction.
      * match type of H with
        | (if ?b then _ else _) = _ => destruct b eqn:Hh
        end; injection H as <- <-; cs_simpl; repeat split; try reflexivity;
          intros; try lia; try discriminate.
        apply Z.ltb_lt in Hh.
        match type of Hh with
        | _ < ?n => assert (n <= heap_limit)
        end.
        { destruct (_ <? _); [apply u32_le_limit|].
          destruct (_ <? 1024); [unfold heap_limit; lia|apply u32_le_limit]. }
        lia.
  - injection H as <- <-. repeat split; try reflexivity; discriminate.
Qed.

Lemma cstream_write_grows c bytes r c' :
  writer_ok c -> growable c -> Z.of_nat (length bytes) < 2 ^ 32 ->
  cstream_write c bytes = Ret (r, c') ->
  r = 0 /\ output c' = output c ++ bytes /\ writer_ok c' /\ growable c'
  /\ cs_cached c' = cs_cached c /\ cs_cached_nbits c' = cs_cached_nbits c
  /\ cs_window_maxsize c' = cs_window_maxsize c
  /\ cs_lookahead_maxsize c' = cs_lookahead_maxsize c.
Proof.
  intros Hok Hg Hlen H.
  pose proof (cstream_write_counters c bytes r c' H Hlen) as (K1 & K2 & _).
  pose proof (cstream_write_output c bytes r c' Hok Hlen H) as O.
  assert (cs_fd c' = cs_fd c /\ cs_can_realloc c' = cs_can_realloc c
          /\ cs_window_maxsize c' = cs_window_maxsize c
          /\ cs_lookahead_maxsize c' = cs_lookahead_maxsize c /\ r <> -1)
    as (F1 & F2 & F3 & F4 & Hr).
  { unfold cstream_write in H. inv_ret H.
    match goal with
    | A : cstream_make_room _ _ = Ret ?x |- _ =>
        destruct x as [r0 c0]; apply cstream_make_room_fields in A;
        destruct A as (A1 & A2 & A3 & A4 & A5)
    end.
    cbn [fst snd] in H.
    destruct (Z.ltb_spec r0 0) as [Hneg|Hpos].
    - injection H as <- <-.
      pose proof Hok as (_ & _ & _ & Hheap & Hfd).
      destruct O as [(-> & _)|(-> & _)]; [|lia].
      exfalso. exact (A5 eq_refl Hfd Hg Hheap).
    - inv_ret H. injection H as <- <-. cs_simpl.
      repeat split; try assumption. lia. }
  destruct O as [(-> & _)|(-> & Hout & Hok')]; [contradiction|].
  split; [reflexivity|]. split; [exact Hout|]. split; [exact Hok'|].
  split; [unfold growable in *; rewrite F2; exact Hg|].
  repeat split; assumption.
Qed.

Lemma cstream_write_fields c bytes r c' :
  cstream_write c bytes = Ret (r, c') ->
  cs_fd c' = cs_fd c /\ cs_can_realloc c' = cs_can_realloc c
  /\ cs_window_maxsize c' = cs_window_maxsize c
  /\ cs_lookahead_maxsize c' = cs_lookahead_maxsize c.
Proof.
  intros H. unfold cstream_write in H. inv_ret H.
  match goal with
  | A : cstream_make_room _ _ = Ret ?x |- _ =>
      destruct x as [r0 c0]; apply cstream_make_room_fields in A;
      destruct A as (A1 & A2 & A3 & A4 & _)
  end.
  cbn [fst snd] in H. destruct (r0 <? 0).
  - injection H as <- <-. repeat split; assumption.
  - inv_ret H. injection H as <- <-. cs_simpl. repeat split; assumption.
Qed.

(** ** [cstream_write_bits], bit by bit *)

Lemma cstream_flush_cache_bits c nbits c' :
  writer_ok c -> cache_ok c -> bytes_ok (output c) ->
  cstream_flush_cache c nbits = Ret (0, c') ->
  writer_ok c' /\ cache_ok c' /\ bytes_ok (output c') /\ same_writer c c'
  /\ written c' = written c
  /\ forall q, 0 <= q < written c -> wbit c' q = wbit c q.
Proof.
  intros Hok (Hcn & Hlow) Hbytes. unfold cstream_flush_cache.
  destruct (Z.ltb_spec 64 (cs_cached_nbits c + nbits)) as [Hfl|Hfl].
  - intros F. inv_ret F. inv_checks.
    match goal with
    | A : cstream_write _ _ = Ret ?x |- _ => destruct x as [r0 c0]; rename A into W
    end.
    cbn [fst snd] in *. injection F as -> <-.
    match goal with
    | A : (1 <? _) = true |- _ => apply Z.ltb_lt in A; rename A into Hcount
    end.
    assert (Z.of_nat (length (be64_bytes (cs_cached c) (cs_cached_nbits c / 8))) < 2 ^ 32)
      as Hlen.
    { rewrite be64_bytes_length.
      assert (cs_cached_nbits c / 8 <= 8) by (apply Z.div_le_upper_bound; lia). lia. }
    pose proof (cstream_write_counters _ _ _ _ W Hlen) as (K1 & K2 & _).
    pose proof (cstream_write_fields _ _ _ _ W) as Hsame.
    pose proof (cstream_write_output _ _ _ _ Hok Hlen W) as [(C & _)|(_ & Hout & Hok0)];
      [discriminate C|].
    pose proof (Z.div_mod (cs_cached_nbits c) 8 ltac:(lia)) as Hdm.
    pose proof (Z.mod_pos_bound (cs_cached_nbits c) 8 ltac:(lia)) as Hmod.
    set (count := cs_cached_nbits c / 8) in *.
    assert (Z.of_nat (length (output c0)) = Z.of_nat (length (output c)) + count) as Hlo.
    { rewrite Hout, length_app, be64_bytes_length. lia. }
    match goal with
    | |- context [set_cs_cache c0 ?x ?n] => set (cached' := x) in *; set (n' := n) in *
    end.
    assert (forall k, 0 <= k < 64 ->
              Z.testbit cached' k = Z.testbit (cs_cached c) (k - 8 * count)) as Hsh.
    { intros k Hk. rewrite <- K2.
      replace (k - 8 * count) with (k - cs_cached_nbits c0 / 8 * 8) by (rewrite K1; fold count; lia).
      refine (shifted_cache_bit (cs_cached c0) (cs_cached_nbits c0 / 8 * 8) k _ Hk).
      rewrite K1. fold count. lia. }
    assert (n' = cs_cached_nbits c mod 8) as E8.
    { subst n'. rewrite K1. apply u8_small. change (2 ^ 8) with 256; lia. }
    clearbody cached' n'. subst n'.
    destruct (writer_ok_cache c0 cached' (cs_cached_nbits c mod 8) Hok0) as (Hok' & Eo).
    split; [exact Hok'|].
    split.
    { unfold cache_ok. cs_simpl.
      split; [lia|]. intros k Hk. rewrite Hsh by lia.
      destruct (Z_lt_le_dec (k - 8 * count) 0) as [N|N]; [apply Z.testbit_neg_r; exact N|].
      apply Hlow. lia. }
    split.
    { rewrite Eo, Hout. apply bytes_ok_app; [exact Hbytes|apply be64_bytes_ok]. }
    split; [exact Hsame|].
    split.
    { unfold written. rewrite Eo, Hlo. cs_simpl. lia. }
    intros q Hq. unfold written in Hq. unfold wbit. rewrite Eo, Hlo. cs_simpl.
    destruct (Z.ltb_spec q (8 * Z.of_nat (length (output c)))) as [L1|L1].
    + destruct (Z.ltb_spec q (8 * (Z.of_nat (length (output c)) + count))) as [_|C]; [|lia].
      rewrite Hout. apply bit_app_l. lia.
    + destruct (Z.ltb_spec q (8 * (Z.of_nat (length (output c)) + count))) as [L2|L2].
      * rewrite Hout, bit_app_r by lia. rewrite be64_bytes_bit by lia.
        reflexivity.
      * rewrite Hsh by lia. f_equal. lia.
  - intros [= <-]. split; [exact Hok|]. split; [split; assumption|].
    split; [exact Hbytes|]. split; [unfold same_writer; repeat split|].
    split; [reflexivity|]. intros q _. reflexivity.
Qed.

Lemma value_bit (reg s1 nb s2 k : Z) :
  0 <= s1 -> 0 <= nb -> 0 <= s2 -> 0 <= k < 64 ->
  Z.testbit (u64 (Z.shiftl (Z.land (Z.shiftr (u64 reg) s1) (Z.shiftl 1 nb - 1)) s2)) k
  = (s2 <=? k) && (k <? s2 + nb) && Z.testbit (u64 reg) (k - s2 + s1).
Proof.
  intros Hs1 Hnb Hs2 Hk. unfold u64 at 1. rewrite Z.mod_pow2_bits_low by lia.
  rewrite Z.shiftl_spec by lia.
  destruct (Z.leb_spec s2 k) as [L|L].
  - rewrite Z.land_spec, Z.shiftr_spec by lia.
    rewrite Z.shiftl_1_l. change (2 ^ nb - 1) with (Z.pred (2 ^ nb)). rewrite <- Z.ones_equiv.
    destruct (Z.ltb_spec k (s2 + nb)) as [L2|L2].
    + rewrite Z.ones_spec_low by lia. cbn [andb]. apply andb_true_r.
    + rewrite Z.ones_spec_high by lia. cbn [andb]. apply andb_false_r.
  - rewrite Z.testbit_neg_r by lia. reflexivity.
Qed.

Lemma cstream_write_bits_bits c reg startbit nbits c' :
  writer_ok c -> cache_ok c -> bytes_ok (output c) -> 0 <= startbit ->
  cstream_write_bits c reg startbit nbits = Ret (0, c') ->
  writer_ok c' /\ cache_ok c' /\ bytes_ok (output c') /\ same_writer c c'
  /\ written c' = written c + nbits
  /\ (forall q, 0 <= q < written c -> wbit c' q = wbit c q)
  /\ (forall j, 0 <= j < nbits ->
        wbit c' (written c + j) = Z.testbit (u64 reg) (63 - startbit - j)).
Proof.
  intros Hok Hcache Hbytes Hsb H. unfold cstream_write_bits in H.
  inv_ret H. inv_checks.
  match goal with
  | A : cstream_flush_cache _ _ = Ret ?x |- _ => destruct x as [r0 c0]; rename A into F
  end.
  cbn [fst snd] in *. injection H as -> <-.
  repeat match goal with
         | A : _ && _ = true |- _ => apply andb_prop in A; destruct A
         | A : (_ <=? _) = true |- _ => apply Z.leb_le in A
         | A : (_ <? _) = true |- _ => apply Z.ltb_lt in A
         end.
  destruct (cstream_flush_cache_bits c nbits c0 Hok Hcache Hbytes F)
    as (Hok0 & (Hcn0 & Hlow0) & Hbytes0 & Hsame & Hw0 & Hq0).
  match goal with
  | |- context [set_cs_cache c0 (Z.lor _ ?v) ?n] => set (value_ := v) in *; set (n' := n) in *
  end.
  assert (forall k, 0 <= k < 64 ->
            Z.testbit value_ k
            = (64 - nbits - cs_cached_nbits c0 <=? k)
              && (k <? 64 - nbits - cs_cached_nbits c0 + nbits)
              && Z.testbit (u64 reg)
                   (k - (64 - nbits - cs_cached_nbits c0) + (64 - startbit - nbits))) as Hv.
  { intros k Hk. subst value_. apply value_bit; lia. }
  assert (n' = cs_cached_nbits c0 + nbits) as En.
  { subst n'. apply u8_small. change (2 ^ 8) with 256. lia. }
  clearbody value_ n'. subst n'.
  destruct (writer_ok_cache c0 (Z.lor (cs_cached c0) value_) (cs_cached_nbits c0 + nbits) Hok0)
    as (Hok' & Eo).
  split; [exact Hok'|].
  split.
  { unfold cache_ok. cs_simpl. split; [lia|]. intros k Hk.
    rewrite Z.lor_spec, Hv, Hlow0 by lia.
    destruct (Z.leb_spec (64 - nbits - cs_cached_nbits c0) k) as [C|_]; [lia|]. reflexivity. }
  split; [rewrite Eo; exact Hbytes0|].
  split; [exact Hsame|].
  split; [unfold written in *; rewrite Eo; cs_simpl; lia|].
  assert (forall q, 0 <= q < written c0 + nbits ->
            wbit (set_cs_cache c0 (Z.lor (cs_cached c0) value_) (cs_cached_nbits c0 + nbits)) q
            = if q <? written c0 then wbit c0 q
              else Z.testbit (u64 reg) (63 - startbit - (q - written c0))) as Hb.
  { intros q Hq. unfold wbit, written in *. rewrite Eo. cs_simpl.
    destruct (Z.ltb_spec q (8 * Z.of_nat (length (output c0)))) as [L1|L1].
    - destruct (Z.ltb_spec q (8 * Z.of_nat (length (output c0)) + cs_cached_nbits c0));
        [reflexivity|lia].
    - rewrite Z.lor_spec, Hv by lia.
      destruct (Z.ltb_spec q (8 * Z.of_nat (length (output c0)) + cs_cached_nbits c0))
        as [L2|L2].
      + destruct (Z.ltb_spec (63 - (q - 8 * Z.of_nat (length (output c0))))
                    (64 - nbits - cs_cached_nbits c0 + nbits)) as [C|_]; [lia|].
        rewrite andb_false_r. cbn [andb]. apply orb_false_r.
      + rewrite Hlow0 by lia.
        destruct (Z.leb_spec (64 - nbits - cs_cached_nbits c0)
                    (63 - (q - 8 * Z.of_nat (length (output c0))))) as [_|C]; [|lia].
        destruct (Z.ltb_spec (63 - (q - 8 * Z.of_nat (length (output c0))))
                    (64 - nbits - cs_cached_nbits c0 + nbits)) as [_|C]; [|lia].
        cbn [andb orb]. f_equal. lia. }
  split.
  - intros q Hq. rewrite Hb by lia.
    destruct (Z.ltb_spec q (written c0)) as [_|C]; [|lia]. apply Hq0. exact Hq.
  - intros j Hj.
    assert (0 <= written c) by (unfold written; destruct Hcache; lia).
    rewrite Hb by lia.
    destruct (Z.ltb_spec (written c + j) (written c0)) as [C|_]; [lia|].
    f_equal. lia.
Qed.

(** ** [cstream_close], bit by bit *)

Lemma bit_beyond (l : list Z) (q : Z) : 8 * Z.of_nat (length l) <= q -> bit l q = false.
Proof.
  intros H. unfold bit, byte_at.
  assert (Z.of_nat (length l) <= q / 8) by (Z.div_mod_to_equations; lia).
  rewrite nth_overflow by lia. apply Z.testbit_0_l.
Qed.

Lemma cstream_close_bits c r c' :
  writer_ok c -> cache_ok c -> bytes_ok (output c) -> growable c ->
  cstream_close c = Ret (r, c') ->
  r = 0 /\
  bytes_ok (output c')
  /\ Z.of_nat (length (output c')) = (written c + 7) / 8
  /\ (forall q, 0 <= q < written c -> bit (output c') q = wbit c q)
  /\ (forall q, written c <= q -> bit (output c') q = false)
  /\ cs_cached_nbits c' = 0
  /\ (cs_fd c < 0 -> cs_data c' = cs_data c ++ be64_bytes (cs_cached c) ((cs_cached_nbits c + 7) / 8)
                     /\ cs_file c' = cs_file c
                     /\ cs_processed_bits c'
                        = if 0 <? cs_cached_nbits c
                          then u64 (cs_processed_bits c + (cs_cached_nbits c + 7) / 8 * 8)
                          else cs_processed_bits c).
Proof.
  intros Hok (Hcn & Hlow) Hbytes Hg. unfold cstream_close. intros H.
  destruct (if 0 <? cs_cached_nbits c then _ else _) as [c1|] eqn:F in H;
    cbn [bind] in H; [|discriminate].
  set (nb := (cs_cached_nbits c + 7) / 8) in *.
  assert (0 <= nb <= 8) as Hnb by (subst nb; Z.div_mod_to_equations; lia).
  assert (cs_cached_nbits c <= 8 * nb < cs_cached_nbits c + 8) as Hnb8
      by (subst nb; Z.div_mod_to_equations; lia).
  assert (writer_ok c1 /\ output c1 = output c ++ be64_bytes (cs_cached c) nb
          /\ cs_cached_nbits c1 = 0 /\ cs_fd c1 = cs_fd c
          /\ (cs_fd c < 0 -> cs_data c1 = cs_data c ++ be64_bytes (cs_cached c) nb
                             /\ cs_file c1 = cs_file c)
          /\ cs_processed_bits c1
             = if 0 <? cs_cached_nbits c
               then u64 (cs_processed_bits c + nb * 8) else cs_processed_bits c)
    as (Hok1 & Hout1 & Hcn1 & Hfd1 & Hmem1 & Hpb1).
  { destruct (Z.ltb_spec 0 (cs_cached_nbits c)) as [Hpos|Hzero].
    - inv_ret F. injection F as <-.
      match goal with
      | A : cstream_write _ _ = Ret ?x |- _ => destruct x as [r0 c0]; rename A into W
      end.
      assert (Z.of_nat (length (be64_bytes (cs_cached c) nb)) < 2 ^ 32) as Hlen
          by (rewrite be64_bytes_length; lia).
      pose proof (cstream_write_counters _ _ _ _ W Hlen) as (_ & _ & _ & _ & Hpb).
      destruct (cstream_write_grows _ _ _ _ Hok Hg Hlen W)
        as (-> & Hout & Hok0 & _ & _ & _ & _ & _).
      destruct (cstream_write_fields _ _ _ _ W) as (Hfd0 & _).
      cbn [fst snd]. destruct (writer_ok_cache c0 (cs_cached c0) 0 Hok0) as (Hok' & Eo).
      split; [exact Hok'|]. split; [rewrite Eo; exact Hout|]. cs_simpl.
      split; [reflexivity|]. split; [exact Hfd0|].
      split.
      + intros Hfd. unfold cstream_write in W.
        inv_ret W. unfold cstream_make_room in *.
        destruct (Z.leb_spec 0 (cs_fd c)) as [C|_]; [lia|].
        unfold output in Hout.
        assert (cs_file c0 = cs_file c) as Ef.
        { clear Hout Hpb.
          repeat match goal with
                 | A : (if ?b then _ else _) = Ret _ |- _ => destruct b
                 | A : Ret _ = Ret _ |- _ => injection A as <-
                 | A : assert _ = Ret _ |- _ => clear A
                 | A : bind _ _ = Ret _ |- _ => inv_ret A
                 end; cs_simpl; try reflexivity; try discriminate. }
        rewrite Ef, <- app_assoc in Hout. apply app_inv_head in Hout.
        split; [exact Hout|exact Ef].
      + rewrite Hpb by reflexivity. rewrite be64_bytes_length. f_equal. lia.
    - injection F as <-. assert (cs_cached_nbits c = 0) as Ez by lia.
      assert (nb = 0) as -> by (subst nb; rewrite Ez; reflexivity).
      cbn [be64_bytes Z.to_nat seq map]. rewrite !app_nil_r.
      split; [exact Hok|]. split; [reflexivity|]. split; [exact Ez|].
      split; [reflexivity|]. split; [intros _; split; reflexivity|reflexivity]. }
  assert (r = 0 /\ c' = c1) as (-> & ->).
  { pose proof Hok1 as (_ & _ & _ & _ & Hfd).
    destruct (Z.leb_spec 0 (cs_fd c1)) as [C|_]; [lia|]. cbn [andb] in H.
    injection H as <- <-. split; reflexivity. }
  split; [reflexivity|].
  rewrite Hout1.
  split; [apply bytes_ok_app; [exact Hbytes|apply be64_bytes_ok]|].
  split.
  { rewrite length_app, be64_bytes_length. unfold written.
    subst nb. Z.div_mod_to_equations; lia. }
  split; [|split; [|split]].
  - intros q Hq. unfold wbit, written in *.
    destruct (Z.ltb_spec q (8 * Z.of_nat (length (output c)))) as [L|L].
    + apply bit_app_l. lia.
    + rewrite bit_app_r by lia. apply be64_bytes_bit. lia.
  - intros q Hq. unfold written in Hq.
    destruct (Z_lt_le_dec q (8 * (Z.of_nat (length (output c)) + nb))) as [L|L].
    + rewrite bit_app_r by lia. rewrite be64_bytes_bit by lia. apply Hlow. lia.
    + apply bit_beyond. rewrite length_app, be64_bytes_length. lia.
  - exact Hcn1.
  - intros Hfd. destruct (Hmem1 Hfd) as (E1 & E2).
    split; [exact E1|]. split; [exact E2|]. exact Hpb1.
Qed.

Lemma busy_writer_ok : writer_ok busy_writer.
Proof. unfold writer_ok, busy_writer, heap_limit. cbn. lia. Qed.

Lemma busy_writer_cache : cache_ok busy_writer.
Proof.
  unfold cache_ok, busy_writer. cbn [cs_cached cs_cached_nbits]. split; [lia|].
  intros k Hk. assert (k = 0 \/ k = 1 \/ k = 2 \/ k = 3) as [->|[->|[->| ->]]] by lia;
    reflexivity.
Qed.

Lemma busy_writer_bytes : bytes_ok (output busy_writer).
Proof. repeat constructor; lia. Qed.

(** X14: [cstream_write_bits] appends exactly the bits it is
    given.  On a writer to a memory buffer in a state the writer functions
    leave (whole bytes in the buffer, at most 64 bits in the cache with
    zeros below them), a call that returns 0 leaves the writer in such a
    state, adds
    [nbits] to the number of bits written, keeps every bit written before,
    and the new bits are the bits [startbit .. startbit + nbits - 1] of the
    64-bit register, counted from its most significant bit, in this order;
    this holds whether or not the call first moves whole bytes of the
    cache to the buffer. *)
Theorem cstream_write_bits_appends c reg startbit nbits c' :
  writer_ok c -> cache_ok c -> bytes_ok (output c) -> 0 <= startbit ->
  cstream_write_bits c reg startbit nbits = Ret (0, c') ->
  writer_ok c' /\ cache_ok c' /\ bytes_ok (output c')
  /\ written c' = written c + nbits
  /\ (forall q, 0 <= q < written c -> wbit c' q = wbit c q)
  /\ (forall j, 0 <= j < nbits ->
        wbit c' (written c + j) = Z.testbit (u64 reg) (63 - startbit - j)).
Proof.
  intros Hok Hcache Hbytes Hsb H.
  destruct (cstream_write_bits_bits c reg startbit nbits c' Hok Hcache Hbytes Hsb H)
    as (A & B & C & _ & D & E & F).
  repeat (split; [assumption|]). assumption.
Qed.

Lemma cstream_write_bits_appends_witness :
  exists c',
    cstream_write_bits busy_writer 511 55 9 = Ret (0, c')
    /\ writer_ok c' /\ cache_ok c' /\ bytes_ok (output c')
    /\ written c' = written busy_writer + 9
    /\ (forall q, 0 <= q < written busy_writer -> wbit c' q = wbit busy_writer q)
    /\ (forall j, 0 <= j < 9 ->
          wbit c' (written busy_writer + j) = Z.testbit (u64 511) (63 - 55 - j)).
Proof.
  eexists. split; [reflexivity|].
  apply (cstream_write_bits_appends busy_writer 511 55 9).
  - exact busy_writer_ok.
  - exact busy_writer_cache.
  - exact busy_writer_bytes.
  - lia.
  - reflexivity.
Defined.



(** ** Reading bits from a memory buffer *)

Lemma reading_consumed (c : lz77_cstream) (n : Z) :
  reading c -> 0 <= n -> cs_pos c + n <= cs_end c ->
  reading (consumed c n) /\ cs_pos (consumed c n) = cs_pos c + n
  /\ cs_data (consumed c n) = cs_data c /\ cs_end (consumed c n) = cs_end c.
Proof.
  intros (Hfd & Hin & Hpos & Hend & H31 & Hok) Hn Hle.
  unfold reading, consumed. cs_simpl.
  rewrite u64_small by lia. repeat split; try assumption; lia.
Qed.

Lemma cstream_peek_bits (c : lz77_cstream) (k : nat) (sb nbits : Z) :
  reading c -> 0 <= sb -> 0 <= nbits <= 16 -> sb + nbits <= 8 * Z.of_nat k ->
  exists buf',
    cstream_peek c (repeat 0 k) sb nbits
    = Ret (Z.min nbits (cs_end c - cs_pos c), buf', c)
    /\ length buf' = k /\ bytes_ok buf'
    /\ forall q, 0 <= q ->
         bit buf' q = (sb <=? q) && (q <? sb + Z.min nbits (cs_end c - cs_pos c))
                      && bit (cs_data c) (cs_pos c + q - sb).
Proof.
  intros (Hfd & Hin & Hpos & Hend & H31 & Hok) Hsb Hn Hk.
  rewrite cstream_peek_memory by assumption.
  destruct (peek_loop_spec (Z.to_nat nbits) c (repeat 0 k) sb 0) as (buf' & E & Hl & Hb & Hq).
  { lia. } { lia. } { lia. } { lia. } { lia. }
  { rewrite repeat_length. lia. }
  { intros q _ B. now rewrite bit_zeros in B. }
  unfold peeked in *. rewrite Z2Nat.id in * by lia.
  replace (Z.max 0 (Z.min nbits (cs_end c - cs_pos c - 0)))
    with (Z.min nbits (cs_end c - cs_pos c)) in * by lia.
  rewrite E. cbn [bind]. exists buf'. rewrite Z.add_0_l.
  split; [reflexivity|]. split; [rewrite Hl; apply repeat_length|].
  split; [apply Hb, bytes_ok_zeros|].
  intros q Hq'. rewrite Hq by exact Hq'. rewrite bit_zeros, !Z.add_0_r.
  destruct ((sb <=? q) && (q <? sb + Z.min nbits (cs_end c - cs_pos c))); reflexivity.
Qed.

Lemma cstream_consume_bits (c : lz77_cstream) (n : Z) :
  reading c -> 0 <= n -> cs_pos c + n <= cs_end c ->
  cstream_consume c n = Ret (n, consumed c n).
Proof.
  intros (Hfd & Hin & Hpos & Hend & H31 & Hok) Hn Hle. unfold cstream_consume.
  destruct (Z.eqb_spec (cs_is_input c) 0) as [C|_]; [contradiction|].
  cbn [negb assert bind].
  destruct (Z.leb_spec (cs_pos c + n) (cs_end c)) as [_|C]; [|lia].
  cbn [assert bind].
  destruct (Z.ltb_spec (cs_end c - cs_pos c) n) as [C|_]; [lia|].
  reflexivity.
Qed.

Lemma cstream_read_bits (c : lz77_cstream) (k : nat) (sb nbits : Z) :
  reading c -> 0 <= sb -> 0 < nbits <= 16 -> sb + nbits <= 8 * Z.of_nat k ->
  cs_pos c + nbits <= cs_end c ->
  exists buf',
    cstream_read c (repeat 0 k) sb nbits = Ret (nbits, buf', consumed c nbits)
    /\ length buf' = k /\ bytes_ok buf'
    /\ forall q, 0 <= q ->
         bit buf' q = (sb <=? q) && (q <? sb + nbits) && bit (cs_data c) (cs_pos c + q - sb).
Proof.
  intros Hc Hsb Hn Hk Hav.
  destruct (cstream_peek_bits c k sb nbits Hc Hsb ltac:(lia) Hk) as (buf' & E & Hl & Hb & Hq).
  replace (Z.min nbits (cs_end c - cs_pos c)) with nbits in * by lia.
  pose proof Hc as (Hfd & Hin & _).
  unfold cstream_read.
  destruct (Z.eqb_spec (cs_is_input c) 0) as [C|_]; [contradiction|].
  cbn [negb assert bind].
  replace (Z.to_nat nbits + 2)%nat with (S (Z.to_nat nbits + 1)) by lia.
  cbn [read_loop]. rewrite E. cbn [bind].
  destruct (Z.leb_spec nbits 0) as [C|_]; [lia|].
  rewrite Z.eqb_refl, orb_true_r.
  rewrite cstream_consume_bits by (assumption || lia). cbn [bind].
  exists buf'. repeat split; assumption.
Qed.

(** ** Numbers from bits *)

Lemma testbit_concat (hi lo n k : Z) :
  0 <= n -> 0 <= lo < 2 ^ n -> 0 <= k ->
  Z.testbit (hi * 2 ^ n + lo) k = if k <? n then Z.testbit lo k else Z.testbit hi (k - n).
Proof.
  intros Hn Hlo Hk. destruct (Z.ltb_spec k n) as [L|L].
  - rewrite <- (Z.mod_pow2_bits_low (hi * 2 ^ n + lo) n k) by lia.
    f_equal. rewrite Z.add_comm, Z.mod_add by lia. apply Z.mod_small; lia.
  - replace k with ((k - n) + n) at 1 by lia. rewrite <- Z.div_pow2_bits by lia.
    f_equal. rewrite Z.div_add_l by lia. rewrite (Z.div_small lo) by lia. lia.
Qed.

Lemma testbit_above (x n k : Z) : 0 <= x < 2 ^ n -> 0 <= n <= k -> Z.testbit x k = false.
Proof.
  intros Hx Hk. rewrite <- (Z.mod_small x (2 ^ n)) by lia.
  apply Z.mod_pow2_bits_high. lia.
Qed.

Lemma be16_at_bits (buf : list Z) :
  length buf = 2%nat -> bytes_ok buf ->
  exists v, be16_at buf 0 = Ret v /\ 0 <= v < 65536
            /\ forall k, 0 <= k < 16 -> Z.testbit v k = bit buf (15 - k).
Proof.
  intros Hl Hok. destruct buf as [|hi [|lo [|]]]; try discriminate.
  inversion Hok as [|? ? Hhi Hok']; subst. inversion Hok' as [|? ? Hlo _]; subst.
  exists (hi * 256 + lo). split; [reflexivity|]. split; [lia|].
  intros k Hk. change 256 with (2 ^ 8). rewrite testbit_concat by (change (2 ^ 8) with 256; lia).
  unfold bit, byte_at.
  destruct (Z.ltb_spec k 8) as [L|L].
  - replace ((15 - k) / 8) with 1 by (Z.div_mod_to_equations; lia).
    replace ((15 - k) mod 8) with (7 - k) by (Z.div_mod_to_equations; lia).
    cbn [Z.to_nat Pos.to_nat Pos.iter_op Nat.add nth]. f_equal. lia.
  - replace ((15 - k) / 8) with 0 by (Z.div_mod_to_equations; lia).
    replace ((15 - k) mod 8) with (15 - k) by (Z.div_mod_to_equations; lia).
    cbn [Z.to_nat nth]. f_equal. lia.
Qed.

Lemma zero_buffer (buf : list Z) (k : nat) :
  length buf = k -> bytes_ok buf ->
  (forall q, 0 <= q < 8 * Z.of_nat k -> bit buf q = false) -> buf = repeat 0 k.
Proof.
  intros Hl Hok Hz.
  rewrite <- (firstn_all (repeat 0 k)), repeat_length.
  apply bytes_from_bits; try assumption.
  - apply bytes_ok_zeros.
  - rewrite repeat_length. lia.
  - intros q Hq. rewrite bit_zeros. apply Hz. exact Hq.
Qed.

(** ** The fields of a token, read back *)

Lemma read_flag (c : lz77_cstream) :
  reading c -> cs_pos c + 1 <= cs_end c ->
  exists buf,
    cstream_read c [0; 0; 0; 0] 0 1 = Ret (1, buf, consumed c 1)
    /\ list_eqb buf [0; 0; 0; 0] = negb (bit (cs_data c) (cs_pos c)).
Proof.
  intros Hc Hav.
  destruct (cstream_read_bits c 4 0 1 Hc ltac:(lia) ltac:(lia) ltac:(lia) Hav)
    as (buf & E & Hl & Hok & Hq).
  exists buf. split; [exact E|].
  destruct (bit (cs_data c) (cs_pos c)) eqn:B; cbn [negb].
  - destruct (list_eqb_spec buf [0; 0; 0; 0]) as [->|_]; [|reflexivity].
    specialize (Hq 0 ltac:(lia)). rewrite Z.add_0_r, Z.sub_0_r, B in Hq.
    discriminate Hq.
  - destruct (list_eqb_spec buf [0; 0; 0; 0]) as [_|N]; [reflexivity|].
    exfalso. apply N. apply (zero_buffer buf 4 Hl Hok).
    intros q Hq'. rewrite Hq by lia.
    destruct (Z.ltb_spec q (0 + 1)) as [L|L]; [|rewrite andb_false_r; reflexivity].
    replace q with 0 by lia. rewrite Z.add_0_r, Z.sub_0_r, B. reflexivity.
Qed.

Lemma read_field (c : lz77_cstream) (n x : Z) :
  reading c -> 0 < n <= 16 -> cs_pos c + n <= cs_end c ->
  field_at (cs_data c) (cs_pos c) n x ->
  exists buf,
    cstream_read c [0; 0] (16 - n) n = Ret (n, buf, consumed c n)
    /\ be16_at buf 0 = Ret x.
Proof.
  intros Hc Hn Hav (Hx & Hbits).
  destruct (cstream_read_bits c 2 (16 - n) n Hc ltac:(lia) Hn ltac:(lia) Hav)
    as (buf & E & Hl & Hok & Hq).
  exists buf. split; [exact E|].
  destruct (be16_at_bits buf Hl Hok) as (v & -> & Hv & Hvb). f_equal.
  apply Z.bits_inj'. intros k Hk.
  destruct (Z_lt_le_dec k 16) as [L|L].
  - rewrite Hvb, Hq by lia.
    destruct (Z.leb_spec (16 - n) (15 - k)) as [L1|L1].
    + destruct (Z.ltb_spec (15 - k) (16 - n + n)) as [_|C]; [|lia]. cbn [andb].
      replace (cs_pos c + (15 - k) - (16 - n)) with (cs_pos c + (n - 1 - k)) by lia.
      rewrite Hbits by lia. f_equal. lia.
    + cbn [andb]. symmetry. apply (testbit_above x n); lia.
  - rewrite (testbit_above v 16) by (change (2 ^ 16) with 65536; lia).
    symmetry. apply (testbit_above x n); lia.
Qed.

Lemma read_byte (c : lz77_cstream) (x : Z) :
  reading c -> cs_pos c + 8 <= cs_end c ->
  field_at (cs_data c) (cs_pos c) 8 x ->
  cstream_read c [0] 0 8 = Ret (8, [x], consumed c 8).
Proof.
  intros Hc Hav (Hx & Hbits).
  destruct (cstream_read_bits c 1 0 8 Hc ltac:(lia) ltac:(lia) ltac:(lia) Hav)
    as (buf & E & Hl & Hok & Hq).
  change (repeat 0 1) with [0] in E. rewrite E. f_equal. f_equal. f_equal.
  destruct buf as [|b [|]]; try discriminate.
  inversion Hok as [|? ? Hb _]; subst. f_equal.
  apply byte_bits_eq; [exact Hb|change (2 ^ 8) with 256 in Hx; exact Hx|].
  intros j Hj. specialize (Hq (7 - j) ltac:(lia)).
  unfold bit at 1, byte_at in Hq.
  replace ((7 - j) / 8) with 0 in Hq by (Z.div_mod_to_equations; lia).
  replace ((7 - j) mod 8) with (7 - j) in Hq by (Z.div_mod_to_equations; lia).
  cbn [Z.to_nat nth] in Hq. replace (7 - (7 - j)) with j in Hq by lia. rewrite Hq.
  destruct (Z.ltb_spec (7 - j) (0 + 8)) as [_|C]; [|lia].
  destruct (Z.leb_spec 0 (7 - j)) as [_|C]; [|lia]. cbn [andb].
  replace (cs_pos c + (7 - j) - 0) with (cs_pos c + (7 - j)) by lia.
  rewrite Hbits by lia. f_equal. lia.
Qed.

Lemma peek_code (c : lz77_cstream) (n x : Z) :
  reading c -> 0 < n <= 16 -> cs_pos c + n <= cs_end c ->
  field_at (cs_data c) (cs_pos c) n x ->
  exists buf rest,
    cstream_peek c [0; 0] 0 16 = Ret (Z.min 16 (cs_end c - cs_pos c), buf, c)
    /\ be16_at buf 0 = Ret (x * 2 ^ (16 - n) + rest)
    /\ 0 <= rest < 2 ^ (16 - n).
Proof.
  intros Hc Hn Hav (Hx & Hbits).
  destruct (cstream_peek_bits c 2 0 16 Hc ltac:(lia) ltac:(lia) ltac:(lia))
    as (buf & E & Hl & Hok & Hq).
  destruct (be16_at_bits buf Hl Hok) as (v & Ev & Hv & Hvb).
  exists buf, (v mod 2 ^ (16 - n)).
  split; [exact E|].
  assert (0 < 2 ^ (16 - n)) as Hpos by (apply Z.pow_pos_nonneg; lia).
  split; [|apply Z.mod_pos_bound; exact Hpos].
  rewrite Ev. f_equal.
  rewrite (Z.div_mod v (2 ^ (16 - n))) at 1 by lia.
  rewrite (Z.mul_comm (2 ^ (16 - n))). f_equal. f_equal.
  apply Z.bits_inj'. intros k Hk.
  rewrite Z.div_pow2_bits by lia.
  destruct (Z_lt_le_dec k n) as [L|L].
  - rewrite Hvb, Hq by lia.
    destruct (Z.ltb_spec (15 - (k + (16 - n))) (0 + Z.min 16 (cs_end c - cs_pos c)))
      as [_|C]; [|lia].
    destruct (Z.leb_spec 0 (15 - (k + (16 - n)))) as [_|C]; [|lia].
    cbn [andb].
    replace (cs_pos c + (15 - (k + (16 - n))) - 0) with (cs_pos c + (n - 1 - k)) by lia.
    rewrite Hbits by lia. f_equal. lia.
  - rewrite (testbit_above x n) by lia.
    destruct (Z_lt_le_dec (k + (16 - n)) 16) as [L2|L2]; [lia|].
    apply (testbit_above v 16); change (2 ^ 16) with 65536; lia.
Qed.

(** ** [cstream_peek] and [cstream_read] on a memory buffer *)

Lemma sample_reader_reading : reading sample_reader.
Proof.
  unfold reading, sample_reader. cbn [cs_fd cs_is_input cs_pos cs_end cs_data].
  split; [lia|]. split; [discriminate|]. split; [lia|]. split; [reflexivity|].
  split; [lia|]. unfold bytes_ok. apply Forall_forall. intros x Hx. cbn in Hx. unfold LZ77PPM_VERSION in Hx.
  repeat (destruct Hx as [<-|Hx]; [lia|]). contradiction.
Qed.

(** X16: [cstream_peek] on a reader over a memory buffer copies the
    next bits and changes nothing.  For [nbits <= 16] and a zeroed buffer
    with room for them from [startbit] on, it returns the number of bits
    left in the stream when that is less than [nbits], and [nbits]
    otherwise; the stream is exactly as before (its position too), and the
    buffer holds that many bits of the stream, from the current position
    on, at the bits [startbit ..] counted from the most significant bit of
    its first byte, and zeros elsewhere. *)
Theorem cstream_peek_returns (c : lz77_cstream) (k : nat) (sb nbits : Z) :
  reading c -> 0 <= sb -> 0 <= nbits <= 16 -> sb + nbits <= 8 * Z.of_nat k ->
  exists buf',
    cstream_peek c (repeat 0 k) sb nbits
    = Ret (Z.min nbits (cs_end c - cs_pos c), buf', c)
    /\ length buf' = k
    /\ forall q, 0 <= q ->
         bit buf' q = (sb <=? q) && (q <? sb + Z.min nbits (cs_end c - cs_pos c))
                      && bit (cs_data c) (cs_pos c + q - sb).
Proof.
  intros Hc Hsb Hn Hk.
  destruct (cstream_peek_bits c k sb nbits Hc Hsb Hn Hk) as (buf' & E & Hl & _ & Hq).
  exists buf'. repeat split; assumption.
Qed.

Lemma cstream_peek_returns_witness :
  exists buf',
    cstream_peek sample_reader (repeat 0 2) 3 7
    = Ret (Z.min 7 (cs_end sample_reader - cs_pos sample_reader), buf', sample_reader)
    /\ length buf' = 2%nat
    /\ forall q, 0 <= q ->
         bit buf' q
         = (3 <=? q) && (q <? 3 + Z.min 7 (cs_end sample_reader - cs_pos sample_reader))
           && bit (cs_data sample_reader) (cs_pos sample_reader + q - 3).
Proof.
  apply (cstream_peek_returns sample_reader 2 3 7).
  - exact sample_reader_reading.
  - lia.
  - lia.
  - cbn. lia.
Defined.

(** X17: [cstream_read] on a reader over a memory buffer.  For
    [0 < nbits <= 16] and a zeroed buffer, it returns
    [m = min (nbits, bits left)]: with [m = 0] (end of the stream) the
    stream is unchanged; otherwise the position and [processed_bits] have
    advanced by [m], whether the first peek delivered all [nbits] bits or
    the loop had to peek a second time to see that no more bits come; the
    buffer holds the [m] bits at [startbit ..] and zeros elsewhere. *)
Theorem cstream_read_returns (c : lz77_cstream) (k : nat) (sb nbits : Z) :
  reading c -> 0 <= sb -> 0 < nbits <= 16 -> sb + nbits <= 8 * Z.of_nat k ->
  exists buf' c',
    cstream_read c (repeat 0 k) sb nbits
    = Ret (Z.min nbits (cs_end c - cs_pos c), buf', c')
    /\ (Z.min nbits (cs_end c - cs_pos c) = 0 -> c' = c)
    /\ (0 < Z.min nbits (cs_end c - cs_pos c) ->
        c' = consumed c (Z.min nbits (cs_end c - cs_pos c)))
    /\ length buf' = k
    /\ forall q, 0 <= q ->
         bit buf' q = (sb <=? q) && (q <? sb + Z.min nbits (cs_end c - cs_pos c))
                      && bit (cs_data c) (cs_pos c + q - sb).
Proof.
  intros Hc Hsb Hn Hk.
  destruct (Z_le_gt_dec (cs_pos c + nbits) (cs_end c)) as [Hav|Hshort].
  - destruct (cstream_read_bits c k sb nbits Hc Hsb Hn Hk Hav) as (buf' & E & Hl & _ & Hq).
    replace (Z.min nbits (cs_end c - cs_pos c)) with nbits by lia.
    exists buf', (consumed c nbits). split; [exact E|].
    split; [lia|]. split; [reflexivity|]. split; assumption.
  - destruct (cstream_peek_bits c k sb nbits Hc Hsb ltac:(lia) Hk)
      as (buf1 & E1 & Hl1 & Hb1 & Hq1).
    pose proof Hc as (Hfd & Hin & Hpos & Hend & H31 & Hok).
    replace (Z.min nbits (cs_end c - cs_pos c)) with (cs_end c - cs_pos c) in * by lia.
    set (m := cs_end c - cs_pos c) in *.
    unfold cstream_read.
    destruct (Z.eqb_spec (cs_is_input c) 0) as [C|_]; [contradiction|].
    cbn [negb assert bind].
    replace (Z.to_nat nbits + 2)%nat with (S (S (Z.to_nat nbits))) by lia.
    cbn [read_loop]. rewrite E1. cbn [bind].
    destruct (Z.leb_spec m 0) as [Hz|Hz].
    + exists buf1, c. split; [reflexivity|]. split; [reflexivity|].
      split; [lia|]. split; assumption.
    + destruct (Z.eqb_spec m 0) as [C|_]; [lia|].
      destruct (Z.eqb_spec m nbits) as [C|_]; [lia|]. cbn [orb].
      rewrite cstream_peek_memory by assumption.
      destruct (peek_loop_spec (Z.to_nat nbits) c buf1 sb 0) as (buf2 & E2 & Hl2 & Hb2 & Hq2).
      { lia. } { lia. } { lia. } { lia. } { lia. }
      { rewrite Hl1. lia. }
      { intros q Hq B. rewrite Hq1 in B by lia.
        apply andb_prop in B. destruct B as [_ B].
        replace (cs_pos c + q - sb) with (cs_pos c + q - sb) by lia. exact B. }
      unfold peeked in *. rewrite Z2Nat.id in * by lia.
      replace (Z.max 0 (Z.min nbits (cs_end c - cs_pos c - 0))) with m in * by lia.
      rewrite E2. cbn [bind]. rewrite Z.add_0_l.
      destruct (Z.leb_spec m 0) as [C|_]; [lia|].
      rewrite Z.eqb_refl. cbn [orb].
      rewrite cstream_consume_bits by (assumption || lia). cbn [bind].
      exists buf2, (consumed c m). split; [reflexivity|].
      split; [lia|]. split; [reflexivity|]. split; [congruence|].
      intros q Hq. rewrite Hq2 by exact Hq. rewrite Hq1 by exact Hq.
      rewrite !Z.add_0_r.
      destruct ((sb <=? q) && (q <? sb + m)); reflexivity.
Qed.

Lemma cstream_read_returns_witness :
  exists buf' c',
    cstream_read sample_reader (repeat 0 2) 0 16
    = Ret (Z.min 16 (cs_end sample_reader - cs_pos sample_reader), buf', c')
    /\ (Z.min 16 (cs_end sample_reader - cs_pos sample_reader) = 0 -> c' = sample_reader)
    /\ (0 < Z.min 16 (cs_end sample_reader - cs_pos sample_reader) ->
        c' = consumed sample_reader (Z.min 16 (cs_end sample_reader - cs_pos sample_reader)))
    /\ length buf' = 2%nat
    /\ forall q, 0 <= q ->
         bit buf' q
         = (0 <=? q) && (q <? 0 + Z.min 16 (cs_end sample_reader - cs_pos sample_reader))
           && bit (cs_data sample_reader) (cs_pos sample_reader + q - 0).
Proof.
  apply (cstream_read_returns sample_reader 2 0 16).
  - exact sample_reader_reading.
  - lia.
  - lia.
  - cbn. lia.
Defined.

(** ** The header, read back *)

Lemma header_bytes_length (w l : Z) : length (header_bytes w l) = 12%nat.
Proof. reflexivity. Qed.

Lemma cstream_open_header (c : lz77_cstream) (w l : Z) (rest : list Z) :
  memory_reader c -> cs_data c = header_bytes w l ++ rest ->
  0 <= w < 65536 -> 0 <= l < 65536 ->
  (4 <= w /\ 2 <= l <= w ->
   cstream_open c = Ret (0, set_cs_params (consumed c 96) w l))
  /\ (~ (4 <= w /\ 2 <= l <= w) -> exists c', cstream_open c = Ret (-1, c')).
Proof.
  intros Hc Hdata Hw Hl. pose proof Hc as (Hfd & Hin & Hpos & Hend & Hw0 & Hl0 & Hok).
  assert (12 <= length (cs_data c))%nat as Hlong
      by (rewrite Hdata, length_app, header_bytes_length; lia).
  assert (firstn 12 (cs_data c) = header_bytes w l) as Hhead.
  { rewrite Hdata. rewrite firstn_app, header_bytes_length.
    change (firstn (12 - 12) rest) with (@nil Z).
    rewrite app_nil_r. apply firstn_all2. rewrite header_bytes_length. lia. }
  unfold cstream_open. rewrite Hpos, Hw0, Hl0.
  rewrite Z.eqb_refl, orb_true_r. cbn [assert bind andb].
  destruct (Z.eqb_spec (cs_is_input c) 0) as [C|_]; [contradiction|]. cbn [negb].
  rewrite (cstream_read_header c Hc Hlong). cbn [bind].
  change (96 =? 12 * 8) with true. cbn [negb].
  rewrite Hhead. rewrite header_bytes_spelled by lia.
  cbn [firstn]. change (list_eqb [76; 90; 55; 55] magic) with true. cbn [negb].
  change (rd [76; 90; 55; 55; 16; 0; 0; 0; w / 256; w mod 256; l / 256; l mod 256] 4)
    with (Ret (A := Z) 16).
  cbn [bind]. change (16 =? LZ77PPM_VERSION) with true. cbn [negb].
  change (be16_at [76; 90; 55; 55; 16; 0; 0; 0; w / 256; w mod 256; l / 256; l mod 256] 8)
    with (Ret (w / 256 * 256 + w mod 256)).
  change (be16_at [76; 90; 55; 55; 16; 0; 0; 0; w / 256; w mod 256; l / 256; l mod 256] 10)
    with (Ret (l / 256 * 256 + l mod 256)).
  cbn [bind].
  replace (w / 256 * 256 + w mod 256) with w by (Z.div_mod_to_equations; lia).
  replace (l / 256 * 256 + l mod 256) with l by (Z.div_mod_to_equations; lia).
  rewrite !u16_small by (change (2 ^ 16) with 65536; lia).
  cs_simpl. change LZ77_MIN_WINDOW_SIZE with 4. change LZ77_MIN_LOOKAHEAD_SIZE with 2.
  rewrite Hpos.
  destruct (Z.ltb_spec w 4) as [A|A].
  { split; [lia|]. intros _. eexists. reflexivity. }
  destruct (Z.ltb_spec l 2) as [B|B].
  { split; [lia|]. intros _. eexists. reflexivity. }
  destruct (Z.ltb_spec w l) as [D|D].
  { split; [lia|]. intros _. eexists. reflexivity. }
  split; [|intros N; exfalso; apply N; lia].
  intros _. unfold consumed, set_cs_params. cs_simpl. rewrite Hpos. reflexivity.
Qed.

(** The header is the first thing a fresh writer takes: it fits the buffer
    of a writer to a descriptor, which is not flushed yet. *)
Lemma fresh_writer_header (cw c1 : lz77_cstream) :
  fresh_writer cw -> heap_limit <= cs_heap cw ->
  cstream_write cw (header_bytes (cs_window_maxsize cw) (cs_lookahead_maxsize cw))
  = Ret (0, c1) ->
  output c1 = header_bytes (cs_window_maxsize cw) (cs_lookahead_maxsize cw).
Proof.
  intros Hfresh Hheap W.
  pose proof (fresh_writer_fields cw Hfresh) as (Hin & Hpos & Hend & Hd & Hf & _).
  destruct (Z_lt_le_dec (cs_fd cw) 0) as [Hfd|Hfd].
  - pose proof (fresh_writer_ok cw Hfresh Hheap Hfd) as Hok.
    apply cstream_write_output in W; [|exact Hok|rewrite header_bytes_length; lia].
    destruct W as [(C & _)|(_ & Hout & _)]; [discriminate C|].
    rewrite Hout. unfold output. rewrite Hd, Hf. reflexivity.
  - destruct Hfresh as (from & heap & [(dn & size & cr & H) | (fd & os & H)]).
    + unfold lz77_cstream_to_memory in H. cbn [negb] in H. injection H as <-.
      cbn [cs_fd] in Hfd. lia.
    + unfold lz77_cstream_to_descriptor in H. destruct (fd <? 0); [discriminate|].
      cbn [negb] in H. injection H as <-.
      unfold cstream_write, cstream_make_room in W. cs_simpl.
      rewrite header_bytes_length in W. cbn in W. injection W as <-.
      reflexivity.
Qed.

(** X18: the header a writer puts out is the header a reader
    takes in.  [cstream_open] on a fresh writer with 16-bit sizes [w] and
    [l] puts out the 12 bytes [header_bytes w l]; [cstream_open] on a
    reader over a memory buffer that starts with these bytes returns 0
    exactly when [4 <= w] and [2 <= l <= w], and then the reader has the
    sizes [w] and [l] and stands at bit 96; otherwise it returns -1.  So a
    stream written with [l > w] is refused by the reader. *)
Theorem header_written_then_read (cw c1 c : lz77_cstream) (rest : list Z) :
  fresh_writer cw -> heap_limit <= cs_heap cw ->
  0 <= cs_window_maxsize cw < 65536 -> 0 <= cs_lookahead_maxsize cw < 65536 ->
  cstream_open cw = Ret (0, c1) ->
  memory_reader c -> cs_data c = output c1 ++ rest ->
  let w := cs_window_maxsize cw in
  let l := cs_lookahead_maxsize cw in
  output c1 = header_bytes w l
  /\ (4 <= w /\ 2 <= l <= w ->
      exists c', cstream_open c = Ret (0, c')
                 /\ cs_window_maxsize c' = w /\ cs_lookahead_maxsize c' = l
                 /\ cs_pos c' = 96)
  /\ (~ (4 <= w /\ 2 <= l <= w) -> exists c', cstream_open c = Ret (-1, c')).
Proof.
  intros Hfresh Hheap Hw Hl Hopen Hc Hdata w l.
  pose proof (fresh_writer_fields cw Hfresh)
    as (Hin & Hpos & Hend & Hd & Hf & _).
  pose proof (cstream_open_writer cw c1 Hin Hopen) as W.
  assert (output c1 = header_bytes w l) as Hout
      by (exact (fresh_writer_header cw c1 Hfresh Hheap W)).
  split; [exact Hout|].
  rewrite Hout in Hdata.
  destruct (cstream_open_header c w l rest Hc Hdata Hw Hl) as [Hyes Hno].
  split; [|exact Hno].
  intros Hsizes. eexists. split; [apply Hyes; exact Hsizes|].
  destruct Hc as (_ & _ & Hp & _).
  unfold consumed. cs_simpl. rewrite Hp. repeat split; reflexivity.
Qed.

Lemma header_written_then_read_witness :
  exists c1,
    cstream_open (sample_cstream 4 2) = Ret (0, c1)
    /\ output c1 = header_bytes 4 2
    /\ (4 <= 4 /\ 2 <= 2 <= 4 ->
        exists c', cstream_open sample_reader = Ret (0, c')
                   /\ cs_window_maxsize c' = 4 /\ cs_lookahead_maxsize c' = 2
                   /\ cs_pos c' = 96)
    /\ (~ (4 <= 4 /\ 2 <= 2 <= 4) -> exists c', cstream_open sample_reader = Ret (-1, c')).
Proof.
  eexists. split; [reflexivity|].
  apply (header_written_then_read (sample_cstream 4 2) _ sample_reader [128; 0]).
  - exact sample_cstream_fresh.
  - cbn. lia.
  - cbn. lia.
  - cbn. lia.
  - reflexivity.
  - exact sample_reader_memory.
  - reflexivity.
Defined.

(** ** [ustream_save] on a memory buffer that can grow *)

Lemma lz_copy_length (n : nat) : forall d src, length (lz_copy n d src) = (length d + n)%nat.
Proof.
  induction n as [|n IH]; intros d src; cbn [lz_copy]; [lia|].
  rewrite IH, length_app. cbn [length]. lia.
Qed.

Lemma skipn_cons_nth (d : list Z) : forall src,
  (src < length d)%nat -> skipn src d = nth src d 0 :: skipn (S src) d.
Proof.
  induction d as [|h t IH]; intros [|src] H; cbn [length] in H; try lia.
  - reflexivity.
  - cbn [skipn nth]. rewrite IH by lia. reflexivity.
Qed.

(** When source and destination do not overlap, the copy is a [memcpy]. *)
Lemma lz_copy_disjoint (n : nat) : forall d src,
  (src + n <= length d)%nat -> lz_copy n d src = d ++ firstn n (skipn src d).
Proof.
  induction n as [|n IH]; intros d src H; cbn [lz_copy].
  - cbn [firstn]. now rewrite app_nil_r.
  - rewrite IH by (rewrite length_app; cbn [length]; lia).
    rewrite (skipn_cons_nth d src) by lia. cbn [firstn].
    rewrite <- app_assoc. cbn [app]. f_equal. f_equal.
    rewrite skipn_app. replace (S src - length d)%nat with 0%nat by lia.
    change (skipn 0 [nth src d 0]) with [nth src d 0]. rewrite firstn_app, length_skipn.
    replace (n - (length d - S src))%nat with 0%nat by lia.
    cbn [firstn]. now rewrite app_nil_r.
Qed.

Lemma copy_bytes_total (n : nat) : forall d dst src,
  dst = Z.of_nat (length d) -> 0 <= src < Z.of_nat (length d) ->
  copy_bytes n d dst src = Ret (lz_copy n d (Z.to_nat src)).
Proof.
  induction n as [|n IH]; intros d dst src Hdst Hsrc; cbn [copy_bytes lz_copy].
  - reflexivity.
  - rewrite (rd_ok d src 0) by lia. cbn [bind].
    unfold store. subst dst. rewrite Z.eqb_refl. cbn [bind].
    rewrite IH by (rewrite length_app; cbn [length]; lia).
    f_equal. f_equal. lia.
Qed.

Lemma set_us_buffer_same (u : lz77_ustream) :
  set_us_buffer u (us_data u) (us_size u) (us_end u) (us_file u) = u.
Proof. destruct u. reflexivity. Qed.

Lemma ustream_make_room_total (u : lz77_ustream) (count : Z) :
  saving u -> 0 < count -> us_end u + count <= 2 ^ 31 ->
  exists sz,
    ustream_make_room u count
    = Ret (set_us_buffer u (us_data u) sz (us_end u) (us_file u))
    /\ us_end u + count <= sz < 2 ^ 32.
Proof.
  intros (Hfd & Hre & Hheap & Hend & Hwin & Hws & Hw16 & Hwe & Hsz) Hc Hb.
  unfold ustream_make_room.
  rewrite (u32_small (us_end u + count)) by lia.
  destruct (Z.ltb_spec (us_size u) (us_end u + count)) as [Hsmall|Hbig].
  - destruct (Z.leb_spec 0 (us_fd u)) as [C|_]; [lia|].
    destruct (Z.eqb_spec (us_can_realloc u) 0) as [C|_]; [contradiction|].
    set (n1 := if us_end u + count <? 1024 then 1024 else us_end u + count).
    assert (us_end u + count <= n1 <= 2 ^ 31) as Hn1
        by (subst n1; destruct (Z.ltb_spec (us_end u + count) 1024); lia).
    set (n2 := if n1 * 10 <? us_size u * 11 then u32 (us_size u * 11 / 10) else n1).
    assert (us_end u + count <= n2 < 2 ^ 32) as Hn2.
    { subst n2. destruct (Z.ltb_spec (n1 * 10) (us_size u * 11)) as [L|L]; [|lia].
      assert (us_size u * 11 / 10 < 2 ^ 32) by (Z.div_mod_to_equations; lia).
      assert (n1 <= us_size u * 11 / 10) by (Z.div_mod_to_equations; lia).
      rewrite u32_small by (split; [apply Z.div_pos; lia|lia]). lia. }
    destruct (Z.ltb_spec (us_heap u) n2) as [C|_]; [unfold heap_limit in Hheap; lia|].
    exists n2. split; [reflexivity|exact Hn2].
  - exists (us_size u). rewrite set_us_buffer_same. split; [reflexivity|lia].
Qed.

Lemma ustream_save_total (u : lz77_ustream) (offset length_ next : Z) :
  saving u ->
  length_ = 0 \/ (0 < length_ < 65536 /\ 0 <= offset < us_window_currsize u) ->
  us_end u + (if length_ =? 0 then 1 else length_) <= 2 ^ 31 ->
  exists u',
    ustream_save u offset length_ next = Ret u'
    /\ saving u'
    /\ us_data u' = (if length_ =? 0 then us_data u ++ [next]
                     else lz_copy (Z.to_nat length_) (us_data u)
                            (Z.to_nat (us_window u + offset)))
    /\ us_end u' = us_end u + (if length_ =? 0 then 1 else length_)
    /\ us_window_currsize u'
       = Z.min (us_window_maxsize u)
           (us_window_currsize u + (if length_ =? 0 then 1 else length_))
    /\ us_processed_bytes u'
       = u64 (us_processed_bytes u + (if length_ =? 0 then 1 else length_))
    /\ us_window_maxsize u' = us_window_maxsize u
    /\ us_window_nbits u' = us_window_nbits u
    /\ us_length_encoder u' = us_length_encoder u
    /\ us_is_input u' = us_is_input u.
Proof.
  intros Hs Hcase Hb.
  pose proof Hs as (Hfd & Hre & Hheap & Hend & Hwin & Hws & Hw16 & Hwe & Hsz).
  set (count := if length_ =? 0 then 1 else length_) in *.
  assert (0 < count) as Hc by (subst count; destruct (Z.eqb_spec length_ 0); lia).
  destruct (ustream_make_room_total u count Hs Hc Hb) as (sz & M & Hszb).
  unfold ustream_save.
  assert ((length_ =? 0) || (offset <=? us_window_currsize u) = true) as ->.
  { destruct Hcase as [->|(_ & Ho)]; [reflexivity|].
    apply orb_true_iff. right. apply Z.leb_le. lia. }
  rewrite Hwe, Z.eqb_refl. cbn [assert bind]. fold count. rewrite M. cbn [bind].
  us_simpl.
  assert ((length_ =? 0) || (us_window u + offset <? us_end u) = true) as ->.
  { destruct Hcase as [->|(_ & Ho)]; [reflexivity|].
    apply orb_true_iff. right. apply Z.ltb_lt. lia. }
  cbn [assert bind].
  (* the copy *)
  assert (exists d,
             ustream_copy (set_us_buffer u (us_data u) sz (us_end u) (us_file u))
               offset length_ next = Ret (d, count)
             /\ d = (if length_ =? 0 then us_data u ++ [next]
                     else lz_copy (Z.to_nat length_) (us_data u)
                            (Z.to_nat (us_window u + offset)))
             /\ Z.of_nat (length d) = us_end u + count) as (d & -> & Hd & Hdl).
  { unfold ustream_copy. us_simpl. subst count.
    destruct (Z.eqb_spec length_ 0) as [E0|N0].
    - subst length_. unfold store. rewrite Hend, Z.eqb_refl. cbn [bind].
      eexists. split; [reflexivity|]. split; [reflexivity|].
      rewrite length_app. cbn [length]. lia.
    - destruct Hcase as [C|(Hl & Ho)]; [contradiction|].
      destruct (Z.leb_spec (us_window u + offset + length_) (us_end u)) as [Hno|Hover].
      + unfold slice.
        replace ((0 <=? us_window u + offset) && (0 <=? length_)
                 && (us_window u + offset + length_ <=? Z.of_nat (length (us_data u))))
          with true
          by (symmetry; rewrite !andb_true_iff, !Z.leb_le; lia).
        cbn [defined bind]. rewrite Hend, store_bytes_append. cbn [bind].
        eexists. split; [reflexivity|].
        split; [symmetry; apply lz_copy_disjoint; lia|].
        rewrite length_app, length_firstn, length_skipn. lia.
      + rewrite copy_bytes_total by lia. cbn [bind].
        eexists. split; [reflexivity|]. split; [reflexivity|].
        rewrite lz_copy_length. lia. }
  cbn [bind fst snd].
  (* the slide *)
  set (u1 := set_us_buffer u (us_data u) sz (us_end u) (us_file u)).
  assert (us_window_currsize (ustream_slide u1 count)
          = Z.min (us_window_maxsize u) (us_window_currsize u + count)
          /\ us_window (ustream_slide u1 count) + us_window_currsize (ustream_slide u1 count)
             = us_end u + count
          /\ 0 <= us_window (ustream_slide u1 count)) as (Hws' & Hwe' & Hwin').
  { unfold ustream_slide. subst u1. us_simpl.
    destruct (Z.eqb_spec (us_window_currsize u) (us_window_maxsize u)) as [Ef|Nf].
    - us_simpl. lia.
    - destruct (Z.leb_spec count (us_window_maxsize u - us_window_currsize u)) as [Hin|Hout].
      + us_simpl. rewrite u16_small by (change (2 ^ 16) with 65536; lia). lia.
      + us_simpl. lia. }
  assert (us_window_maxsize (ustream_slide u1 count) = us_window_maxsize u
          /\ us_size (ustream_slide u1 count) = sz
          /\ us_end (ustream_slide u1 count) = us_end u
          /\ us_file (ustream_slide u1 count) = us_file u
          /\ us_processed_bytes (ustream_slide u1 count) = us_processed_bytes u
          /\ us_fd (ustream_slide u1 count) = us_fd u
          /\ us_can_realloc (ustream_slide u1 count) = us_can_realloc u
          /\ us_heap (ustream_slide u1 count) = us_heap u
          /\ us_window_nbits (ustream_slide u1 count) = us_window_nbits u
          /\ us_length_encoder (ustream_slide u1 count) = us_length_encoder u
          /\ us_is_input (ustream_slide u1 count) = us_is_input u)
    as (S1 & S2 & S3 & S4 & S5 & S6 & S7 & S8 & S9 & S10 & S11).
  { unfold ustream_slide. subst u1. us_simpl.
    destruct (us_window_currsize u =? us_window_maxsize u); [repeat split|].
    destruct (count <=? us_window_maxsize u - us_window_currsize u); repeat split. }
  set (u2 := ustream_slide u1 count) in *.
  rewrite S1.
  destruct (Z.leb_spec (us_window_currsize u2) (us_window_maxsize u)) as [_|C]; [|lia].
  cbn [assert bind]. rewrite S2.
  destruct (Z.leb_spec (us_window u2 + us_window_currsize u2) sz) as [_|C]; [|lia].
  cbn [assert bind]. rewrite S3, S4, S5.
  eexists. split; [reflexivity|]. us_simpl.
  rewrite u32_small by lia.
  split.
  { unfold saving. us_simpl. rewrite S1, S6, S7, S8.
    repeat split; try assumption; try lia. }
  split; [exact Hd|]. split; [reflexivity|]. split; [exact Hws'|].
  split; [reflexivity|]. repeat split; assumption.
Qed.

Lemma five_saved_saving : saving five_saved.
Proof. unfold saving, five_saved, heap_limit. cbn. repeat split; try lia; discriminate. Qed.

(** X19: [ustream_save] on an output stream over a memory buffer
    that [realloc] can extend.  A symbol token ([length = 0]) appends the
    byte [next]; a phrase token with [0 <= offset < window_currsize]
    appends the LZ77 copy of [length] bytes from window position [offset],
    the same bytes whether the code takes the [memcpy] branch or the
    byte-by-byte branch; [end] and [processed_bytes] grow by the number of
    bytes appended, the window grows up to [window_maxsize] and then
    slides, and the stream is ready for the next token. *)
Theorem ustream_save_appends (u : lz77_ustream) (offset length_ next : Z) :
  saving u ->
  length_ = 0 \/ (0 < length_ < 65536 /\ 0 <= offset < us_window_currsize u) ->
  us_end u + (if length_ =? 0 then 1 else length_) <= 2 ^ 31 ->
  exists u',
    ustream_save u offset length_ next = Ret u'
    /\ saving u'
    /\ us_data u' = (if length_ =? 0 then us_data u ++ [next]
                     else lz_copy (Z.to_nat length_) (us_data u)
                            (Z.to_nat (us_window u + offset)))
    /\ us_end u' = us_end u + (if length_ =? 0 then 1 else length_)
    /\ us_window_currsize u'
       = Z.min (us_window_maxsize u)
           (us_window_currsize u + (if length_ =? 0 then 1 else length_))
    /\ us_processed_bytes u'
       = u64 (us_processed_bytes u + (if length_ =? 0 then 1 else length_)).
Proof.
  intros Hs Hcase Hb.
  destruct (ustream_save_total u offset length_ next Hs Hcase Hb)
    as (u' & E & A & B & C & D & F & _).
  exists u'. repeat (split; [assumption|]). assumption.
Qed.

Lemma ustream_save_appends_witness :
  exists u',
    ustream_save five_saved 2 3 0 = Ret u'
    /\ saving u'
    /\ us_data u' = (if 3 =? 0 then us_data five_saved ++ [0]
                     else lz_copy (Z.to_nat 3) (us_data five_saved)
                            (Z.to_nat (us_window five_saved + 2)))
    /\ us_end u' = us_end five_saved + (if 3 =? 0 then 1 else 3)
    /\ us_window_currsize u'
       = Z.min (us_window_maxsize five_saved)
           (us_window_currsize five_saved + (if 3 =? 0 then 1 else 3))
    /\ us_processed_bytes u'
       = u64 (us_processed_bytes five_saved + (if 3 =? 0 then 1 else 3)).
Proof.
  apply (ustream_save_appends five_saved 2 3 0).
  - exact five_saved_saving.
  - right. cbn. lia.
  - cbn. lia.
Defined.

(** X20: a phrase whose offset is not inside the window makes
    [ustream_save] stop at an assertion; it does not return -1.  With
    [offset > window_currsize] the first assertion fails, with
    [offset = window_currsize] the one after the buffer has been
    extended. *)
Theorem ustream_save_bad_offset (u : lz77_ustream) (offset length_ next : Z) :
  saving u -> 0 < length_ -> us_window_currsize u <= offset ->
  us_end u + length_ <= 2 ^ 31 ->
  ustream_save u offset length_ next = Stop AssertFailed.
Proof.
  intros Hs Hl Ho Hb.
  pose proof Hs as (Hfd & Hre & Hheap & Hend & Hwin & Hws & Hw16 & Hwe & Hsz).
  unfold ustream_save.
  destruct (Z.eqb_spec length_ 0) as [C|_]; [lia|]. cbn [orb].
  destruct (Z.leb_spec offset (us_window_currsize u)) as [Heq|_]; [|reflexivity].
  cbn [assert bind]. rewrite Hwe, Z.eqb_refl. cbn [assert bind].
  destruct (ustream_make_room_total u length_ Hs Hl Hb) as (sz & -> & _).
  cbn [bind]. us_simpl.
  destruct (Z.ltb_spec (us_window u + offset) (us_end u)) as [C|_]; [lia|].
  reflexivity.
Qed.

Lemma ustream_save_bad_offset_witness :
  ustream_save five_saved 4 1 0 = Stop AssertFailed.
Proof.
  apply (ustream_save_bad_offset five_saved 4 1 0).
  - exact five_saved_saving.
  - lia.
  - cbn. lia.
  - cbn. lia.
Defined.

(** ** The look-ahead buffer of a compression from memory *)

Lemma same_input_refl u : same_input u u.
Proof. unfold same_input. repeat split. Qed.

Lemma same_input_trans u1 u2 u3 : same_input u1 u2 -> same_input u2 u3 -> same_input u1 u3.
Proof.
  unfold same_input. intros (A1 & A2 & A3 & A4 & A5 & A6 & A7) (B1 & B2 & B3 & B4 & B5 & B6 & B7).
  repeat split; congruence.
Qed.

Lemma same_input_tree u t : same_input u (set_us_tree u t).
Proof. unfold same_input. repeat split. Qed.

Lemma slide_lookahead (u u' : lz77_ustream) :
  view_ok u -> lookahead_ok u -> 1 <= us_lookahead_currsize u ->
  (let u1 := if us_window_currsize u =? us_window_maxsize u
             then set_us_view u (us_window u + 1) (us_window_currsize u)
                    (us_lookahead u) (us_lookahead_currsize u)
             else set_us_view u (us_window u) (u16 (us_window_currsize u + 1))
                    (us_lookahead u) (us_lookahead_currsize u) in
   assert (us_window_currsize u1 <=? us_window_maxsize u1) ;;;
   assert (us_window u1 + us_window_currsize u1 <=? us_size u1) ;;;
   let u2 := set_us_view u1 (us_window u1) (us_window_currsize u1)
               (us_lookahead u1 + 1) (us_lookahead_currsize u1) in
   let data_end := us_end u2 in
   let lkah_end := us_lookahead u2 + us_lookahead_currsize u2 in
   if data_end <? lkah_end then
     assert (lkah_end =? data_end + 1) ;;;
     let eof := us_lookahead_currsize u2 <? us_lookahead_maxsize u2 in
     let canmove := 0 <? us_window u2 in
     u3 <- (if (0 <=? us_fd u2) && negb eof && canmove then refill u2
            else Ret (set_us_view u2 (us_window u2) (us_window_currsize u2)
                        (us_lookahead u2) (u16 (us_lookahead_currsize u2 - 1)))) ;;
     assert (us_lookahead_currsize u3 <=? us_lookahead_maxsize u3) ;;;
     Ret u3
   else Ret u2) = Ret u' ->
  same_input u u' /\ lookahead_ok u'
  /\ us_lookahead_currsize u - 1 <= us_lookahead_currsize u' <= us_lookahead_currsize u
  /\ (us_lookahead_currsize u' = 0 -> us_lookahead u' = us_end u').
Proof.
  intros (Hw & Hfd & Hwin & Hsz & Hla & Hfill) (Hlcs & Hle) H1 H. cbv zeta in H.
  assert ((0 <=? us_fd u) = false) as Efd by (apply Z.leb_gt; exact Hfd).
  destruct (Z.eqb_spec (us_window_currsize u) (us_window_maxsize u)) as [E|E]; us_simpl;
    rewrite ?u16_small in H by (change (2 ^ 16) with 65536; lia);
    rewrite Efd in H; cbn [andb] in H;
    repeat match type of H with
           | bind (assert ?b) _ = Ret _ =>
               let A := fresh "A" in
               destruct b eqn:A; cbn [assert bind] in H; [|discriminate H]
           end;
    (destruct (Z.ltb_spec (us_end u) (us_lookahead u + 1 + us_lookahead_currsize u)) as [L|L];
     [repeat match type of H with
             | bind (assert ?b) _ = Ret _ =>
                 let A := fresh "A" in
                 destruct b eqn:A; cbn [assert bind] in H; [|discriminate H]
             end;
      injection H as <-; unfold same_input, lookahead_ok; us_simpl;
      rewrite ?u16_small by (change (2 ^ 16) with 65536; lia);
      repeat split; try reflexivity; try lia
     |injection H as <-; unfold same_input, lookahead_ok; us_simpl;
      repeat split; try reflexivity; try lia]).
Qed.

Lemma advance_loop_frame (n : nat) :
  forall u i count u',
    view_ok u -> lookahead_ok u -> Z.of_nat n <= us_lookahead_currsize u ->
    advance_loop n u i count = Ret u' ->
    same_input u u' /\ lookahead_ok u'
    /\ us_lookahead_currsize u - Z.of_nat n <= us_lookahead_currsize u'
       <= us_lookahead_currsize u
    /\ ((0 < n)%nat -> us_lookahead_currsize u' = 0 -> us_lookahead u' = us_end u').
Proof.
  induction n as [|n IH]; intros u i count u' Hv Hl Hn H.
  - injection H as <-. split; [apply same_input_refl|]. split; [exact Hl|].
    split; [lia|]. intros C. lia.
  - rewrite advance_loop_S in H.
    match type of H with
    | bind ?m _ = _ => destruct m as [u1|] eqn:E1; [|discriminate]
    end.
    cbn [bind] in H.
    assert (u1 = set_us_tree u (us_tree u1)) as Eu1.
    { destruct (i <? count - 1).
      - cbv zeta in E1. destruct (lz77_tree_delete_node _ _) as [t|]; [|discriminate].
        cbn [bind] in E1. injection E1 as <-. reflexivity.
      - injection E1 as <-. destruct u. reflexivity. }
    clear E1.
    assert (view_ok u1) as Hv1 by (rewrite Eu1; exact Hv).
    assert (lookahead_ok u1) as Hl1 by (rewrite Eu1; exact Hl).
    cbv zeta in H.
    destruct (assert (us_window_currsize _ <=? _)) eqn:A1; [|discriminate]. cbn [bind] in H.
    destruct (assert (us_window _ + _ <=? _)) eqn:A2; [|discriminate]. cbn [bind] in H.
    match type of H with
    | bind ?m _ = _ => destruct m as [u2|] eqn:E2; [|discriminate]
    end.
    cbn [bind] in H.
    assert (view_ok u2) as Hv2.
    { destruct (slide_view u1 u2 Hv1) as (B1 & _); [|exact B1].
      cbv zeta. rewrite A1. cbn [bind]. rewrite A2. cbn [bind]. exact E2. }
    destruct (slide_lookahead u1 u2 Hv1 Hl1) as (S1 & S2 & S3 & S4).
    { rewrite Eu1. us_simpl. lia. }
    { cbv zeta. rewrite A1. cbn [bind]. rewrite A2. cbn [bind]. exact E2. }
    clear E2 A1 A2.
    match type of H with
    | bind ?m _ = _ => destruct m as [u3|] eqn:E3; [|discriminate]
    end.
    cbn [bind] in H.
    assert (u3 = set_us_tree u2 (us_tree u3)) as Eu3.
    { destruct (i <? count - 1).
      - cbv zeta in E3.
        destruct (lz77_find_and_add _ _ _) as [[[lg off] u4]|] eqn:F; [|discriminate].
        cbn [bind] in E3. injection E3 as <-. apply (find_and_add_view _ _ _ _ _ _ F).
      - injection E3 as <-. destruct u2. reflexivity. }
    clear E3.
    assert (view_ok u3) as Hv3 by (rewrite Eu3; exact Hv2).
    assert (lookahead_ok u3) as Hl3 by (rewrite Eu3; exact S2).
    assert (us_lookahead_currsize u1 = us_lookahead_currsize u) as L1
        by (rewrite Eu1; reflexivity).
    assert (us_lookahead_currsize u3 = us_lookahead_currsize u2) as L3
        by (rewrite Eu3; reflexivity).
    assert (us_lookahead u3 = us_lookahead u2 /\ us_end u3 = us_end u2) as (L4 & L5)
        by (rewrite Eu3; split; reflexivity).
    assert (n = 0%nat -> u' = u3) as Hlast.
    { intros ->. cbn [advance_loop] in H. injection H as <-. reflexivity. }
    apply (IH _ _ _ _ Hv3 Hl3) in H; [|lia].
    destruct H as (C1 & C2 & C3 & C4).
    split.
    { apply (same_input_trans u u1); [rewrite Eu1; apply same_input_tree|].
      apply (same_input_trans u1 u2); [exact S1|].
      apply (same_input_trans u2 u3); [rewrite Eu3; apply same_input_tree|exact C1]. }
    split; [exact C2|]. split; [lia|].
    intros _ Hz. destruct n as [|n].
    + rewrite (Hlast eq_refl) in *. rewrite L3 in Hz. specialize (S4 Hz). lia.
    + apply C4; [lia|exact Hz].
Qed.

Lemma find_and_advance_frame (u : lz77_ustream) (offset length_ next count : Z)
  (cells : Z * Z * Z) (u' : lz77_ustream) :
  view_ok u -> lookahead_ok u ->
  ustream_find_and_advance u offset length_ next = Ret (count, cells, u') ->
  same_input u u' /\ lookahead_ok u'
  /\ (0 < count -> us_lookahead_currsize u' = 0 -> us_lookahead u' = us_end u').
Proof.
  intros Hv Hl H. unfold ustream_find_and_advance in H.
  destruct (Z.eqb_spec (us_lookahead_currsize u) 0) as [E0|E0].
  { injection H as <- <- <-. split; [apply same_input_refl|]. split; [exact Hl|]. lia. }
  match type of H with
  | bind ?m _ = _ => destruct m as [[[lg off] u1]|] eqn:E1; [|discriminate]
  end.
  cbn [bind] in H.
  assert (u1 = set_us_tree u (us_tree u1)) as Eu1.
  { destruct (us_window_currsize u =? 0).
    - destruct (seed_tree u) as [u0|] eqn:Es; [|discriminate]. cbn [bind] in E1.
      injection E1 as <- <- <-. apply seed_tree_view, Es.
    - apply (find_and_add_view _ _ _ _ _ _ E1). }
  clear E1.
  match type of H with
  | bind ?m _ = _ => destruct m as [[[[cnt off'] len'] nxt']|] eqn:E2; [|discriminate]
  end.
  cbn [bind] in H. clear E2.
  destruct (assert _) eqn:Ea; [|discriminate]. cbn [bind] in H.
  apply assert_Ret_inv, Z.leb_le in Ea.
  destruct (advance_loop _ _ _ _) as [u2|] eqn:E3; [|discriminate]. cbn [bind] in H.
  injection H as <- <- <-.
  assert (view_ok u1) as Hv1 by (rewrite Eu1; exact Hv).
  assert (lookahead_ok u1) as Hl1 by (rewrite Eu1; exact Hl).
  apply (advance_loop_frame _ _ _ _ _ Hv1 Hl1) in E3; [|destruct Hl1; lia].
  destruct E3 as (C1 & C2 & C3 & C4).
  split.
  { apply (same_input_trans u u1); [rewrite Eu1; apply same_input_tree|].
    apply (same_input_trans u1 u2); [exact C1|]. unfold same_input. us_simpl. repeat split. }
  split; [exact C2|].
  intros Hc Hz. us_simpl. apply C4; [lia|exact Hz].
Qed.

(** ** The bits of a token *)

Lemma written_nonneg (c : lz77_cstream) : cache_ok c -> 0 <= written c.
Proof. intros (H & _). unfold written. lia. Qed.

Lemma lor_shiftl (hi lo n : Z) :
  0 <= n -> 0 <= lo < 2 ^ n -> Z.lor (Z.shiftl hi n) lo = hi * 2 ^ n + lo.
Proof.
  intros Hn Hlo. apply Z.bits_inj'. intros k Hk.
  rewrite Z.lor_spec, testbit_concat by lia.
  destruct (Z.ltb_spec k n) as [L|L].
  - rewrite Z.shiftl_spec_low by lia. reflexivity.
  - rewrite Z.shiftl_spec by lia. rewrite (testbit_above lo n k) by lia. apply orb_false_r.
Qed.

Lemma pow2_17_33 (wb nb : Z) :
  0 <= wb <= 16 -> 0 <= nb <= 16 -> 2 ^ (1 + wb + nb) <= 2 ^ 33.
Proof. intros. apply Z.pow_le_mono_r; lia. Qed.

(** The bits of a phrase token: the flag 1, the offset in [wb] bits, the
    length code in [nb] bits. *)
Lemma phrase_token_fields (c c1 : lz77_cstream) (bytes : list Z) (wb off nb cd : Z) :
  writing c -> 0 < wb <= 16 -> 0 <= off < 2 ^ wb -> 0 < nb <= 16 -> 0 <= cd < 2 ^ nb ->
  cstream_write_bits c ((2 ^ wb + off) * 2 ^ nb + cd) (64 - (1 + wb + nb)) (1 + wb + nb)
  = Ret (0, c1) ->
  writing c1 /\ same_writer c c1
  /\ written c1 = written c + (1 + wb + nb)
  /\ (forall q, 0 <= q < written c -> wbit c1 q = wbit c q)
  /\ (holds bytes c1 ->
      bit bytes (written c) = true
      /\ field_at bytes (written c + 1) wb off
      /\ field_at bytes (written c + 1 + wb) nb cd).
Proof.
  intros (Hok & Hcache & Hbytes) Hwb Hoff Hnb Hcd W.
  assert (0 <= 64 - (1 + wb + nb)) as Hsb by lia.
  destruct (cstream_write_bits_bits _ _ _ _ _ Hok Hcache Hbytes Hsb W)
    as (Hok1 & Hcache1 & Hbytes1 & Hsame & Hwr & Hold & Hnew).
  split; [split; [exact Hok1|split; [exact Hcache1|exact Hbytes1]]|].
  split; [exact Hsame|]. split; [exact Hwr|].
  split; [exact Hold|]. intros Hh.
  pose proof (written_nonneg c Hcache) as Hw0.
  assert (0 < 2 ^ wb) as Hpw by (apply Z.pow_pos_nonneg; lia).
  assert (0 < 2 ^ nb) as Hpn by (apply Z.pow_pos_nonneg; lia).
  assert (0 <= (2 ^ wb + off) * 2 ^ nb + cd < 2 ^ 64) as Htok.
  { pose proof (pow2_17_33 wb nb ltac:(lia) ltac:(lia)) as Hp.
    rewrite !Z.pow_add_r in Hp by lia. change (2 ^ 1) with 2 in Hp.
    change (2 ^ 64) with 18446744073709551616. change (2 ^ 33) with 8589934592 in Hp. nia. }
  assert (forall j, 0 <= j < 1 + wb + nb ->
            bit bytes (written c + j)
            = Z.testbit ((2 ^ wb + off) * 2 ^ nb + cd) (wb + nb - j)) as Hbit.
  { intros j Hj. rewrite Hh by lia. rewrite Hnew by lia.
    rewrite u64_small by exact Htok. f_equal. lia. }
  split; [|split].
  - rewrite <- (Z.add_0_r (written c)). rewrite Hbit by lia.
    rewrite testbit_concat by lia.
    destruct (Z.ltb_spec (wb + nb - 0) nb) as [C|_]; [lia|].
    replace (2 ^ wb + off) with (1 * 2 ^ wb + off) by lia.
    rewrite testbit_concat by lia.
    destruct (Z.ltb_spec (wb + nb - 0 - nb) wb) as [C|_]; [lia|].
    replace (wb + nb - 0 - nb - wb) with 0 by lia. reflexivity.
  - split; [exact Hoff|]. intros j Hj.
    replace (written c + 1 + j) with (written c + (1 + j)) by lia.
    rewrite Hbit by lia. rewrite testbit_concat by lia.
    destruct (Z.ltb_spec (wb + nb - (1 + j)) nb) as [C|_]; [lia|].
    replace (2 ^ wb + off) with (1 * 2 ^ wb + off) by lia.
    rewrite testbit_concat by lia.
    destruct (Z.ltb_spec (wb + nb - (1 + j) - nb) wb) as [_|C]; [|lia].
    f_equal. lia.
  - split; [exact Hcd|]. intros j Hj.
    replace (written c + 1 + wb + j) with (written c + (1 + wb + j)) by lia.
    rewrite Hbit by lia. rewrite testbit_concat by lia.
    destruct (Z.ltb_spec (wb + nb - (1 + wb + j)) nb) as [_|C]; [|lia].
    f_equal. lia.
Qed.

(** The bits of a symbol token: the flag 0 and the byte. *)
Lemma symbol_token_fields (c c1 : lz77_cstream) (bytes : list Z) (next : Z) :
  writing c -> 0 <= next < 256 ->
  cstream_write_bits c next (64 - 9) 9 = Ret (0, c1) ->
  writing c1 /\ same_writer c c1
  /\ written c1 = written c + 9
  /\ (forall q, 0 <= q < written c -> wbit c1 q = wbit c q)
  /\ (holds bytes c1 ->
      bit bytes (written c) = false /\ field_at bytes (written c + 1) 8 next).
Proof.
  intros (Hok & Hcache & Hbytes) Hn W.
  assert (0 <= 64 - 9) as Hsb by lia.
  destruct (cstream_write_bits_bits _ _ _ _ _ Hok Hcache Hbytes Hsb W)
    as (Hok1 & Hcache1 & Hbytes1 & Hsame & Hwr & Hold & Hnew).
  split; [split; [exact Hok1|split; [exact Hcache1|exact Hbytes1]]|].
  split; [exact Hsame|]. split; [exact Hwr|].
  split; [exact Hold|]. intros Hh.
  pose proof (written_nonneg c Hcache) as Hw0.
  assert (forall j, 0 <= j < 9 -> bit bytes (written c + j) = Z.testbit next (8 - j)) as Hbit.
  { intros j Hj. rewrite Hh by lia. rewrite Hnew by lia.
    rewrite u64_small by (change (2 ^ 64) with 18446744073709551616; lia). f_equal. }
  split.
  - rewrite <- (Z.add_0_r (written c)). rewrite Hbit by lia.
    apply (testbit_above next 8); change (2 ^ 8) with 256; lia.
  - split; [change (2 ^ 8) with 256; exact Hn|]. intros j Hj.
    replace (written c + 1 + j) with (written c + (1 + j)) by lia.
    rewrite Hbit by lia. f_equal. lia.
Qed.

(** ** One step of the decompression *)

Lemma reader_at_consumed (bytes : list Z) (p n : Z) (r : lz77_cstream) :
  reader_at bytes p r -> 0 <= n -> p + n <= cs_end r ->
  reader_at bytes (p + n) (consumed r n) /\ cs_end (consumed r n) = cs_end r.
Proof.
  intros (Hr & Hd & Hp & Hc) Hn Hle. subst p.
  destruct (reading_consumed r n Hr Hn Hle) as (A & B & C & D).
  split; [|exact D]. split; [exact A|]. split; [congruence|]. split; [exact B|exact Hc].
Qed.

Lemma firstn_snoc (s : list Z) (n : nat) :
  (n < length s)%nat -> firstn n s ++ [nth n s 0] = firstn (S n) s.
Proof.
  revert n. induction s as [|h t IH]; intros [|n] H; cbn [length] in H; try lia.
  - reflexivity.
  - cbn [firstn nth app]. rewrite IH by lia. reflexivity.
Qed.

(** Copying a match of the input extends a prefix of the input. *)
Lemma lz_copy_match (s : list Z) (n : nat) : forall la src,
  (src < la)%nat -> (la + n <= length s)%nat ->
  (forall j, (j < n)%nat -> nth (la + j) s 0 = nth (src + j) s 0) ->
  lz_copy n (firstn la s) src = firstn (la + n) s.
Proof.
  induction n as [|n IH]; intros la src Hsrc Hlen Hm; cbn [lz_copy].
  - rewrite Nat.add_0_r. reflexivity.
  - rewrite nth_firstn. replace (src <? la)%nat with true by (symmetry; apply Nat.ltb_lt; lia).
    pose proof (Hm 0%nat ltac:(lia)) as H0. rewrite !Nat.add_0_r in H0. rewrite <- H0.
    rewrite firstn_snoc by lia.
    rewrite IH by (try lia; intros j Hj; specialize (Hm (S j) ltac:(lia));
                   replace (S la + j)%nat with (la + S j)%nat by lia;
                   replace (S src + j)%nat with (src + S j)%nat by lia; exact Hm).
    f_equal. lia.
Qed.

Lemma decompress_loop_S (k : nat) (c : lz77_cstream) (u : lz77_ustream) :
  decompress_loop (S k) c u
  = (let winoff_bits := us_window_nbits u in
     '(_, state, c) <- cstream_read c [0; 0; 0; 0] 0 LZ77_TYPE_BITS ;;
     if negb (list_eqb state [0; 0; 0; 0]) then
       let tpos := 16 - winoff_bits in
       '(_, offset, c) <- cstream_read c [0; 0] tpos winoff_bits ;;
       '(length_, c) <- decode_length_loop (length (cs_os c) + 3) (us_length_encoder u) c 0 ;;
       offset <- be16_at offset 0 ;;
       if length_ =? 0 then Ret (c, u)
       else
         u <- ustream_save u offset length_ 0 ;;
         decompress_loop k c u
     else
       let tpos := 8 - LZ77_NEXT_BITS in
       '(n, next, c) <- cstream_read c [0] tpos LZ77_NEXT_BITS ;;
       if negb (n =? LZ77_NEXT_BITS) then Stop Negative
       else
         next <- rd next 0 ;;
         u <- ustream_save u 0 0 next ;;
         decompress_loop k c u).
Proof. reflexivity. Qed.

Lemma decode_symbol_step (s bytes : list Z) (w wb : Z) (enc : lz77_tinyhuff)
  (la ws p next : Z) (r : lz77_cstream) (d : lz77_ustream) :
  reader_at bytes p r -> p + 9 <= cs_end r ->
  bit bytes p = false -> field_at bytes (p + 1) 8 next ->
  decoding s w wb enc la ws d ->
  la < Z.of_nat (length s) -> nth (Z.to_nat la) s 0 = next ->
  Z.of_nat (length s) <= 2 ^ 31 ->
  exists r' d',
    (forall k, decompress_loop (S k) r d = decompress_loop k r' d')
    /\ reader_at bytes (p + 9) r' /\ cs_end r' = cs_end r
    /\ decoding s w wb enc (la + 1) (Z.min w (ws + 1)) d'.
Proof.
  intros Hr Hav Hflag Hbyte Hd Hla Hnext Hs31.
  pose proof Hr as (Hrd & Hdata & Hpos & Hcn).
  destruct (read_flag r Hrd ltac:(lia)) as (buf & Eflag & Hzero).
  rewrite Hdata, Hpos, Hflag in Hzero. cbn [negb] in Hzero.
  destruct (reader_at_consumed bytes p 1 r Hr ltac:(lia) ltac:(lia)) as (Hr1 & He1).
  pose proof Hr1 as (Hrd1 & Hdata1 & Hpos1 & Hcn1).
  assert (cstream_read (consumed r 1) [0] 0 8 = Ret (8, [next], consumed (consumed r 1) 8))
    as Ebyte.
  { apply read_byte; [exact Hrd1|lia|]. rewrite Hdata1, Hpos1. exact Hbyte. }
  destruct (reader_at_consumed bytes (p + 1) 8 (consumed r 1) Hr1 ltac:(lia) ltac:(lia))
    as (Hr2 & He2).
  destruct Hd as (Hsav & Hdd & Hde & Hlar & Hdws & Hdw & Hdwb & Hdenc & Hdpb).
  destruct (ustream_save_total d 0 0 next Hsav ltac:(left; reflexivity))
    as (d' & Esave & Hsav' & Hdd' & Hde' & Hdws' & Hdpb' & Hdw' & Hdwb' & Hdenc' & _).
  { cbn [Z.eqb]. lia. }
  cbn [Z.eqb] in *.
  exists (consumed (consumed r 1) 8), d'.
  split.
  { intros k. rewrite decompress_loop_S. cbv zeta.
    change LZ77_TYPE_BITS with 1. change LZ77_NEXT_BITS with 8. change (8 - 8) with 0.
    rewrite Eflag. cbn [bind]. rewrite Hzero. cbn [negb].
    rewrite Ebyte. cbn [bind]. change (8 =? 8) with true. cbn [negb].
    change (rd [next] 0) with (Ret next). cbn [bind].
    rewrite Esave. cbn [bind]. reflexivity. }
  split; [replace (p + 9) with (p + 1 + 8) by lia; exact Hr2|].
  split; [congruence|].
  unfold decoding.
  split; [exact Hsav'|]. split.
  { rewrite Hdd', Hdd, <- Hnext. rewrite firstn_snoc by lia. f_equal. lia. }
  split; [lia|]. split; [lia|]. split; [rewrite Hdws', Hdw, Hdws; reflexivity|].
  split; [congruence|]. split; [congruence|]. split; [congruence|].
  rewrite Hdpb', Hdpb. apply u64_small. change (2 ^ 64) with 18446744073709551616.
  change (2 ^ 31) with 2147483648 in Hs31. lia.
Qed.

Lemma decode_length_loop_S (k : nat) (enc : lz77_tinyhuff) (c : lz77_cstream) (length_ : Z) :
  decode_length_loop (S k) enc c length_
  = ('(p, peek, c') <- cstream_peek c [0; 0] 0 16 ;;
     peek <- be16_at peek 0 ;;
     '(n, length_) <- tinyhuff_decode enc peek (u16 p) length_ ;;
     if 0 <? n then
       '(_, c') <- cstream_consume c' n ;;
       Ret (length_, c')
     else if cs_unchanged c c' then Stop Diverges
     else decode_length_loop k enc c' length_).
Proof. reflexivity. Qed.

(** The length code at the reader's position is decoded in one round. *)
Lemma decode_length_once (bytes : list Z) (p : Z) (r : lz77_cstream)
  (enc : lz77_tinyhuff) (len nb cd : Z) :
  reader_at bytes p r -> good_encoder enc ->
  tinyhuff_can_encode enc len = true ->
  tinyhuff_encode enc len = Ret (nb, cd) ->
  p + nb <= cs_end r -> field_at bytes p nb cd ->
  2 <= nb <= 16
  /\ forall k, decode_length_loop (k + 3) enc r 0 = Ret (len, consumed r nb).
Proof.
  intros Hr (mn & mx & -> & Hmn & Hmn6 & Hmx & Hd10) Hcan Henc Hav Hfield.
  pose proof Hr as (Hrd & Hdata & Hpos & Hcn).
  destruct (tinyhuff_encode_decode mn mx len Hmn Hmn6 Hmx Hd10 Hcan)
    as (nb' & cd' & Henc' & Hnb & Hcd & Hdec).
  rewrite Henc in Henc'. injection Henc' as <- <-.
  split; [exact Hnb|].
  destruct (peek_code r nb cd Hrd ltac:(lia) ltac:(lia)) as (buf & rest & Epeek & Ebe & Hrest).
  { rewrite Hdata, Hpos. exact Hfield. }
  intros k. replace (k + 3)%nat with (S (k + 2)) by lia.
  rewrite decode_length_loop_S. rewrite Epeek. cbn [bind]. rewrite Ebe. cbn [bind].
  pose proof Hrd as (_ & _ & Hp & _).
  rewrite u16_small by (change (2 ^ 16) with 65536; lia).
  rewrite Hdec by lia. cbn [bind].
  destruct (Z.ltb_spec 0 nb) as [_|C]; [|lia].
  rewrite cstream_consume_bits by (assumption || lia). reflexivity.
Qed.

Lemma decode_phrase_step (s bytes : list Z) (w wb : Z) (enc : lz77_tinyhuff)
  (la ws p off len nb cd : Z) (r : lz77_cstream) (d : lz77_ustream) :
  reader_at bytes p r -> 0 < wb <= 16 ->
  good_encoder enc -> tinyhuff_can_encode enc len = true ->
  tinyhuff_encode enc len = Ret (nb, cd) ->
  p + 1 + wb + nb <= cs_end r ->
  bit bytes p = true -> field_at bytes (p + 1) wb off -> field_at bytes (p + 1 + wb) nb cd ->
  decoding s w wb enc la ws d ->
  0 < len < 65536 -> 0 <= off < ws -> la + len <= Z.of_nat (length s) ->
  (forall j, 0 <= j < len ->
     nth (Z.to_nat (la + j)) s 0 = nth (Z.to_nat (la - ws + off + j)) s 0) ->
  Z.of_nat (length s) <= 2 ^ 31 ->
  exists r' d',
    (forall k, decompress_loop (S k) r d = decompress_loop k r' d')
    /\ reader_at bytes (p + 1 + wb + nb) r' /\ cs_end r' = cs_end r
    /\ decoding s w wb enc (la + len) (Z.min w (ws + len)) d'.
Proof.
  intros Hr Hwb Hgood Hcan Henc Hav Hflag Hoff Hcode Hd Hlen Hoffr Hla Hmatch Hs31.
  pose proof Hr as (Hrd & Hdata & Hpos & Hcn).
  assert (0 <= nb) as Hnb0.
  { destruct Hcode as (_ & _). destruct Hgood as (mn & mx & -> & Hmn & Hmn6 & Hmx & Hd10).
    destruct (tinyhuff_encode_decode mn mx len Hmn Hmn6 Hmx Hd10 Hcan)
      as (nb' & cd' & Henc' & Hnb & _). rewrite Henc in Henc'. injection Henc' as <- <-. lia. }
  destruct (read_flag r Hrd ltac:(lia)) as (buf & Eflag & Hone).
  rewrite Hdata, Hpos, Hflag in Hone. cbn [negb] in Hone.
  destruct (reader_at_consumed bytes p 1 r Hr ltac:(lia) ltac:(lia)) as (Hr1 & He1).
  pose proof Hr1 as (Hrd1 & Hdata1 & Hpos1 & Hcn1).
  destruct (read_field (consumed r 1) wb off Hrd1 Hwb ltac:(lia)) as (buf2 & Eoff & Ebe).
  { rewrite Hdata1, Hpos1. exact Hoff. }
  destruct (reader_at_consumed bytes (p + 1) wb (consumed r 1) Hr1 ltac:(lia) ltac:(lia))
    as (Hr2 & He2).
  destruct (decode_length_once bytes (p + 1 + wb) (consumed (consumed r 1) wb) enc len nb cd
              Hr2 Hgood Hcan Henc ltac:(lia) Hcode) as (Hnb & Elen).
  destruct (reader_at_consumed bytes (p + 1 + wb) nb (consumed (consumed r 1) wb) Hr2
              ltac:(lia) ltac:(lia)) as (Hr3 & He3).
  destruct Hd as (Hsav & Hdd & Hde & Hlar & Hdws & Hdw & Hdwb & Hdenc & Hdpb).
  pose proof Hsav as (_ & _ & _ & _ & Hwin0 & _ & _ & Hwe & _).
  destruct (ustream_save_total d off len 0 Hsav) as
    (d' & Esave & Hsav' & Hdd' & Hde' & Hdws' & Hdpb' & Hdw' & Hdwb' & Hdenc' & _).
  { right. split; [exact Hlen|]. rewrite Hdws. exact Hoffr. }
  { destruct (Z.eqb_spec len 0) as [C|_]; lia. }
  destruct (Z.eqb_spec len 0) as [C|_]; [lia|].
  exists (consumed (consumed (consumed r 1) wb) nb), d'.
  split.
  { intros k. rewrite decompress_loop_S. cbv zeta.
    change LZ77_TYPE_BITS with 1.
    rewrite Eflag. cbn [bind]. rewrite Hone. cbn [negb].
    rewrite Hdwb, Hdenc. rewrite Eoff. cbn [bind]. rewrite Elen. cbn [bind].
    rewrite Ebe. cbn [bind].
    destruct (Z.eqb_spec len 0) as [C|_]; [lia|].
    rewrite Esave. cbn [bind]. reflexivity. }
  split; [exact Hr3|]. split; [congruence|].
  unfold decoding.
  split; [exact Hsav'|]. split.
  { rewrite Hdd', Hdd.
    assert (us_window d = la - ws) as -> by lia.
    rewrite (lz_copy_match s (Z.to_nat len) (Z.to_nat la) (Z.to_nat (la - ws + off))).
    - f_equal. lia.
    - lia.
    - lia.
    - intros j Hj. specialize (Hmatch (Z.of_nat j) ltac:(lia)).
      replace (Z.to_nat la + j)%nat with (Z.to_nat (la + Z.of_nat j)) by lia.
      replace (Z.to_nat (la - ws + off) + j)%nat
        with (Z.to_nat (la - ws + off + Z.of_nat j)) by lia.
      exact Hmatch. }
  split; [lia|]. split; [lia|]. split; [rewrite Hdws', Hdw, Hdws; reflexivity|].
  split; [congruence|]. split; [congruence|]. split; [congruence|].
  rewrite Hdpb', Hdpb. apply u64_small. change (2 ^ 64) with 18446744073709551616.
  change (2 ^ 31) with 2147483648 in Hs31. lia.
Qed.

Lemma encode_zero (enc : lz77_tinyhuff) :
  good_encoder enc ->
  tinyhuff_can_encode enc 0 = true /\ tinyhuff_encode enc 0 = Ret (6, 0).
Proof.
  intros (mn & mx & -> & Hmn & Hmn6 & Hmx & Hd10).
  split; [reflexivity|].
  rewrite (tinyhuff_encode_closed mn mx 0 Hmn Hmn6 Hmx Hd10 eq_refl). reflexivity.
Qed.

Lemma decode_end_step (bytes : list Z) (wb : Z) (enc : lz77_tinyhuff) (p : Z)
  (r : lz77_cstream) (d : lz77_ustream) :
  reader_at bytes p r -> 0 < wb <= 16 -> good_encoder enc ->
  p + 1 + wb + 6 <= cs_end r ->
  bit bytes p = true -> field_at bytes (p + 1) wb 0 -> field_at bytes (p + 1 + wb) 6 0 ->
  us_window_nbits d = wb -> us_length_encoder d = enc ->
  exists r',
    (forall k, decompress_loop (S k) r d = Ret (r', d))
    /\ reader_at bytes (p + 1 + wb + 6) r'.
Proof.
  intros Hr Hwb Hgood Hav Hflag Hoff Hcode Hdwb Hdenc.
  pose proof Hr as (Hrd & Hdata & Hpos & Hcn).
  destruct (encode_zero enc Hgood) as (Hcan & Henc).
  destruct (read_flag r Hrd ltac:(lia)) as (buf & Eflag & Hone).
  rewrite Hdata, Hpos, Hflag in Hone. cbn [negb] in Hone.
  destruct (reader_at_consumed bytes p 1 r Hr ltac:(lia) ltac:(lia)) as (Hr1 & He1).
  pose proof Hr1 as (Hrd1 & Hdata1 & Hpos1 & Hcn1).
  destruct (read_field (consumed r 1) wb 0 Hrd1 Hwb ltac:(lia)) as (buf2 & Eoff & Ebe).
  { rewrite Hdata1, Hpos1. exact Hoff. }
  destruct (reader_at_consumed bytes (p + 1) wb (consumed r 1) Hr1 ltac:(lia) ltac:(lia))
    as (Hr2 & He2).
  destruct (decode_length_once bytes (p + 1 + wb) (consumed (consumed r 1) wb) enc 0 6 0
              Hr2 Hgood Hcan Henc ltac:(lia) Hcode) as (_ & Elen).
  destruct (reader_at_consumed bytes (p + 1 + wb) 6 (consumed (consumed r 1) wb) Hr2
              ltac:(lia) ltac:(lia)) as (Hr3 & He3).
  exists (consumed (consumed (consumed r 1) wb) 6).
  split; [|exact Hr3].
  intros k. rewrite decompress_loop_S. cbv zeta.
  change LZ77_TYPE_BITS with 1.
  rewrite Eflag. cbn [bind]. rewrite Hone. cbn [negb].
  rewrite Hdwb, Hdenc. rewrite Eoff. cbn [bind]. rewrite Elen. cbn [bind].
  rewrite Ebe. cbn [bind]. reflexivity.
Qed.

(** ** The compression, token by token *)

Lemma compress_loop_S (f : nat) (u : lz77_ustream) (c : lz77_cstream) (offset length_ next : Z) :
  compress_loop (S f) u c offset length_ next
  = ('(count, cells, u) <- ustream_find_and_advance u offset length_ next ;;
     let '(offset, length_, next) := cells in
     if 0 <? count then
       '(token, tbits) <- make_token u offset length_ next ;;
       let startbit := u16 (64 - tbits) in
       '(r, c) <- cstream_write_bits c token startbit tbits ;;
       if r <? 0 then Stop Negative
       else compress_loop f u c offset length_ next
     else Ret (u, c)).
Proof. reflexivity. Qed.

Lemma cstream_write_bits_result c reg startbit nbits r c' :
  cstream_write_bits c reg startbit nbits = Ret (r, c') -> r = 0 \/ r = -1.
Proof.
  unfold cstream_write_bits. intros H. inv_ret H. injection H as <- <-.
  match goal with
  | A : cstream_flush_cache _ _ = Ret ?x |- _ => destruct x as [r0 c0]; rename A into F
  end.
  cbn [fst]. unfold cstream_flush_cache in F.
  destruct (64 <? cs_cached_nbits c + nbits).
  - inv_ret F. injection F as <- <-.
    match goal with
    | A : cstream_write _ _ = Ret ?x |- _ => destruct x as [r1 c1]; rename A into W
    end.
    cbn [fst]. unfold cstream_write in W. inv_ret W.
    match goal with
    | A : cstream_make_room _ _ = Ret ?x |- _ =>
        destruct x as [r2 c2]; apply cstream_make_room_counters in A;
        destruct A as (_ & _ & _ & _ & K)
    end.
    cbn [fst snd] in W. destruct (r2 <? 0).
    + injection W as <- <-. exact K.
    + inv_ret W. injection W as <- <-. left. reflexivity.
  - injection F as <- <-. left. reflexivity.
Qed.

Lemma cstream_write_mem c bytes c' :
  mem_writer c -> cstream_write c bytes = Ret (0, c') -> mem_writer c'.
Proof.
  intros (Hfd & Hf & Hpb) W. unfold cstream_write in W. inv_ret W.
  match goal with
  | A : cstream_make_room _ _ = Ret ?x |- _ => destruct x as [r2 c2]; rename A into M
  end.
  cbn [fst snd] in W.
  assert (cs_fd c2 = cs_fd c /\ cs_file c2 = cs_file c /\ cs_end c2 = cs_end c
          /\ cs_processed_bits c2 = cs_processed_bits c) as (A1 & A2 & A3 & A4).
  { unfold cstream_make_room in M.
    destruct (cs_size c <? cs_end c / 8 + u32 (Z.of_nat (length bytes))).
    - destruct (Z.leb_spec 0 (cs_fd c)) as [C|_]; [lia|].
      destruct (cs_can_realloc c =? 0); [injection M as <- <-; repeat split|].
      match type of M with (if ?b then _ else _) = _ => destruct b end;
        injection M as <- <-; repeat split.
    - injection M as <- <-. repeat split. }
  destruct (r2 <? 0).
  - injection W as _ <-. unfold mem_writer. rewrite A1, A2, A3, A4. repeat split; assumption.
  - inv_ret W. injection W as <-. unfold mem_writer. cs_simpl.
    rewrite A1, A2, A3, A4, Hpb. repeat split; assumption.
Qed.

Lemma cstream_write_bits_mem c reg startbit nbits c' :
  mem_writer c -> cstream_write_bits c reg startbit nbits = Ret (0, c') -> mem_writer c'.
Proof.
  intros Hm H. unfold cstream_write_bits in H. inv_ret H.
  match goal with
  | A : cstream_flush_cache _ _ = Ret ?x |- _ => destruct x as [r0 c0]; rename A into F
  end.
  cbn [fst snd] in H. injection H as -> <-.
  assert (mem_writer c0) as (B1 & B2 & B3).
  { unfold cstream_flush_cache in F. destruct (64 <? cs_cached_nbits c + nbits).
    - inv_ret F.
      match goal with
      | A : cstream_write _ _ = Ret ?x |- _ => destruct x as [r1 c1]; rename A into W
      end.
      cbn [fst snd] in F. injection F as -> <-.
      apply (cstream_write_mem _ _ _ Hm) in W. unfold mem_writer in *. cs_simpl. exact W.
    - injection F as <-. exact Hm. }
  unfold mem_writer. cs_simpl. repeat split; assumption.
Qed.

Lemma make_token_phrase (u : lz77_ustream) (offset length_ next nb cd : Z) :
  length_ <> 0 ->
  tinyhuff_encode (us_length_encoder u) length_ = Ret (nb, cd) ->
  make_token u offset length_ next
  = Ret (u64 (Z.lor (Z.shiftl (u64 (Z.lor (Z.shiftl 1 (us_window_nbits u)) offset)) nb) cd),
         u16 (1 + us_window_nbits u + nb)).
Proof.
  intros Hl He. unfold make_token.
  destruct (Z.eqb_spec length_ 0) as [C|_]; [contradiction|].
  cbv zeta. unfold negb. rewrite He. reflexivity.
Qed.

Lemma phrase_token_value (wb off nb cd : Z) :
  0 < wb <= 16 -> 0 <= off < 2 ^ wb -> 0 < nb <= 16 -> 0 <= cd < 2 ^ nb ->
  u64 (Z.lor (Z.shiftl (u64 (Z.lor (Z.shiftl 1 wb) off)) nb) cd)
  = (2 ^ wb + off) * 2 ^ nb + cd
  /\ u16 (1 + wb + nb) = 1 + wb + nb
  /\ u16 (64 - (1 + wb + nb)) = 64 - (1 + wb + nb).
Proof.
  intros Hwb Hoff Hnb Hcd.
  assert (0 < 2 ^ wb) as Hpw by (apply Z.pow_pos_nonneg; lia).
  assert (0 < 2 ^ nb) as Hpn by (apply Z.pow_pos_nonneg; lia).
  assert (2 ^ wb <= 2 ^ 16) as Hp16 by (apply Z.pow_le_mono_r; lia).
  assert (2 ^ nb <= 2 ^ 16) as Hn16 by (apply Z.pow_le_mono_r; lia).
  change (2 ^ 16) with 65536 in Hp16, Hn16.
  rewrite Z.shiftl_1_l, (lor_pow2 wb off) by lia.
  rewrite (u64_small (2 ^ wb + off)) by (change (2 ^ 64) with 18446744073709551616; lia).
  rewrite lor_shiftl by lia.
  rewrite u64_small by (change (2 ^ 64) with 18446744073709551616; nia).
  rewrite !u16_small by (change (2 ^ 16) with 65536; lia).
  repeat split.
Qed.

Section RoundTrip.

Variable s : list Z.
Variables w wb : Z.
Variable enc : lz77_tinyhuff.
Hypothesis s_bytes : bytes_ok s.
Hypothesis s_length : Z.of_nat (length s) <= 2 ^ 31.
Hypothesis wb_range : 0 < wb <= 16.
Hypothesis w_fits : w <= 2 ^ wb.
Hypothesis enc_good : good_encoder enc.

Lemma feeding_step (u : lz77_ustream) (offset length_ next count : Z)
  (cells : Z * Z * Z) (u' : lz77_ustream) :
  feeding s w wb enc u ->
  ustream_find_and_advance u offset length_ next = Ret (count, cells, u') ->
  feeding s w wb enc u'
  /\ 0 <= count
  /\ (count = 0 -> u' = u /\ us_lookahead_currsize u = 0)
  /\ us_lookahead u' = us_lookahead u + count
  /\ us_window_currsize u' = Z.min w (us_window_currsize u + count).
Proof.
  intros (Hc & Hl & Hd & He & Hw & Hwb & Henc & Hj) H.
  pose proof Hc as (Hv & _).
  destruct (find_and_advance_ok u offset length_ next count cells u' Hc H) as (Hc' & _).
  destruct (find_and_advance_consumes u offset length_ next count cells u' Hv H)
    as (C1 & C2 & C3 & C4 & C5 & _ & _).
  destruct (find_and_advance_frame u offset length_ next count cells u' Hv Hl H)
    as ((S1 & S2 & S3 & S4 & S5 & S6 & S7) & Hl' & Hj').
  split.
  { unfold feeding. split; [exact Hc'|]. split; [exact Hl'|].
    split; [congruence|]. split; [congruence|]. split; [congruence|].
    split; [congruence|]. split; [congruence|].
    destruct (Z.eq_dec count 0) as [E|E].
    - rewrite (C3 E). exact Hj.
    - apply Hj'. lia. }
  split; [lia|]. split; [intros E; split; [exact (C3 E)|apply C2; exact E]|].
  split; [exact C4|]. rewrite C5, Hw. reflexivity.
Qed.

Lemma input_byte (i b : Z) : rd s i = Ret b -> 0 <= b < 256.
Proof.
  intros H. apply rd_nth in H. destruct H as (Hi & <-).
  pose proof (bytes_ok_nth s i s_bytes) as K. unfold byte_at in K. exact K.
Qed.

Lemma compress_loop_decodes (fuel : nat) :
  forall u c offset length_ next u' c',
    compress_loop fuel u c offset length_ next = Ret (u', c') ->
    feeding s w wb enc u -> writing c -> mem_writer c ->
    feeding s w wb enc u' /\ us_lookahead_currsize u' = 0
    /\ writing c' /\ mem_writer c' /\ same_writer c c'
    /\ written c <= written c'
    /\ (forall q, 0 <= q < written c -> wbit c' q = wbit c q)
    /\ forall bytes r d,
         holds bytes c' -> reader_at bytes (written c) r -> written c' <= cs_end r ->
         decoding s w wb enc (us_lookahead u) (us_window_currsize u) d ->
         exists T r' d',
           (forall k, decompress_loop (T + k) r d = decompress_loop k r' d')
           /\ reader_at bytes (written c') r' /\ cs_end r' = cs_end r
           /\ decoding s w wb enc (us_lookahead u') (us_window_currsize u') d'
           /\ 4 * Z.of_nat T <= written c' - written c.
Proof.
  induction fuel as [|fuel IH]; intros u c offset length_ next u' c' H Hf Hwr Hmw;
    [discriminate H|].
  rewrite compress_loop_S in H.
  destruct (ustream_find_and_advance u offset length_ next)
    as [[[count [[o' l'] n']] u1]|] eqn:Efa; [|discriminate H].
  cbn [bind] in H.
  destruct (feeding_step u offset length_ next count (o', l', n') u1 Hf Efa)
    as (Hf1 & Hc0 & Hcz & Hla1 & Hws1).
  destruct (Z.ltb_spec 0 count) as [Hpos|Hzero].
  2:{ injection H as <- <-. assert (count = 0) as Ez by lia.
      destruct (Hcz Ez) as (-> & Hz).
      split; [exact Hf|]. split; [exact Hz|]. split; [exact Hwr|]. split; [exact Hmw|].
      split; [unfold same_writer; repeat split|]. split; [lia|].
      split; [intros; reflexivity|].
      intros bytes r d Hh Hr Hend Hd. exists 0%nat, r, d.
      split; [intros k; reflexivity|]. split; [exact Hr|]. split; [reflexivity|].
      split; [exact Hd|]. lia. }
  destruct (make_token u1 o' l' n') as [[token tbits]|] eqn:Etok; [|discriminate H].
  cbn [bind] in H.
  destruct (cstream_write_bits c token (u16 (64 - tbits)) tbits) as [[r0 c1]|] eqn:Ewb;
    [|discriminate H].
  cbn [bind] in H.
  assert (r0 = 0) as ->.
  { destruct (cstream_write_bits_result _ _ _ _ _ _ Ewb) as [E|E]; [exact E|].
    subst r0. discriminate H. }
  cbn [Z.ltb Z.compare] in H.
  pose proof Hf as (Hc & Hl & Hd & He & Hw & Hwb & Henc & Hj).
  pose proof Hc as (Hv & _).
  pose proof Hv as (Hwr2 & Hfd & Hwin & Hsz & Hlaw & Hfill).
  pose proof Hf1 as (_ & _ & _ & _ & _ & Hwb1 & Henc1 & _).
  destruct (find_and_advance_token u offset length_ next count o' l' n' u1 Hc Efa Hpos)
    as [(El & Ec & Eo & Hrd)|(Hlpos & Ec & Hcan & Hph)].
  - (* a symbol *)
    subst l' count o'. rewrite Hd in Hrd.
    pose proof (input_byte _ _ Hrd) as Hbyte.
    pose proof (rd_nth _ _ _ Hrd) as (Hrange & Hnth).
    unfold make_token in Etok. cbn [Z.eqb negb] in Etok.
    change LZ77_NEXT_BITS with 8 in Etok. change LZ77_SYMBOL_BITS with 9 in Etok.
    rewrite Z.shiftl_0_l, Z.lor_0_l in Etok.
    rewrite u64_small in Etok by (change (2 ^ 64) with 18446744073709551616; lia).
    injection Etok as <- <-.
    change (u16 (64 - 9)) with (64 - 9) in Ewb.
    pose proof (cstream_write_bits_mem _ _ _ _ _ Hmw Ewb) as Hmw1.
    destruct (IH _ _ _ _ _ _ _ H Hf1 (proj1 (symbol_token_fields c c1 [] n' Hwr Hbyte Ewb)) Hmw1)
      as (Hf' & Hz' & Hwr' & Hmw' & Hsame' & Hle' & Hold' & Hsim).
    destruct (symbol_token_fields c c1 [] n' Hwr Hbyte Ewb)
      as (Hwr1 & Hsame1 & Hlen1 & Hold1 & _).
    split; [exact Hf'|]. split; [exact Hz'|]. split; [exact Hwr'|]. split; [exact Hmw'|].
    split.
    { unfold same_writer in *. destruct Hsame1 as (A1 & A2 & A3 & A4).
      destruct Hsame' as (B1 & B2 & B3 & B4). repeat split; congruence. }
    split; [lia|].
    pose proof (written_nonneg c (proj1 (proj2 Hwr))) as Hw0.
    split.
    { intros q Hq. rewrite Hold' by lia. apply Hold1. exact Hq. }
    intros bytes r d Hh Hr Hend Hdec.
    assert (holds bytes c1) as Hh1.
    { intros q Hq. rewrite Hh by lia. apply Hold'. exact Hq. }
    destruct (symbol_token_fields c c1 bytes n' Hwr Hbyte Ewb)
      as (_ & _ & _ & _ & Hfields).
    destruct (Hfields Hh1) as (Hflag & Hfield).
    destruct (decode_symbol_step s bytes w wb enc (us_lookahead u) (us_window_currsize u)
                (written c) n' r d Hr ltac:(lia) Hflag Hfield Hdec ltac:(lia) Hnth s_length)
      as (r1 & d1 & Hstep & Hr1 & He1 & Hd1).
    rewrite <- Hla1, <- Hws1 in Hd1. rewrite <- Hlen1 in Hr1.
    destruct (Hsim bytes r1 d1 Hh Hr1 ltac:(lia) Hd1) as (T & r' & d' & Hs' & Hr' & He' & Hd' & HT).
    exists (S T), r', d'.
    split; [intros k; cbn [Nat.add]; rewrite Hstep; apply Hs'|].
    split; [exact Hr'|]. split; [congruence|]. split; [exact Hd'|]. lia.
  - (* a phrase *)
    subst count.
    destruct Hph as [C|(Hoff & Hlen & Hmatch)]; [lia|].
    destruct Hl as (Hlcs & Hlend).
    assert (0 < 2 ^ wb) as Hpw by (apply Z.pow_pos_nonneg; lia).
    assert (l' <> 0) as Hl0 by lia.
    destruct (tinyhuff_encode enc l') as [[nb cd]|] eqn:Eenc.
    2:{ unfold make_token in Etok. destruct (Z.eqb_spec l' 0) as [C|_]; [lia|].
        cbv zeta in Etok. unfold negb in Etok. rewrite Henc1, Eenc in Etok.
        discriminate Etok. }
    rewrite (make_token_phrase u1 o' l' n' nb cd Hl0) in Etok by (rewrite Henc1; exact Eenc).
    rewrite Hwb1 in Etok.
    rewrite Henc in Hcan.
    pose proof enc_good as (mn & mx & Einit & Hmn & Hmn6 & Hmx & Hd10).
    assert (2 <= nb <= 16 /\ 0 <= cd < 2 ^ nb) as (Hnb & Hcd).
    { rewrite Einit in Hcan, Eenc.
      destruct (tinyhuff_encode_decode mn mx l' Hmn Hmn6 Hmx ltac:(rewrite <- Einit; exact Hd10)
                  Hcan) as (nb' & cd' & Henc' & A & B & _).
      rewrite Eenc in Henc'. injection Henc' as <- <-. split; assumption. }
    destruct (phrase_token_value wb o' nb cd wb_range ltac:(lia) ltac:(lia) Hcd)
      as (Ev & Et & Es).
    rewrite Ev, Et in Etok.
    assert (token = (2 ^ wb + o') * 2 ^ nb + cd) as Etk by congruence.
    assert (tbits = 1 + wb + nb) as Etb by congruence.
    clear Etok. subst token tbits.
    rewrite Es in Ewb.
    pose proof (cstream_write_bits_mem _ _ _ _ _ Hmw Ewb) as Hmw1.
    assert (0 <= o' < 2 ^ wb) as Hoffb by lia.
    destruct (phrase_token_fields c c1 [] wb o' nb cd Hwr wb_range Hoffb ltac:(lia) Hcd Ewb)
      as (Hwr1 & Hsame1 & Hlen1 & Hold1 & _).
    destruct (IH _ _ _ _ _ _ _ H Hf1 Hwr1 Hmw1)
      as (Hf' & Hz' & Hwr' & Hmw' & Hsame' & Hle' & Hold' & Hsim).
    split; [exact Hf'|]. split; [exact Hz'|]. split; [exact Hwr'|]. split; [exact Hmw'|].
    split.
    { unfold same_writer in *. destruct Hsame1 as (A1 & A2 & A3 & A4).
      destruct Hsame' as (B1 & B2 & B3 & B4). repeat split; congruence. }
    split; [lia|].
    pose proof (written_nonneg c (proj1 (proj2 Hwr))) as Hw0.
    split.
    { intros q Hq. rewrite Hold' by lia. apply Hold1. exact Hq. }
    intros bytes r d Hh Hr Hend Hdec.
    assert (holds bytes c1) as Hh1.
    { intros q Hq. rewrite Hh by lia. apply Hold'. exact Hq. }
    destruct (phrase_token_fields c c1 bytes wb o' nb cd Hwr wb_range Hoffb ltac:(lia) Hcd Ewb)
      as (_ & _ & _ & _ & Hfields).
    destruct (Hfields Hh1) as (Hflag & Hfoff & Hfcode).
    assert (us_lookahead u + l' <= Z.of_nat (length s)
            /\ forall j, 0 <= j < l' ->
                 nth (Z.to_nat (us_lookahead u + j)) s 0
                 = nth (Z.to_nat (us_lookahead u - us_window_currsize u + o' + j)) s 0)
      as (Hin & Hm).
    { split.
      - destruct (Hmatch (l' - 1) ltac:(lia)) as (b & R1 & _).
        rewrite Hd in R1. apply rd_nth in R1. lia.
      - intros j Hjr. destruct (Hmatch j Hjr) as (b & R1 & R2).
        rewrite Hd in R1, R2. apply rd_nth in R1, R2.
        destruct R1 as (_ & <-). destruct R2 as (_ & R2).
        rewrite <- R2. f_equal. lia. }
    destruct (decode_phrase_step s bytes w wb enc (us_lookahead u) (us_window_currsize u)
                (written c) o' l' nb cd r d Hr wb_range enc_good Hcan Eenc ltac:(lia)
                Hflag Hfoff Hfcode Hdec ltac:(lia) Hoff Hin Hm s_length)
      as (r1 & d1 & Hstep & Hr1 & He1 & Hd1).
    rewrite <- Hla1, <- Hws1 in Hd1.
    replace (written c + 1 + wb + nb) with (written c1) in Hr1 by lia.
    destruct (Hsim bytes r1 d1 Hh Hr1 ltac:(lia) Hd1) as (T & r' & d' & Hs' & Hr' & He' & Hd' & HT).
    exists (S T), r', d'.
    split; [intros k; cbn [Nat.add]; rewrite Hstep; apply Hs'|].
    split; [exact Hr'|]. split; [congruence|]. split; [exact Hd'|]. lia.
Qed.

End RoundTrip.

(** ** The two streams of a compression from memory to memory *)

Lemma ustream_open_input_fields (u : lz77_ustream) (from : lz77_cstream) (u' : lz77_ustream) :
  (us_is_input u =? 0) = false -> us_fd u < 0 ->
  ustream_open u from = Ret u' ->
  us_data u' = us_data u /\ us_end u' = us_end u
  /\ us_window_nbits u' = us_window_nbits u
  /\ us_lookahead_currsize u' = Z.min (u16 (us_size u)) (us_lookahead_maxsize u)
  /\ us_length_encoder u'
     = tinyhuff_init (Z.quot (LZ77_TYPE_BITS + us_window_nbits u + LZ77_TINYHUFF_MIN_CODE_BITS)
                        LZ77_SYMBOL_BITS + 1) (us_lookahead_maxsize u).
Proof.
  intros Hin Hfd H. unfold ustream_open in H.
  rewrite Hin in H. cbn [negb orb] in H.
  destruct (assert _) in H; [|discriminate H]. cbn [assert bind] in H.
  destruct (Z.leb_spec 0 (us_fd u)) as [C|_]; [lia|].
  unfold lz77_tree_init in H.
  destruct (Z.ltb_spec (us_lookahead_maxsize
                          (set_us_view u (us_window u) (us_window_currsize u) (us_lookahead u)
                             (u16 (us_size u))))
              (us_lookahead_currsize
                 (set_us_view u (us_window u) (us_window_currsize u) (us_lookahead u)
                    (u16 (us_size u))))) as [L|L];
    us_simpl; destruct (wr _ _ _) as [t|]; try discriminate H; cbn [bind] in H;
    injection H as <-; us_simpl; repeat split; lia.
Qed.

Lemma ustream_open_output_fields (from : lz77_cstream) (w l : Z) :
  cs_window_maxsize from = w -> cs_lookahead_maxsize from = l ->
  4 <= w -> 2 <= l ->
  exists d,
    lz77_ustream_to_memory false true 0 1 true heap_limit = Object d
    /\ exists d',
         ustream_open d from = Ret d'
         /\ us_fd d' = -1 /\ us_data d' = [] /\ us_size d' = 0 /\ us_end d' = 0
         /\ us_can_realloc d' = 1 /\ us_window d' = 0 /\ us_window_currsize d' = 0
         /\ us_window_maxsize d' = w
         /\ us_window_nbits d' = u8 (number_of_bits (w - 1))
         /\ us_length_encoder d'
            = tinyhuff_init (Z.quot (LZ77_TYPE_BITS + u8 (number_of_bits (w - 1))
                                     + LZ77_TINYHUFF_MIN_CODE_BITS) LZ77_SYMBOL_BITS + 1) l
         /\ us_processed_bytes d' = 0 /\ us_heap d' = heap_limit.
Proof.
  intros Hw Hl Hw4 Hl2. eexists. split; [reflexivity|].
  unfold ustream_open. us_simpl. cbn [Z.eqb andb negb orb assert bind].
  rewrite Hw, Hl.
  destruct (Z.leb_spec LZ77_MIN_WINDOW_SIZE w) as [_|C];
    [|unfold LZ77_MIN_WINDOW_SIZE in C; lia].
  destruct (Z.leb_spec LZ77_MIN_LOOKAHEAD_SIZE l) as [_|C];
    [|unfold LZ77_MIN_LOOKAHEAD_SIZE in C; lia].
  cbn [assert bind]. change (0 <=? -1) with false. cbv iota.
  cbn [bind]. eexists. split; [reflexivity|].
  us_simpl. repeat split.
Qed.

Lemma encoder_good (wb l : Z) :
  2 <= wb <= 16 -> 2 <= l <= 1030 ->
  good_encoder
    (tinyhuff_init (Z.quot (LZ77_TYPE_BITS + wb + LZ77_TINYHUFF_MIN_CODE_BITS)
                      LZ77_SYMBOL_BITS + 1) l).
Proof.
  intros Hwb Hl.
  change LZ77_TYPE_BITS with 1. change LZ77_TINYHUFF_MIN_CODE_BITS with 2.
  change LZ77_SYMBOL_BITS with 9.
  rewrite Z.quot_div_nonneg by lia.
  set (mn := (1 + wb + 2) / 9 + 1).
  assert (1 <= mn <= 3) as Hmn by (subst mn; Z.div_mod_to_equations; lia).
  exists mn, l. split; [reflexivity|]. split; [lia|]. split; [lia|]. split; [lia|].
  unfold tinyhuff_init. cbn [diff_nbits]. change ENCODING_TABLE_SIZE with 8.
  rewrite (u16_small mn), (u16_small l) by (change (2 ^ 16) with 65536; lia).
  rewrite (u16_small (mn + 8 - 2)) by (change (2 ^ 16) with 65536; lia).
  destruct (Z.leb_spec 0 (l - (mn + 8 - 2))) as [Hd|Hd]; [|lia].
  rewrite number_of_bits_bit_width by (change (2 ^ 16) with 65536; lia).
  unfold bit_width.
  assert (Z.log2 (Z.max 1 (l - (mn + 8 - 2))) < 10); [|lia].
  apply Z.log2_lt_pow2; [lia|]. change (2 ^ 10) with 1024. lia.
Qed.

Lemma window_bits_fit (w : Z) :
  4 <= w <= 65535 ->
  2 <= u8 (number_of_bits (w - 1)) <= 16 /\ w <= 2 ^ u8 (number_of_bits (w - 1)).
Proof.
  intros Hw. destruct (window_nbits_bit_width w Hw) as (E & Hb).
  rewrite (u16_small w) in E by (change (2 ^ 16) with 65536; lia).
  rewrite E. split; [exact Hb|].
  pose proof (bit_width_above (w - 1) ltac:(lia)). lia.
Qed.

Lemma header_bytes_ok (w l : Z) : 0 <= w < 65536 -> 0 <= l < 65536 -> bytes_ok (header_bytes w l).
Proof.
  intros Hw Hl. rewrite header_bytes_spelled by lia.
  unfold bytes_ok. apply Forall_forall. intros x Hx. cbn [In] in Hx.
  assert (0 <= w / 256 < 256) by (Z.div_mod_to_equations; lia).
  assert (0 <= l / 256 < 256) by (Z.div_mod_to_equations; lia).
  pose proof (Z.mod_pos_bound w 256 ltac:(lia)). pose proof (Z.mod_pos_bound l 256 ltac:(lia)).
  repeat (destruct Hx as [<-|Hx]; [lia|]). contradiction.
Qed.

Lemma writer_opened (cw c1 : lz77_cstream) :
  fresh_writer cw -> heap_limit <= cs_heap cw -> cs_fd cw < 0 ->
  0 <= cs_window_maxsize cw < 65536 -> 0 <= cs_lookahead_maxsize cw < 65536 ->
  cstream_open cw = Ret (0, c1) ->
  writing c1 /\ mem_writer c1 /\ same_writer cw c1
  /\ output c1 = header_bytes (cs_window_maxsize cw) (cs_lookahead_maxsize cw)
  /\ written c1 = 96.
Proof.
  intros Hfresh Hheap Hfd Hw Hl Hopen.
  pose proof (fresh_writer_fields cw Hfresh)
    as (Hin & Hpos & Hend & Hd & Hf & Hca & Hcn & Hpb).
  pose proof (fresh_writer_ok cw Hfresh Hheap Hfd) as Hok.
  pose proof (cstream_open_writer cw c1 Hin Hopen) as W.
  assert (Z.of_nat (length (header_bytes (cs_window_maxsize cw) (cs_lookahead_maxsize cw)))
          < 2 ^ 32) as Hlen by (rewrite header_bytes_length; lia).
  pose proof (cstream_write_counters _ _ _ _ W Hlen) as (K1 & K2 & _).
  pose proof (cstream_write_fields _ _ _ _ W) as Hsame.
  pose proof (cstream_write_output _ _ _ _ Hok Hlen W) as [(C & _)|(_ & Hout & Hok1)];
    [discriminate C|].
  assert (output c1 = header_bytes (cs_window_maxsize cw) (cs_lookahead_maxsize cw)) as Hout1.
  { rewrite Hout. unfold output. rewrite Hd, Hf. reflexivity. }
  split.
  { split; [exact Hok1|]. split.
    - unfold cache_ok. rewrite K1, K2, Hca, Hcn. split; [lia|].
      intros k _. apply Z.testbit_0_l.
    - rewrite Hout1. apply header_bytes_ok; assumption. }
  split.
  { apply (cstream_write_mem cw (header_bytes (cs_window_maxsize cw) (cs_lookahead_maxsize cw)) c1);
      [|exact W].
    unfold mem_writer. rewrite Hf, Hpb, Hend. repeat split. exact Hfd. }
  split; [exact Hsame|]. split; [exact Hout1|].
  unfold written. rewrite Hout1, header_bytes_length, K1, Hcn. reflexivity.
Qed.

Lemma extends_holds_header (c1 c : lz77_cstream) (w l : Z) :
  output c1 = header_bytes w l -> extends c1 c ->
  exists rest, output c = header_bytes w l ++ rest.
Proof. intros H (extra & E). exists extra. rewrite E, H. reflexivity. Qed.

Lemma terminator_value (wb : Z) :
  0 < wb <= 16 ->
  u64 (Z.lor (Z.shiftl (u64 (Z.shiftl 1 wb)) 6) 0) = (2 ^ wb + 0) * 2 ^ 6 + 0
  /\ u16 (LZ77_TYPE_BITS + wb + 6) = 1 + wb + 6
  /\ u32 (64 - (1 + wb + 6)) = 64 - (1 + wb + 6).
Proof.
  intros Hwb.
  assert (0 < 2 ^ wb) as Hpw by (apply Z.pow_pos_nonneg; lia).
  assert (2 ^ wb <= 2 ^ 16) as Hp16 by (apply Z.pow_le_mono_r; lia).
  change (2 ^ 16) with 65536 in Hp16. change LZ77_TYPE_BITS with 1.
  rewrite Z.lor_0_r, Z.shiftl_1_l.
  rewrite (u64_small (2 ^ wb)) by (change (2 ^ 64) with 18446744073709551616; lia).
  rewrite Z.shiftl_mul_pow2 by lia. change (2 ^ 6) with 64.
  rewrite u64_small by (change (2 ^ 64) with 18446744073709551616; lia).
  rewrite u16_small by (change (2 ^ 16) with 65536; lia).
  rewrite u32_small by (change (2 ^ 32) with 4294967296; lia).
  repeat split. lia.
Qed.

(** ** The round trip *)

(** What [lz77_compress] returns from memory to memory is decompressed to
    the input. *)
Lemma compress_memory_decodes (s : list Z) (w l n : Z) (bytes : list Z) :
  4 <= w <= 65534 -> 2 <= l <= w -> l <= 1030 ->
  bytes_ok s -> Z.of_nat (length s) <= 2 ^ 31 ->
  (Z.of_nat (length s) mod 65536 = 0 -> s = []) ->
  compress_memory s w l = Ret (n, bytes) ->
  8 * n + 16 <= 2 ^ 31 ->
  n = Z.of_nat (length bytes)
  /\ decompress_memory bytes n = Ret (Z.of_nat (length s), s).
Proof.
  intros Hw Hl Hl1030 Hsb Hs31 Hmult Hcomp Hn31.
  change (2 ^ 31) with 2147483648 in *.
  (* the two streams of the compression *)
  unfold compress_memory in Hcomp.
  destruct (lz77_ustream_from_memory (Some s) (Z.of_nat (length s)) w l true heap_limit)
    as [u0| |] eqn:E0; try discriminate Hcomp.
  destruct (lz77_cstream_to_memory (Some u0) true 0 1 true heap_limit)
    as [cw| |] eqn:Ew; try discriminate Hcomp.
  destruct (lz77_compress u0 cw) as [[[n0 uf] cf]|] eqn:Ec; [|discriminate Hcomp].
  cbn [bind] in Hcomp. injection Hcomp as -> <-.
  assert (fresh_writer cw) as Hfresh.
  { exists u0, heap_limit. left. exists true, 0, 1. exact Ew. }
  pose proof E0 as E0'. unfold lz77_ustream_from_memory in E0'. cbv zeta in E0'.
  rewrite (u16_small w), (u16_small l) in E0' by (change (2 ^ 16) with 65536; lia).
  destruct (Z.ltb_spec w LZ77_MIN_WINDOW_SIZE) as [C|_];
    [unfold LZ77_MIN_WINDOW_SIZE in C; lia|].
  destruct (Z.ltb_spec l LZ77_MIN_LOOKAHEAD_SIZE) as [C|_];
    [unfold LZ77_MIN_LOOKAHEAD_SIZE in C; lia|].
  cbn [negb] in E0'.
  rewrite (u16_small w), (u16_small l) in E0' by (change (2 ^ 16) with 65536; lia).
  rewrite (u32_small (Z.of_nat (length s))) in E0'
    by (change (2 ^ 32) with 4294967296; lia).
  injection E0' as E0'.
  assert (us_fd u0 = -1 /\ us_data u0 = s /\ us_size u0 = Z.of_nat (length s)
          /\ us_end u0 = Z.of_nat (length s) /\ us_is_input u0 = 1
          /\ us_window_maxsize u0 = w /\ us_lookahead_maxsize u0 = l
          /\ us_window_nbits u0 = u8 (number_of_bits (w - 1))
          /\ us_lookahead u0 = 0 /\ us_window_currsize u0 = 0)
    as (F1 & F2 & F3 & F4 & F5 & F6 & F7 & F8 & F9 & F10)
      by (rewrite <- E0'; repeat split).
  clear E0'.
  pose proof Ew as Ew'. unfold lz77_cstream_to_memory in Ew'. cbn [negb] in Ew'.
  injection Ew' as Ew'.
  assert (cs_fd cw = -1 /\ cs_can_realloc cw = 1 /\ cs_heap cw = heap_limit
          /\ cs_window_maxsize cw = w /\ cs_lookahead_maxsize cw = l)
    as (G1 & G2 & G3 & G4 & G5).
  { rewrite <- Ew'. cs_simpl. rewrite F6, F7. repeat split. }
  clear Ew'.
  set (wb := u8 (number_of_bits (w - 1))) in *.
  destruct (window_bits_fit w ltac:(lia)) as (Hwb & Hwfit). fold wb in Hwb, Hwfit.
  set (enc := tinyhuff_init (Z.quot (LZ77_TYPE_BITS + wb + LZ77_TINYHUFF_MIN_CODE_BITS)
                               LZ77_SYMBOL_BITS + 1) l).
  pose proof (encoder_good wb l Hwb ltac:(lia)) as Hgood. fold enc in Hgood.
  (* the steps of [lz77_compress] *)
  unfold lz77_compress in Ec.
  destruct (ustream_open u0 cw) as [u1|] eqn:Eo; [|discriminate Ec]. cbn [bind] in Ec.
  destruct (cstream_open cw) as [[r1 c1]|] eqn:Eco; [|discriminate Ec]. cbn [bind] in Ec.
  assert (r1 = 0) as ->.
  { destruct (Z.ltb_spec r1 0) as [C|C]; [discriminate Ec|].
    unfold cstream_open in Eco. inv_ret Eco.
    rewrite (proj1 (fresh_writer_fields cw Hfresh)) in Eco. cbn [Z.eqb negb] in Eco.
    inv_ret Eco. destruct (fst _ <? 0) in Eco; injection Eco as <- _; [lia|reflexivity]. }
  cbn [Z.ltb Z.compare] in Ec. cbv zeta in Ec.
  destruct (compress_loop _ u1 c1 0 0 0) as [[u2 c2]|] eqn:El; [|discriminate Ec].
  cbn [bind] in Ec.
  (* the input stream after [ustream_open] *)
  assert ((us_is_input u0 =? 0) = false) as Hin0 by (rewrite F5; reflexivity).
  destruct (ustream_open_input_fields u0 cw u1 Hin0 ltac:(lia) Eo)
    as (O1 & O2 & O3 & O4 & O5).
  destruct (ustream_open_input_state u0 cw u1 Hin0 Eo) as (O6 & O7 & O8 & O9 & O10 & _).
  destruct (opened_compressing s (Z.of_nat (length s)) w l heap_limit cw u0 u1 Hw E0 Eo)
    as (Hc1 & _).
  rewrite F8 in O3, O5. rewrite F7 in O4, O5. fold enc in O5.
  assert (feeding s w wb enc u1) as Hf1.
  { unfold feeding. split; [exact Hc1|]. split.
    - unfold lookahead_ok. rewrite O4, O9, F9, O2, F4, F3.
      pose proof (Z.mod_pos_bound (Z.of_nat (length s)) (2 ^ 16) ltac:(lia)) as Hm.
      pose proof (Z.mod_le (Z.of_nat (length s)) (2 ^ 16) ltac:(lia) ltac:(lia)) as Hm'.
      unfold u16. change (2 ^ 16) with 65536 in *. lia.
    - split; [congruence|]. split; [congruence|]. split; [congruence|].
      split; [exact O3|]. split; [exact O5|].
      rewrite O4, O9, F9, O2, F4, F3. intros Hz.
      assert (Z.of_nat (length s) mod 65536 = 0) as Hz'.
      { unfold u16 in Hz. change (2 ^ 16) with 65536 in Hz.
        pose proof (Z.mod_pos_bound (Z.of_nat (length s)) 65536 ltac:(lia)). lia. }
      rewrite (Hmult Hz'). reflexivity. }
  (* the writer after [cstream_open] *)
  destruct (writer_opened cw c1 Hfresh ltac:(rewrite G3; lia) ltac:(lia)
              ltac:(rewrite G4; lia) ltac:(rewrite G5; lia) Eco)
    as (Hwr1 & Hmw1 & Hsame1 & Hout1 & Hlen1).
  rewrite G4, G5 in Hout1.
  (* the loop *)
  destruct (compress_loop_decodes s w wb enc Hsb Hs31 ltac:(lia) Hwfit Hgood
              _ _ _ _ _ _ _ _ El Hf1 Hwr1 Hmw1)
    as (Hf2 & Hz2 & Hwr2 & Hmw2 & Hsame2 & Hle2 & Hold2 & Hsim).
  pose proof Hf2 as (Hc2 & _ & D2 & E2 & W2 & WB2 & ENC2 & J2).
  (* the terminating token *)
  rewrite ENC2, O3 in Ec.
  destruct (encode_zero enc Hgood) as (_ & Ez). rewrite Ez in Ec. cbn [bind] in Ec.
  destruct (terminator_value wb ltac:(lia)) as (Ev & Et & Es).
  rewrite Ev, Et, Es in Ec.
  destruct (cstream_write_bits c2 _ _ _) as [[r3 c3]|] eqn:Ewb; [|discriminate Ec].
  cbn [bind] in Ec.
  assert (r3 = 0) as ->.
  { destruct (cstream_write_bits_result _ _ _ _ _ _ Ewb) as [E|E]; [exact E|].
    subst r3. discriminate Ec. }
  cbn [Z.ltb Z.compare] in Ec.
  destruct (ustream_close u2) as [u3|] eqn:Euc; [|discriminate Ec]. cbn [bind] in Ec.
  destruct (cstream_close c3) as [[r4 c4]|] eqn:Ecc; [|discriminate Ec]. cbn [bind] in Ec.
  injection Ec as <- _ <-.
  assert (0 < 2 ^ wb) as Hpw by (apply Z.pow_pos_nonneg; lia).
  assert (0 <= 0 < 2 ^ wb) as Hoff0 by lia.
  assert (0 <= 0 < 2 ^ 6) as Hcd0 by (cbn; lia).
  destruct (phrase_token_fields c2 c3 (cs_data c4) wb 0 6 0 Hwr2 ltac:(lia) Hoff0 ltac:(lia)
              Hcd0 Ewb) as (Hwr3 & Hsame3 & Hlen3 & Hold3 & Hfields).
  pose proof (cstream_write_bits_mem _ _ _ _ _ Hmw2 Ewb) as Hmw3.
  (* closing the writer *)
  destruct Hwr3 as (Hok3 & Hcache3 & Hbytes3).
  assert (growable c3) as Hg3.
  { unfold growable. destruct Hsame1 as (_ & A & _). destruct Hsame2 as (_ & B & _).
    destruct Hsame3 as (_ & C & _). rewrite C, B, A, G2. discriminate. }
  destruct (cstream_close_bits c3 r4 c4 Hok3 Hcache3 Hbytes3 Hg3 Ecc)
    as (_ & Hb4 & Hlen4 & Hbits4 & Hpad4 & Hcn4 & Hmem4).
  destruct Hmw3 as (Hfd3 & Hfile3 & Hpb3).
  destruct (Hmem4 Hfd3) as (Hd4 & Hf4 & Hpb4).
  assert (output c4 = cs_data c4) as Hout4 by (unfold output; rewrite Hf4, Hfile3; reflexivity).
  rewrite Hout4 in *.
  pose proof (written_nonneg c3 Hcache3) as Hw3.
  pose proof (written_nonneg c2 (proj1 (proj2 Hwr2))) as Hw2.
  assert (lz77_cstream_get_processed_bits c4 = 8 * Z.of_nat (length (cs_data c4))) as Hgp.
  { unfold lz77_cstream_get_processed_bits. rewrite Hcn4, Z.add_0_r, Hpb4, Hpb3.
    destruct Hok3 as (Hend3 & Hsz3 & _). rewrite Hend3.
    rewrite Hd4, length_app, be64_bytes_length.
    assert (0 <= (cs_cached_nbits c3 + 7) / 8 <= 8) as Hnb.
    { destruct Hcache3 as (Hc & _). Z.div_mod_to_equations. lia. }
    change (2 ^ 32) with 4294967296 in Hsz3.
    destruct (Z.ltb_spec 0 (cs_cached_nbits c3)) as [L|L].
    - rewrite (u64_small (8 * Z.of_nat (length (cs_data c3))
                          + (cs_cached_nbits c3 + 7) / 8 * 8))
        by (change (2 ^ 64) with 18446744073709551616; lia).
      rewrite u64_small by (change (2 ^ 64) with 18446744073709551616; lia). lia.
    - assert ((cs_cached_nbits c3 + 7) / 8 = 0) as ->
          by (destruct Hcache3 as (Hc & _); Z.div_mod_to_equations; lia).
      rewrite u64_small by (change (2 ^ 64) with 18446744073709551616; lia). lia. }
  assert ((lz77_cstream_get_processed_bits c4 + 7) / 8 = Z.of_nat (length (cs_data c4)))
    as Hn.
  { rewrite Hgp. Z.div_mod_to_equations. lia. }
  split; [exact Hn|].
  rewrite Hn in *. set (bytes := cs_data c4) in *.
  set (n := Z.of_nat (length bytes)) in *.
  (* the bytes start with the header *)
  assert (exists rest, bytes = header_bytes w l ++ rest) as (rest & Hhead).
  { assert (extends c1 c4) as (extra & Hext).
    { destruct Hwr1 as (Hok1 & (Hcn1 & _) & _).
      destruct (compress_loop_output _ _ _ _ _ _ _ _ El Hok1 Hcn1) as (Hok2' & X12 & Hcn2').
      destruct (cstream_write_bits_output _ _ _ _ _ _ Hok2' Hcn2' Ewb) as (Hok3' & X23 & Hcn3').
      pose proof (cstream_close_output _ _ _ Hok3' Hcn3' Ecc) as X34.
      eapply extends_trans; [exact X12|]. eapply extends_trans; [exact X23|exact X34]. }
    rewrite Hout4, Hout1 in Hext. exists extra. exact Hext. }
  assert (96 <= 8 * n) as Hn96.
  { subst n. rewrite Hhead, length_app, header_bytes_length. lia. }
  (* the reader *)
  unfold decompress_memory.
  assert (n < 2 ^ 32) as Hn32 by (change (2 ^ 32) with 4294967296; lia).
  destruct (lz77_cstream_from_memory (Some bytes) n true heap_limit) as [c0| |] eqn:Er;
    try discriminate Er.
  destruct (from_memory_reader bytes n heap_limit c0 Hb4 eq_refl Hn32 Er) as (Hmr & Hdata0).
  pose proof Hmr as (Hfd0 & Hin0' & Hpos0 & Hend0 & Hw0' & Hl0' & Hok0).
  destruct (cstream_open_header c0 w l rest Hmr ltac:(rewrite Hdata0; exact Hhead)
              ltac:(lia) ltac:(lia)) as (Hopen & _).
  specialize (Hopen ltac:(lia)).
  set (cr := set_cs_params (consumed c0 96) w l) in *.
  assert (cs_end cr = 8 * n /\ cs_file cr = cs_file c0 /\ cs_window_maxsize cr = w
          /\ cs_lookahead_maxsize cr = l) as (Hendr & Hfiler & Hwr & Hlr).
  { subst cr. unfold consumed. cs_simpl. rewrite Hend0, Hdata0. repeat split. }
  assert (cs_file c0 = []) as Hfile0.
  { unfold lz77_cstream_from_memory in Er. cbn [negb] in Er. injection Er as <-. reflexivity. }
  assert (cs_cached_nbits c0 = 0) as Hcn0.
  { unfold lz77_cstream_from_memory in Er. cbn [negb] in Er. injection Er as <-. reflexivity. }
  assert (reader_at bytes 96 cr) as Hrat.
  { subst cr. unfold reader_at, reading, consumed. cs_simpl.
    rewrite Hpos0, Hend0, Hdata0. rewrite u64_small by (change (2 ^ 64) with 18446744073709551616; lia).
    fold n. repeat split; try assumption; try lia. }
  (* the output stream *)
  destruct (ustream_open_output_fields cr w l Hwr Hlr ltac:(lia) ltac:(lia))
    as (d0 & Ed0 & d1 & Eo1 & Q1 & Q2 & Q3 & Q4 & Q5 & Q6 & Q7 & Q8 & Q9 & Q10 & Q11 & Q12).
  fold wb in Q9, Q10. fold enc in Q10.
  rewrite Ed0. unfold lz77_decompress. rewrite Hopen. cbn [bind Z.ltb Z.compare].
  rewrite Eo1. cbn [bind].
  assert (decoding s w wb enc (us_lookahead u1) (us_window_currsize u1) d1) as Hd1.
  { rewrite O9, F9, O8, F10. unfold decoding, saving.
    rewrite Q1, Q2, Q3, Q4, Q5, Q6, Q7, Q8, Q9, Q10, Q11, Q12. cbn [Z.to_nat firstn length].
    unfold heap_limit. change (2 ^ 32) with 4294967296.
    repeat split; try lia; try reflexivity; try discriminate. }
  (* the tokens *)
  assert (holds bytes c3) as Hh3 by (intros q Hq; apply Hbits4; exact Hq).
  assert (holds bytes c2) as Hh2.
  { intros q Hq. rewrite Hh3 by lia. apply Hold3. exact Hq. }
  assert (written c3 <= 8 * n) as Hw3n.
  { subst n. rewrite Hlen4. Z.div_mod_to_equations. lia. }
  rewrite <- Hlen1 in Hrat.
  destruct (Hsim bytes cr d1 Hh2 Hrat ltac:(lia) Hd1)
    as (T & r' & d' & Hsteps & Hr' & He' & Hd' & HT).
  destruct (Hfields Hh3) as (Hflag & Hfoff & Hfcode).
  destruct Hd' as (Hsav' & Hdd' & Hde' & Hlar' & Hdws' & Hdw' & Hdwb' & Hdenc' & Hdpb').
  destruct (decode_end_step bytes wb enc (written c2) r' d' Hr' ltac:(lia) Hgood
              ltac:(lia) Hflag Hfoff Hfcode Hdwb' Hdenc') as (r'' & Hend' & Hr'').
  set (fuel := S (Z.to_nat (cs_end cr) + 8 * length (cs_file cr))).
  assert (exists k, fuel = (T + S k)%nat) as (k & ->).
  { exists (fuel - T - 1)%nat. subst fuel. rewrite Hendr. lia. }
  rewrite Hsteps, Hend'. cbn [bind].
  (* closing *)
  destruct Hr'' as ((Hfd'' & _) & _ & _ & Hcn'').
  unfold cstream_close. rewrite Hcn''. cbn [Z.ltb Z.compare bind].
  destruct (Z.leb_spec 0 (cs_fd r'')) as [C|_]; [lia|]. cbn [andb bind].
  destruct Hsav' as (Hfdd & _).
  unfold ustream_close.
  destruct (Z.leb_spec 0 (us_fd d')) as [C|_]; [lia|]. cbn [andb bind].
  rewrite Hdpb', Hdd'.
  rewrite (J2 Hz2), E2. rewrite Nat2Z.id, firstn_all. reflexivity.
Qed.

(** X21: the round trip, where it holds.  Let [lz77_compress] read
    the bytes [s] from a memory buffer with window size [4 <= w <= 65534]
    and look-ahead size [2 <= l <= w], [l <= 1030], write into a memory
    stream that may be reallocated, and return [n] (not -1, and without
    stopping at an assertion).  If [s] has at most [2 ^ 31] bytes and its
    length is not a positive multiple of 65536, and the [n] bytes of
    output stay below [2 ^ 31 - 16] bits, then [n] is the number of bytes
    of the output, and [lz77_decompress] from these [n] bytes into a
    memory stream that may be reallocated returns the length of [s] and
    leaves exactly the bytes [s] in the output buffer. *)
Theorem lz77_round_trip (s : list Z) (w l n : Z) (bytes : list Z) :
  4 <= w <= 65534 -> 2 <= l <= w -> l <= 1030 ->
  bytes_ok s -> Z.of_nat (length s) <= 2 ^ 31 ->
  (Z.of_nat (length s) mod 65536 = 0 -> s = []) ->
  compress_memory s w l = Ret (n, bytes) ->
  8 * n + 16 <= 2 ^ 31 ->
  n = Z.of_nat (length bytes)
  /\ decompress_memory bytes n = Ret (Z.of_nat (length s), s).
Proof.
  exact (compress_memory_decodes s w l n bytes).
Qed.

Lemma lz77_round_trip_witness :
  17 = Z.of_nat (length [76; 90; 55; 55; 16; 0; 0; 0; 0; 8; 0; 8; 32; 192; 63; 96; 0])
  /\ decompress_memory [76; 90; 55; 55; 16; 0; 0; 0; 0; 8; 0; 8; 32; 192; 63; 96; 0] 17
     = Ret (Z.of_nat (length (repeat 65 12)), repeat 65 12).
Proof.
  apply (lz77_round_trip (repeat 65 12) 8 8 17
           [76; 90; 55; 55; 16; 0; 0; 0; 0; 8; 0; 8; 32; 192; 63; 96; 0]).
  - lia.
  - lia.
  - lia.
  - apply Forall_forall. intros x Hx. apply repeat_spec in Hx. lia.
  - cbn. lia.
  - intros H. vm_compute in H. discriminate H.
  - vm_compute. reflexivity.
  - lia.
Defined.

(** ** Tokens of 31 bits and more *)

(** X22: a phrase token can need 31 bits or more, and then
    [cstream_write_bits] computes [1 << nbits] in [int], which is
    undefined.  With a window of more than 32768 bytes (16 offset bits), a
    length encoder whose [max_value] exceeds [max_encoded_value] by 128 or
    more (so [diff_nbits >= 8]) and a match of [max_encoded_value] bytes or
    more, the token [lz77_compress] builds has [1 + 16 + 6 + diff_nbits >=
    31] bits, and writing it to a writer whose cache has room for it is
    undefined behaviour. *)
Theorem wide_token_undefined (u : lz77_ustream) (c : lz77_cstream)
  (mn mx offset len next : Z) :
  us_window_nbits u = 16 -> us_length_encoder u = tinyhuff_init mn mx ->
  1 <= mn -> mn + 6 < 65536 -> 0 <= mx < 65536 -> mn + 6 + 128 <= mx ->
  mn + 6 <= len <= mx ->
  cs_is_input c = 0 -> 0 <= cs_cached_nbits c <= 25 ->
  exists token tbits,
    make_token u offset len next = Ret (token, tbits)
    /\ 31 <= tbits <= 39
    /\ cstream_write_bits c token (u16 (64 - tbits)) tbits = Stop Undefined.
Proof.
  intros Hwb Henc Hmn Hmn6 Hmx Hwide Hlen Hin Hcn.
  destruct (tinyhuff_init_fields mn mx Hmn Hmn6 Hmx) as (_ & _ & _ & Hd & _).
  cbv zeta in Hd. destruct (Hd ltac:(lia)) as (Hdr & Hdm).
  assert (8 <= diff_nbits (tinyhuff_init mn mx)) as Hd8.
  { destruct (Z_lt_le_dec (diff_nbits (tinyhuff_init mn mx)) 8) as [L|L]; [|exact L].
    assert (2 ^ diff_nbits (tinyhuff_init mn mx) <= 2 ^ 7) by (apply Z.pow_le_mono_r; lia).
    change (2 ^ 7) with 128 in *. lia. }
  assert (tinyhuff_can_encode (tinyhuff_init mn mx) len = true) as Hcan.
  { destruct (tinyhuff_init_fields mn mx Hmn Hmn6 Hmx) as (Emin & Emax & _).
    cbv zeta in Emin, Emax. unfold tinyhuff_can_encode. rewrite Emin, Emax.
    apply orb_true_iff. right. apply andb_true_iff. split; apply Z.leb_le; lia. }
  destruct (tinyhuff_encode_returns mn mx len Hmn Hmn6 Hmx Hcan)
    as (nb & cd & Eenc & _ & _ & Hnb).
  specialize (Hnb ltac:(lia)).
  exists (u64 (Z.lor (Z.shiftl (u64 (Z.lor (Z.shiftl 1 16) offset)) nb) cd)),
         (1 + 16 + nb).
  split.
  { unfold make_token. destruct (Z.eqb_spec len 0) as [C|_]; [lia|].
    cbv zeta. unfold negb. rewrite Henc, Eenc, Hwb. unfold bind.
    change LZ77_TYPE_BITS with 1.
    rewrite u16_small by (change (2 ^ 16) with 65536; lia). reflexivity. }
  split; [lia|].
  unfold cstream_write_bits.
  rewrite u16_small by (change (2 ^ 16) with 65536; lia).
  destruct (Z.leb_spec (64 - (1 + 16 + nb) + (1 + 16 + nb)) 64) as [_|C]; [|lia].
  unfold assert at 1. unfold bind at 1.
  rewrite Hin. unfold assert at 1. unfold bind at 1. change (0 =? 0) with true. cbv iota.
  unfold cstream_flush_cache.
  destruct (Z.ltb_spec 64 (cs_cached_nbits c + (1 + 16 + nb))) as [C|_]; [lia|].
  unfold bind at 1. cbv zeta. unfold fst, snd.
  destruct (Z.leb_spec 0 (64 - (64 - (1 + 16 + nb)) - (1 + 16 + nb))) as [_|C]; [|lia].
  destruct (Z.ltb_spec (64 - (64 - (1 + 16 + nb)) - (1 + 16 + nb)) 64) as [_|C]; [|lia].
  unfold andb at 1. unfold defined at 1. unfold bind at 1.
  destruct (Z.leb_spec 0 (1 + 16 + nb)) as [_|C]; [|lia].
  destruct (Z.ltb_spec (1 + 16 + nb) 31) as [C|_]; [lia|].
  reflexivity.
Qed.

Lemma wide_token_undefined_witness :
  exists token tbits,
    make_token wide_stream 5 150 0 = Ret (token, tbits)
    /\ 31 <= tbits <= 39
    /\ cstream_write_bits (sample_cstream 40000 200) token (u16 (64 - tbits)) tbits
       = Stop Undefined.
Proof.
  apply (wide_token_undefined wide_stream (sample_cstream 40000 200) 3 200 5 150 0);
    try reflexivity; cbn; lia.
Defined.

(** ** The tree array of a stream read from a descriptor *)

(** When the data buffer of a stream read from a descriptor is refilled,
    the window moves back to the beginning of the buffer, and the slots of
    the tree array move with it. *)

Lemma mod_step (a b : Z) : 0 < b -> (a + b) mod b = a mod b.
Proof.
  intros Hb. replace (a + b) with (a + 1 * b) by lia. apply Z_mod_plus_full.
Qed.

Lemma mod_zero_next (a e b : Z) :
  0 < b -> a mod b = 0 -> e mod b = 0 -> a < e -> a + b <= e.
Proof.
  intros Hb Ha He Hlt.
  apply Z.mod_divide in Ha; [|lia]. apply Z.mod_divide in He; [|lia].
  destruct Ha as [k ->]. destruct He as [k' ->].
  assert (k < k') by nia. nia.
Qed.

Lemma mod_zero_small (a b : Z) : 0 <= a < b -> a mod b = 0 -> a = 0.
Proof. intros Ha H. rewrite Z.mod_small in H by lia. exact H. Qed.

(** The inner loop moves every [shift]-th slot from [i] on one step to the
    left and stops at the last one. *)
Lemma rotate_chain_moves (fuel : nat) :
  forall (v : list lz77_tree) (base size shift i : Z),
    0 < shift -> 0 <= base -> 0 <= i < size ->
    base + size <= Z.of_nat (length v) ->
    size - i < Z.of_nat fuel ->
    exists v' e,
      rotate_chain fuel v base size shift i = Ret (v', e)
      /\ length v' = length v
      /\ i <= e < size /\ size <= e + shift /\ (e - i) mod shift = 0
      /\ forall p, node v' p =
           if (base + i <=? p) && (p <? base + e) && ((p - base - i) mod shift =? 0)
           then node v (p + shift) else node v p.
Proof.
  induction fuel as [|fuel IH]; intros v base size shift i Hs Hb Hi Hlen Hf; [lia|].
  cbn [rotate_chain]. destruct (i + shift <? size) eqn:E.
  - apply Z.ltb_lt in E.
    destruct (rd v (base + i + shift)) as [a|] eqn:Ea;
      [|rewrite rd_ok with (d := raw_slot) in Ea by lia; discriminate].
    apply rd_node in Ea. destruct Ea as [_ ->]. cbn [bind].
    destruct (wr v (base + i) (node v (base + i + shift))) as [v1|] eqn:Ew;
      [|unfold wr in Ew;
        replace ((0 <=? base + i) && (base + i <? Z.of_nat (length v))) with true in Ew
          by (symmetry; apply andb_true_intro; split; [apply Z.leb_le|apply Z.ltb_lt]; lia);
        discriminate].
    apply wr_node in Ew. destruct Ew as (_ & Hl1 & Hn1). cbn [bind].
    destruct (IH v1 base size shift (i + shift)) as (v' & e & R & Hl & He & Hse & Hm & Hn);
      try lia.
    exists v', e. split; [exact R|]. split; [congruence|].
    split; [lia|]. split; [lia|].
    assert (Hm' : (e - i) mod shift = 0).
    { replace (e - i) with (e - (i + shift) + shift) by lia.
      rewrite mod_step by lia. exact Hm. }
    split; [exact Hm'|].
    intros p. rewrite Hn.
    assert (Hr : (p - base - (i + shift)) mod shift = (p - base - i) mod shift).
    { rewrite <- (mod_step (p - base - (i + shift)) shift) by lia. f_equal. lia. }
    rewrite Hr.
    destruct ((p - base - i) mod shift =? 0) eqn:Em.
    + apply Z.eqb_eq in Em.
      destruct (Z_lt_dec p (base + e)) as [Hpe|Hpe];
        [|replace (p <? base + e) with false by (symmetry; apply Z.ltb_ge; lia);
          rewrite !andb_false_r; cbn [andb];
          rewrite Hn1; destruct (Z.eqb_spec p (base + i)); [lia|reflexivity]].
      replace (p <? base + e) with true by (symmetry; apply Z.ltb_lt; lia).
      rewrite !andb_true_r.
      destruct (Z_le_dec (base + (i + shift)) p) as [H1|H1].
      * replace (base + (i + shift) <=? p) with true by (symmetry; apply Z.leb_le; lia).
        replace (base + i <=? p) with true by (symmetry; apply Z.leb_le; lia).
        rewrite Hn1. destruct (Z.eqb_spec (p + shift) (base + i)); [lia|reflexivity].
      * replace (base + (i + shift) <=? p) with false by (symmetry; apply Z.leb_gt; lia).
        rewrite Hn1.
        destruct (Z.eqb_spec p (base + i)) as [->|N].
        -- replace (base + i <=? base + i) with true by (symmetry; apply Z.leb_le; lia).
           f_equal; lia.
        -- destruct (Z_le_dec (base + i) p) as [H2|H2];
             [|replace (base + i <=? p) with false by (symmetry; apply Z.leb_gt; lia);
               reflexivity].
           exfalso. apply N.
           assert (p - base - i = 0) by (apply (mod_zero_small _ shift); [lia|exact Em]).
           lia.
    + rewrite !andb_false_r. rewrite Hn1.
      destruct (Z.eqb_spec p (base + i)) as [->|N]; [|reflexivity].
      replace (base + i - base - i) with 0 in Em by lia.
      rewrite Z.mod_0_l in Em by lia. discriminate.
  - apply Z.ltb_ge in E. exists v, i. split; [reflexivity|]. split; [reflexivity|].
    split; [lia|]. split; [lia|].
    split; [replace (i - i) with 0 by lia; apply Z.mod_0_l; lia|].
    intros p.
    replace ((base + i <=? p) && (p <? base + i)) with false; [reflexivity|].
    symmetry. destruct (Z.leb_spec (base + i) p); [|reflexivity].
    cbn [andb]. apply Z.ltb_ge. lia.
Qed.

(** What one turn of the outer loop does to the slots whose index is
    [offset] modulo [shift]. *)
Lemma rotate_one_offset (v : list lz77_tree) (base size shift o : Z) :
  0 <= base -> 0 <= o < shift -> shift < size ->
  base + size <= Z.of_nat (length v) ->
  exists v',
    rotate_offsets 1 v base size shift o = Ret v'
    /\ length v' = length v
    /\ forall p, node v' p =
         if (base <=? p) && (p <? base + size) && ((p - base) mod shift =? o)
         then (if p - base + shift <? size then node v (p + shift) else node v (base + o))
         else node v p.
Proof.
  intros Hb Ho Hs Hlen. cbn [rotate_offsets].
  destruct (rd v (base + o)) as [a|] eqn:Ea;
    [|rewrite rd_ok with (d := raw_slot) in Ea by lia; discriminate].
  apply rd_node in Ea. destruct Ea as [_ ->]. cbn [bind].
  destruct (rotate_chain_moves (S (Z.to_nat size)) v base size shift o)
    as (v1 & e & R & Hl1 & He & Hse & Hm & Hn1); try lia.
  rewrite R. cbn [bind].
  destruct (wr v1 (base + e) (node v (base + o))) as [v2|] eqn:Ew;
    [|unfold wr in Ew;
      replace ((0 <=? base + e) && (base + e <? Z.of_nat (length v1))) with true in Ew
        by (symmetry; apply andb_true_intro; split; [apply Z.leb_le|apply Z.ltb_lt]; lia);
      discriminate].
  apply wr_node in Ew. destruct Ew as (_ & Hl2 & Hn2). cbn [bind].
  exists v2. split; [reflexivity|]. split; [congruence|].
  assert (Heo : e mod shift = o).
  { replace e with (e - o + o) by lia. rewrite <- Zplus_mod_idemp_l, Hm.
    apply Z.mod_small. lia. }
  intros p. rewrite Hn2.
  destruct (Z.eqb_spec p (base + e)) as [->|N].
  - replace (base <=? base + e) with true by (symmetry; apply Z.leb_le; lia).
    replace (base + e <? base + size) with true by (symmetry; apply Z.ltb_lt; lia).
    replace (base + e - base) with e by lia.
    rewrite Heo, Z.eqb_refl. cbn [andb].
    replace (e + shift <? size) with false by (symmetry; apply Z.ltb_ge; lia).
    reflexivity.
  - rewrite Hn1.
    assert (Hres : forall q, 0 <= q -> (q mod shift = o <-> (q - o) mod shift = 0)).
    { intros q Hq. split; intros H.
      - rewrite Zminus_mod, H, (Z.mod_small o shift), Z.sub_diag by lia.
        apply Z.mod_0_l. lia.
      - replace q with (q - o + o) by lia. rewrite <- Zplus_mod_idemp_l, H.
        apply Z.mod_small. lia. }
    destruct (Z_le_dec base p) as [H1|H1];
      [|replace (base <=? p) with false by (symmetry; apply Z.leb_gt; lia);
        replace (base + o <=? p) with false by (symmetry; apply Z.leb_gt; lia);
        reflexivity].
    replace (base <=? p) with true by (symmetry; apply Z.leb_le; lia).
    destruct (Z.eqb_spec ((p - base) mod shift) o) as [Hr|Hr].
    + assert (Hz : (p - base - o) mod shift = 0) by (apply Hres; [lia|exact Hr]).
      rewrite Hz. cbn [Z.eqb]. rewrite andb_true_r.
      assert (Hge : o <= p - base).
      { pose proof (Z.div_mod (p - base) shift ltac:(lia)) as D.
        pose proof (Z.div_pos (p - base) shift ltac:(lia) ltac:(lia)). nia. }
      replace (base + o <=? p) with true by (symmetry; apply Z.leb_le; lia).
      cbn [andb].
      destruct (Z_lt_dec p (base + e)) as [H2|H2].
      * replace (p <? base + e) with true by (symmetry; apply Z.ltb_lt; lia).
        replace (p <? base + size) with true by (symmetry; apply Z.ltb_lt; lia).
        assert (p - base - o + shift <= e - o)
          by (apply mod_zero_next; [lia|exact Hz|exact Hm|lia]).
        replace (p - base + shift <? size) with true by (symmetry; apply Z.ltb_lt; lia).
        reflexivity.
      * replace (p <? base + e) with false by (symmetry; apply Z.ltb_ge; lia).
        assert (e - o + shift <= p - base - o)
          by (apply mod_zero_next; [lia|exact Hm|exact Hz|lia]).
        replace (p <? base + size) with false by (symmetry; apply Z.ltb_ge; lia).
        reflexivity.
    + rewrite andb_false_r.
      destruct ((p - base - o) mod shift =? 0) eqn:Ez; [|rewrite andb_false_r; reflexivity].
      apply Z.eqb_eq in Ez.
      destruct (Z_le_dec (base + o) p) as [H2|H2];
        [|replace (base + o <=? p) with false by (symmetry; apply Z.leb_gt; lia);
          reflexivity].
      exfalso. apply Hr. apply Hres; [lia|exact Ez].
Qed.

Lemma rotate_offsets_S (n : nat) (v : list lz77_tree) (base size shift o : Z) :
  rotate_offsets (S n) v base size shift o =
  (v1 <- rotate_offsets 1 v base size shift o ;;
   rotate_offsets n v1 base size shift (o + 1)).
Proof.
  cbn [rotate_offsets].
  destruct (rd v (base + o)) as [a|]; [|reflexivity]. cbn [bind].
  destruct (rotate_chain (S (Z.to_nat size)) v base size shift o) as [[v1 i]|];
    [|reflexivity].
  cbn [bind]. destruct (wr v1 (base + i) a); reflexivity.
Qed.

(** The outer loop, [n] turns from [o] on. *)
Lemma rotate_offsets_moves (n : nat) :
  forall (v : list lz77_tree) (base size shift o : Z),
    0 <= base -> 0 <= o -> o + Z.of_nat n <= shift -> shift < size ->
    base + size <= Z.of_nat (length v) ->
    exists v',
      rotate_offsets n v base size shift o = Ret v'
      /\ length v' = length v
      /\ forall p, node v' p =
           if (base <=? p) && (p <? base + size)
              && ((o <=? (p - base) mod shift) && ((p - base) mod shift <? o + Z.of_nat n))
           then (if p - base + shift <? size then node v (p + shift)
                 else node v (base + (p - base) mod shift))
           else node v p.
Proof.
  induction n as [|n IH]; intros v base size shift o Hb Ho Hn Hs Hlen.
  - exists v. split; [reflexivity|]. split; [reflexivity|]. intros p.
    replace ((o <=? (p - base) mod shift) && ((p - base) mod shift <? o + Z.of_nat 0))
      with false; [rewrite andb_false_r; reflexivity|].
    symmetry. destruct (Z.leb_spec o ((p - base) mod shift)); [|reflexivity].
    cbn [andb]. apply Z.ltb_ge. lia.
  - rewrite rotate_offsets_S.
    destruct (rotate_one_offset v base size shift o) as (v1 & R1 & Hl1 & Hn1); try lia.
    rewrite R1. cbn [bind].
    destruct (IH v1 base size shift (o + 1)) as (v' & R & Hl & Hn'); try lia.
    exists v'. split; [exact R|]. split; [congruence|].
    intros p. rewrite Hn'.
    set (r := (p - base) mod shift).
    destruct ((base <=? p) && (p <? base + size)) eqn:Er.
    + apply andb_prop in Er. destruct Er as [E1 E2].
      apply Z.leb_le in E1. apply Z.ltb_lt in E2.
      assert (Hr : 0 <= r < shift) by (apply Z.mod_pos_bound; lia).
      cbn [andb].
      destruct (Z_lt_dec r o) as [C1|C1];
        [|destruct (Z.eq_dec r o) as [C2|C2];
          [|destruct (Z_lt_dec r (o + Z.of_nat (S n))) as [C3|C3]]].
      * replace (o + 1 <=? r) with false by (symmetry; apply Z.leb_gt; lia).
        replace (o <=? r) with false by (symmetry; apply Z.leb_gt; lia).
        cbn [andb]. rewrite Hn1. fold r.
        replace (r =? o) with false by (symmetry; apply Z.eqb_neq; lia).
        rewrite andb_false_r. reflexivity.
      * replace (o + 1 <=? r) with false by (symmetry; apply Z.leb_gt; lia).
        replace (o <=? r) with true by (symmetry; apply Z.leb_le; lia).
        replace (r <? o + Z.of_nat (S n)) with true by (symmetry; apply Z.ltb_lt; lia).
        cbn [andb]. rewrite Hn1. fold r.
        replace (base <=? p) with true by (symmetry; apply Z.leb_le; lia).
        replace (p <? base + size) with true by (symmetry; apply Z.ltb_lt; lia).
        replace (r =? o) with true by (symmetry; apply Z.eqb_eq; lia).
        cbn [andb]. rewrite C2. reflexivity.
      * replace (o + 1 <=? r) with true by (symmetry; apply Z.leb_le; lia).
        replace (o <=? r) with true by (symmetry; apply Z.leb_le; lia).
        replace (r <? o + 1 + Z.of_nat n) with true by (symmetry; apply Z.ltb_lt; lia).
        replace (r <? o + Z.of_nat (S n)) with true by (symmetry; apply Z.ltb_lt; lia).
        cbn [andb].
        destruct (p - base + shift <? size) eqn:E3.
        -- apply Z.ltb_lt in E3. rewrite Hn1.
           replace ((p + shift - base) mod shift) with r
             by (unfold r; rewrite <- (mod_step (p - base) shift) by lia; f_equal; lia).
           replace (r =? o) with false by (symmetry; apply Z.eqb_neq; lia).
           rewrite andb_false_r. reflexivity.
        -- rewrite Hn1.
           replace ((base + r - base) mod shift) with r
             by (replace (base + r - base) with r by lia; symmetry; apply Z.mod_small; lia).
           replace (r =? o) with false by (symmetry; apply Z.eqb_neq; lia).
           rewrite andb_false_r. reflexivity.
      * replace (o + 1 <=? r) with true by (symmetry; apply Z.leb_le; lia).
        replace (o <=? r) with true by (symmetry; apply Z.leb_le; lia).
        replace (r <? o + 1 + Z.of_nat n) with false by (symmetry; apply Z.ltb_ge; lia).
        replace (r <? o + Z.of_nat (S n)) with false by (symmetry; apply Z.ltb_ge; lia).
        cbn [andb]. rewrite Hn1. fold r.
        replace (r =? o) with false by (symmetry; apply Z.eqb_neq; lia).
        rewrite andb_false_r. reflexivity.
    + cbn [andb]. rewrite Hn1. rewrite Er. reflexivity.
Qed.

(** The rotation: the slot at [base + k] ends up holding what was at
    [base + (k + shift) mod size]; nothing else changes. *)
Lemma rotate_tree_array_moves (fuel : nat) :
  forall (v : list lz77_tree) (base size shift : Z),
    0 <= base -> 0 <= shift <= size ->
    base + size <= Z.of_nat (length v) ->
    size < Z.of_nat fuel ->
    exists v',
      rotate_tree_array fuel v base size shift = Ret v'
      /\ length v' = length v
      /\ forall p, node v' p =
           if (base <=? p) && (p <? base + size)
           then node v (base + (p - base + shift) mod size)
           else node v p.
Proof.
  induction fuel as [|fuel IH]; intros v base size shift Hb Hs Hlen Hf; [lia|].
  cbn [rotate_tree_array].
  destruct (size <=? 1) eqn:E1.
  { apply Z.leb_le in E1. exists v. split; [reflexivity|]. split; [reflexivity|].
    intros p. destruct ((base <=? p) && (p <? base + size)) eqn:Er; [|reflexivity].
    apply andb_prop in Er. destruct Er as [Ea Eb].
    apply Z.leb_le in Ea. apply Z.ltb_lt in Eb.
    assert (size = 1) by lia. subst size. rewrite Z.mod_1_r. f_equal. lia. }
  apply Z.leb_gt in E1.
  replace (size =? 0) with false by (symmetry; apply Z.eqb_neq; lia).
  cbn [negb defined seq bind].
  rewrite Z.rem_mod_nonneg by lia.
  destruct (Z.eqb_spec (shift mod size) 0) as [E2|E2].
  { exists v. split; [reflexivity|]. split; [reflexivity|].
    intros p. destruct ((base <=? p) && (p <? base + size)) eqn:Er; [|reflexivity].
    apply andb_prop in Er. destruct Er as [Ea Eb].
    apply Z.leb_le in Ea. apply Z.ltb_lt in Eb.
    rewrite <- Zplus_mod_idemp_r, E2, Z.add_0_r, Z.mod_small by lia. f_equal. lia. }
  assert (Hlt : 0 < shift < size).
  { destruct (Z.eq_dec shift 0) as [->|]; [rewrite Z.mod_0_l in E2 by lia; lia|].
    destruct (Z.eq_dec shift size) as [->|]; [rewrite Z.mod_same in E2 by lia; lia|].
    lia. }
  destruct (rotate_offsets_moves (Z.to_nat shift) v base size shift 0)
    as (v1 & R1 & Hl1 & Hn1); try lia.
  rewrite R1. cbn [bind].
  replace (shift =? 0) with false by (symmetry; apply Z.eqb_neq; lia).
  cbn [negb defined seq bind].
  rewrite Z.rem_mod_nonneg by lia.
  pose proof (Z.mod_pos_bound size shift ltac:(lia)) as Hm.
  destruct (IH v1 (base + size - shift) shift (shift - size mod shift))
    as (v' & R & Hl & Hn'); try lia.
  exists v'. split; [exact R|]. split; [congruence|].
  assert (Hall : forall q, 0 <= q < size ->
            node v1 (base + q) =
            if q + shift <? size then node v (base + q + shift)
            else node v (base + q mod shift)).
  { intros q Hq. rewrite Hn1.
    replace (base <=? base + q) with true by (symmetry; apply Z.leb_le; lia).
    replace (base + q <? base + size) with true by (symmetry; apply Z.ltb_lt; lia).
    replace (base + q - base) with q by lia.
    pose proof (Z.mod_pos_bound q shift ltac:(lia)) as Hq'.
    replace (0 <=? q mod shift) with true by (symmetry; apply Z.leb_le; lia).
    replace (q mod shift <? 0 + Z.of_nat (Z.to_nat shift)) with true
      by (symmetry; apply Z.ltb_lt; lia).
    cbn [andb]. reflexivity. }
  intros p. rewrite Hn'.
  replace (base + size - shift + shift) with (base + size) by lia.
  destruct (Z_le_dec (base + size - shift) p) as [C1|C1].
  - replace (base + size - shift <=? p) with true by (symmetry; apply Z.leb_le; lia).
    replace (base <=? p) with true by (symmetry; apply Z.leb_le; lia).
    cbn [andb].
    destruct (p <? base + size) eqn:C2.
    + apply Z.ltb_lt in C2.
      set (j := p - (base + size - shift)).
      assert (Hj : 0 <= j < shift) by (unfold j; lia).
      set (m := (j + (shift - size mod shift)) mod shift).
      assert (Hmm : 0 <= m < shift) by (apply Z.mod_pos_bound; lia).
      replace (base + size - shift + m) with (base + (size - shift + m)) by lia.
      rewrite Hall by lia.
      replace (size - shift + m + shift <? size) with false
        by (symmetry; apply Z.ltb_ge; lia).
      f_equal. f_equal.
      replace (p - base + shift) with (j + 1 * size) by (unfold j; lia).
      rewrite Z_mod_plus_full, (Z.mod_small j size) by lia.
      unfold m. rewrite Zplus_mod_idemp_r.
      replace (size - shift + (j + (shift - size mod shift)))
        with (j + (size - size mod shift)) by lia.
      pose proof (Z.div_mod size shift ltac:(lia)) as D.
      replace (size - size mod shift) with (size / shift * shift) by lia.
      rewrite Z_mod_plus_full. apply Z.mod_small. lia.
    + apply Z.ltb_ge in C2. rewrite Hn1.
      replace (p <? base + size) with false by (symmetry; apply Z.ltb_ge; lia).
      rewrite andb_false_r. reflexivity.
  - replace (base + size - shift <=? p) with false by (symmetry; apply Z.leb_gt; lia).
    cbn [andb].
    destruct (Z_le_dec base p) as [C3|C3].
    + replace (base <=? p) with true by (symmetry; apply Z.leb_le; lia).
      replace (p <? base + size) with true by (symmetry; apply Z.ltb_lt; lia).
      cbn [andb].
      replace p with (base + (p - base)) at 1 by lia.
      rewrite Hall by lia.
      replace (p - base + shift <? size) with true by (symmetry; apply Z.ltb_lt; lia).
      rewrite (Z.mod_small (p - base + shift) size) by lia. f_equal. lia.
    + replace (base <=? p) with false by (symmetry; apply Z.leb_gt; lia).
      cbn [andb]. rewrite Hn1.
      replace (base <=? p) with false by (symmetry; apply Z.leb_gt; lia).
      reflexivity.
Qed.

(** [shift_tree_indices] rewrites the links of the slots [0 .. size], each
    slot from its own fields. *)
Lemma shift_tree_indices_node (v : list lz77_tree) (size shift : Z) :
  0 <= size < Z.of_nat (length v) ->
  exists v',
    shift_tree_indices v size shift = Ret v'
    /\ length v' = length v
    /\ forall p, node v' p =
         if (0 <=? p) && (p <=? size) then shift_slot size shift (node v p) else node v p.
Proof.
  intros Hs. unfold shift_tree_indices.
  replace (size <? Z.of_nat (length v)) with true by (symmetry; apply Z.ltb_lt; lia).
  cbn [defined seq bind].
  set (k := Z.to_nat (size + 1)).
  assert (Hk : (k <= length v)%nat) by (unfold k; lia).
  assert (Hlen : length (map (shift_slot size shift) (firstn k v) ++ skipn k v) = length v).
  { rewrite length_app, length_map, length_firstn, length_skipn. lia. }
  eexists. split; [reflexivity|]. split; [exact Hlen|].
  intros p.
  destruct (Z_lt_dec p 0) as [Hp|Hp];
    [|destruct (Z_lt_dec p (Z.of_nat (length v))) as [Hq|Hq]].
  - replace (0 <=? p) with false by (symmetry; apply Z.leb_gt; lia). cbn [andb].
    rewrite !node_outside by lia. reflexivity.
  - replace (0 <=? p) with true by (symmetry; apply Z.leb_le; lia). cbn [andb].
    rewrite (node_nth _ p) by lia. rewrite (node_nth v p) by lia.
    destruct (Z.leb_spec p size) as [C|C].
    + rewrite app_nth1 by (rewrite length_map, length_firstn; unfold k; lia).
      rewrite nth_indep with (d' := shift_slot size shift raw_slot)
        by (rewrite length_map, length_firstn; unfold k; lia).
      rewrite map_nth. f_equal.
      rewrite <- (firstn_skipn k v) at 2.
      rewrite app_nth1 by (rewrite length_firstn; unfold k; lia). reflexivity.
    + rewrite app_nth2 by (rewrite length_map, length_firstn; unfold k; lia).
      rewrite length_map, length_firstn.
      rewrite <- (firstn_skipn k v) at 3.
      rewrite app_nth2 by (rewrite length_firstn; unfold k; lia).
      rewrite length_firstn. reflexivity.
  - rewrite !node_outside by lia.
    replace (p <=? size) with false by (symmetry; apply Z.leb_gt; lia).
    rewrite andb_false_r. reflexivity.
Qed.

Lemma shift_index_renumbered (size shift i : Z) :
  0 <= shift < size -> size <= 65535 -> 0 <= i < size ->
  u16 (shift_index size shift i) = renumbered size shift i.
Proof.
  intros Hs Hsz Hi. unfold shift_index, renumbered.
  replace (0 <=? i) with true by (symmetry; apply Z.leb_le; lia).
  replace (i <? size) with true by (symmetry; apply Z.ltb_lt; lia).
  cbn [andb].
  destruct (Z.ltb_spec (i - shift) 0) as [C|C].
  - rewrite (u16_small (size + i - shift)) by (change (2 ^ 16) with 65536; lia).
    rewrite u16_small by (change (2 ^ 16) with 65536; lia).
    replace (i - shift) with (size + i - shift + (-1) * size) by lia.
    rewrite Z_mod_plus_full. symmetry. apply Z.mod_small. lia.
  - rewrite (u16_small (i - shift)) by (change (2 ^ 16) with 65536; lia).
    rewrite u16_small by (change (2 ^ 16) with 65536; lia).
    symmetry. apply Z.mod_small. lia.
Qed.

Lemma renumbered_outside (size shift i : Z) :
  size <= i -> renumbered size shift i = i.
Proof.
  intros Hi. unfold renumbered.
  replace (i <? size) with false by (symmetry; apply Z.ltb_ge; lia).
  rewrite andb_false_r. reflexivity.
Qed.

(** On a slot whose links are in range, the loop body of
    [shift_tree_indices] is the renumbering of its three links. *)
Lemma shift_slot_renumbered (size shift : Z) (n : lz77_tree) :
  0 <= shift < size -> size <= 65535 -> links_in_range size n ->
  shift_slot size shift n = renumbered_slot size shift n.
Proof.
  intros Hs Hsz (Hp & Hsm & Hl). destruct n as [p s l].
  cbn [parent smaller larger] in Hp, Hsm, Hl.
  rewrite UNUSED_value in *.
  unfold shift_slot, renumbered_slot. cbn [parent smaller larger].
  assert (Ep : (if negb (p =? UNUSED) && negb (p =? size)
                then set_parent {| parent := p; smaller := s; larger := l |}
                       (shift_index size shift p)
                else {| parent := p; smaller := s; larger := l |})
               = {| parent := renumbered size shift p; smaller := s; larger := l |}).
  { rewrite UNUSED_value.
    destruct (Z.eqb_spec p 65535) as [C1|C1]; cbn [negb andb].
    - rewrite renumbered_outside by lia. reflexivity.
    - destruct (Z.eqb_spec p size) as [C2|C2]; cbn [negb].
      + rewrite renumbered_outside by lia. reflexivity.
      + unfold set_parent. cbn [parent smaller larger].
        rewrite shift_index_renumbered by lia. reflexivity. }
  rewrite Ep. cbn [parent smaller larger].
  assert (Es : (if negb (s =? UNUSED)
                then set_smaller {| parent := renumbered size shift p; smaller := s;
                                    larger := l |} (shift_index size shift s)
                else {| parent := renumbered size shift p; smaller := s; larger := l |})
               = {| parent := renumbered size shift p;
                    smaller := renumbered size shift s; larger := l |}).
  { rewrite UNUSED_value.
    destruct (Z.eqb_spec s 65535) as [C1|C1]; cbn [negb].
    - rewrite (renumbered_outside size shift s) by lia. reflexivity.
    - unfold set_smaller. cbn [parent smaller larger].
      rewrite shift_index_renumbered by lia. reflexivity. }
  rewrite Es. cbn [parent smaller larger].
  rewrite UNUSED_value.
  destruct (Z.eqb_spec l 65535) as [C1|C1]; cbn [negb].
  - rewrite (renumbered_outside size shift l) by lia. reflexivity.
  - unfold set_larger. cbn [parent smaller larger].
    rewrite shift_index_renumbered by lia. reflexivity.
Qed.

(** The two steps together: every slot moves to its new index with its
    links renumbered. *)
Lemma rotate_then_shift (v : list lz77_tree) (size shift : Z) :
  1 <= size <= 65535 -> 0 <= shift < size -> size < Z.of_nat (length v) ->
  exists v1 v2,
    rotate_tree_array (S (Z.to_nat size)) v 0 size shift = Ret v1
    /\ shift_tree_indices v1 size shift = Ret v2
    /\ length v2 = length v
    /\ forall j, 0 <= j <= size -> links_in_range size (node v j) ->
         node v2 (renumbered size shift j) = renumbered_slot size shift (node v j).
Proof.
  intros Hsz Hs Hlen.
  destruct (rotate_tree_array_moves (S (Z.to_nat size)) v 0 size shift)
    as (v1 & R1 & Hl1 & Hn1); try lia.
  destruct (shift_tree_indices_node v1 size shift) as (v2 & R2 & Hl2 & Hn2); [lia|].
  exists v1, v2. split; [exact R1|]. split; [exact R2|]. split; [congruence|].
  intros j Hj Hr.
  assert (Hb : 0 <= renumbered size shift j <= size).
  { unfold renumbered. destruct ((0 <=? j) && (j <? size)); [|lia].
    pose proof (Z.mod_pos_bound (j - shift) size ltac:(lia)). lia. }
  rewrite Hn2.
  replace (0 <=? renumbered size shift j) with true by (symmetry; apply Z.leb_le; lia).
  replace (renumbered size shift j <=? size) with true by (symmetry; apply Z.leb_le; lia).
  cbn [andb]. rewrite Hn1.
  assert (E : (if (0 <=? renumbered size shift j) && (renumbered size shift j <? 0 + size)
               then node v (0 + (renumbered size shift j - 0 + shift) mod size)
               else node v (renumbered size shift j)) = node v j).
  { destruct (Z.eq_dec j size) as [->|N].
    - rewrite renumbered_outside by lia.
      replace (size <? 0 + size) with false by (symmetry; apply Z.ltb_ge; lia).
      rewrite andb_false_r. reflexivity.
    - unfold renumbered.
      replace (0 <=? j) with true by (symmetry; apply Z.leb_le; lia).
      replace (j <? size) with true by (symmetry; apply Z.ltb_lt; lia).
      cbn [andb].
      pose proof (Z.mod_pos_bound (j - shift) size ltac:(lia)) as Hm.
      replace (0 <=? (j - shift) mod size) with true by (symmetry; apply Z.leb_le; lia).
      replace ((j - shift) mod size <? 0 + size) with true
        by (symmetry; apply Z.ltb_lt; lia).
      cbn [andb]. f_equal.
      rewrite Z.sub_0_r, Zplus_mod_idemp_l.
      replace (j - shift + shift) with j by lia.
      rewrite Z.mod_small by lia. lia. }
  rewrite E. apply shift_slot_renumbered; [lia|lia|exact Hr].
Qed.

(** The slot of a byte of the buffer is its position modulo the window
    size; when the window moves back to the beginning of the buffer the
    slot of every byte is renumbered with the tree. *)
Lemma renumbered_position (size window q : Z) :
  1 <= size -> 0 <= window <= q ->
  renumbered size (window mod size) (q mod size) = (q - window) mod size.
Proof.
  intros Hs Hq. unfold renumbered.
  pose proof (Z.mod_pos_bound q size ltac:(lia)) as Hm.
  replace (0 <=? q mod size) with true by (symmetry; apply Z.leb_le; lia).
  replace (q mod size <? size) with true by (symmetry; apply Z.ltb_lt; lia).
  cbn [andb]. symmetry. apply Zminus_mod.
Qed.

(** X23: [rotate_tree_array(v, size, shift)] returns for every
    [0 <= shift <= size], the recursion being at most [size] deep, and
    rotates the [size] slots from [v] on to the left by [shift]: slot [k]
    holds afterwards what slot [(k + shift) mod size] held, and nothing
    outside these slots changes. *)
Theorem rotate_tree_array_rotates (fuel : nat) (v : list lz77_tree) (base size shift : Z) :
  0 <= base -> 0 <= shift <= size ->
  base + size <= Z.of_nat (length v) ->
  size < Z.of_nat fuel ->
  exists v',
    rotate_tree_array fuel v base size shift = Ret v'
    /\ length v' = length v
    /\ (forall k, 0 <= k < size ->
          node v' (base + k) = node v (base + (k + shift) mod size))
    /\ (forall p, ~ base <= p < base + size -> node v' p = node v p).
Proof.
  intros Hb Hs Hlen Hf.
  destruct (rotate_tree_array_moves fuel v base size shift Hb Hs Hlen Hf)
    as (v' & R & Hl & Hn).
  exists v'. split; [exact R|]. split; [exact Hl|]. split.
  - intros k Hk. rewrite Hn.
    replace (base <=? base + k) with true by (symmetry; apply Z.leb_le; lia).
    replace (base + k <? base + size) with true by (symmetry; apply Z.ltb_lt; lia).
    cbn [andb]. do 3 f_equal. lia.
  - intros p Hp. rewrite Hn.
    destruct (Z.leb_spec base p) as [C|C]; [|reflexivity].
    replace (p <? base + size) with false by (symmetry; apply Z.ltb_ge; lia).
    reflexivity.
Qed.

Lemma rotate_tree_array_rotates_witness :
  exists v',
    rotate_tree_array 6 five_slots 0 5 2 = Ret v'
    /\ length v' = length five_slots
    /\ (forall k, 0 <= k < 5 -> node v' (0 + k) = node five_slots (0 + (k + 2) mod 5))
    /\ (forall p, ~ 0 <= p < 0 + 5 -> node v' p = node five_slots p).
Proof.
  apply (rotate_tree_array_rotates 6 five_slots 0 5 2); cbn; lia.
Defined.

(** X24: when [ustream_find_and_advance] refills the buffer of a
    stream read from a descriptor, [rotate_tree_array] followed by
    [shift_tree_indices] renumbers the search tree: the slot [j] whose
    links are slots or [UNUSED] is found at [(j - x) mod window_maxsize],
    [x] being the offset of the window modulo [window_maxsize], with its
    three links renumbered in the same way; the root stays.  This is the
    renumbering of the positions of the buffer, which move back by the
    offset of the window. *)
Theorem refill_renumbers_tree (u u' : lz77_ustream) :
  1 <= us_window_maxsize u <= 65535 -> 0 <= us_window u ->
  us_window_maxsize u < Z.of_nat (length (us_tree u)) ->
  refill u = Ret u' ->
  length (us_tree u') = length (us_tree u)
  /\ (forall j, 0 <= j <= us_window_maxsize u ->
        links_in_range (us_window_maxsize u) (node (us_tree u) j) ->
        node (us_tree u')
          (renumbered (us_window_maxsize u) (us_window u mod us_window_maxsize u) j)
        = renumbered_slot (us_window_maxsize u) (us_window u mod us_window_maxsize u)
            (node (us_tree u) j))
  /\ (forall q, us_window u <= q ->
        renumbered (us_window_maxsize u) (us_window u mod us_window_maxsize u)
          (q mod us_window_maxsize u)
        = (q - us_window u) mod us_window_maxsize u)
  /\ us_window u' = 0.
Proof.
  intros Hw Hwin Hlen R.
  pose proof (Z.mod_pos_bound (us_window u) (us_window_maxsize u) ltac:(lia)) as Hx.
  destruct (rotate_then_shift (us_tree u) (us_window_maxsize u)
              (us_window u mod us_window_maxsize u) Hw Hx Hlen)
    as (v1 & v2 & R1 & R2 & Hl & Hn).
  unfold refill in R.
  destruct (assert (us_window_currsize u =? us_window_maxsize u)) as [[]|];
    [|discriminate].
  cbn [seq bind] in R.
  destruct (slice (us_data u) (us_window u)
              (us_window_maxsize u + (us_end u - us_lookahead u))) as [moved|];
    [|discriminate].
  cbn [bind] in R.
  destruct (file_read (us_file u)
              (us_size u - (us_window_maxsize u + (us_end u - us_lookahead u))))
    as [chunk rest].
  rewrite Z.rem_mod_nonneg in R by lia.
  rewrite R1 in R. cbn [bind] in R. rewrite R2 in R. cbn [bind] in R.
  assert (Et : us_tree u' = v2 /\ us_window u' = 0).
  { injection R as <-.
    match goal with |- context [if ?b then _ else _] => destruct b end;
      split; reflexivity. }
  destruct Et as [Et Ew]. rewrite Et.
  split; [exact Hl|]. split; [exact Hn|]. split; [|exact Ew].
  intros q Hq. apply renumbered_position; lia.
Qed.

Lemma refill_renumbers_tree_witness :
  exists u',
    refill refilled_stream = Ret u'
    /\ node (us_tree u') (renumbered 4 (2 mod 4) 2)
       = renumbered_slot 4 (2 mod 4) (node five_slots 2).
Proof.
  eexists. split; [reflexivity|].
  refine (proj1 (proj2 (refill_renumbers_tree refilled_stream _ _ _ _ eq_refl)) 2 _ _);
    cbn; try lia.
  unfold links_in_range.
  change (node five_slots 2) with {| parent := 0; smaller := 1; larger := 3 |}.
  cbn. lia.
Defined.

(** ** The size of the compressed stream *)

(** [ustream_open] chooses the shortest length a phrase can have so that
    the shortest phrase token is shorter than the symbol tokens of its
    bytes; the codes of the longer lengths grow by less than nine bits a
    byte.  So no token takes more than nine bits for a byte of the
    input. *)

(** The code of a length [v] is at most [2 + 9 * (v - min_value)] bits
    long. *)
Lemma tinyhuff_encode_cost (mn mx v : Z) :
  1 <= mn -> mn + 6 < 65536 -> 0 <= mx < 65536 -> v <> 0 ->
  tinyhuff_can_encode (tinyhuff_init mn mx) v = true ->
  exists nbits code,
    tinyhuff_encode (tinyhuff_init mn mx) v = Ret (nbits, code)
    /\ 2 <= nbits <= 22 /\ nbits + 9 * mn <= 9 * v + 2.
Proof.
  intros Hmn Hmn6 Hmx Hv0 Hcan.
  destruct (tinyhuff_init_fields mn mx Hmn Hmn6 Hmx) as (Emin & Emax & Eenc & Hd & Hd0).
  cbv zeta in *. set (enc := tinyhuff_init mn mx) in *.
  pose proof Hcan as Hcan'.
  apply can_encode_cases in Hcan. rewrite Emin, Emax in Hcan.
  destruct Hcan as [C|Hv]; [contradiction|].
  destruct (tinyhuff_encode_returns mn mx v Hmn Hmn6 Hmx Hcan')
    as (nb & cd & E & Hnb & Hsmall & Hbig).
  fold enc in E, Hnb, Hbig.
  exists nb, cd. split; [exact E|].
  destruct (Z_le_gt_dec (mn + 6) v) as [B|S].
  - destruct (Hd ltac:(lia)) as (Hdr & _). rewrite (Hbig B). lia.
  - assert (nb <= 2 + (v - mn)); [|lia].
    unfold tinyhuff_encode in E. rewrite Emin, Emax, Eenc in E.
    destruct (Z.eqb_spec v 0) as [C|_]; [lia|].
    destruct (Z.leb_spec mn v) as [_|C]; [|lia].
    destruct (Z.leb_spec v mx) as [_|C]; [|lia].
    cbn [orb assert bind] in E. change (ENCODING_TABLE_SIZE - 1) with 7 in E.
    rewrite u32_small in E by (change (2 ^ 32) with 4294967296; lia).
    destruct (Z.ltb_spec 7 (1 + v - mn)) as [C|_]; [lia|].
    destruct (Z.leb_spec (mn + 6) v) as [C|_]; [lia|].
    assert (v - mn = 0 \/ v - mn = 1 \/ v - mn = 2 \/ v - mn = 3 \/ v - mn = 4 \/ v - mn = 5)
      as Hj by lia.
    replace (1 + v - mn) with (1 + (v - mn)) in E by ring.
    destruct Hj as [J|[J|[J|[J|[J|J]]]]]; rewrite J in E |- *;
      cbn in E; injection E as <- _; lia.
Qed.

(** The tokens the loop of [lz77_compress] writes take at most nine bits
    for each byte the look-ahead buffer moves by. *)
Lemma compress_loop_cost (s : list Z) (w wb mn mx : Z) (fuel : nat) :
  0 <= wb <= 16 -> 1 <= mn -> mn + 6 < 65536 -> 0 <= mx < 65536 ->
  wb + 3 < 9 * mn ->
  forall u c offset length_ next u' c',
    compress_loop fuel u c offset length_ next = Ret (u', c') ->
    feeding s w wb (tinyhuff_init mn mx) u -> writing c ->
    feeding s w wb (tinyhuff_init mn mx) u' /\ writing c'
    /\ same_writer c c' /\ (mem_writer c -> mem_writer c')
    /\ written c <= written c'
    /\ written c' - written c <= 9 * (us_lookahead u' - us_lookahead u).
Proof.
  intros Hwb Hmn Hmn6 Hmx Hmin.
  induction fuel as [|fuel IH]; intros u c offset length_ next u' c' H Hf Hwr;
    [discriminate H|].
  rewrite compress_loop_S in H.
  destruct (ustream_find_and_advance u offset length_ next)
    as [[[count [[o' l'] n']] u1]|] eqn:Efa; [|discriminate H].
  cbn [bind] in H.
  destruct (feeding_step s w wb _ u offset length_ next count (o', l', n') u1 Hf Efa)
    as (Hf1 & Hc0 & Hcz & Hla1 & _).
  destruct (Z.ltb_spec 0 count) as [Hpos|Hzero].
  2:{ injection H as <- <-. assert (count = 0) as Ez by lia.
      destruct (Hcz Ez) as (-> & _).
      split; [exact Hf|]. split; [exact Hwr|].
      split; [unfold same_writer; repeat split|]. split; [exact (fun A => A)|]. lia. }
  destruct (make_token u1 o' l' n') as [[token tbits]|] eqn:Etok; [|discriminate H].
  cbn [bind] in H.
  destruct (cstream_write_bits c token (u16 (64 - tbits)) tbits) as [[r0 c1]|] eqn:Ewb;
    [|discriminate H].
  cbn [bind] in H.
  assert (r0 = 0) as ->.
  { destruct (cstream_write_bits_result _ _ _ _ _ _ Ewb) as [E|E]; [exact E|].
    subst r0. discriminate H. }
  cbn [Z.ltb Z.compare] in H.
  destruct Hwr as (Hok & Hcache & Hbytes).
  assert (0 <= u16 (64 - tbits)) as Hsb
      by (unfold u16; apply Z.mod_pos_bound; change (2 ^ 16) with 65536; lia).
  destruct (cstream_write_bits_bits _ _ _ _ _ Hok Hcache Hbytes Hsb Ewb)
    as (Hok1 & Hcache1 & Hbytes1 & Hsame1 & Hwr1 & _).
  assert (0 <= tbits <= 9 * count) as Hcost.
  { pose proof Hf as (Hc & _).
    pose proof Hf1 as (_ & _ & _ & _ & _ & Hwb1 & Henc1 & _).
    pose proof Hf as (_ & _ & _ & _ & _ & _ & Henc & _).
    destruct (find_and_advance_token u offset length_ next count o' l' n' u1 Hc Efa Hpos)
      as [(El & Ec & _)|(Hl & Ec & Hcan & _)].
    - subst l' count. unfold make_token in Etok. cbn [Z.eqb negb] in Etok.
      injection Etok as _ <-. change LZ77_SYMBOL_BITS with 9. lia.
    - rewrite Henc in Hcan.
      destruct (tinyhuff_encode_cost mn mx l' Hmn Hmn6 Hmx ltac:(lia) Hcan)
        as (nb & cd & Ee & Hnb & Hc9).
      rewrite <- Henc1 in Ee.
      rewrite (make_token_phrase u1 o' l' n' nb cd ltac:(lia) Ee) in Etok.
      assert (tbits = u16 (1 + us_window_nbits u1 + nb)) as -> by congruence.
      rewrite Hwb1.
      rewrite u16_small by (change (2 ^ 16) with 65536; lia). lia. }
  destruct (IH u1 c1 o' l' n' u' c' H Hf1
              (conj Hok1 (conj Hcache1 Hbytes1)))
    as (Hf' & Hwr' & Hsame' & Hmem' & Hle' & Hcost').
  split; [exact Hf'|]. split; [exact Hwr'|]. split; [|split].
  - destruct Hsame1 as (A1 & A2 & A3 & A4). destruct Hsame' as (B1 & B2 & B3 & B4).
    unfold same_writer. repeat split; congruence.
  - intros Hmw. apply Hmem'. exact (cstream_write_bits_mem _ _ _ _ _ Hmw Ewb).
  - lia.
Qed.

(** The number of bytes a compression from memory to memory returns. *)
Lemma compress_memory_size (s : list Z) (w l n : Z) (bytes : list Z) :
  4 <= w <= 65534 -> 2 <= l <= w ->
  bytes_ok s -> Z.of_nat (length s) < 2 ^ 32 ->
  compress_memory s w l = Ret (n, bytes) ->
  n = Z.of_nat (length bytes)
  /\ 8 * n <= 9 * Z.of_nat (length s) + 126.
Proof.
  intros Hw Hl Hsb Hs32 Hcomp.
  change (2 ^ 32) with 4294967296 in *.
  unfold compress_memory in Hcomp.
  destruct (lz77_ustream_from_memory (Some s) (Z.of_nat (length s)) w l true heap_limit)
    as [u0| |] eqn:E0; try discriminate Hcomp.
  destruct (lz77_cstream_to_memory (Some u0) true 0 1 true heap_limit)
    as [cw| |] eqn:Ew; try discriminate Hcomp.
  destruct (lz77_compress u0 cw) as [[[n0 uf] cf]|] eqn:Ec; [|discriminate Hcomp].
  cbn [bind] in Hcomp. injection Hcomp as -> <-.
  assert (fresh_writer cw) as Hfresh.
  { exists u0, heap_limit. left. exists true, 0, 1. exact Ew. }
  pose proof E0 as E0'. unfold lz77_ustream_from_memory in E0'. cbv zeta in E0'.
  rewrite (u16_small w), (u16_small l) in E0' by (change (2 ^ 16) with 65536; lia).
  destruct (Z.ltb_spec w LZ77_MIN_WINDOW_SIZE) as [C|_];
    [unfold LZ77_MIN_WINDOW_SIZE in C; lia|].
  destruct (Z.ltb_spec l LZ77_MIN_LOOKAHEAD_SIZE) as [C|_];
    [unfold LZ77_MIN_LOOKAHEAD_SIZE in C; lia|].
  cbn [negb] in E0'.
  rewrite (u16_small w), (u16_small l) in E0' by (change (2 ^ 16) with 65536; lia).
  rewrite (u32_small (Z.of_nat (length s))) in E0'
    by (change (2 ^ 32) with 4294967296; lia).
  injection E0' as E0'.
  assert (us_fd u0 = -1 /\ us_data u0 = s /\ us_size u0 = Z.of_nat (length s)
          /\ us_end u0 = Z.of_nat (length s) /\ us_is_input u0 = 1
          /\ us_window_maxsize u0 = w /\ us_lookahead_maxsize u0 = l
          /\ us_window_nbits u0 = u8 (number_of_bits (w - 1))
          /\ us_lookahead u0 = 0 /\ us_window_currsize u0 = 0)
    as (F1 & F2 & F3 & F4 & F5 & F6 & F7 & F8 & F9 & F10)
      by (rewrite <- E0'; repeat split).
  clear E0'.
  pose proof Ew as Ew'. unfold lz77_cstream_to_memory in Ew'. cbn [negb] in Ew'.
  injection Ew' as Ew'.
  assert (cs_fd cw = -1 /\ cs_can_realloc cw = 1 /\ cs_heap cw = heap_limit
          /\ cs_window_maxsize cw = w /\ cs_lookahead_maxsize cw = l)
    as (G1 & G2 & G3 & G4 & G5).
  { rewrite <- Ew'. cs_simpl. rewrite F6, F7. repeat split. }
  clear Ew'.
  set (wb := u8 (number_of_bits (w - 1))) in *.
  destruct (window_bits_fit w ltac:(lia)) as (Hwb & Hwfit). fold wb in Hwb, Hwfit.
  set (mn := Z.quot (LZ77_TYPE_BITS + wb + LZ77_TINYHUFF_MIN_CODE_BITS)
               LZ77_SYMBOL_BITS + 1).
  assert (1 <= mn <= 3 /\ wb + 3 < 9 * mn) as (Hmn & Hmin).
  { subst mn. change LZ77_TYPE_BITS with 1. change LZ77_TINYHUFF_MIN_CODE_BITS with 2.
    change LZ77_SYMBOL_BITS with 9.
    rewrite Z.quot_div_nonneg by lia. Z.div_mod_to_equations. lia. }
  set (enc := tinyhuff_init mn l).
  (* the steps of [lz77_compress] *)
  unfold lz77_compress in Ec.
  destruct (ustream_open u0 cw) as [u1|] eqn:Eo; [|discriminate Ec]. cbn [bind] in Ec.
  destruct (cstream_open cw) as [[r1 c1]|] eqn:Eco; [|discriminate Ec]. cbn [bind] in Ec.
  assert (r1 = 0) as ->.
  { destruct (Z.ltb_spec r1 0) as [C|C]; [discriminate Ec|].
    unfold cstream_open in Eco. inv_ret Eco.
    rewrite (proj1 (fresh_writer_fields cw Hfresh)) in Eco. cbn [Z.eqb negb] in Eco.
    inv_ret Eco. destruct (fst _ <? 0) in Eco; injection Eco as <- _; [lia|reflexivity]. }
  cbn [Z.ltb Z.compare] in Ec. cbv zeta in Ec.
  destruct (compress_loop _ u1 c1 0 0 0) as [[u2 c2]|] eqn:El; [|discriminate Ec].
  cbn [bind] in Ec.
  assert ((us_is_input u0 =? 0) = false) as Hin0 by (rewrite F5; reflexivity).
  destruct (ustream_open_input_fields u0 cw u1 Hin0 ltac:(lia) Eo)
    as (O1 & O2 & O3 & O4 & O5).
  destruct (ustream_open_input_state u0 cw u1 Hin0 Eo) as (O6 & O7 & O8 & O9 & O10 & _).
  destruct (opened_compressing s (Z.of_nat (length s)) w l heap_limit cw u0 u1 Hw E0 Eo)
    as (Hc1 & _).
  rewrite F8 in O3, O5. rewrite F7 in O4, O5. fold mn in O5. fold enc in O5.
  destruct (writer_opened cw c1 Hfresh ltac:(rewrite G3; lia) ltac:(lia)
              ltac:(rewrite G4; lia) ltac:(rewrite G5; lia) Eco)
    as (Hwr1 & Hmw1 & Hsame1 & Hout1 & Hlen1).
  (* the loop *)
  assert (writing c2 /\ mem_writer c2 /\ same_writer c1 c2
          /\ written c2 <= 96 + 9 * Z.of_nat (length s)
          /\ us_window_nbits u2 = wb /\ us_length_encoder u2 = enc)
    as (Hwr2 & Hmw2 & Hsame2 & Hle2 & WB2 & ENC2).
  { destruct (Z.eq_dec (us_lookahead_currsize u1) 0) as [Hz|Hnz].
    - (* nothing to read: the loop stops at once *)
      destruct (length (us_data u1) + length (us_file u1))%nat;
        rewrite compress_loop_S in El;
        unfold ustream_find_and_advance in El; rewrite Hz in El;
        cbn [Z.eqb bind Z.ltb Z.compare] in El; injection El as <- <-;
        (split; [exact Hwr1|]; split; [exact Hmw1|];
         split; [unfold same_writer; repeat split|];
         split; [lia|]; split; [exact O3|exact O5]).
    - assert (feeding s w wb enc u1) as Hf1.
      { unfold feeding. split; [exact Hc1|]. split.
        - unfold lookahead_ok. rewrite O4, O9, F9, O2, F4, F3.
          pose proof (Z.mod_pos_bound (Z.of_nat (length s)) (2 ^ 16) ltac:(lia)) as Hm.
          pose proof (Z.mod_le (Z.of_nat (length s)) (2 ^ 16) ltac:(lia) ltac:(lia)) as Hm'.
          unfold u16. change (2 ^ 16) with 65536 in *. lia.
        - split; [congruence|]. split; [congruence|]. split; [congruence|].
          split; [exact O3|]. split; [exact O5|]. intros Hz. contradiction. }
      destruct (compress_loop_cost s w wb mn l _ ltac:(lia) ltac:(lia) ltac:(lia)
                  ltac:(lia) Hmin _ _ _ _ _ _ _ El Hf1 Hwr1)
        as (Hf2 & Hwr2 & Hsame2 & Hmem2 & _ & Hcost).
      pose proof Hf2 as (_ & (Hl2 & Hl2') & _ & E2 & _ & WB2 & ENC2 & _).
      split; [exact Hwr2|]. split; [exact (Hmem2 Hmw1)|].
      split; [exact Hsame2|]. split; [|split; [exact WB2|exact ENC2]].
      rewrite O9, F9 in Hcost. rewrite E2 in Hl2'. lia. }
  (* the terminating token *)
  rewrite ENC2, O3 in Ec.
  assert (tinyhuff_encode enc 0 = Ret (6, 0)) as Ez.
  { unfold enc, tinyhuff_encode, tinyhuff_init.
    cbn [min_value max_value max_encoded_value diff_nbits].
    change ENCODING_TABLE_SIZE with 8.
    rewrite (u16_small mn), (u16_small l) by (change (2 ^ 16) with 65536; lia).
    rewrite (u16_small (mn + 8 - 2)) by (change (2 ^ 16) with 65536; lia).
    cbn [Z.eqb orb assert bind].
    destruct (Z.leb_spec 0 l) as [_|C]; [|lia]. cbn [assert bind rd encoding_table].
    destruct (Z.leb_spec (mn + 8 - 2) 0) as [C|_]; [lia|]. reflexivity. }
  rewrite Ez in Ec. cbn [bind] in Ec.
  destruct (terminator_value wb ltac:(lia)) as (Ev & Et & Es).
  rewrite Ev, Et, Es in Ec.
  destruct (cstream_write_bits c2 _ _ _) as [[r3 c3]|] eqn:Ewb; [|discriminate Ec].
  cbn [bind] in Ec.
  assert (r3 = 0) as ->.
  { destruct (cstream_write_bits_result _ _ _ _ _ _ Ewb) as [E|E]; [exact E|].
    subst r3. discriminate Ec. }
  cbn [Z.ltb Z.compare] in Ec.
  destruct (ustream_close u2) as [u3|] eqn:Euc; [|discriminate Ec]. cbn [bind] in Ec.
  destruct (cstream_close c3) as [[r4 c4]|] eqn:Ecc; [|discriminate Ec]. cbn [bind] in Ec.
  injection Ec as <- _ <-.
  destruct Hwr2 as (Hok2 & Hcache2 & Hbytes2).
  assert (0 <= 64 - (1 + wb + 6)) as Hsb3 by lia.
  destruct (cstream_write_bits_bits _ _ _ _ _ Hok2 Hcache2 Hbytes2 Hsb3 Ewb)
    as (Hok3 & Hcache3 & Hbytes3 & Hsame3 & Hlen3 & _).
  pose proof (cstream_write_bits_mem _ _ _ _ _ Hmw2 Ewb) as Hmw3.
  assert (growable c3) as Hg3.
  { unfold growable. destruct Hsame1 as (_ & A & _). destruct Hsame2 as (_ & B & _).
    destruct Hsame3 as (_ & C & _). rewrite C, B, A, G2. discriminate. }
  destruct (cstream_close_bits c3 r4 c4 Hok3 Hcache3 Hbytes3 Hg3 Ecc)
    as (_ & Hb4 & Hlen4 & _ & _ & Hcn4 & Hmem4).
  destruct Hmw3 as (Hfd3 & Hfile3 & Hpb3).
  destruct (Hmem4 Hfd3) as (Hd4 & Hf4 & Hpb4).
  assert (output c4 = cs_data c4) as Hout4 by (unfold output; rewrite Hf4, Hfile3; reflexivity).
  rewrite Hout4 in *.
  pose proof (written_nonneg c3 Hcache3) as Hw3.
  assert (lz77_cstream_get_processed_bits c4 = 8 * Z.of_nat (length (cs_data c4))) as Hgp.
  { unfold lz77_cstream_get_processed_bits. rewrite Hcn4, Z.add_0_r, Hpb4, Hpb3.
    destruct Hok3 as (Hend3 & Hsz3 & _). rewrite Hend3.
    rewrite Hd4, length_app, be64_bytes_length.
    assert (0 <= (cs_cached_nbits c3 + 7) / 8 <= 8) as Hnb.
    { destruct Hcache3 as (Hc & _). Z.div_mod_to_equations. lia. }
    change (2 ^ 32) with 4294967296 in Hsz3.
    destruct (Z.ltb_spec 0 (cs_cached_nbits c3)) as [L|L].
    - rewrite (u64_small (8 * Z.of_nat (length (cs_data c3))
                          + (cs_cached_nbits c3 + 7) / 8 * 8))
        by (change (2 ^ 64) with 18446744073709551616; lia).
      rewrite u64_small by (change (2 ^ 64) with 18446744073709551616; lia). lia.
    - assert ((cs_cached_nbits c3 + 7) / 8 = 0) as ->
          by (destruct Hcache3 as (Hc & _); Z.div_mod_to_equations; lia).
      rewrite u64_small by (change (2 ^ 64) with 18446744073709551616; lia). lia. }
  assert ((lz77_cstream_get_processed_bits c4 + 7) / 8 = Z.of_nat (length (cs_data c4)))
    as Hn.
  { rewrite Hgp. Z.div_mod_to_equations. lia. }
  split; [exact Hn|].
  rewrite Hn, Hlen4, Hlen3. Z.div_mod_to_equations. lia.
Qed.

(** X25: a compression from memory to memory that returns [n] has
    written [n] bytes, and at most nine bits for each byte of the input
    besides the 12 bytes of the header, the terminating token and the
    padding of the last byte: [8 * n <= 9 * length + 126].  A phrase token
    is never longer than the symbol tokens of the bytes it stands for,
    because [ustream_open] sets the shortest phrase length to
    [(1 + window_nbits + 2) / 9 + 1]. *)
Theorem compressed_size_bound (s : list Z) (w l n : Z) (bytes : list Z) :
  4 <= w <= 65534 -> 2 <= l <= w ->
  bytes_ok s -> Z.of_nat (length s) < 2 ^ 32 ->
  compress_memory s w l = Ret (n, bytes) ->
  n = Z.of_nat (length bytes)
  /\ 8 * n <= 9 * Z.of_nat (length s) + 126.
Proof.
  exact (compress_memory_size s w l n bytes).
Qed.

Lemma compressed_size_bound_witness :
  17 = Z.of_nat (length [76; 90; 55; 55; 16; 0; 0; 0; 0; 8; 0; 8; 32; 192; 63; 96; 0])
  /\ 8 * 17 <= 9 * Z.of_nat (length (repeat 65 12)) + 126.
Proof.
  apply (compressed_size_bound (repeat 65 12) 8 8 17
           [76; 90; 55; 55; 16; 0; 0; 0; 0; 8; 0; 8; 32; 192; 63; 96; 0]).
  - lia.
  - lia.
  - apply Forall_forall. intros x Hx. apply repeat_spec in Hx. lia.
  - cbn. lia.
  - vm_compute. reflexivity.
Defined.

(** ** The tree functions return *)

(** On a tree in shape no function of tree.c fails an assertion or leaves
    the array, and the loops end within the number of slots. *)

Lemma rd_Ret (t : list lz77_tree) (i : Z) :
  0 <= i < Z.of_nat (length t) -> rd t i = Ret (node t i).
Proof.
  intros Hi. unfold node. rewrite (rd_ok t i raw_slot Hi). reflexivity.
Qed.

Lemma wr_returns {A} (t : list A) (i : Z) (x : A) :
  0 <= i < Z.of_nat (length t) ->
  exists t', wr t i x = Ret t' /\ length t' = length t.
Proof.
  intros Hi. unfold wr.
  replace ((0 <=? i) && (i <? Z.of_nat (length t))) with true
    by (symmetry; apply andb_true_intro; split; [apply Z.leb_le|apply Z.ltb_lt]; lia).
  eexists. split; [reflexivity|]. apply upd_nat_length.
Qed.

Lemma wr_parent_returns (t : list lz77_tree) (i v : Z) :
  0 <= i < Z.of_nat (length t) ->
  exists t', wr_parent t i v = Ret t' /\ length t' = length t.
Proof.
  intros Hi. unfold wr_parent. rewrite rd_Ret by exact Hi. cbn [bind].
  apply wr_returns. exact Hi.
Qed.

Lemma wr_smaller_returns (t : list lz77_tree) (i v : Z) :
  0 <= i < Z.of_nat (length t) ->
  exists t', wr_smaller t i v = Ret t' /\ length t' = length t.
Proof.
  intros Hi. unfold wr_smaller. rewrite rd_Ret by exact Hi. cbn [bind].
  apply wr_returns. exact Hi.
Qed.

Lemma wr_larger_returns (t : list lz77_tree) (i v : Z) :
  0 <= i < Z.of_nat (length t) ->
  exists t', wr_larger t i v = Ret t' /\ length t' = length t.
Proof.
  intros Hi. unfold wr_larger. rewrite rd_Ret by exact Hi. cbn [bind].
  apply wr_returns. exact Hi.
Qed.

Lemma assert_true (b : bool) : b = true -> assert b = Ret tt.
Proof. intros ->. reflexivity. Qed.

Lemma in_tree_slot w t i :
  well_formed w t -> in_tree w t i -> 0 <= i < Z.of_nat (length t) /\ i <> UNUSED.
Proof.
  intros Hwf [Hi _]. pose proof (wf_size _ _ Hwf). pose proof (wf_length _ _ Hwf).
  rewrite UNUSED_value. lia.
Qed.

Lemma is_node_slot w t p :
  well_formed w t -> is_node w t p -> 0 <= p < Z.of_nat (length t) /\ p <> UNUSED.
Proof.
  intros Hwf Hp. pose proof (wf_size _ _ Hwf). pose proof (wf_length _ _ Hwf).
  apply is_node_range in Hp; [|lia]. rewrite UNUSED_value. lia.
Qed.

(** [lz77_tree_contract_node] returns when [new] is the only child of
    [old], or [UNUSED] when [old] has none. *)
Lemma contract_node_returns w t old new :
  well_formed w t -> in_tree w t old -> links t old new ->
  larger (node t old) = UNUSED \/ smaller (node t old) = UNUSED ->
  exists t', lz77_tree_contract_node t old new = Ret t'.
Proof.
  intros Hwf Ho Hl Hone.
  destruct (in_tree_slot _ _ _ Hwf Ho) as (Hor & Hou).
  pose proof (parent_is_node _ _ _ Hwf Ho) as Hp.
  destruct (is_node_slot _ _ _ Hwf Hp) as (Hpr & Hpu).
  destruct (wf_up _ _ Hwf old Ho) as (_ & Hup).
  assert (new <> old) as Hno.
  { intros E. subst new.
    destruct (child_differs _ _ _ _ Hwf Ho Hou Hl) as (_ & _ & A & _). contradiction. }
  assert (new <> UNUSED -> in_tree w t new /\ parent (node t new) = old) as Hchild.
  { intros Hnu. destruct (child_differs _ _ _ _ Hwf Ho Hnu Hl) as (A & B & _). auto. }
  unfold lz77_tree_contract_node.
  rewrite (assert_true (negb (old =? UNUSED)))
    by (destruct (Z.eqb_spec old UNUSED); [contradiction|reflexivity]).
  rewrite (assert_true (negb (new =? old)))
    by (destruct (Z.eqb_spec new old); [contradiction|reflexivity]).
  cbn [seq bind]. rewrite (rd_Ret t old Hor). cbn [bind].
  rewrite (rd_Ret t _ Hpr). cbn [bind].
  rewrite (assert_true ((larger (node t (parent (node t old))) =? old)
                        || (smaller (node t (parent (node t old))) =? old)))
    by (destruct Hup as [A|A]; rewrite A, Z.eqb_refl; [apply orb_true_r|reflexivity]).
  rewrite (assert_true ((larger (node t old) =? new) || (smaller (node t old) =? new)))
    by (destruct Hl as [A|A]; rewrite A, Z.eqb_refl; [apply orb_true_r|reflexivity]).
  rewrite (assert_true ((larger (node t old) =? UNUSED) || (smaller (node t old) =? UNUSED)))
    by (destruct Hone as [A|A]; rewrite A, Z.eqb_refl; [reflexivity|apply orb_true_r]).
  cbn [seq bind].
  assert (exists t1,
             (if new =? UNUSED then Ret tt
              else n <- rd t new ;; assert (parent n =? old)) = Ret tt
             /\ (if negb (new =? UNUSED) then wr_parent t new (parent (node t old))
                 else Ret t) = Ret t1
             /\ length t1 = length t) as (t1 & E0 & E1 & L1).
  { destruct (Z.eqb_spec new UNUSED) as [U|U]; cbn [negb].
    - exists t. auto.
    - destruct (Hchild U) as (Hin & Hpar).
      destruct (in_tree_slot _ _ _ Hwf Hin) as (Hnr & _).
      destruct (wr_parent_returns t new (parent (node t old)) Hnr) as (t1 & E1 & L1).
      exists t1. split; [|auto].
      rewrite (rd_Ret t new Hnr). cbn [bind]. apply assert_true.
      rewrite Hpar. apply Z.eqb_refl. }
  rewrite E0. cbn [seq bind]. rewrite E1. cbn [bind].
  rewrite (rd_Ret t1 (parent (node t old))) by (rewrite L1; exact Hpr). cbn [bind].
  assert (exists t2,
             (if larger (node t1 (parent (node t old))) =? old
              then wr_larger t1 (parent (node t old)) new
              else wr_smaller t1 (parent (node t old)) new) = Ret t2
             /\ length t2 = length t1) as (t2 & E2 & L2).
  { destruct (larger (node t1 (parent (node t old))) =? old).
    - apply wr_larger_returns. rewrite L1. exact Hpr.
    - apply wr_smaller_returns. rewrite L1. exact Hpr. }
  rewrite E2. cbn [bind].
  destruct (wr_parent_returns t2 old UNUSED) as (t3 & E3 & _);
    [rewrite L2, L1; exact Hor|].
  exists t3. exact E3.
Qed.

(** [lz77_tree_replace_node] returns when [old] is in the tree and the
    slot [new] is free. *)
Lemma replace_node_returns w t old new :
  well_formed w t -> in_tree w t old -> 0 <= new < w ->
  parent (node t new) = UNUSED ->
  exists t', lz77_tree_replace_node t old new = Ret t'.
Proof.
  intros Hwf Ho Hn Hfree.
  pose proof (wf_size _ _ Hwf) as Hw. pose proof (wf_length _ _ Hwf) as Hlen.
  destruct (in_tree_slot _ _ _ Hwf Ho) as (Hor & Hou).
  pose proof (parent_is_node _ _ _ Hwf Ho) as Hp.
  destruct (is_node_slot _ _ _ Hwf Hp) as (Hpr & Hpu).
  assert (new <> old) as Hno by (intros ->; destruct Ho; contradiction).
  assert (new <> UNUSED) as Hnu by (rewrite UNUSED_value; lia).
  assert (0 <= new < Z.of_nat (length t)) as Hnr by lia.
  assert (0 <= new < 65536) as Hn16 by lia.
  assert (forall c, c <> UNUSED -> links t old c ->
            0 <= c < Z.of_nat (length t) /\ c <> new) as Hchild.
  { intros c Hc Hl. destruct (child_differs _ _ _ _ Hwf Ho Hc Hl) as (A & _).
    split; [apply (in_tree_slot _ _ _ Hwf A)|].
    intros ->. destruct A. contradiction. }
  unfold lz77_tree_replace_node.
  rewrite (assert_true (negb (old =? UNUSED)))
    by (destruct (Z.eqb_spec old UNUSED); [contradiction|reflexivity]).
  rewrite (assert_true (negb (new =? UNUSED)))
    by (destruct (Z.eqb_spec new UNUSED); [contradiction|reflexivity]).
  rewrite (assert_true (negb (new =? old)))
    by (destruct (Z.eqb_spec new old); [contradiction|reflexivity]).
  cbn [seq bind]. rewrite (rd_Ret t new Hnr). cbn [bind].
  rewrite (assert_true (parent (node t new) =? UNUSED)) by (rewrite Hfree; apply Z.eqb_refl).
  cbn [seq bind]. rewrite (rd_Ret t old Hor). cbn [bind].
  assert (parent (node t old) <> old) as Hpo by (apply (parent_differs _ _ _ Hwf Ho)).
  assert (exists t1,
             (if parent (node t old) =? UNUSED then Ret t
              else p <- rd t (parent (node t old)) ;;
                   if smaller p =? old then wr_smaller t (parent (node t old)) new
                   else wr_larger t (parent (node t old)) new) = Ret t1
             /\ length t1 = length t /\ node t1 old = node t old) as (t1 & E1 & L1 & N1).
  { destruct (Z.eqb_spec (parent (node t old)) UNUSED) as [U|U]; [contradiction|].
    rewrite (rd_Ret t _ Hpr). cbn [bind].
    destruct (smaller (node t (parent (node t old))) =? old).
    - destruct (wr_smaller_returns t (parent (node t old)) new Hpr) as (t1 & E1 & L1).
      exists t1. split; [exact E1|]. split; [exact L1|].
      destruct (wr_smaller_node _ _ _ _ Hn16 E1) as (_ & N). rewrite N.
      destruct (Z.eqb_spec old (parent (node t old))); [congruence|reflexivity].
    - destruct (wr_larger_returns t (parent (node t old)) new Hpr) as (t1 & E1 & L1).
      exists t1. split; [exact E1|]. split; [exact L1|].
      destruct (wr_larger_node _ _ _ _ Hn16 E1) as (_ & N). rewrite N.
      destruct (Z.eqb_spec old (parent (node t old))); [congruence|reflexivity]. }
  rewrite E1. cbn [bind].
  rewrite (rd_Ret t1 old) by (rewrite L1; exact Hor). cbn [bind]. rewrite N1.
  destruct (wr_returns t1 new (node t old)) as (t2 & E2 & L2); [rewrite L1; exact Hnr|].
  rewrite E2. cbn [bind].
  destruct (wr_node _ _ _ _ E2) as (_ & _ & N2).
  rewrite (rd_Ret t2 new) by (rewrite L2, L1; exact Hnr). cbn [bind].
  assert (node t2 new = node t old) as N2n by (rewrite N2, Z.eqb_refl; reflexivity).
  rewrite N2n.
  assert (exists t3,
             (if negb (smaller (node t old) =? UNUSED)
              then wr_parent t2 (smaller (node t old)) new else Ret t2) = Ret t3
             /\ length t3 = length t2 /\ node t3 new = node t old) as (t3 & E3 & L3 & N3).
  { destruct (Z.eqb_spec (smaller (node t old)) UNUSED) as [U|U]; cbn [negb].
    - exists t2. auto.
    - destruct (Hchild _ U (or_introl eq_refl)) as (Hcr & Hcn).
      destruct (wr_parent_returns t2 (smaller (node t old)) new) as (t3 & E3 & L3);
        [rewrite L2, L1; exact Hcr|].
      exists t3. split; [exact E3|]. split; [exact L3|].
      destruct (wr_parent_node _ _ _ _ Hn16 E3) as (_ & N). rewrite N.
      destruct (Z.eqb_spec new (smaller (node t old))); [congruence|exact N2n]. }
  rewrite E3. cbn [bind].
  rewrite (rd_Ret t3 new) by (rewrite L3, L2, L1; exact Hnr). cbn [bind]. rewrite N3.
  assert (exists t4,
             (if negb (larger (node t old) =? UNUSED)
              then wr_parent t3 (larger (node t old)) new else Ret t3) = Ret t4
             /\ length t4 = length t3) as (t4 & E4 & L4).
  { destruct (Z.eqb_spec (larger (node t old)) UNUSED) as [U|U]; cbn [negb].
    - exists t3. auto.
    - destruct (Hchild _ U (or_intror eq_refl)) as (Hcr & Hcn).
      apply wr_parent_returns. rewrite L3, L2, L1. exact Hcr. }
  rewrite E4. cbn [bind].
  destruct (wr_parent_returns t4 old UNUSED) as (t5 & E5 & _);
    [rewrite L4, L3, L2, L1; exact Hor|].
  exists t5. exact E5.
Qed.

(** Counting: a slot further down has fewer slots after it. *)
Lemma filter_length_lt {A} (f g : A -> bool) (c : A) (l : list A) :
  (forall i, f i = true -> g i = true) ->
  In c l -> g c = true -> f c = false ->
  (length (filter f l) < length (filter g l))%nat.
Proof.
  intros Hfg. induction l as [|h l IH]; intros Hin Hg Hf; [destruct Hin|].
  assert (length (filter f l) <= length (filter g l))%nat as Hle.
  { clear -Hfg. induction l as [|a l IH]; [cbn; lia|].
    cbn [filter]. destruct (f a) eqn:Fa.
    - rewrite (Hfg a Fa). cbn [length]. lia.
    - destruct (g a); cbn [length]; lia. }
  cbn [filter]. destruct Hin as [->|Hin].
  - rewrite Hg, Hf. cbn [length]. lia.
  - specialize (IH Hin Hg Hf). destruct (f h) eqn:Fh.
    + rewrite (Hfg h Fh). cbn [length]. lia.
    + destruct (g h); cbn [length]; lia.
Qed.

Lemma in_slots (w i : Z) : 0 <= i < w -> In i (slots w).
Proof.
  intros Hi. unfold slots. apply in_map_iff. exists (Z.to_nat i).
  split; [lia|]. apply in_seq. lia.
Qed.

Lemma above_le (w : Z) (t : list lz77_tree) (rank : Z -> nat) (x : Z) :
  0 <= w -> Z.of_nat (above w t rank x) <= w.
Proof.
  intros Hw. unfold above.
  pose proof (filter_length_le (fun i => used t i && (rank x <? rank i)%nat) (slots w)) as H.
  unfold slots in H at 2. rewrite length_map, length_seq in H. lia.
Qed.

Lemma above_child (w : Z) (t : list lz77_tree) (rank : Z -> nat) (x c : Z) :
  in_tree w t c -> (rank x < rank c)%nat ->
  (above w t rank c < above w t rank x)%nat.
Proof.
  intros Hc Hr. unfold above. apply (filter_length_lt _ _ c).
  - intros i H. apply andb_prop in H. destruct H as [U R].
    rewrite U. cbn [andb]. apply Nat.ltb_lt in R. apply Nat.ltb_lt. lia.
  - apply in_slots. apply (in_tree_range _ _ _ Hc).
  - destruct Hc as [_ Hu]. unfold used.
    destruct (Z.eqb_spec (parent (node t c)) UNUSED); [contradiction|].
    cbn [negb andb]. apply Nat.ltb_lt. exact Hr.
  - rewrite Nat.ltb_irrefl. apply andb_false_r.
Qed.

(** The loop of [lz77_tree_find_next_node] ends before the slots run
    out. *)
Lemma find_next_loop_returns w t (rank : Z -> nat) :
  well_formed w t ->
  (forall i, in_tree w t i -> (rank (parent (node t i)) < rank i)%nat) ->
  forall fuel next,
    in_tree w t next -> (above w t rank next < fuel)%nat ->
    exists r, find_next_loop fuel t next = Ret r.
Proof.
  intros Hwf Hr. induction fuel as [|fuel IH]; intros next Hn Hf; [lia|].
  cbn [find_next_loop].
  rewrite (rd_Ret t next) by (apply (in_tree_slot _ _ _ Hwf Hn)). cbn [bind].
  destruct (Z.eqb_spec (larger (node t next)) UNUSED) as [U|U]; cbn [negb].
  - exists next. reflexivity.
  - destruct (wf_down _ _ Hwf next (larger (node t next)) (or_intror Hn) U
                (or_intror eq_refl)) as [A B].
    apply (IH _ A).
    assert (rank next < rank (larger (node t next)))%nat as R
        by (pose proof (Hr _ A) as R; rewrite B in R; exact R).
    pose proof (above_child w t rank next _ A R). lia.
Qed.

Lemma delete_leaf_returns w t index fuel :
  well_formed w t -> in_tree w t index ->
  smaller (node t index) = UNUSED \/ larger (node t index) = UNUSED ->
  exists t', delete_node_rec (S fuel) t index = Ret t'.
Proof.
  intros Hwf Hi Hone. rewrite delete_node_rec_S.
  destruct (in_tree_slot _ _ _ Hwf Hi) as (Hir & Hiu).
  rewrite (assert_true (negb (index =? UNUSED)))
    by (destruct (Z.eqb_spec index UNUSED); [contradiction|reflexivity]).
  cbn [seq bind]. rewrite (rd_Ret t index Hir). cbn [bind].
  destruct (Z.eqb_spec (parent (node t index)) UNUSED) as [U|_]; [destruct Hi; contradiction|].
  destruct (Z.eqb_spec (smaller (node t index)) UNUSED) as [Sm|Sm]; cbn [negb andb].
  - apply (contract_node_returns w); [exact Hwf|exact Hi|right; reflexivity|right; exact Sm].
  - destruct (Z.eqb_spec (larger (node t index)) UNUSED) as [L|L]; cbn [negb];
      [|destruct Hone; contradiction].
    apply (contract_node_returns w); [exact Hwf|exact Hi|left; reflexivity|left; exact L].
Qed.

(** [lz77_tree_delete_node] returns on every slot of a tree in shape. *)
Lemma delete_node_returns w t index :
  well_formed w t -> 0 <= index < w ->
  exists t', lz77_tree_delete_node t index = Ret t'.
Proof.
  intros Hwf Hr. unfold lz77_tree_delete_node.
  pose proof (wf_size _ _ Hwf) as Hw. pose proof (wf_length _ _ Hwf) as Hlen.
  destruct (Z.eq_dec (parent (node t index)) UNUSED) as [U|U].
  { rewrite delete_node_rec_S.
    rewrite (assert_true (negb (index =? UNUSED)))
      by (rewrite UNUSED_value; destruct (Z.eqb_spec index 65535); [lia|reflexivity]).
    cbn [seq bind]. rewrite (rd_Ret t index) by lia. cbn [bind].
    rewrite U, Z.eqb_refl. exists t. reflexivity. }
  assert (in_tree w t index) as Hi by (split; assumption).
  destruct (Z.eq_dec (smaller (node t index)) UNUSED) as [Sm|Sm].
  { apply (delete_leaf_returns w); auto. }
  destruct (Z.eq_dec (larger (node t index)) UNUSED) as [L|L].
  { apply (delete_leaf_returns w); auto. }
  rewrite delete_node_rec_S.
  destruct (in_tree_slot _ _ _ Hwf Hi) as (Hir & Hiu).
  rewrite (assert_true (negb (index =? UNUSED)))
    by (destruct (Z.eqb_spec index UNUSED); [contradiction|reflexivity]).
  cbn [seq bind]. rewrite (rd_Ret t index Hir). cbn [bind].
  destruct (Z.eqb_spec (parent (node t index)) UNUSED) as [C|_]; [contradiction|].
  destruct (Z.eqb_spec (smaller (node t index)) UNUSED) as [C|_]; [contradiction|].
  destruct (Z.eqb_spec (larger (node t index)) UNUSED) as [C|_]; [contradiction|].
  cbn [negb andb].
  destruct (wf_rank _ _ Hwf) as [rank Hrank].
  destruct (wf_down _ _ Hwf index (smaller (node t index)) (or_intror Hi) Sm
              (or_introl eq_refl)) as [A B].
  assert (rank index < rank (smaller (node t index)))%nat as R
      by (pose proof (Hrank _ A) as R; rewrite B in R; exact R).
  destruct (find_next_loop_returns w t rank Hwf Hrank (S (length t))
              (smaller (node t index)) A) as (r & F).
  { pose proof (above_le w t rank (smaller (node t index)) ltac:(lia)). lia. }
  unfold lz77_tree_find_next_node.
  rewrite (assert_true (negb (index =? UNUSED)))
    by (destruct (Z.eqb_spec index UNUSED); [contradiction|reflexivity]).
  cbn [seq bind]. rewrite (rd_Ret t index Hir). cbn [bind]. rewrite F. cbn [bind].
  destruct (find_next_loop_ok _ _ rank (rank index) Hwf Hrank _ _ _ A R F)
    as (Hrin & HrL & Rr).
  assert (r <> index) as Hri by (intros ->; lia).
  destruct (delete_leaf_returns w t r 0 Hwf Hrin (or_intror HrL)) as (t1 & D).
  rewrite D. cbn [bind].
  destruct (delete_leaf_ok _ _ _ _ _ Hwf Hrin (or_intror HrL) D) as [Hwf1 Hmem1].
  assert (in_tree w t1 index) as Hi1 by (apply Hmem1; auto).
  apply (replace_node_returns w); [exact Hwf1|exact Hi1|apply (in_tree_range _ _ _ Hrin)|].
  destruct (Z.eq_dec (parent (node t1 r)) UNUSED) as [E|E]; [exact E|].
  exfalso. assert (in_tree w t1 r) as X by (split; [apply (in_tree_range _ _ _ Hrin)|exact E]).
  apply Hmem1 in X. destruct X as [_ X]. contradiction.
Qed.

(** ** [lz77_find_and_add] returns *)

Lemma contract_node_rooted w t old new t' :
  well_formed w t -> in_tree w t old -> rooted w t ->
  lz77_tree_contract_node t old new = Ret t' -> rooted w t'.
Proof.
  intros Hwf Ho Hroot H. unfold rooted in *.
  destruct (contract_node_fields _ _ _ _ _ Hwf Ho H) as (_ & _ & Hoth & Hpair).
  cbv zeta in Hoth, Hpair.
  destruct (Z.eq_dec w (parent (node t old))) as [E|E].
  - rewrite <- E in Hpair.
    destruct (wf_up _ _ Hwf old Ho) as (_ & [A|A]); rewrite <- E in A.
    + destruct (in_tree_slot _ _ _ Hwf Ho) as (_ & Hou). congruence.
    + rewrite A, Z.eqb_refl in Hpair. congruence.
  - rewrite (proj1 (Hoth w E)). exact Hroot.
Qed.

Lemma replace_node_rooted w t old new t' :
  well_formed w t -> in_tree w t old -> 0 <= new < w -> rooted w t ->
  lz77_tree_replace_node t old new = Ret t' -> rooted w t'.
Proof.
  intros Hwf Ho Hn Hroot H. unfold rooted in *.
  destruct (replace_node_fields _ _ _ _ _ Hwf Ho Hn H)
    as (_ & _ & _ & _ & _ & _ & Hoth & _ & _ & Hpair).
  cbv zeta in Hoth, Hpair.
  destruct (in_tree_slot _ _ _ Hwf Ho) as (_ & Hou).
  destruct (Z.eq_dec w (parent (node t old))) as [E|E].
  - rewrite <- E in Hpair. rewrite Hroot in Hpair.
    destruct (Z.eqb_spec UNUSED old) as [C|_]; [congruence|]. congruence.
  - rewrite (proj1 (Hoth w E ltac:(lia))). exact Hroot.
Qed.

Lemma delete_leaf_rooted w t index fuel t' :
  well_formed w t -> in_tree w t index -> rooted w t ->
  smaller (node t index) = UNUSED \/ larger (node t index) = UNUSED ->
  delete_node_rec (S fuel) t index = Ret t' -> rooted w t'.
Proof.
  intros Hwf Hi Hroot Hone H. rewrite delete_node_rec_S in H.
  destruct (assert (negb (index =? UNUSED))); [|discriminate]. cbn [bind] in H.
  destruct (rd t index) as [n|] eqn:E; [|discriminate]. cbn [bind] in H.
  apply rd_node in E. destruct E as [_ ->].
  destruct (Z.eqb_spec (parent (node t index)) UNUSED) as [U|_]; [destruct Hi; contradiction|].
  destruct (Z.eqb_spec (smaller (node t index)) UNUSED) as [Sm|Sm]; cbn [negb andb] in H.
  - apply (contract_node_rooted _ _ _ _ _ Hwf Hi Hroot H).
  - destruct (Z.eqb_spec (larger (node t index)) UNUSED) as [L|L]; cbn [negb] in H;
      [|destruct Hone; contradiction].
    apply (contract_node_rooted _ _ _ _ _ Hwf Hi Hroot H).
Qed.

Lemma delete_node_rooted w t index t' :
  well_formed w t -> 0 <= index < w -> rooted w t ->
  lz77_tree_delete_node t index = Ret t' -> rooted w t'.
Proof.
  intros Hwf Hr Hroot H. unfold lz77_tree_delete_node in H.
  pose proof H as H0. rewrite delete_node_rec_S in H.
  destruct (assert (negb (index =? UNUSED))); [|discriminate]. cbn [bind] in H.
  destruct (rd t index) as [n|] eqn:E; [|discriminate]. cbn [bind] in H.
  apply rd_node in E. destruct E as [_ ->].
  destruct (Z.eqb_spec (parent (node t index)) UNUSED) as [U|U].
  { injection H as <-. exact Hroot. }
  assert (in_tree w t index) as Hi by (split; assumption).
  destruct (Z.eqb_spec (smaller (node t index)) UNUSED) as [Sm|Sm]; cbn [negb andb] in H.
  { apply (delete_leaf_rooted _ _ _ _ _ Hwf Hi Hroot (or_introl Sm) H0). }
  destruct (Z.eqb_spec (larger (node t index)) UNUSED) as [L|L]; cbn [negb] in H.
  { apply (delete_leaf_rooted _ _ _ _ _ Hwf Hi Hroot (or_intror L) H0). }
  clear H0.
  destruct (lz77_tree_find_next_node t index) as [r|] eqn:F; [|discriminate].
  cbn [bind] in H.
  destruct (delete_node_rec 1 t r) as [t1|] eqn:D; [|discriminate]. cbn [bind] in H.
  unfold lz77_tree_find_next_node in F.
  destruct (assert (negb (index =? UNUSED))); [|discriminate]. cbn [bind] in F.
  destruct (rd t index) as [n|] eqn:E; [|discriminate]. cbn [bind] in F.
  apply rd_node in E. destruct E as [_ ->].
  destruct (wf_rank _ _ Hwf) as [rank Hrank].
  destruct (wf_down _ _ Hwf index (smaller (node t index)) (or_intror Hi) Sm
              (or_introl eq_refl)) as [A B].
  assert (rank index < rank (smaller (node t index)))%nat as R
      by (pose proof (Hrank _ A) as R; rewrite B in R; exact R).
  destruct (find_next_loop_ok _ _ rank (rank index) Hwf Hrank _ _ _ A R F)
    as (Hrin & HrL & Rr).
  assert (r <> index) as Hri by (intros ->; lia).
  destruct (delete_leaf_ok _ _ _ _ _ Hwf Hrin (or_intror HrL) D) as [Hwf1 Hmem1].
  pose proof (delete_leaf_rooted _ _ _ _ _ Hwf Hrin Hroot (or_intror HrL) D) as Hroot1.
  assert (in_tree w t1 index) as Hi1 by (apply Hmem1; auto).
  apply (replace_node_rooted _ _ _ _ _ Hwf1 Hi1 (in_tree_range _ _ _ Hrin) Hroot1 H).
Qed.

(** Every slot of the tree hangs below the larger child of the root. *)
Lemma root_larger_in_tree w t x :
  well_formed w t -> rooted w t -> in_tree w t x ->
  in_tree w t (larger (node t w)).
Proof.
  intros Hwf Hroot. destruct (wf_rank _ _ Hwf) as [rank Hrank].
  remember (rank x) as n eqn:En. revert x En.
  induction n as [n IH] using lt_wf_ind. intros x En Hx.
  destruct (wf_up _ _ Hwf x Hx) as ([Ep|Hp] & Hl).
  - rewrite Ep in Hl. destruct Hl as [A|A].
    + unfold rooted in Hroot. rewrite Hroot in A.
      destruct (in_tree_slot _ _ _ Hwf Hx) as (_ & Hxu). congruence.
    + rewrite A. exact Hx.
  - assert (rank (parent (node t x)) < n)%nat as Hlt by (pose proof (Hrank x Hx); lia).
    exact (IH _ Hlt (parent (node t x)) eq_refl Hp).
Qed.

(** The inner loop stays within the data when both the look-ahead buffer
    and the compared position do. *)
Lemma compare_loop_returns (n : nat) (d : list Z) (la wk : Z) :
  forall i,
    0 <= la + i -> 0 <= wk + i ->
    la + i + Z.of_nat n <= Z.of_nat (length d) ->
    wk + i + Z.of_nat n <= Z.of_nat (length d) ->
    exists r, compare_loop n d la wk i = Ret r.
Proof.
  induction n as [|n IH]; intros i H1 H2 H3 H4.
  - eexists. reflexivity.
  - cbn [compare_loop].
    rewrite (rd_ok d (la + i) 0) by lia. cbn [bind].
    rewrite (rd_ok d (wk + i) 0) by lia. cbn [bind].
    destruct (negb _).
    + eexists. reflexivity.
    + apply IH; lia.
Qed.

(** The four stores that hang the slot [curr] below [test] return and
    leave the root alone. *)
Lemma insert_leaf_returns w t test delta curr :
  0 <= test < w -> 0 <= curr < w -> w < Z.of_nat (length t) -> w <= 65534 ->
  exists t',
    (t1 <- wr_child t test delta curr ;;
     t2 <- wr_parent t1 curr test ;;
     t3 <- wr_larger t2 curr UNUSED ;;
     wr_smaller t3 curr UNUSED) = Ret t'
    /\ node t' w = node t w.
Proof.
  intros Ht Hc Hlen Hw.
  assert (0 <= UNUSED < 65536) as Hu by (rewrite UNUSED_value; lia).
  assert (0 <= curr < 65536) as Hc16 by lia.
  assert (0 <= test < 65536) as Ht16 by lia.
  assert (exists t1, wr_child t test delta curr = Ret t1 /\ length t1 = length t
                     /\ node t1 w = node t w) as (t1 & E1 & L1 & N1).
  { unfold wr_child. destruct (0 <? delta).
    - destruct (wr_larger_returns t test curr ltac:(lia)) as (t1 & E1 & L1).
      exists t1. split; [exact E1|]. split; [exact L1|].
      destruct (wr_larger_node _ _ _ _ Hc16 E1) as (_ & N). rewrite N.
      destruct (Z.eqb_spec w test); [lia|reflexivity].
    - destruct (wr_smaller_returns t test curr ltac:(lia)) as (t1 & E1 & L1).
      exists t1. split; [exact E1|]. split; [exact L1|].
      destruct (wr_smaller_node _ _ _ _ Hc16 E1) as (_ & N). rewrite N.
      destruct (Z.eqb_spec w test); [lia|reflexivity]. }
  rewrite E1. cbn [bind].
  destruct (wr_parent_returns t1 curr test ltac:(lia)) as (t2 & E2 & L2).
  destruct (wr_parent_node _ _ _ _ Ht16 E2) as (_ & N2).
  rewrite E2. cbn [bind].
  destruct (wr_larger_returns t2 curr UNUSED ltac:(lia)) as (t3 & E3 & L3).
  destruct (wr_larger_node _ _ _ _ Hu E3) as (_ & N3).
  rewrite E3. cbn [bind].
  destruct (wr_smaller_returns t3 curr UNUSED ltac:(lia)) as (t4 & E4 & L4).
  destruct (wr_smaller_node _ _ _ _ Hu E4) as (_ & N4).
  exists t4. split; [exact E4|].
  rewrite (N4 w). destruct (Z.eqb_spec w curr) as [C|_]; [lia|].
  rewrite (N3 w). destruct (Z.eqb_spec w curr) as [C|_]; [lia|].
  rewrite (N2 w). destruct (Z.eqb_spec w curr) as [C|_]; [lia|].
  exact N1.
Qed.

Lemma used_in_tree w t i : 0 <= i < w -> (used t i = true <-> in_tree w t i).
Proof.
  intros Hi. unfold used, in_tree.
  destruct (Z.eqb_spec (parent (node t i)) UNUSED) as [E|E]; cbn [negb]; split.
  - discriminate.
  - intros [_ A]. contradiction.
  - intros _. split; assumption.
  - reflexivity.
Qed.

(** The outer loop of [lz77_find_and_add]: every turn goes one level down
    the tree; the slot [curr] is deleted at most once, after which the
    way down starts again in the new tree. *)
Lemma find_and_add_loop_returns u curr begin :
  0 <= curr < us_window_maxsize u -> 0 <= begin < us_window_maxsize u ->
  1 <= us_lookahead_currsize u ->
  0 <= us_window u -> 0 <= us_lookahead u ->
  us_lookahead u + us_lookahead_currsize u <= Z.of_nat (length (us_data u)) ->
  forall fuel t test longest offset,
    well_formed (us_window_maxsize u) t -> rooted (us_window_maxsize u) t ->
    (forall s, in_tree (us_window_maxsize u) t s ->
       us_window u + (if s - begin <? 0 then s - begin + us_window_maxsize u else s - begin)
       <= us_lookahead u) ->
    in_tree (us_window_maxsize u) t test ->
    0 <= longest < us_lookahead_currsize u ->
    (exists rank,
        (forall i, in_tree (us_window_maxsize u) t i ->
           (rank (parent (node t i)) < rank i)%nat)
        /\ Z.of_nat (above (us_window_maxsize u) t rank test)
           + (if used t curr then us_window_maxsize u + 1 else 0) < Z.of_nat fuel) ->
    exists longest' offset' t',
      find_and_add_loop fuel u curr begin t test longest offset = Ret (longest', offset', t')
      /\ rooted (us_window_maxsize u) t'.
Proof.
  intros Hcurr Hbegin Hla1 Hwin Hla0 Hdata. set (w := us_window_maxsize u) in *.
  induction fuel as [|fuel IH];
    intros t test longest offset Hwf Hroot Hslots Htest Hlg Hfuel.
  { destruct Hfuel as (rank & _ & F). destruct (used t curr); lia. }
  pose proof (wf_size _ _ Hwf) as Hw.
  pose proof (wf_length _ _ Hwf) as Hlen.
  pose proof (in_tree_range _ _ _ Htest) as Htr.
  rewrite find_and_add_loop_S. cbv zeta. fold w.
  set (k := if test - begin <? 0 then test - begin + w else test - begin).
  assert (0 <= k < w) as Hk by (subst k; destruct (Z.ltb_spec (test - begin) 0); lia).
  pose proof (Hslots test Htest) as Hpos. fold k in Hpos.
  destruct (compare_loop_returns (Z.to_nat (us_lookahead_currsize u)) (us_data u)
              (us_lookahead u) (us_window u + k) 0) as ([i delta] & Ecmp); try lia.
  rewrite Ecmp. cbn [bind].
  destruct (compare_loop_ok _ _ _ _ _ _ _ Ecmp) as (Hi & _ & Hdiff & _).
  assert (i < us_lookahead_currsize u -> delta <> 0) as Hdelta.
  { intros C. destruct Hdiff as (a & b & _ & _ & -> & Hab); lia. }
  (* going down from [test], or hanging [curr] below it *)
  assert (forall lg off, 0 <= lg < us_lookahead_currsize u -> delta <> 0 ->
            exists longest' offset' t',
              (assert (negb (delta =? 0)) ;;;
               n <- rd t test ;;
               if child_of n delta =? UNUSED then
                 if test =? curr then Ret (lg, off, t)
                 else
                   c <- rd t curr ;;
                   t <- (if negb (parent c =? UNUSED) then lz77_tree_delete_node t curr
                         else Ret t) ;;
                   n <- rd t test ;;
                   if child_of n delta =? UNUSED then
                     t <- wr_child t test delta curr ;;
                     t <- wr_parent t curr test ;;
                     t <- wr_larger t curr UNUSED ;;
                     t <- wr_smaller t curr UNUSED ;;
                     Ret (lg, off, t)
                   else find_and_add_loop fuel u curr begin t (child_of n delta) lg off
               else find_and_add_loop fuel u curr begin t (child_of n delta) lg off)
              = Ret (longest', offset', t')
              /\ rooted w t') as Hdown.
  { intros lg off Hlg' Hd.
    rewrite (assert_true (negb (delta =? 0)))
      by (destruct (Z.eqb_spec delta 0); [contradiction|reflexivity]).
    cbn [seq bind].
    rewrite (rd_Ret t test) by lia. cbn [bind].
    destruct (Z.eqb_spec (child_of (node t test) delta) UNUSED) as [Ech|Ech].
    - destruct (Z.eqb_spec test curr) as [Etc|Etc].
      { exists lg, off, t. split; [reflexivity|exact Hroot]. }
      rewrite (rd_Ret t curr) by lia. cbn [bind].
      destruct (Z.eqb_spec (parent (node t curr)) UNUSED) as [Uc|Uc]; cbn [negb bind].
      + rewrite (rd_Ret t test) by lia. cbn [bind].
        destruct (Z.eqb_spec (child_of (node t test) delta) UNUSED) as [_|C];
          [|contradiction].
        destruct (insert_leaf_returns w t test delta curr Htr Hcurr ltac:(lia) ltac:(lia))
          as (t' & E & N).
        unfold bind in E |- *.
        destruct (wr_child t test delta curr) as [t1|]; [|discriminate E].
        destruct (wr_parent t1 curr test) as [t2|]; [|discriminate E].
        destruct (wr_larger t2 curr UNUSED) as [t3|]; [|discriminate E].
        rewrite E. exists lg, off, t'. split; [reflexivity|].
        unfold rooted. rewrite N. exact Hroot.
      + destruct (delete_node_returns w t curr Hwf Hcurr) as (t1 & D).
        rewrite D. cbn [bind].
        destruct (delete_node_ok _ _ _ _ Hwf Hcurr D) as [Hwf1 Hmem1].
        pose proof (delete_node_rooted _ _ _ _ Hwf Hcurr Hroot D) as Hroot1.
        pose proof (wf_length _ _ Hwf1) as Hlen1.
        assert (in_tree w t1 test) as Htest1 by (apply Hmem1; auto).
        rewrite (rd_Ret t1 test) by lia. cbn [bind].
        destruct (Z.eqb_spec (child_of (node t1 test) delta) UNUSED) as [Ech1|Ech1].
        * destruct (insert_leaf_returns w t1 test delta curr Htr Hcurr ltac:(lia) ltac:(lia))
            as (t' & E & N).
          unfold bind in E |- *.
          destruct (wr_child t1 test delta curr) as [t2|]; [|discriminate E].
          destruct (wr_parent t2 curr test) as [t3|]; [|discriminate E].
          destruct (wr_larger t3 curr UNUSED) as [t4|]; [|discriminate E].
          rewrite E. exists lg, off, t'. split; [reflexivity|].
          unfold rooted. rewrite N. exact Hroot1.
        * destruct (wf_down _ _ Hwf1 test _ (or_intror Htest1) Ech1
                      (child_of_links _ t1 test delta eq_refl)) as [Hc1 _].
          apply (IH t1 _ lg off Hwf1 Hroot1); [|exact Hc1|exact Hlg'|].
          -- intros s A. apply Hslots. apply Hmem1 in A. tauto.
          -- destruct (wf_rank _ _ Hwf1) as [rank1 Hrank1].
             exists rank1. split; [exact Hrank1|].
             assert (used t1 curr = false) as ->.
             { destruct (used t1 curr) eqn:E; [|reflexivity].
               apply (used_in_tree w) in E; [|exact Hcurr].
               apply Hmem1 in E. tauto. }
             assert (used t curr = true) as Hused
                 by (apply (used_in_tree w); [exact Hcurr|split; [exact Hcurr|exact Uc]]).
             destruct Hfuel as (rank & _ & F). rewrite Hused in F.
             pose proof (above_le w t1 rank1 (child_of (node t1 test) delta) ltac:(lia)).
             lia.
    - destruct (wf_down _ _ Hwf test _ (or_intror Htest) Ech
                  (child_of_links _ t test delta eq_refl)) as [Hc Hcp].
      apply (IH t _ lg off Hwf Hroot Hslots Hc Hlg').
      destruct Hfuel as (rank & Hrank & F). exists rank. split; [exact Hrank|].
      assert (rank test < rank (child_of (node t test) delta))%nat as R
          by (pose proof (Hrank _ Hc) as R; rewrite Hcp in R; exact R).
      pose proof (above_child w t rank test _ Hc R). lia. }
  destruct (Z.ltb_spec longest i) as [Fnd|NF]; cbn [andb].
  - destruct (Z.eqb_spec i (us_lookahead_currsize u)) as [All|NotAll].
    + destruct (Z.eqb_spec test curr) as [Etc|Etc]; cbn [negb].
      { exists i, (u16 k), t. split; [reflexivity|exact Hroot]. }
      destruct (delete_node_returns w t curr Hwf Hcurr) as (t1 & D).
      rewrite D. cbn [bind].
      destruct (delete_node_ok _ _ _ _ Hwf Hcurr D) as [Hwf1 Hmem1].
      pose proof (delete_node_rooted _ _ _ _ Hwf Hcurr Hroot D) as Hroot1.
      assert (in_tree w t1 test) as Htest1 by (apply Hmem1; auto).
      assert (parent (node t1 curr) = UNUSED) as Hfree.
      { destruct (Z.eq_dec (parent (node t1 curr)) UNUSED) as [E|E]; [exact E|].
        exfalso. assert (in_tree w t1 curr) as X by (split; assumption).
        apply Hmem1 in X. tauto. }
      destruct (replace_node_returns w t1 test curr Hwf1 Htest1 Hcurr Hfree) as (t' & R).
      rewrite R. cbn [bind]. exists i, (u16 k), t'. split; [reflexivity|].
      apply (replace_node_rooted _ _ _ _ _ Hwf1 Htest1 Hcurr Hroot1 R).
    + apply (Hdown i (u16 k)); [lia|apply Hdelta; lia].
  - apply (Hdown longest offset); [lia|apply Hdelta; lia].
Qed.

(** [lz77_find_and_add] returns on a tree in shape that is not empty, when
    the compared positions lie in the data. *)
Lemma find_and_add_returns (u : lz77_ustream) (curr offset : Z) :
  well_formed (us_window_maxsize u) (us_tree u) ->
  rooted (us_window_maxsize u) (us_tree u) ->
  (exists x, in_tree (us_window_maxsize u) (us_tree u) x) ->
  0 <= curr < us_window_maxsize u ->
  1 <= us_lookahead_currsize u ->
  0 <= us_window u -> 0 <= us_lookahead u ->
  us_lookahead u + us_lookahead_currsize u <= Z.of_nat (length (us_data u)) ->
  (forall s, in_tree (us_window_maxsize u) (us_tree u) s ->
     us_window u
     + (if s - us_window u mod us_window_maxsize u <? 0
        then s - us_window u mod us_window_maxsize u + us_window_maxsize u
        else s - us_window u mod us_window_maxsize u)
     <= us_lookahead u) ->
  exists longest offset' u',
    lz77_find_and_add u curr offset = Ret (longest, offset', u')
    /\ rooted (us_window_maxsize u) (us_tree u').
Proof.
  intros Hwf Hroot (x & Hx) Hcurr Hla1 Hwin Hla0 Hdata Hslots.
  pose proof (wf_size _ _ Hwf) as Hw. pose proof (wf_length _ _ Hwf) as Hlen.
  unfold lz77_find_and_add.
  rewrite (assert_true ((0 <=? curr) && (curr <? us_window_maxsize u)))
    by (apply andb_true_intro; split; [apply Z.leb_le|apply Z.ltb_lt]; lia).
  cbn [seq bind]. rewrite (rd_Ret (us_tree u) (us_window_maxsize u)) by lia.
  cbn [bind]. rewrite Z.rem_mod_nonneg by lia.
  assert (0 <= us_window u mod us_window_maxsize u < us_window_maxsize u) as Hb
      by (apply Z.mod_pos_bound; lia).
  destruct (wf_rank _ _ Hwf) as [rank Hrank].
  destruct (find_and_add_loop_returns u curr _ Hcurr Hb Hla1 Hwin Hla0 Hdata
              (2 * length (us_tree u) + 2) (us_tree u)
              (larger (node (us_tree u) (us_window_maxsize u))) 0 offset Hwf Hroot Hslots)
    as (lg & off & t' & E & Hroot').
  - apply (root_larger_in_tree _ _ x Hwf Hroot Hx).
  - lia.
  - exists rank. split; [exact Hrank|].
    pose proof (above_le (us_window_maxsize u) (us_tree u) rank
                  (larger (node (us_tree u) (us_window_maxsize u))) ltac:(lia)).
    destruct (used (us_tree u) curr); lia.
  - rewrite E. cbn [bind]. exists lg, off, (set_us_tree u t').
    split; [reflexivity|]. exact Hroot'.
Qed.

(** ** [ustream_find_and_advance] returns *)

(** The offset [lz77_find_and_add] computes for the slot of a position of
    the window is the offset of this position. *)
Lemma window_offset_of_slot (u : lz77_ustream) (s : Z) :
  view_ok u -> window_slot u s ->
  us_window u
  + (if s - us_window u mod us_window_maxsize u <? 0
     then s - us_window u mod us_window_maxsize u + us_window_maxsize u
     else s - us_window u mod us_window_maxsize u)
  < us_lookahead u.
Proof.
  intros (Hw & _ & Hwin & Hsz & Hla & Hfill) (p & Hp & Hs).
  set (w := us_window_maxsize u) in *. set (b := us_window u mod w).
  pose proof (Z.div_mod p w ltac:(lia)) as Dp.
  pose proof (Z.div_mod (us_window u) w ltac:(lia)) as Dw.
  pose proof (Z.mod_pos_bound p w ltac:(lia)) as Bp.
  pose proof (Z.mod_pos_bound (us_window u) w ltac:(lia)) as Bw.
  fold b in Dw, Bw. rewrite Hs in Dp, Bp.
  set (q := p / w - us_window u / w).
  assert (w * q = p - us_window u - (s - b)) as Hq by (subst q; nia).
  destruct (Z.ltb_spec (s - b) 0) as [C|C].
  - assert (q = 1) by nia. nia.
  - assert (q = 0) by nia. nia.
Qed.

Lemma clear_slots_returns (n : nat) :
  forall t i,
    0 <= i -> i + Z.of_nat n <= Z.of_nat (length t) ->
    exists t', clear_slots n t i = Ret t'.
Proof.
  induction n as [|n IH]; intros t i Hi Hn.
  - exists t. reflexivity.
  - cbn [clear_slots].
    destruct (wr_parent_returns t i UNUSED ltac:(lia)) as (t1 & E1 & L1).
    rewrite E1. cbn [bind].
    destruct (wr_larger_returns t1 i UNUSED ltac:(lia)) as (t2 & E2 & L2).
    rewrite E2. cbn [bind].
    destruct (wr_smaller_returns t2 i UNUSED ltac:(lia)) as (t3 & E3 & L3).
    rewrite E3. cbn [bind].
    apply IH; lia.
Qed.

(** The first call: [seed_tree] returns and gives the root no smaller
    child. *)
Lemma seed_tree_returns (u : lz77_ustream) :
  2 <= us_window_maxsize u <= 65534 ->
  Z.of_nat (length (us_tree u)) = us_window_maxsize u + 1 ->
  rooted (us_window_maxsize u) (us_tree u) ->
  exists u', seed_tree u = Ret u' /\ rooted (us_window_maxsize u) (us_tree u').
Proof.
  intros Hw Hlen Hroot. unfold seed_tree. cbv zeta.
  set (w := us_window_maxsize u) in *.
  assert (0 <= UNUSED < 65536) as Hu by (rewrite UNUSED_value; lia).
  assert (0 <= 0 < 65536) as H0 by lia.
  assert (0 <= w < 65536) as Hw16 by lia.
  destruct (wr_larger_returns (us_tree u) w 0 ltac:(lia)) as (t1 & E1 & L1).
  rewrite E1. cbn [bind].
  destruct (wr_larger_node _ _ _ _ H0 E1) as (_ & N1).
  destruct (wr_parent_returns t1 0 w ltac:(lia)) as (t2 & E2 & L2).
  rewrite E2. cbn [bind].
  destruct (wr_parent_node _ _ _ _ Hw16 E2) as (_ & N2).
  destruct (wr_larger_returns t2 0 UNUSED ltac:(lia)) as (t3 & E3 & L3).
  rewrite E3. cbn [bind].
  destruct (wr_larger_node _ _ _ _ Hu E3) as (_ & N3).
  destruct (wr_smaller_returns t3 0 UNUSED ltac:(lia)) as (t4 & E4 & L4).
  rewrite E4. cbn [bind].
  destruct (wr_smaller_node _ _ _ _ Hu E4) as (_ & N4).
  destruct (clear_slots_returns (Z.to_nat (w - 1)) t4 1 ltac:(lia) ltac:(lia)) as (t5 & E5).
  rewrite E5. cbn [bind].
  destruct (clear_slots_node _ _ _ _ E5) as (_ & N5).
  eexists. split; [reflexivity|]. us_simpl. unfold rooted in *.
  rewrite (N5 w).
  replace ((1 <=? w) && (w <? 1 + Z.of_nat (Z.to_nat (w - 1)))) with false
    by (symmetry; apply andb_false_intro2; apply Z.ltb_ge; lia).
  rewrite (N4 w). destruct (Z.eqb_spec w 0) as [C|_]; [lia|].
  rewrite (N3 w). destruct (Z.eqb_spec w 0) as [C|_]; [lia|].
  rewrite (N2 w). destruct (Z.eqb_spec w 0) as [C|_]; [lia|].
  rewrite (N1 w), Z.eqb_refl. cbn [smaller]. exact Hroot.
Qed.

(** The window and the look-ahead buffer move by one byte: the three
    assertions hold. *)
Lemma slide_returns (u : lz77_ustream) :
  view_ok u -> lookahead_ok u -> 1 <= us_lookahead_currsize u ->
  us_end u <= us_size u -> us_lookahead_currsize u <= us_lookahead_maxsize u ->
  exists u',
    (let u1 := if us_window_currsize u =? us_window_maxsize u
               then set_us_view u (us_window u + 1) (us_window_currsize u)
                      (us_lookahead u) (us_lookahead_currsize u)
               else set_us_view u (us_window u) (u16 (us_window_currsize u + 1))
                      (us_lookahead u) (us_lookahead_currsize u) in
     assert (us_window_currsize u1 <=? us_window_maxsize u1) ;;;
     assert (us_window u1 + us_window_currsize u1 <=? us_size u1) ;;;
     let u2 := set_us_view u1 (us_window u1) (us_window_currsize u1)
                 (us_lookahead u1 + 1) (us_lookahead_currsize u1) in
     let data_end := us_end u2 in
     let lkah_end := us_lookahead u2 + us_lookahead_currsize u2 in
     if data_end <? lkah_end then
       assert (lkah_end =? data_end + 1) ;;;
       let eof := us_lookahead_currsize u2 <? us_lookahead_maxsize u2 in
       let canmove := 0 <? us_window u2 in
       u3 <- (if (0 <=? us_fd u2) && negb eof && canmove then refill u2
              else Ret (set_us_view u2 (us_window u2) (us_window_currsize u2)
                          (us_lookahead u2) (u16 (us_lookahead_currsize u2 - 1)))) ;;
       assert (us_lookahead_currsize u3 <=? us_lookahead_maxsize u3) ;;;
       Ret u3
     else Ret u2) = Ret u'
    /\ us_lookahead_currsize u' <= us_lookahead_maxsize u'
    /\ us_lookahead_maxsize u' = us_lookahead_maxsize u.
Proof.
  intros (Hw & Hfd & Hwin & Hsz & Hla & Hfill) (Hlcs & Hle) H1 Hes Hmax. cbv zeta.
  assert ((0 <=? us_fd u) = false) as Efd by (apply Z.leb_gt; exact Hfd).
  destruct (Z.eqb_spec (us_window_currsize u) (us_window_maxsize u)) as [E|E]; us_simpl;
    rewrite ?u16_small by (change (2 ^ 16) with 65536; lia);
    rewrite Efd; cbn [andb].
  - rewrite (assert_true (us_window_currsize u <=? us_window_maxsize u))
      by (apply Z.leb_le; lia).
    cbn [seq bind].
    rewrite (assert_true (us_window u + 1 + us_window_currsize u <=? us_size u))
      by (apply Z.leb_le; lia).
    cbn [seq bind].
    destruct (Z.ltb_spec (us_end u) (us_lookahead u + 1 + us_lookahead_currsize u)) as [L|L].
    + rewrite (assert_true (us_lookahead u + 1 + us_lookahead_currsize u =? us_end u + 1))
        by (apply Z.eqb_eq; lia).
      cbn [seq bind]. us_simpl.
      rewrite ?u16_small by (change (2 ^ 16) with 65536; lia).
      rewrite (assert_true (us_lookahead_currsize u - 1 <=? us_lookahead_maxsize u))
        by (apply Z.leb_le; lia).
      cbn [seq bind]. eexists. split; [reflexivity|]. us_simpl. lia.
    + eexists. split; [reflexivity|]. us_simpl. lia.
  - rewrite (assert_true (us_window_currsize u + 1 <=? us_window_maxsize u))
      by (apply Z.leb_le; lia).
    cbn [seq bind].
    rewrite (assert_true (us_window u + (us_window_currsize u + 1) <=? us_size u))
      by (apply Z.leb_le; lia).
    cbn [seq bind].
    destruct (Z.ltb_spec (us_end u) (us_lookahead u + 1 + us_lookahead_currsize u)) as [L|L].
    + rewrite (assert_true (us_lookahead u + 1 + us_lookahead_currsize u =? us_end u + 1))
        by (apply Z.eqb_eq; lia).
      cbn [seq bind]. us_simpl.
      rewrite ?u16_small by (change (2 ^ 16) with 65536; lia).
      rewrite (assert_true (us_lookahead_currsize u - 1 <=? us_lookahead_maxsize u))
        by (apply Z.leb_le; lia).
      cbn [seq bind]. eexists. split; [reflexivity|]. us_simpl. lia.
    + eexists. split; [reflexivity|]. us_simpl. lia.
Qed.

(** The loop of [ustream_find_and_advance] returns: every assertion
    holds, the slots deleted and added are slots of the tree array, and
    the searches end. *)
Lemma advance_loop_returns (n : nat) :
  forall u i count,
    view_ok u -> searching u -> lookahead_ok u -> steady u ->
    Z.of_nat n = count - i -> Z.of_nat n <= us_lookahead_currsize u ->
    exists u', advance_loop n u i count = Ret u' /\ steady u'.
Proof.
  induction n as [|n IH]; intros u i count Hv Hs Hl Hst Hn Hle.
  { exists u. split; [reflexivity|exact Hst]. }
  rewrite advance_loop_S.
  destruct Hs as (Hwf & Hslots & Hlast). destruct Hst as (Hroot & Hmax & Hes & Hed).
  pose proof Hv as (Hw & Hfd & Hwin & Hsz & Hla & Hfill).
  set (w := us_window_maxsize u) in *.
  (* the slot that the next position will take leaves the tree *)
  assert (exists u1,
             (if i <? count - 1 then
                let curr := Z.rem (us_lookahead u + 1) w in
                t <- lz77_tree_delete_node (us_tree u) curr ;;
                Ret (set_us_tree u t)
              else Ret u) = Ret u1
             /\ u1 = set_us_tree u (us_tree u1)
             /\ searching u1 /\ rooted w (us_tree u1)) as (u1 & E1 & Eu1 & Hs1 & Hroot1).
  { destruct (Z.ltb_spec i (count - 1)) as [C|C].
    - cbv zeta. rewrite Z.rem_mod_nonneg by lia.
      assert (0 <= (us_lookahead u + 1) mod w < w) as Hr by (apply Z.mod_pos_bound; lia).
      destruct (delete_node_returns w (us_tree u) _ Hwf Hr) as (t & D).
      rewrite D. cbn [bind]. eexists. split; [reflexivity|]. us_simpl.
      split; [reflexivity|].
      destruct (delete_node_ok _ _ _ _ Hwf Hr D) as [Hwf1 Hmem1].
      split; [|apply (delete_node_rooted _ _ _ _ Hwf Hr Hroot D)].
      unfold searching. us_simpl. fold w. split; [exact Hwf1|]. split.
      + intros s A. apply Hmem1 in A. apply Hslots, A.
      + apply Hmem1. split; [exact Hlast|]. intros C'. symmetry in C'.
        apply (next_slot_differs (us_lookahead u) w); [lia | exact C'].
    - exists u. split; [reflexivity|]. split; [destruct u; reflexivity|].
      split; [exact (conj Hwf (conj Hslots Hlast))|exact Hroot]. }
  rewrite E1. cbn [bind]. clear E1.
  assert (view_ok u1) as Hv1 by (rewrite Eu1; exact Hv).
  assert (lookahead_ok u1) as Hl1 by (rewrite Eu1; exact Hl).
  assert (us_window_maxsize u1 = w /\ us_window_currsize u1 = us_window_currsize u
          /\ us_lookahead u1 = us_lookahead u
          /\ us_lookahead_currsize u1 = us_lookahead_currsize u
          /\ us_lookahead_maxsize u1 = us_lookahead_maxsize u
          /\ us_end u1 = us_end u /\ us_size u1 = us_size u /\ us_data u1 = us_data u)
    as (Hw1 & Hsz1 & Hla1 & Hlc1 & Hlm1 & He1 & Hsi1 & Hd1)
      by (rewrite Eu1; repeat split).
  (* the window and the look-ahead buffer move *)
  destruct (slide_returns u1 Hv1 Hl1) as (u2 & E2 & Hmax2 & Hlm2); try lia.
  destruct (slide_view u1 u2 Hv1 E2) as (Hv2 & Ht2 & Hw2 & Hla2 & Hpos2 & Hsz2).
  destruct (slide_lookahead u1 u2 Hv1 Hl1 ltac:(lia) E2) as (Hsame2 & Hl2 & Hlc2 & _).
  destruct Hsame2 as (He2 & Hsi2 & _ & _ & _ & _ & Hd2).
  cbv zeta in E2. cbv zeta.
  destruct (assert (us_window_currsize _ <=? _)) as [[]|] eqn:A1; [|discriminate E2].
  cbn [seq bind] in E2 |- *.
  destruct (assert (us_window _ + _ <=? _)) as [[]|] eqn:A2; [|discriminate E2].
  cbn [seq bind] in E2 |- *.
  rewrite E2. cbn [bind]. clear E2 A1 A2.
  rewrite Hw1 in Hw2. rewrite Hsz1, Hla1 in *.
  assert (tree_state u2) as Hts2.
  { destruct Hs1 as (Hwf1 & Hslots1 & Hlast1). unfold tree_state.
    rewrite Ht2, Hw2, Hla2. rewrite Hw1, ?Hsz1, ?Hla1 in *.
    split; [exact Hwf1|]. split.
    - intros s A. apply (window_slot_iff u2 s Hv2). rewrite Hw2.
      split; [apply (in_tree_range _ _ _ A)|].
      pose proof Hv2 as (_ & _ & _ & B & _). rewrite Hw2 in B.
      specialize (Hslots1 s A). lia.
    - replace (us_lookahead u + 1 - 1) with (us_lookahead u) by ring. exact Hlast1. }
  assert (rooted w (us_tree u2)) as Hroot2 by (rewrite Ht2; exact Hroot1).
  assert (steady u2) as Hst2.
  { unfold steady. rewrite Hw2. split; [exact Hroot2|]. split; [exact Hmax2|].
    rewrite He2, Hsi2, Hd2, He1, Hsi1, Hd1. split; [exact Hes|exact Hed]. }
  (* the new position is added, but in the last iteration *)
  destruct (Z.ltb_spec i (count - 1)) as [C|C].
  - cbv zeta.
    destruct Hts2 as (Hwf2 & Hslots2 & Hlast2).
    pose proof Hv2 as (Hw' & Hfd' & Hwin' & Hsz' & Hla' & Hfill').
    rewrite Z.rem_mod_nonneg by lia. rewrite Hw2 in *.
    assert (0 <= us_lookahead u2 mod w < w) as Hcr by (apply Z.mod_pos_bound; lia).
    destruct (find_and_add_returns u2 (us_lookahead u2 mod w) 0) as (lg & off & u3 & F & Hroot3);
      rewrite ?Hw2; try assumption; try lia.
    { eexists. exact Hlast2. }
    { destruct Hl2 as (_ & B). rewrite He2, He1, Hed in B. rewrite Hd2, Hd1. lia. }
    { intros s A. apply Hslots2 in A.
      pose proof (window_offset_of_slot u2 s Hv2 A) as B. rewrite Hw2 in B. lia. }
    rewrite Hw2 in Hroot3.
    rewrite F. cbn [bind].
    destruct (find_and_add_ok _ _ _ _ _ _ ltac:(rewrite Hw2; exact Hwf2) Hwin' F)
      as (Eu3 & _ & _ & Hadd).
    rewrite Hw2 in Hadd. destruct Hadd as (Hwf3 & Hin3 & Hmem3 & _).
    assert (view_ok u3 /\ us_window_maxsize u3 = w /\ searching u3) as (Hv3 & Hw3 & Hs3).
    { rewrite Eu3. unfold view_ok, searching. us_simpl. rewrite Hw2 in *.
      split; [tauto|]. split; [reflexivity|].
      split; [exact Hwf3|]. split; [|exact Hin3].
      intros s A.
      destruct (Z.eq_dec s (us_lookahead u2 mod w)) as [->|Hne].
      - destruct (Z.eq_dec (us_window_currsize u2) w) as [E|E]; [auto|right].
        rewrite Hla', Hfill' by lia. rewrite Z.mod_small by lia. lia.
      - apply Hmem3 in A; [|exact Hne]. destruct A as [A _].
        apply Hslots2 in A. apply (window_slot_iff u2 s Hv2) in A. rewrite Hw2 in A. lia. }
    assert (lookahead_ok u3) as Hl3 by (rewrite Eu3; exact Hl2).
    assert (steady u3) as Hst3.
    { destruct Hst2 as (_ & B1 & B2 & B3). unfold steady. rewrite Hw3.
      split; [exact Hroot3|]. rewrite Eu3. us_simpl. auto. }
    apply (IH u3 (i + 1) count Hv3 Hs3 Hl3 Hst3); [lia|].
    rewrite Eu3. us_simpl. lia.
  - cbn [bind]. destruct n; [|lia]. cbn [advance_loop]. exists u2. split; [reflexivity|exact Hst2].
Qed.

(** One call of [ustream_find_and_advance] on a stream that reads from
    memory returns. *)
Lemma find_and_advance_returns (u : lz77_ustream) (offset length_ next : Z) :
  compressing u -> lookahead_ok u -> steady u ->
  exists count cells u',
    ustream_find_and_advance u offset length_ next = Ret (count, cells, u')
    /\ steady u'.
Proof.
  intros (Hv & Hlen & _ & Hts) Hl Hst. unfold ustream_find_and_advance.
  destruct (Z.eqb_spec (us_lookahead_currsize u) 0) as [E0|E0].
  { exists 0, (offset, length_, next), u. split; [reflexivity|exact Hst]. }
  pose proof Hv as (Hw & Hfd & Hwin & Hsz & Hla & Hfill).
  pose proof Hl as (Hlcs & Hle).
  pose proof Hst as (Hroot & Hmax & Hes & Hed).
  set (w := us_window_maxsize u) in *.
  assert (exists lg off u1,
             (if us_window_currsize u =? 0 then
                u0 <- seed_tree u ;; Ret (0, offset, u0)
              else lz77_find_and_add u (Z.rem (us_lookahead u) w) offset)
             = Ret (lg, off, u1)
             /\ 0 <= lg <= us_lookahead_currsize u
             /\ u1 = set_us_tree u (us_tree u1)
             /\ searching u1 /\ rooted w (us_tree u1))
    as (lg & off & u1 & E1 & Hlg & Eu1 & Hs1 & Hroot1).
  { destruct (Z.eqb_spec (us_window_currsize u) 0) as [Z0|Z0].
    - destruct (seed_tree_returns u Hw Hlen Hroot) as (u0 & Es & Hroot0).
      rewrite Es. cbn [bind]. exists 0, offset, u0. split; [reflexivity|].
      split; [lia|].
      destruct (seed_tree_ok u u0 Hw Hlen Hroot Es) as (Eu & Hwf & Hmem).
      fold w in Hwf, Hmem. split; [exact Eu|]. split; [|exact Hroot0].
      rewrite Eu. unfold searching. us_simpl. fold w.
      split; [exact Hwf|]. split.
      + intros s A. apply Hmem in A. lia.
      + apply Hmem. rewrite Hla, Hfill, Z0 by lia. reflexivity.
    - assert (0 < us_window_currsize u) as Hpos by lia.
      destruct (Hts Hpos) as (Hwf & Hslots & Hlast). fold w in Hwf, Hslots, Hlast.
      cbv zeta. rewrite Z.rem_mod_nonneg by lia.
      assert (0 <= us_lookahead u mod w < w) as Hcr by (apply Z.mod_pos_bound; lia).
      destruct (find_and_add_returns u (us_lookahead u mod w) offset)
        as (lg & off & u1 & F & Hroot1); fold w; try assumption; try lia.
      { eexists. exact Hlast. }
      { intros s A. apply Hslots in A.
        pose proof (window_offset_of_slot u s Hv A) as B. fold w in B. lia. }
      exists lg, off, u1. split; [exact F|].
      destruct (find_and_add_ok _ _ _ _ _ _ Hwf Hwin F) as (Eu & _ & Hl' & Hadd).
      fold w in Hadd. destruct Hadd as (Hwf1 & Hin1 & Hmem1 & _).
      split; [exact Hl'|]. split; [exact Eu|]. split; [|exact Hroot1].
      rewrite Eu. unfold searching. us_simpl. fold w.
      split; [exact Hwf1|]. split; [|exact Hin1].
      intros s A.
      destruct (Z.eq_dec s (us_lookahead u mod w)) as [->|Hne].
      + destruct (Z.eq_dec (us_window_currsize u) w) as [E|E]; [auto|right].
        rewrite Hla, Hfill by lia. rewrite Z.mod_small by lia. lia.
      + apply Hmem1 in A; [|exact Hne]. destruct A as [A _].
        apply Hslots in A. apply (window_slot_iff u s Hv) in A. fold w in A. lia. }
  rewrite E1. cbn [bind]. clear E1.
  assert (view_ok u1) as Hv1 by (rewrite Eu1; exact Hv).
  assert (lookahead_ok u1) as Hl1 by (rewrite Eu1; exact Hl).
  assert (steady u1) as Hst1.
  { unfold steady. rewrite Eu1. us_simpl. fold w. rewrite Eu1 in Hroot1. us_simpl.
    split; [exact Hroot1|]. auto. }
  assert (us_lookahead_currsize u1 = us_lookahead_currsize u
          /\ us_lookahead u1 = us_lookahead u /\ us_data u1 = us_data u)
    as (Hlc1 & Hla1 & Hd1) by (rewrite Eu1; repeat split).
  assert (exists cnt off' len' nxt',
             (if (lg =? 0) || negb (tinyhuff_can_encode (us_length_encoder u1) lg) then
                b <- rd (us_data u1) (us_lookahead u1) ;; Ret (1, 0, 0, b)
              else Ret (lg, off, lg, next)) = Ret (cnt, off', len', nxt')
             /\ 1 <= cnt <= us_lookahead_currsize u1)
    as (cnt & off' & len' & nxt' & E2 & Hcnt).
  { destruct ((lg =? 0) || negb (tinyhuff_can_encode (us_length_encoder u1) lg)) eqn:B.
    - rewrite (rd_ok (us_data u1) (us_lookahead u1) 0) by (rewrite Hd1, Hla1; lia).
      cbn [bind]. do 4 eexists. split; [reflexivity|]. lia.
    - do 4 eexists. split; [reflexivity|].
      apply orb_false_elim in B. destruct B as [B _]. apply Z.eqb_neq in B. lia. }
  rewrite E2. cbn [bind]. clear E2.
  rewrite (assert_true (cnt <=? us_lookahead_currsize u1)) by (apply Z.leb_le; lia).
  cbn [seq bind].
  destruct (advance_loop_returns (Z.to_nat cnt) u1 0 cnt Hv1 Hs1 Hl1 Hst1) as (u2 & E3 & Hst2);
    [lia|lia|].
  rewrite E3. cbn [bind]. do 3 eexists. split; [reflexivity|].
  unfold steady in *. us_simpl. exact Hst2.
Qed.

(** ** The writer returns *)

(** A writer to a memory buffer that may be reallocated takes every token
    of at most 30 bits, as long as the buffer stays below [2 ^ 31]
    bytes. *)

Lemma cstream_write_returns c bytes :
  writer_ok c -> cs_fd c < 0 -> cs_can_realloc c <> 0 ->
  Z.of_nat (length (cs_data c)) + Z.of_nat (length bytes) <= 2 ^ 31 ->
  exists c', cstream_write c bytes = Ret (0, c').
Proof.
  intros (Hend & Hsz & Hin & Hheap & _) Hfd Hre Hlen.
  change (2 ^ 31) with 2147483648 in Hlen. change (2 ^ 32) with 4294967296 in Hsz.
  unfold heap_limit in Hheap. change (2 ^ 32 - 1) with 4294967295 in Hheap.
  unfold cstream_write. cbv zeta.
  set (len := Z.of_nat (length (cs_data c))) in *.
  set (nb := Z.of_nat (length bytes)) in *.
  assert (0 <= len /\ 0 <= nb) as (Hl0 & Hn0) by (subst len nb; lia).
  rewrite (u32_small nb) by (change (2 ^ 32) with 4294967296; lia).
  rewrite (assert_true (cs_is_input c =? 0)) by (rewrite Hin; reflexivity).
  cbn [seq bind].
  assert (cs_end c / 8 = len) as Hd8 by (rewrite Hend; Z.div_mod_to_equations; lia).
  rewrite (assert_true (Z.rem (cs_end c) 8 =? 0)).
  2:{ apply Z.eqb_eq. rewrite Z.rem_mod_nonneg by lia. rewrite Hend.
      Z.div_mod_to_equations. lia. }
  cbn [seq bind].
  assert (exists c1,
             cstream_make_room c nb = Ret (0, c1)
             /\ cs_end c1 = cs_end c /\ cs_data c1 = cs_data c
             /\ len + nb <= cs_size c1) as (c1 & E1 & He1 & Hd1 & Hs1).
  { unfold cstream_make_room. rewrite Hd8.
    destruct (Z.ltb_spec (cs_size c) (len + nb)) as [G|G].
    - destruct (Z.leb_spec 0 (cs_fd c)) as [C|_]; [lia|].
      destruct (Z.eqb_spec (cs_can_realloc c) 0) as [C|_]; [contradiction|].
      rewrite (u32_small (len + nb)) by (change (2 ^ 32) with 4294967296; lia).
      assert (0 <= cs_size c * 11 / 10 < 4294967296) as Hgrow
          by (Z.div_mod_to_equations; lia).
      rewrite (u32_small (cs_size c * 11 / 10)) by (change (2 ^ 32) with 4294967296; lia).
      set (n1 := if len + nb <? 1024 then 1024 else len + nb).
      assert (len + nb <= n1 <= 2147483648) as Hn1
          by (subst n1; destruct (Z.ltb_spec (len + nb) 1024); lia).
      set (n2 := if n1 * 10 <? cs_size c * 11 then cs_size c * 11 / 10 else n1).
      assert (len + nb <= n2 < 4294967295) as Hn2.
      { subst n2. destruct (Z.ltb_spec (n1 * 10) (cs_size c * 11)); [|lia].
        Z.div_mod_to_equations. lia. }
      destruct (Z.ltb_spec (cs_heap c) n2) as [C|_]; [lia|].
      eexists. split; [reflexivity|]. cs_simpl. repeat split. lia.
    - exists c. repeat split. lia. }
  rewrite E1. cbn [bind fst snd Z.ltb Z.compare].
  rewrite He1, Hd8, Hd1.
  rewrite (assert_true (len + nb <=? cs_size c1)) by (apply Z.leb_le; lia).
  cbn [seq bind]. fold len. subst len. rewrite store_bytes_append. cbn [bind].
  eexists. reflexivity.
Qed.

Lemma cstream_flush_cache_returns c nbits :
  writer_ok c -> cache_ok c -> bytes_ok (output c) ->
  cs_fd c < 0 -> cs_can_realloc c <> 0 ->
  0 <= nbits <= 30 ->
  Z.of_nat (length (cs_data c)) + 8 <= 2 ^ 31 ->
  exists c',
    cstream_flush_cache c nbits = Ret (0, c')
    /\ 0 <= cs_cached_nbits c' /\ cs_cached_nbits c' + nbits <= 64
    /\ cs_is_input c' = 0.
Proof.
  intros Hok (Hcn & Hlow) Hbytes Hfd Hre Hnb Hlen.
  pose proof Hok as (_ & _ & Hin & _).
  unfold cstream_flush_cache.
  destruct (Z.ltb_spec 64 (cs_cached_nbits c + nbits)) as [Hfl|Hfl].
  - assert (4 <= cs_cached_nbits c / 8 <= 8) as Hcount by (Z.div_mod_to_equations; lia).
    rewrite (assert_true (1 <? cs_cached_nbits c / 8)) by (apply Z.ltb_lt; lia).
    cbn [seq bind]. cbv zeta.
    destruct (cstream_write_returns c (be64_bytes (cs_cached c) (cs_cached_nbits c / 8))
                Hok Hfd Hre) as (c1 & W).
    { rewrite be64_bytes_length. lia. }
    rewrite W. cbn [bind fst snd].
    assert (Z.of_nat (length (be64_bytes (cs_cached c) (cs_cached_nbits c / 8))) < 2 ^ 32)
      as Hbl by (rewrite be64_bytes_length; change (2 ^ 32) with 4294967296; lia).
    destruct (cstream_write_grows _ _ _ _ Hok Hre Hbl W)
      as (_ & _ & (_ & _ & Hin1 & _) & _ & _ & K & _).
    rewrite K.
    replace (cs_cached_nbits c / 8 * 8 - 1 <? 64) with true
      by (symmetry; apply Z.ltb_lt; lia).
    cbn [defined seq bind].
    eexists. split; [reflexivity|]. cs_simpl.
    pose proof (Z.mod_pos_bound (cs_cached_nbits c) 8 ltac:(lia)) as Hm.
    rewrite u8_small by (change (2 ^ 8) with 256; lia).
    split; [lia|]. split; [lia|exact Hin1].
  - exists c. split; [reflexivity|]. split; [lia|]. split; [lia|exact Hin].
Qed.

(** [cstream_write_bits] returns 0 for a token of 1 to 30 bits. *)
Lemma cstream_write_bits_returns c reg startbit nbits :
  writer_ok c -> cache_ok c -> bytes_ok (output c) ->
  cs_fd c < 0 -> cs_can_realloc c <> 0 ->
  0 < nbits <= 30 -> 0 <= startbit -> startbit + nbits <= 64 ->
  Z.of_nat (length (cs_data c)) + 8 <= 2 ^ 31 ->
  exists c', cstream_write_bits c reg startbit nbits = Ret (0, c').
Proof.
  intros Hok Hcache Hbytes Hfd Hre Hnb Hsb Hfit Hlen.
  pose proof Hok as (_ & _ & Hin & _).
  unfold cstream_write_bits.
  rewrite (assert_true (startbit + nbits <=? 64)) by (apply Z.leb_le; lia).
  cbn [seq bind].
  rewrite (assert_true (cs_is_input c =? 0)) by (rewrite Hin; reflexivity).
  cbn [seq bind].
  destruct (cstream_flush_cache_returns c nbits Hok Hcache Hbytes Hfd Hre ltac:(lia) Hlen)
    as (c1 & F & Hc0 & Hc64 & _).
  rewrite F. cbn [bind fst snd]. cbv zeta.
  replace ((0 <=? 64 - startbit - nbits) && (64 - startbit - nbits <? 64)) with true
    by (symmetry; apply andb_true_intro; split; [apply Z.leb_le|apply Z.ltb_lt]; lia).
  cbn [defined seq bind].
  replace ((0 <=? nbits) && (nbits <? 31)) with true
    by (symmetry; apply andb_true_intro; split; [apply Z.leb_le|apply Z.ltb_lt]; lia).
  cbn [defined seq bind].
  replace ((0 <=? 64 - nbits - cs_cached_nbits c1) && (64 - nbits - cs_cached_nbits c1 <? 64))
    with true
    by (symmetry; apply andb_true_intro; split; [apply Z.leb_le|apply Z.ltb_lt]; lia).
  cbn [defined seq bind].
  eexists. reflexivity.
Qed.

(** [cstream_close] returns on such a writer. *)
Lemma cstream_close_returns c :
  writer_ok c -> cache_ok c ->
  cs_fd c < 0 -> cs_can_realloc c <> 0 ->
  Z.of_nat (length (cs_data c)) + 8 <= 2 ^ 31 ->
  exists c', cstream_close c = Ret (0, c').
Proof.
  intros Hok (Hcn & _) Hfd Hre Hlen. unfold cstream_close.
  destruct (Z.ltb_spec 0 (cs_cached_nbits c)) as [L|L].
  - cbv zeta.
    assert (0 <= (cs_cached_nbits c + 7) / 8 <= 8) as Hnb by (Z.div_mod_to_equations; lia).
    destruct (cstream_write_returns c (be64_bytes (cs_cached c) ((cs_cached_nbits c + 7) / 8))
                Hok Hfd Hre) as (c1 & W).
    { rewrite be64_bytes_length. lia. }
    rewrite W. cbn [bind fst snd].
    destruct (cstream_write_fields _ _ _ _ W) as (F1 & _).
    cs_simpl.
    destruct (Z.leb_spec 0 (cs_fd c1)) as [C|_]; [lia|]. cbn [andb].
    eexists. reflexivity.
  - cbn [bind]. destruct (Z.leb_spec 0 (cs_fd c)) as [C|_]; [lia|]. cbn [andb].
    eexists. reflexivity.
Qed.

(** ** The compression returns *)

(** The token of a step: [make_token] returns, and the token is as wide
    as the writer takes. *)
Lemma make_token_returns (s : list Z) (w wb mn mx : Z) (u : lz77_ustream)
  (offset length_ next count o' l' n' : Z) (u1 : lz77_ustream) :
  0 <= wb <= 16 -> 1 <= mn -> mn + 6 < 65536 -> 0 <= mx < 65536 ->
  wb + 3 < 9 * mn ->
  1 + wb + 6 + diff_nbits (tinyhuff_init mn mx) <= 30 ->
  feeding s w wb (tinyhuff_init mn mx) u ->
  ustream_find_and_advance u offset length_ next = Ret (count, (o', l', n'), u1) ->
  0 < count ->
  exists token tbits,
    make_token u1 o' l' n' = Ret (token, tbits)
    /\ 0 < tbits <= 30 /\ tbits <= 9 * count.
Proof.
  intros Hwb Hmn Hmn6 Hmx Hmin Hwide Hf Efa Hpos.
  destruct (feeding_step s w wb _ u offset length_ next count (o', l', n') u1 Hf Efa)
    as (Hf1 & _).
  pose proof Hf as (Hc & _ & _ & _ & _ & _ & Henc & _).
  pose proof Hf1 as (_ & _ & _ & _ & _ & Hwb1 & Henc1 & _).
  destruct (find_and_advance_token u offset length_ next count o' l' n' u1 Hc Efa Hpos)
    as [(El & Ec & _)|(Hl & Ec & Hcan & _)].
  - subst l' count. unfold make_token. cbn [Z.eqb negb].
    eexists. eexists. split; [reflexivity|]. change LZ77_SYMBOL_BITS with 9. lia.
  - rewrite Henc in Hcan.
    destruct (tinyhuff_encode_cost mn mx l' Hmn Hmn6 Hmx ltac:(lia) Hcan)
      as (nb & cd & Ee & Hnb & Hc9).
    destruct (tinyhuff_encode_returns mn mx l' Hmn Hmn6 Hmx Hcan)
      as (nb' & cd' & Ee' & Hnb' & _).
    assert (nb' = nb) as -> by congruence.
    rewrite <- Henc1 in Ee.
    rewrite (make_token_phrase u1 o' l' n' nb cd ltac:(lia) Ee).
    eexists. eexists. split; [reflexivity|]. rewrite Hwb1.
    rewrite u16_small by (change (2 ^ 16) with 65536; lia). lia.
Qed.

(** The loop of [lz77_compress] ends when the input does. *)
Lemma compress_loop_returns (s : list Z) (w wb mn mx : Z) (fuel : nat) :
  0 <= wb <= 16 -> 1 <= mn -> mn + 6 < 65536 -> 0 <= mx < 65536 ->
  wb + 3 < 9 * mn ->
  1 + wb + 6 + diff_nbits (tinyhuff_init mn mx) <= 30 ->
  Z.of_nat (length s) <= 2 ^ 30 ->
  forall u c offset length_ next,
    feeding s w wb (tinyhuff_init mn mx) u -> steady u ->
    writing c -> mem_writer c -> cs_can_realloc c <> 0 ->
    written c <= 96 + 9 * us_lookahead u ->
    Z.of_nat (length s) - us_lookahead u < Z.of_nat fuel ->
    exists u' c', compress_loop fuel u c offset length_ next = Ret (u', c').
Proof.
  intros Hwb Hmn Hmn6 Hmx Hmin Hwide Hs30. change (2 ^ 30) with 1073741824 in Hs30.
  induction fuel as [|fuel IH]; intros u c offset length_ next Hf Hst Hwr Hmw Hre Hwc Hfuel.
  { pose proof Hf as (_ & (Hlcs & Hle) & _ & He & _). lia. }
  rewrite compress_loop_S.
  pose proof Hf as (Hc & Hl & _ & He & _).
  destruct (find_and_advance_returns u offset length_ next Hc Hl Hst)
    as (count & [[o' l'] n'] & u1 & Efa & Hst1).
  rewrite Efa. cbn [bind].
  destruct (feeding_step s w wb _ u offset length_ next count (o', l', n') u1 Hf Efa)
    as (Hf1 & Hc0 & _ & Hla1 & _).
  destruct (Z.ltb_spec 0 count) as [Hpos|Hzero].
  2:{ exists u1, c. reflexivity. }
  destruct (make_token_returns s w wb mn mx u offset length_ next count o' l' n' u1
              Hwb Hmn Hmn6 Hmx Hmin Hwide Hf Efa Hpos) as (token & tbits & Etok & Htb & Hcost).
  rewrite Etok. cbn [bind].
  destruct Hwr as (Hok & Hcache & Hbytes).
  pose proof Hmw as (Hfd & Hfile & _).
  pose proof (written_nonneg c Hcache) as Hw0.
  assert (Z.of_nat (length (cs_data c)) + 8 <= 2 ^ 31) as Hlen.
  { destruct Hl as (Hlcs & Hle).
    unfold written, output in Hwc. rewrite Hfile in Hwc. cbn [app] in Hwc.
    destruct Hcache as (Hcn & _). change (2 ^ 31) with 2147483648. lia. }
  rewrite (u16_small (64 - tbits)) by (change (2 ^ 16) with 65536; lia).
  destruct (cstream_write_bits_returns c token (64 - tbits) tbits Hok Hcache Hbytes Hfd Hre)
    as (c1 & Ewb); try lia.
  rewrite Ewb. cbn [bind Z.ltb Z.compare].
  assert (0 <= 64 - tbits) as Hsb by lia.
  destruct (cstream_write_bits_bits _ _ _ _ _ Hok Hcache Hbytes Hsb Ewb)
    as (Hok1 & Hcache1 & Hbytes1 & (_ & Hre1 & _) & Hwr1 & _).
  apply (IH u1 c1 o' l' n' Hf1 Hst1 (conj Hok1 (conj Hcache1 Hbytes1))).
  - exact (cstream_write_bits_mem _ _ _ _ _ Hmw Ewb).
  - rewrite Hre1. exact Hre.
  - lia.
  - lia.
Qed.

(** [ustream_open] returns on a stream made for reading from memory. *)
Lemma ustream_open_input_returns (u : lz77_ustream) (from : lz77_cstream) :
  us_is_input u <> 0 -> us_fd u < 0 ->
  us_window_currsize u = 0 -> us_lookahead_currsize u = 0 ->
  0 <= us_window_maxsize u < Z.of_nat (length (us_tree u)) ->
  exists u',
    ustream_open u from = Ret u'
    /\ us_size u' = us_size u /\ us_lookahead_maxsize u' = us_lookahead_maxsize u.
Proof.
  intros Hin Hfd Hw0 Hl0 Hlen. unfold ustream_open.
  rewrite Hw0, Hl0. cbn [Z.eqb andb assert seq bind].
  destruct (Z.eqb_spec (us_is_input u) 0) as [C|_]; [contradiction|].
  cbn [negb orb assert seq bind].
  destruct (Z.leb_spec 0 (us_fd u)) as [C|_]; [lia|]. cbv zeta.
  match goal with
  | |- context [lz77_tree_init ?x] => set (u1 := x)
  end.
  assert (us_tree u1 = us_tree u /\ us_window_maxsize u1 = us_window_maxsize u
          /\ us_size u1 = us_size u /\ us_lookahead_maxsize u1 = us_lookahead_maxsize u)
    as (T1 & W1 & S1 & L1).
  { subst u1. destruct (_ <? _); us_simpl; repeat split. }
  unfold lz77_tree_init. rewrite T1, W1.
  destruct (wr_returns (us_tree u) (us_window_maxsize u)
              {| parent := UNUSED; smaller := UNUSED; larger := UNUSED |} Hlen) as (t & E & _).
  rewrite E. cbn [bind]. eexists. split; [reflexivity|]. us_simpl. auto.
Qed.

(** [cstream_open] returns 0 on a fresh writer to memory that may be
    reallocated. *)
Lemma cstream_open_returns (cw : lz77_cstream) :
  fresh_writer cw -> heap_limit <= cs_heap cw -> cs_fd cw < 0 -> cs_can_realloc cw <> 0 ->
  exists c1, cstream_open cw = Ret (0, c1).
Proof.
  intros Hfresh Hheap Hfd Hre.
  pose proof (fresh_writer_fields cw Hfresh)
    as (Hin & Hpos & Hend & Hd & Hf & Hca & Hcn & Hpb).
  pose proof (fresh_writer_ok cw Hfresh Hheap Hfd) as Hok.
  unfold cstream_open. rewrite Hpos, Hin. cbn [Z.eqb orb negb assert seq bind].
  destruct (cstream_write_returns cw
              (header_bytes (cs_window_maxsize cw) (cs_lookahead_maxsize cw)) Hok Hfd Hre)
    as (c1 & W).
  { rewrite Hd, header_bytes_length. cbn [length]. change (2 ^ 31) with 2147483648. lia. }
  rewrite W. cbn [bind fst snd Z.ltb Z.compare]. exists c1. reflexivity.
Qed.

(** A compression from memory to memory returns: no assertion of the
    library fails, no slot outside the tree array and no byte outside the
    data is touched, and every loop ends. *)
Lemma compress_memory_total (s : list Z) (w l : Z) :
  4 <= w <= 65534 -> 2 <= l <= w ->
  bytes_ok s -> Z.of_nat (length s) <= 2 ^ 30 ->
  widest_token w l <= 30 ->
  exists n bytes, compress_memory s w l = Ret (n, bytes).
Proof.
  intros Hw Hl Hsb Hs30 Hwide.
  change (2 ^ 30) with 1073741824 in Hs30.
  unfold compress_memory.
  destruct (lz77_ustream_from_memory (Some s) (Z.of_nat (length s)) w l true heap_limit)
    as [u0| |] eqn:E0.
  2,3: exfalso; unfold lz77_ustream_from_memory in E0; cbv zeta in E0;
       rewrite (u16_small w), (u16_small l) in E0 by (change (2 ^ 16) with 65536; lia);
       destruct (Z.ltb_spec w LZ77_MIN_WINDOW_SIZE) as [C|_];
       [unfold LZ77_MIN_WINDOW_SIZE in C; lia|];
       destruct (Z.ltb_spec l LZ77_MIN_LOOKAHEAD_SIZE) as [C|_];
       [unfold LZ77_MIN_LOOKAHEAD_SIZE in C; lia|];
       discriminate E0.
  destruct (lz77_cstream_to_memory (Some u0) true 0 1 true heap_limit)
    as [cw| |] eqn:Ew; try discriminate Ew.
  assert (fresh_writer cw) as Hfresh.
  { exists u0, heap_limit. left. exists true, 0, 1. exact Ew. }
  pose proof E0 as E0'. unfold lz77_ustream_from_memory in E0'. cbv zeta in E0'.
  rewrite (u16_small w), (u16_small l) in E0' by (change (2 ^ 16) with 65536; lia).
  destruct (Z.ltb_spec w LZ77_MIN_WINDOW_SIZE) as [C|_];
    [unfold LZ77_MIN_WINDOW_SIZE in C; lia|].
  destruct (Z.ltb_spec l LZ77_MIN_LOOKAHEAD_SIZE) as [C|_];
    [unfold LZ77_MIN_LOOKAHEAD_SIZE in C; lia|].
  cbn [negb] in E0'.
  rewrite (u16_small w), (u16_small l) in E0' by (change (2 ^ 16) with 65536; lia).
  rewrite (u32_small (Z.of_nat (length s))) in E0'
    by (change (2 ^ 32) with 4294967296; lia).
  injection E0' as E0'.
  assert (us_fd u0 = -1 /\ us_data u0 = s /\ us_size u0 = Z.of_nat (length s)
          /\ us_end u0 = Z.of_nat (length s) /\ us_is_input u0 = 1
          /\ us_window_maxsize u0 = w /\ us_lookahead_maxsize u0 = l
          /\ us_window_nbits u0 = u8 (number_of_bits (w - 1))
          /\ us_lookahead u0 = 0 /\ us_window_currsize u0 = 0
          /\ us_lookahead_currsize u0 = 0
          /\ us_tree u0 = repeat raw_slot (Z.to_nat (w + 1)))
    as (F1 & F2 & F3 & F4 & F5 & F6 & F7 & F8 & F9 & F10 & F11 & F12)
      by (rewrite <- E0'; repeat split).
  clear E0'.
  pose proof Ew as Ew'. unfold lz77_cstream_to_memory in Ew'. cbn [negb] in Ew'.
  injection Ew' as Ew'.
  assert (cs_fd cw = -1 /\ cs_can_realloc cw = 1 /\ cs_heap cw = heap_limit
          /\ cs_window_maxsize cw = w /\ cs_lookahead_maxsize cw = l)
    as (G1 & G2 & G3 & G4 & G5).
  { rewrite <- Ew'. cs_simpl. rewrite F6, F7. repeat split. }
  clear Ew'.
  unfold widest_token in Hwide. cbv zeta in Hwide.
  set (wb := u8 (number_of_bits (w - 1))) in *.
  destruct (window_bits_fit w ltac:(lia)) as (Hwb & Hwfit). fold wb in Hwb, Hwfit.
  set (mn := Z.quot (LZ77_TYPE_BITS + wb + LZ77_TINYHUFF_MIN_CODE_BITS)
               LZ77_SYMBOL_BITS + 1) in *.
  assert (1 <= mn <= 3 /\ wb + 3 < 9 * mn) as (Hmn & Hmin).
  { subst mn. change LZ77_TYPE_BITS with 1. change LZ77_TINYHUFF_MIN_CODE_BITS with 2.
    change LZ77_SYMBOL_BITS with 9.
    rewrite Z.quot_div_nonneg by lia. Z.div_mod_to_equations. lia. }
  set (enc := tinyhuff_init mn l) in *.
  change LZ77_TYPE_BITS with 1 in Hwide. change MAX_CODE_BITS with 6 in Hwide.
  assert (0 <= diff_nbits enc) as Hdn.
  { destruct (tinyhuff_init_fields mn l ltac:(lia) ltac:(lia) ltac:(lia))
      as (_ & _ & _ & Hd & Hd0).
    cbv zeta in Hd, Hd0. fold enc in Hd, Hd0.
    destruct (Z_le_gt_dec (mn + 6) l) as [A|A]; [destruct (Hd A); lia|rewrite Hd0; lia]. }
  (* the steps of [lz77_compress] *)
  unfold lz77_compress.
  destruct (ustream_open_input_returns u0 cw) as (u1 & Eo & So & Lo);
    try (rewrite ?F5, ?F1, ?F6, ?F12, ?repeat_length; lia); try assumption.
  rewrite Eo. cbn [bind].
  destruct (cstream_open_returns cw Hfresh) as (c1 & Eco);
    try (rewrite ?G1, ?G2, ?G3; lia).
  rewrite Eco. cbn [bind Z.ltb Z.compare]. cbv zeta.
  assert ((us_is_input u0 =? 0) = false) as Hin0 by (rewrite F5; reflexivity).
  destruct (ustream_open_input_fields u0 cw u1 Hin0 ltac:(lia) Eo)
    as (O1 & O2 & O3 & O4 & O5).
  destruct (ustream_open_input_state u0 cw u1 Hin0 Eo) as (O6 & O7 & O8 & O9 & O10 & O11).
  destruct (opened_compressing s (Z.of_nat (length s)) w l heap_limit cw u0 u1 Hw E0 Eo)
    as (Hc1 & _).
  rewrite F8 in O3, O5. rewrite F7 in O4, O5. fold wb in O3, O5. fold mn in O5. fold enc in O5.
  destruct (writer_opened cw c1 Hfresh ltac:(rewrite G3; lia) ltac:(lia)
              ltac:(rewrite G4; lia) ltac:(rewrite G5; lia) Eco)
    as (Hwr1 & Hmw1 & Hsame1 & Hout1 & Hlen1).
  assert (cs_can_realloc c1 <> 0) as Hre1.
  { destruct Hsame1 as (_ & A & _). rewrite A, G2. discriminate. }
  (* the loop *)
  assert (exists u2 c2,
             compress_loop (S (length (us_data u1) + length (us_file u1))) u1 c1 0 0 0
             = Ret (u2, c2)
             /\ writing c2 /\ mem_writer c2 /\ cs_can_realloc c2 <> 0
             /\ written c2 <= 96 + 9 * Z.of_nat (length s)
             /\ us_window_nbits u2 = wb /\ us_length_encoder u2 = enc /\ us_fd u2 < 0)
    as (u2 & c2 & El & Hwr2 & Hmw2 & Hre2 & Hle2 & WB2 & ENC2 & Hfd2).
  { destruct (Z.eq_dec (us_lookahead_currsize u1) 0) as [Hz|Hnz].
    - exists u1, c1. split.
      { rewrite compress_loop_S. unfold ustream_find_and_advance. rewrite Hz.
        cbn [Z.eqb bind Z.ltb Z.compare]. reflexivity. }
      split; [exact Hwr1|]. split; [exact Hmw1|]. split; [exact Hre1|].
      split; [lia|]. split; [exact O3|]. split; [exact O5|]. rewrite O6, F1. lia.
    - assert (feeding s w wb enc u1) as Hf1.
      { unfold feeding. split; [exact Hc1|]. split.
        - unfold lookahead_ok. rewrite O4, O9, F9, O2, F4, F3.
          pose proof (Z.mod_pos_bound (Z.of_nat (length s)) (2 ^ 16) ltac:(lia)) as Hm.
          pose proof (Z.mod_le (Z.of_nat (length s)) (2 ^ 16) ltac:(lia) ltac:(lia)) as Hm'.
          unfold u16. change (2 ^ 16) with 65536 in *. lia.
        - split; [congruence|]. split; [congruence|]. split; [congruence|].
          split; [exact O3|]. split; [exact O5|]. intros Hz. contradiction. }
      assert (steady u1) as Hst1.
      { unfold steady. rewrite O10, F6, Lo, F7, So, F3, O2, F4, O1, F2.
        split.
        - unfold rooted. apply wr_node in O11. destruct O11 as (_ & _ & N).
          rewrite F6 in N. rewrite N, Z.eqb_refl. reflexivity.
        - split; [rewrite O4; lia|]. split; [lia|reflexivity]. }
      destruct (compress_loop_returns s w wb mn l
                  (S (length (us_data u1) + length (us_file u1)))
                  ltac:(lia) ltac:(lia) ltac:(lia) ltac:(lia) Hmin Hwide
                  ltac:(change (2 ^ 30) with 1073741824; lia)
                  u1 c1 0 0 0 Hf1 Hst1 Hwr1 Hmw1 Hre1) as (u2 & c2 & El).
      { rewrite Hlen1, O9, F9. lia. }
      { rewrite O9, F9, O1, F2. lia. }
      exists u2, c2. split; [exact El|].
      destruct (compress_loop_cost s w wb mn l _ ltac:(lia) ltac:(lia) ltac:(lia)
                  ltac:(lia) Hmin _ _ _ _ _ _ _ El Hf1 Hwr1)
        as (Hf2 & Hwr2 & Hsame2 & Hmem2 & _ & Hcost).
      pose proof Hf2 as (((_ & Hfd2 & _) & _) & (Hl2 & Hl2') & _ & E2 & _ & WB2 & ENC2 & _).
      split; [exact Hwr2|]. split; [exact (Hmem2 Hmw1)|].
      split; [destruct Hsame2 as (_ & A & _); rewrite A; exact Hre1|].
      split; [rewrite O9, F9 in Hcost; rewrite E2 in Hl2'; lia|].
      split; [exact WB2|]. split; [exact ENC2|exact Hfd2]. }
  rewrite El. cbn [bind].
  (* the terminating token *)
  rewrite ENC2, O3.
  assert (tinyhuff_encode enc 0 = Ret (6, 0)) as Ez.
  { unfold enc, tinyhuff_encode, tinyhuff_init.
    cbn [min_value max_value max_encoded_value diff_nbits].
    change ENCODING_TABLE_SIZE with 8.
    rewrite (u16_small mn), (u16_small l) by (change (2 ^ 16) with 65536; lia).
    rewrite (u16_small (mn + 8 - 2)) by (change (2 ^ 16) with 65536; lia).
    cbn [Z.eqb orb assert bind].
    destruct (Z.leb_spec 0 l) as [_|C]; [|lia]. cbn [assert bind rd encoding_table].
    destruct (Z.leb_spec (mn + 8 - 2) 0) as [C|_]; [lia|]. reflexivity. }
  rewrite Ez. cbn [bind].
  destruct (terminator_value wb ltac:(lia)) as (Ev & Et & Es).
  rewrite Ev, Et, Es.
  destruct Hwr2 as (Hok2 & Hcache2 & Hbytes2).
  pose proof Hmw2 as (Hfdc2 & Hfile2 & _).
  pose proof (written_nonneg c2 Hcache2) as Hw2.
  assert (Z.of_nat (length (cs_data c2)) + 16 <= 2 ^ 31) as Hlen2.
  { unfold written, output in Hle2. rewrite Hfile2 in Hle2. cbn [app] in Hle2.
    destruct Hcache2 as (Hcn & _). change (2 ^ 31) with 2147483648. lia. }
  destruct (cstream_write_bits_returns c2 ((2 ^ wb + 0) * 2 ^ 6 + 0)
              (64 - (1 + wb + 6)) (1 + wb + 6) Hok2 Hcache2 Hbytes2 Hfdc2 Hre2)
    as (c3 & Ewb); try lia.
  rewrite Ewb. cbn [bind Z.ltb Z.compare].
  unfold ustream_close.
  destruct (Z.leb_spec 0 (us_fd u2)) as [C|_]; [lia|]. cbn [andb bind].
  assert (0 <= 64 - (1 + wb + 6)) as Hsb3 by lia.
  destruct (cstream_write_bits_bits _ _ _ _ _ Hok2 Hcache2 Hbytes2 Hsb3 Ewb)
    as (Hok3 & Hcache3 & Hbytes3 & (Hfd3 & Hre3 & _) & Hlen3 & _).
  pose proof (cstream_write_bits_mem _ _ _ _ _ Hmw2 Ewb) as (_ & Hfile3 & _).
  destruct (cstream_close_returns c3 Hok3 Hcache3) as (c4 & Ecc).
  { rewrite Hfd3. exact Hfdc2. }
  { rewrite Hre3. exact Hre2. }
  { unfold written, output in Hlen3, Hle2. rewrite Hfile3 in Hlen3. rewrite Hfile2 in *.
    cbn [app] in *. destruct Hcache3 as (Hcn3 & _). destruct Hcache2 as (Hcn2 & _).
    change (2 ^ 31) with 2147483648 in *. lia. }
  rewrite Ecc. cbn [bind]. eexists. eexists. reflexivity.
Qed.

(** Windows up to 8192 bytes with look-ahead buffers up to 1030 bytes keep
    every token within 30 bits. *)
Lemma widest_token_bound (w l : Z) :
  4 <= w <= 8192 -> 2 <= l <= 1030 -> widest_token w l <= 30.
Proof.
  intros Hw Hl. unfold widest_token. cbv zeta.
  destruct (window_nbits_bit_width w ltac:(lia)) as (E & Hb).
  rewrite (u16_small w) in E by (change (2 ^ 16) with 65536; lia).
  rewrite E.
  assert (bit_width (w - 1) <= 13) as Hb13.
  { unfold bit_width. assert (Z.log2 (Z.max 1 (w - 1)) < 13); [|lia].
    apply Z.log2_lt_pow2; [lia|]. change (2 ^ 13) with 8192. lia. }
  destruct (encoder_good (bit_width (w - 1)) l Hb Hl) as (mn & mx & Ee & _ & _ & _ & Hd).
  change LZ77_TYPE_BITS with 1 in *. change MAX_CODE_BITS with 6. lia.
Qed.

(** X28: a compression from memory to memory returns.  For a
    window of [4 <= w <= 65534] bytes, a look-ahead buffer of
    [2 <= l <= w] bytes whose widest token has at most 30 bits, and an
    input of at most [2 ^ 30] bytes, [lz77_compress] into a memory stream
    that may be reallocated returns a number of bytes: no assertion of
    the library fails, the tree functions stay within the tree array and
    the searches within the data, every loop ends, and no reallocation is
    refused. *)
Theorem compress_memory_returns (s : list Z) (w l : Z) :
  4 <= w <= 65534 -> 2 <= l <= w ->
  bytes_ok s -> Z.of_nat (length s) <= 2 ^ 30 ->
  widest_token w l <= 30 ->
  exists n bytes, compress_memory s w l = Ret (n, bytes).
Proof.
  exact (compress_memory_total s w l).
Qed.

Lemma compress_memory_returns_witness :
  exists n bytes, compress_memory (repeat 65 12) 8 8 = Ret (n, bytes).
Proof.
  apply (compress_memory_returns (repeat 65 12) 8 8).
  - lia.
  - lia.
  - apply Forall_forall. intros x Hx. apply repeat_spec in Hx. lia.
  - cbn. lia.
  - vm_compute. discriminate.
Defined.

(** X29: the round trip holds for every input within the bounds.
    For a window of [4 <= w <= 65534] bytes and a look-ahead buffer of
    [2 <= l <= w] bytes with [l <= 1030] whose widest token has at most 30
    bits (every [w <= 8192] will do), and for every input [s] of at most
    [2 ^ 27] bytes whose length is not a positive multiple of 65536:
    [lz77_compress] from memory to memory returns the number [n] of bytes
    it wrote, at most [(9 * length + 126) / 8], and [lz77_decompress]
    from these bytes returns the length of [s] and leaves exactly [s] in
    its output buffer. *)
Theorem lz77_round_trip_total (s : list Z) (w l : Z) :
  4 <= w <= 65534 -> 2 <= l <= w -> l <= 1030 ->
  widest_token w l <= 30 ->
  bytes_ok s -> Z.of_nat (length s) <= 2 ^ 27 ->
  (Z.of_nat (length s) mod 65536 = 0 -> s = []) ->
  exists n bytes,
    compress_memory s w l = Ret (n, bytes)
    /\ n = Z.of_nat (length bytes)
    /\ 8 * n <= 9 * Z.of_nat (length s) + 126
    /\ decompress_memory bytes n = Ret (Z.of_nat (length s), s).
Proof.
  intros Hw Hl Hl1030 Hwide Hsb Hs27 Hmult.
  change (2 ^ 27) with 134217728 in Hs27.
  destruct (compress_memory_total s w l Hw Hl Hsb
              ltac:(change (2 ^ 30) with 1073741824; lia) Hwide) as (n & bytes & Ec).
  destruct (compress_memory_size s w l n bytes Hw Hl Hsb
              ltac:(change (2 ^ 32) with 4294967296; lia) Ec) as (Hn & Hsize).
  destruct (compress_memory_decodes s w l n bytes Hw Hl Hl1030 Hsb
              ltac:(change (2 ^ 31) with 2147483648; lia) Hmult Ec
              ltac:(change (2 ^ 31) with 2147483648; lia)) as (_ & Hd).
  exists n, bytes. auto.
Qed.

Lemma lz77_round_trip_total_witness :
  exists n bytes,
    compress_memory (repeat 65 12) 8 8 = Ret (n, bytes)
    /\ n = Z.of_nat (length bytes)
    /\ 8 * n <= 9 * Z.of_nat (length (repeat 65 12)) + 126
    /\ decompress_memory bytes n = Ret (Z.of_nat (length (repeat 65 12)), repeat 65 12).
Proof.
  apply (lz77_round_trip_total (repeat 65 12) 8 8).
  - lia.
  - lia.
  - lia.
  - vm_compute. discriminate.
  - apply Forall_forall. intros x Hx. apply repeat_spec in Hx. lia.
  - cbn. lia.
  - intros H. vm_compute in H. discriminate H.
Defined.

(** X26: [lz77_tree_delete_node] returns on every slot of a
    tree in shape, and leaves the tree in shape.  None of the assertions
    of [lz77_tree_contract_node] and [lz77_tree_replace_node] fails, every
    slot read or written is a slot of the array, and the loop of
    [lz77_tree_find_next_node] ends within the number of slots, because
    the slots it visits differ from each other. *)
Theorem tree_delete_node_returns (w : Z) (t : list lz77_tree) (index : Z) :
  well_formed w t -> 0 <= index < w ->
  exists t', lz77_tree_delete_node t index = Ret t' /\ well_formed w t'.
Proof.
  intros Hwf Hi.
  destruct (delete_node_returns w t index Hwf Hi) as (t' & D).
  exists t'. split; [exact D|].
  apply (delete_node_ok w t index t' Hwf Hi D).
Qed.

Lemma tree_delete_node_returns_witness :
  exists t', lz77_tree_delete_node sample_tree 0 = Ret t' /\ well_formed 4 t'.
Proof.
  apply (tree_delete_node_returns 4 sample_tree 0).
  - exact sample_tree_well_formed.
  - lia.
Defined.



(** ** Writing to a descriptor *)

(** The loop that writes the buffer out always ends: it returns -1 when a
    call of [write] fails, and 0 otherwise. *)
Lemma flush_loop_ends (fuel : nat) :
  forall c from count writecount,
    (length (cs_os c) + 3 <= fuel)%nat ->
    0 <= from -> 0 <= count < 2 ^ 32 ->
    from + count <= Z.of_nat (length (cs_data c)) ->
    exists r c', flush_loop fuel c from count writecount = Ret (r, c').
Proof.
  induction fuel as [|fuel IH]; intros c from count writecount Hfuel Hfrom Hcount Hfit; [lia|].
  cbn [flush_loop].
  destruct (Z.eqb_spec writecount count) as [E|E]; [eexists; eexists; reflexivity|].
  cbv zeta.
  destruct (Z.ltb_spec (transferred (cs_os c) count) 0) as [N|N];
    [eexists; eexists; reflexivity|].
  assert (transferred (cs_os c) count <= count) as Hle.
  { unfold transferred. destruct (cs_os c) as [|k os]; [lia|].
    destruct (k <? 0); lia. }
  set (n := transferred (cs_os c) count) in *.
  cs_simpl.
  assert (slice (cs_data c) from n
          = Ret (firstn (Z.to_nat n) (skipn (Z.to_nat from) (cs_data c)))) as ->.
  { unfold slice.
    replace ((0 <=? from) && (0 <=? n) && (from + n <=? Z.of_nat (length (cs_data c))))
      with true; [reflexivity|].
    symmetry. rewrite !andb_true_iff, !Z.leb_le. lia. }
  cbn [bind].
  rewrite (u32_small (count - n)) by lia.
  destruct (cs_os c) as [|k os] eqn:Eos.
  - (* the descriptor takes what is left, then nothing *)
    assert (n = count) as En by (subst n; reflexivity).
    rewrite En, Z.sub_diag. cbn [tl].
    destruct fuel as [|fuel]; [cbn [length] in Hfuel; lia|].
    cbn [flush_loop]. destruct (Z.eqb_spec count 0) as [Z0|Z0];
      [eexists; eexists; reflexivity|].
    cbv zeta. cs_simpl. cbn [transferred Z.ltb Z.compare].
    assert (slice (cs_data c) (from + count) 0 = Ret []) as ->.
    { unfold slice.
      replace ((0 <=? from + count) && (0 <=? 0)
               && (from + count + 0 <=? Z.of_nat (length (cs_data c)))) with true;
        [reflexivity|].
      symmetry. rewrite !andb_true_iff, !Z.leb_le. lia. }
    cbn [bind]. change (u32 (0 - 0)) with 0.
    destruct fuel as [|fuel]; [cbn [length] in Hfuel; lia|].
    cbn [flush_loop Z.eqb]. eexists; eexists; reflexivity.
  - cbn [tl]. apply IH; cs_simpl; try lia.
    cbn [length] in Hfuel. lia.
Qed.

(** ** C6: the header of the compressed output *)

(** C6 fails on the code.  The input ["AB"] with [W = 4] and [L = 2]
    compresses to 16 bytes.  Written to a descriptor whose first [write]
    takes 8 of them, [lz77_compress] returns 16 and the descriptor has
    received 8 bytes, which end before the two sizes of the header: the
    loop of [cstream_close] stops when [write] has taken half of what was
    left.  Written to a memory buffer of 15 bytes when [realloc] fails in
    [cstream_close], [lz77_compress] returns 12 and the buffer is freed:
    [cstream_close] ignores the value [cstream_write] returns. *)
Theorem compress_output_header_lost :
  lz77_cstream_to_descriptor (Some sample_ustream) 3 [8] true heap_limit
  = Object short_write_output
  /\ (exists u c,
        lz77_compress sample_ustream short_write_output = Ret (16, u, c)
        /\ output c = [76; 90; 55; 55; 16; 0; 0; 0])
  /\ lz77_cstream_to_memory (Some sample_ustream) false 15 1 true 0
     = Object full_heap_output
  /\ (exists u c,
        lz77_compress sample_ustream full_heap_output = Ret (12, u, c)
        /\ output c = []).
Proof.
  split; [reflexivity|].
  split; [eexists; eexists; split; [vm_compute; reflexivity|reflexivity]|].
  split; [reflexivity|].
  eexists; eexists; split; [vm_compute; reflexivity|reflexivity].
Qed.

(** ** C10: the number of processed bits of a writer *)





(** ** C7: opening the reader side, over memory or over a descriptor *)

Lemma arriving_nil (os : list Z) : arriving os [] = [].
Proof.
  induction os as [|k os IH]; [reflexivity|]. cbn [arriving].
  destruct (k <=? 0); [reflexivity|]. rewrite firstn_nil, skipn_nil. exact IH.
Qed.

Lemma arriving_prefix (os : list Z) : forall file,
  exists rest, file = arriving os file ++ rest.
Proof.
  induction os as [|k os IH]; intros file.
  - exists []. cbn. now rewrite app_nil_r.
  - cbn [arriving]. destruct (k <=? 0); [exists file; reflexivity|].
    destruct (IH (skipn (Z.to_nat k) file)) as (rest & E). exists rest.
    rewrite <- app_assoc, <- E. symmetry. apply firstn_skipn.
Qed.

Lemma bytes_ok_firstn (n : nat) (l : list Z) : bytes_ok l -> bytes_ok (firstn n l).
Proof.
  intros H. rewrite <- (firstn_skipn n l) in H.
  unfold bytes_ok in *. apply Forall_app in H. tauto.
Qed.

Lemma bytes_ok_arriving (os file : list Z) : bytes_ok file -> bytes_ok (arriving os file).
Proof.
  intros H. destruct (arriving_prefix os file) as (rest & E).
  rewrite E in H. unfold bytes_ok in *. apply Forall_app in H. tauto.
Qed.

Lemma bit_firstn (n : nat) (l : list Z) (q : Z) :
  0 <= q < 8 * Z.of_nat n -> bit (firstn n l) q = bit l q.
Proof.
  intros Hq. unfold bit, byte_at. pose proof (div8_bounds _ _ Hq).
  rewrite nth_firstn.
  replace (Z.to_nat (q / 8) <? n)%nat with true by (symmetry; apply Nat.ltb_lt; lia).
  reflexivity.
Qed.

(** What [read] delivers when fewer than 12 bytes are asked of it at
    least: the first bytes of what arrives. *)
Lemma arriving_step (os file : list Z) (room : Z) :
  12 <= room ->
  let count := transferred os (Z.min room (Z.of_nat (length file))) in
  (count < 0 -> arriving os file = [])
  /\ (count = 0 -> arriving os file = [])
  /\ (0 < count ->
      (Z.to_nat count <= length (arriving os file))%nat
      /\ (count < 12 ->
          arriving os file
          = firstn (Z.to_nat count) file ++ arriving (tl os) (skipn (Z.to_nat count) file))).
Proof.
  intros Hroom count. subst count. unfold transferred.
  destruct os as [|k os]; cbn [arriving tl].
  - split; [lia|]. split.
    + intros E. destruct file; [reflexivity|]. cbn [length] in E. lia.
    + intros Hpos. split; [lia|]. intros H12.
      assert (Z.min room (Z.of_nat (length file)) = Z.of_nat (length file)) as -> by lia.
      rewrite Nat2Z.id, firstn_all, skipn_all. cbn. now rewrite app_nil_r.
  - destruct (Z.ltb_spec k 0) as [N|N].
    + destruct (Z.leb_spec k 0); [|lia]. repeat split; intros; try reflexivity; lia.
    + destruct (Z.leb_spec k 0) as [Z0|P0].
      * replace (Z.min k (Z.min room (Z.of_nat (length file)))) with 0 by lia.
        repeat split; intros; try reflexivity; lia.
      * split; [lia|]. split.
        { intros E. assert (file = []) as -> by (destruct file; [reflexivity|cbn [length] in E; lia]).
          rewrite firstn_nil, skipn_nil. apply arriving_nil. }
        intros Hpos. split.
        { rewrite length_app, length_firstn. lia. }
        intros H12.
        assert (Z.min k (Z.min room (Z.of_nat (length file))) = Z.min k (Z.of_nat (length file)))
          as -> by lia.
        destruct (Z_le_gt_dec k (Z.of_nat (length file))) as [L|G].
        { rewrite Z.min_l by lia. reflexivity. }
        rewrite Z.min_r by lia. rewrite Nat2Z.id.
        rewrite (firstn_all2 (n := Z.to_nat k)) by lia.
        rewrite (skipn_all2 (n := Z.to_nat k)) by lia.
        rewrite firstn_all, skipn_all. reflexivity.
Qed.

Lemma slice_whole (d : list Z) (n : nat) :
  length d = n -> slice d 0 (Z.of_nat n - 0) = Ret d.
Proof.
  intros <-. rewrite Z.sub_0_r. apply slice_all. reflexivity.
Qed.

(** One call of [cstream_peek] for the 96 bits of the header, while the
    buffer holds fewer than 12 bytes: [read] is called once. *)
Lemma peek_header (file0 : list Z) (got : nat) (c : lz77_cstream) (buf : list Z) :
  header_read file0 got c buf -> (got < 12)%nat ->
  let count := transferred (cs_os c)
                 (Z.min (1024 - Z.of_nat got) (Z.of_nat (length (cs_file c)))) in
  (count < 0 ->
   exists c', cstream_peek c buf 0 96 = Ret (count, buf, c')
              /\ cs_window_maxsize c' = cs_window_maxsize c
              /\ cs_lookahead_maxsize c' = cs_lookahead_maxsize c)
  /\ (0 <= count ->
      exists buf' c',
        cstream_peek c buf 0 96
        = Ret (Z.min 96 (8 * (Z.of_nat got + count)), buf', c')
        /\ header_read file0 (got + Z.to_nat count) c' buf'
        /\ cs_os c' = tl (cs_os c)
        /\ cs_window_maxsize c' = cs_window_maxsize c
        /\ cs_lookahead_maxsize c' = cs_lookahead_maxsize c).
Proof.
  intros (Hfd & Hin & Hpos & Hend & Hsize & Hdata & Hfile & Hgot & Hok & Hlen & Hbuf & Hbits)
    H12 count.
  unfold cstream_peek.
  destruct (Z.eqb_spec (cs_is_input c) 0) as [C|_]; [contradiction|].
  cbn [negb assert bind].
  rewrite Hpos, Hend, Hsize.
  replace (8 * Z.of_nat got <? 0 + 96) with true by (symmetry; apply Z.ltb_lt; lia).
  replace (0 <=? cs_fd c) with true by (symmetry; apply Z.leb_le; lia).
  cbn [andb]. cbv zeta.
  change (0 / 8) with 0.
  replace ((8 * Z.of_nat got + 7) / 8) with (Z.of_nat got) by (Z.div_mod_to_equations; lia).
  rewrite slice_whole by (rewrite Hdata, length_firstn; lia).
  cbn [bind]. change (0 * 8) with 0. rewrite !Z.sub_0_r.
  change (u64 0) with 0.
  rewrite (u64_small (8 * Z.of_nat got)) by (change (2 ^ 64) with 18446744073709551616; lia).
  replace ((8 * Z.of_nat got + 7) / 8) with (Z.of_nat got) by (Z.div_mod_to_equations; lia).
  replace (0 <=? 1024 - Z.of_nat got) with true by (symmetry; apply Z.leb_le; lia).
  cbn [defined bind]. fold count.
  assert (count <= Z.min (1024 - Z.of_nat got) (Z.of_nat (length (cs_file c)))) as Hcount.
  { subst count. unfold transferred. destruct (cs_os c) as [|k os]; [lia|].
    destruct (k <? 0); lia. }
  split.
  - intros N. destruct (Z.ltb_spec count 0) as [_|C]; [|lia].
    cbn [bind fst snd]. destruct (Z.ltb_spec count 0) as [_|C]; [|lia].
    eexists. split; [reflexivity|]. split; reflexivity.
  - intros P. destruct (Z.ltb_spec count 0) as [C|_]; [lia|].
    unfold file_read. cbn [bind fst snd Z.ltb Z.compare].
    set (c2 := set_cs_buffer _ _ _ _ _ _).
    assert (cs_data c2 = firstn (got + Z.to_nat count) file0) as Hd2.
    { subst c2. cs_simpl. rewrite Hdata, Hfile.
      rewrite firstn_skipn_comm.
      rewrite <- (firstn_skipn got (firstn (got + Z.to_nat count) file0)) at 2.
      f_equal. rewrite firstn_firstn. f_equal. lia. }
    assert (length (cs_file c) = (length file0 - got)%nat) as Hlf
        by (rewrite Hfile, length_skipn; reflexivity).
    assert (cs_end c2 = 8 * (Z.of_nat got + count)) as He2.
    { subst c2. cs_simpl. rewrite u64_small by (change (2 ^ 64) with 18446744073709551616; lia).
      lia. }
    assert (cs_pos c2 = 0) as Hp2 by reflexivity.
    assert (length (cs_data c2) = (got + Z.to_nat count)%nat) as Hl2
        by (rewrite Hd2, length_firstn; lia).
    assert (cs_fd c2 = cs_fd c /\ cs_is_input c2 = cs_is_input c /\ cs_size c2 = 1024
            /\ cs_file c2 = skipn (got + Z.to_nat count) file0
            /\ cs_os c2 = tl (cs_os c)
            /\ cs_window_maxsize c2 = cs_window_maxsize c
            /\ cs_lookahead_maxsize c2 = cs_lookahead_maxsize c)
      as (Hf2 & Hi2 & Hs2 & Hfl2 & Hos2 & Hw2 & Hla2).
    { subst c2. cs_simpl. rewrite Hfile, skipn_skipn.
      repeat split; try assumption. f_equal. lia. }
    clearbody c2.
    destruct (peek_loop_spec 96 c2 buf 0 0) as (buf' & E & Hl' & Hb' & Hq').
    { lia. } { lia. } { lia. }
    { rewrite He2, Hl2. lia. }
    { rewrite Hp2. cbn. lia. }
    { rewrite Hlen. lia. }
    { intros q Hq B. rewrite Hbits in B by lia. apply andb_prop in B. destruct B as [B1 B2].
      apply Z.ltb_lt in B1. rewrite Hp2, Hd2. rewrite bit_firstn by lia.
      replace (0 + q - 0) with q by lia. exact B2. }
    unfold peeked in *. rewrite Hp2, He2 in *.
    replace (Z.max 0 (Z.min (Z.of_nat 96) (8 * (Z.of_nat got + count) - 0 - 0)))
      with (Z.min 96 (8 * (Z.of_nat got + count))) in * by lia.
    change (Z.to_nat 96) with 96%nat. rewrite E. cbn [bind Z.add].
    exists buf', c2. split; [reflexivity|].
    split; [|split; [exact Hos2|split; assumption]].
    unfold header_read. rewrite He2, Hd2, Hl', Hf2, Hi2.
    split; [exact Hfd|]. split; [exact Hin|]. split; [exact Hp2|].
    split; [lia|]. split; [exact Hs2|]. split; [reflexivity|].
    split; [exact Hfl2|].
    split; [lia|]. split; [exact Hok|]. split; [exact Hlen|]. split; [exact (Hb' Hbuf)|].
    intros q Hq. rewrite Hq' by exact Hq. rewrite Hd2.
    replace (Z.of_nat (got + Z.to_nat count)) with (Z.of_nat got + count) by lia.
    destruct (Z.leb_spec (0 + 0) q) as [_|C]; [|lia]. cbn [andb].
    replace (0 + 0 + Z.min 96 (8 * (Z.of_nat got + count)))
      with (Z.min 96 (8 * (Z.of_nat got + count))) by lia.
    destruct (Z.ltb_spec q (Z.min 96 (8 * (Z.of_nat got + count)))) as [L|L].
    + replace (0 + q - 0) with q by lia.
      cbn [andb]. apply bit_firstn. lia.
    + rewrite Hbits by exact Hq.
      destruct (Z.ltb_spec q (Z.min 96 (8 * Z.of_nat got))) as [C|_]; [lia|]. reflexivity.
Qed.

Lemma consume_header (file0 : list Z) (got : nat) (c : lz77_cstream) (buf : list Z) (n : Z) :
  header_read file0 got c buf -> 0 <= n <= 8 * Z.of_nat got ->
  exists c', cstream_consume c n = Ret (n, c')
             /\ cs_window_maxsize c' = cs_window_maxsize c
             /\ cs_lookahead_maxsize c' = cs_lookahead_maxsize c.
Proof.
  intros (Hfd & Hin & Hpos & Hend & _) Hn. unfold cstream_consume.
  destruct (Z.eqb_spec (cs_is_input c) 0) as [C|_]; [contradiction|].
  cbn [negb assert bind]. rewrite Hpos, Hend.
  destruct (Z.leb_spec (0 + n) (8 * Z.of_nat got)) as [_|C]; [|lia].
  cbn [assert bind].
  destruct (Z.ltb_spec (8 * Z.of_nat got - 0) n) as [C|_]; [lia|].
  eexists. split; [reflexivity|]. split; reflexivity.
Qed.

(** The loop of [cstream_read] for the header: it calls [read] until 12
    bytes are there, or [read] returns 0 or -1. *)
Lemma read_loop_header (fuel : nat) :
  forall file0 got c buf,
    header_read file0 got c buf -> (got < 12)%nat -> (12 - got < fuel)%nat ->
    exists n buf' c',
      read_loop fuel c buf 0 96 (8 * Z.of_nat got) = Ret (n, buf', c')
      /\ cs_window_maxsize c' = cs_window_maxsize c
      /\ cs_lookahead_maxsize c' = cs_lookahead_maxsize c
      /\ ((12 <= got + length (arriving (cs_os c) (skipn got file0)))%nat ->
          n = 96 /\ buf' = firstn 12 file0)
      /\ ((got + length (arriving (cs_os c) (skipn got file0)) < 12)%nat -> n <> 96).
Proof.
  induction fuel as [|fuel IH]; intros file0 got c buf Hst H12 Hfuel; [lia|].
  cbn [read_loop].
  destruct (peek_header file0 got c buf Hst H12) as (Hneg & Hnon).
  pose proof Hst as (_ & _ & _ & _ & _ & _ & Hfile & Hgot & Hok & _).
  destruct (arriving_step (cs_os c) (cs_file c) (1024 - Z.of_nat got) ltac:(lia))
    as (A1 & A2 & A3).
  set (count := transferred (cs_os c)
                  (Z.min (1024 - Z.of_nat got) (Z.of_nat (length (cs_file c))))) in *.
  rewrite Hfile in A1, A2, A3.
  destruct (Z_lt_le_dec count 0) as [N|P].
  - destruct (Hneg N) as (c' & -> & Hw & Hl). cbn [bind].
    destruct (Z.leb_spec count 0) as [_|C]; [|lia].
    exists count, buf, c'. split; [reflexivity|]. split; [exact Hw|]. split; [exact Hl|].
    rewrite (A1 N). cbn [length]. split; [lia|]. intros _. lia.
  - destruct (Hnon P) as (buf' & c2 & -> & Hst2 & Hos2 & Hw2 & Hl2). cbn [bind].
    destruct (Z_le_gt_dec 12 (Z.of_nat got + count)) as [Full|Short].
    + (* the header is complete *)
      replace (Z.min 96 (8 * (Z.of_nat got + count))) with 96 by lia.
      cbn [Z.leb Z.compare]. rewrite Z.eqb_refl, orb_true_r.
      destruct (consume_header file0 _ c2 buf' 96 Hst2 ltac:(lia)) as (c3 & -> & Hw3 & Hl3).
      cbn [bind].
      exists 96, buf', c3. split; [reflexivity|].
      split; [congruence|]. split; [congruence|].
      split; [|intros C; destruct (A3 ltac:(lia)) as (B & _); lia].
      intros _. split; [reflexivity|].
      destruct Hst2 as (_ & _ & _ & _ & _ & _ & _ & Hgot2 & _ & Hlen2 & Hbuf2 & Hbits2).
      apply bytes_from_bits; try assumption; try lia.
      intros q Hq. rewrite Hbits2 by lia.
      destruct (Z.ltb_spec q (Z.min 96 (8 * Z.of_nat (got + Z.to_nat count)))) as [_|C];
        [reflexivity|lia].
    + replace (Z.min 96 (8 * (Z.of_nat got + count))) with (8 * (Z.of_nat got + count))
        by lia.
      destruct (Z.eq_dec count 0) as [Z0|Z0].
      * (* nothing more has come *)
        rewrite Z0, Z.add_0_r in *. rewrite (A2 eq_refl). cbn [length].
        destruct (Z.leb_spec (8 * Z.of_nat got) 0) as [E|E].
        { exists (8 * Z.of_nat got), buf', c2. split; [reflexivity|].
          split; [exact Hw2|]. split; [exact Hl2|]. split; [lia|]. intros _. lia. }
        rewrite Z.eqb_refl. cbn [orb].
        destruct (consume_header file0 _ c2 buf' (8 * Z.of_nat got) Hst2 ltac:(lia))
          as (c3 & -> & Hw3 & Hl3).
        cbn [bind].
        exists (8 * Z.of_nat got), buf', c3. split; [reflexivity|].
        split; [congruence|]. split; [congruence|]. split; [lia|]. intros _. lia.
      * (* some bytes have come, fewer than 12 *)
        destruct (Z.leb_spec (8 * (Z.of_nat got + count)) 0) as [C|_]; [lia|].
        destruct (Z.eqb_spec (8 * (Z.of_nat got + count)) (8 * Z.of_nat got)) as [C|_]; [lia|].
        destruct (Z.eqb_spec (8 * (Z.of_nat got + count)) 96) as [C|_]; [lia|].
        cbn [orb].
        destruct (A3 ltac:(lia)) as (_ & Estep). specialize (Estep ltac:(lia)).
        destruct (IH file0 (got + Z.to_nat count)%nat c2 buf' Hst2 ltac:(lia) ltac:(lia))
          as (n & buf'' & c3 & Hrun & Hw3 & Hl3 & Hyes & Hno).
        replace (8 * Z.of_nat (got + Z.to_nat count)) with (8 * (Z.of_nat got + count))
          in Hrun by lia.
        exists n, buf'', c3. split; [exact Hrun|].
        split; [congruence|]. split; [congruence|].
        rewrite Hos2 in Hyes, Hno.
        rewrite Estep, length_app, length_firstn, length_skipn, skipn_skipn.
        replace (Z.to_nat count + got)%nat with (got + Z.to_nat count)%nat by lia.
        assert (Z.to_nat count <= length file0 - got)%nat as Hc.
        { destruct Hst2 as (_ & _ & _ & _ & _ & _ & _ & Hgot2 & _). lia. }
        split; intros H; [apply Hyes|apply Hno]; lia.
Qed.

(** After the header is read, [cstream_open] checks its fields. *)
Lemma cstream_open_checks (c : lz77_cstream) (bytes : list Z) :
  cs_is_input c <> 0 -> cs_pos c = 0 ->
  cs_window_maxsize c = 0 -> cs_lookahead_maxsize c = 0 -> bytes_ok bytes ->
  (exists n buf c1,
      cstream_read c (repeat 0 12) 0 (12 * 8) = Ret (n, buf, c1)
      /\ ((12 <= length bytes)%nat -> n = 96 /\ buf = firstn 12 bytes)
      /\ ((length bytes < 12)%nat -> n <> 96)) ->
  exists r c',
    cstream_open c = Ret (r, c')
    /\ (r = 0 \/ r = -1)
    /\ (r = -1 <-> header_refused bytes)
    /\ (r = 0 -> cs_window_maxsize c' = header_window bytes
                 /\ cs_lookahead_maxsize c' = header_lookahead bytes).
Proof.
  intros Hin Hpos Hw0 Hl0 Hok (n & buf & c1 & Hread & Hlong & Hshort).
  unfold cstream_open. rewrite Hpos, Hw0, Hl0.
  rewrite Z.eqb_refl, orb_true_r. cbn [assert bind andb].
  destruct (Z.eqb_spec (cs_is_input c) 0) as [C|_]; [contradiction|]. cbn [negb].
  rewrite Hread. cbn [bind].
  destruct (Nat.lt_ge_cases (length bytes) 12) as [Hs|Hl].
  - specialize (Hshort Hs).
    destruct (Z.eqb_spec n (12 * 8)) as [C|_]; [change (12 * 8) with 96 in C; lia|].
    cbn [negb]. exists (-1), c1. split; [reflexivity|]. split; [now right|].
    split; [|discriminate]. split; [intros _; now left | reflexivity].
  - destruct (Hlong Hl) as (-> & ->).
    change (96 =? 12 * 8) with true. cbn [negb].
    rewrite firstn_firstn. change (Nat.min 4 12) with 4%nat.
    pose proof (bytes_ok_nth bytes 8 Hok). pose proof (bytes_ok_nth bytes 9 Hok).
    pose proof (bytes_ok_nth bytes 10 Hok). pose proof (bytes_ok_nth bytes 11 Hok).
    unfold header_refused, header_window, header_lookahead,
      LZ77_MIN_WINDOW_SIZE, LZ77_MIN_LOOKAHEAD_SIZE.
    destruct (list_eqb_spec (firstn 4 bytes) magic) as [Hm|Hm]; cbn [negb].
    2:{ exists (-1), c1. split; [reflexivity|]. split; [now right|].
        split; [|discriminate]. split; [intros _; right; now left | reflexivity]. }
    rewrite rd_firstn12 by (assumption || lia). cbn [bind].
    destruct (Z.eqb_spec (byte_at bytes 4) LZ77PPM_VERSION) as [Hv|Hv]; cbn [negb].
    2:{ exists (-1), c1. split; [reflexivity|]. split; [now right|].
        split; [|discriminate].
        split; [intros _; right; right; now left | reflexivity]. }
    unfold be16_at. rewrite !rd_firstn12 by (assumption || lia). cbn [bind].
    change (8 + 1) with 9. change (10 + 1) with 11.
    cs_simpl.
    rewrite !u16_small by lia.
    destruct (Z.ltb_spec (byte_at bytes 8 * 256 + byte_at bytes 9) 4) as [Hw4|Hw4].
    { eexists (-1), _. split; [reflexivity|]. split; [now right|].
      split; [|discriminate].
      split; [intros _; right; right; right; now left | reflexivity]. }
    destruct (Z.ltb_spec (byte_at bytes 10 * 256 + byte_at bytes 11) 2) as [Hl2|Hl2].
    { eexists (-1), _. split; [reflexivity|]. split; [now right|].
      split; [|discriminate].
      split; [intros _; right; right; right; right; now left | reflexivity]. }
    destruct (Z.ltb_spec (byte_at bytes 8 * 256 + byte_at bytes 9)
                (byte_at bytes 10 * 256 + byte_at bytes 11)) as [Hwl|Hwl].
    { eexists (-1), _. split; [reflexivity|]. split; [now right|].
      split; [|discriminate].
      split; [intros _; right; right; right; right; now right | reflexivity]. }
    eexists 0, _. split; [reflexivity|]. split; [now left|]. cs_simpl.
    split; [|intros _; split; reflexivity].
    split; [discriminate|].
    intros [C|[C|[C|[C|[C|C]]]]]; try contradiction; lia.
Qed.

(** C7: [cstream_open] on the reader side, over a memory buffer or over a
    descriptor that may fail or deliver the stream in pieces, returns 0 or
    -1.  It returns -1 exactly when fewer than 12 bytes are presented
    (over a descriptor: fewer than 12 bytes come before [read] returns 0
    or -1), the magic is not ["LZ77"], the version is not [0x10], the
    window size is below 4, the look-ahead size is below 2 or above the
    window size; when it returns 0 the stream has the two sizes of the
    header. *)
Theorem cstream_open_reader c :
  memory_reader c \/ descriptor_reader c ->
  exists r c',
    cstream_open c = Ret (r, c')
    /\ (r = 0 \/ r = -1)
    /\ (r = -1 <-> header_refused (presented c))
    /\ (r = 0 -> cs_window_maxsize c' = header_window (presented c)
                 /\ cs_lookahead_maxsize c' = header_lookahead (presented c)).
Proof.
  intros [Hc|Hc].
  - pose proof Hc as (Hfd & Hin & Hpos & Hend & Hw0 & Hl0 & Hok).
    unfold presented. destruct (Z.ltb_spec (cs_fd c) 0) as [_|C]; [|lia].
    apply cstream_open_checks; try assumption.
    destruct (Nat.lt_ge_cases (length (cs_data c)) 12) as [Hshort|Hlong].
    + destruct (cstream_read_short c Hc Hshort) as (n & buf & c' & E & Hn).
      exists n, buf, c'. split; [exact E|].
      split; [lia|]. intros _. exact Hn.
    + rewrite (cstream_read_header c Hc Hlong).
      eexists. eexists. eexists. split; [reflexivity|].
      split; [intros _; split; reflexivity|lia].
  - pose proof Hc as (Hfd & Hin & Hpos & Hend & Hdata & Hsize & Hw0 & Hl0 & Hok).
    unfold presented. destruct (Z.ltb_spec (cs_fd c) 0) as [C|_]; [lia|].
    apply cstream_open_checks; try assumption.
    { apply bytes_ok_arriving. exact Hok. }
    assert (header_read (cs_file c) 0 c (repeat 0 12)) as Hst.
    { unfold header_read. rewrite Hpos, Hend, Hdata, Hsize. cbn [firstn skipn].
      repeat split; try assumption; try lia; try reflexivity.
      - apply bytes_ok_zeros.
      - intros q Hq. rewrite bit_zeros.
        destruct (Z.ltb_spec q (Z.min 96 (8 * Z.of_nat 0))) as [C|_]; [cbn in C; lia|].
        reflexivity. }
    destruct (read_loop_header 98 (cs_file c) 0 c (repeat 0 12) Hst ltac:(lia) ltac:(lia))
      as (n & buf & c' & Hrun & Hw & Hl & Hyes & Hno).
    cbn [skipn Nat.add] in Hyes, Hno.
    exists n, buf, c'. split.
    { unfold cstream_read. destruct (Z.eqb_spec (cs_is_input c) 0) as [C|_]; [contradiction|].
      cbn [negb assert bind]. exact Hrun. }
    split; [|exact Hno].
    intros H12. destruct (Hyes H12) as (-> & ->). split; [reflexivity|].
    destruct (arriving_prefix (cs_os c) (cs_file c)) as (rest & E).
    rewrite E at 1. rewrite firstn_app.
    replace (12 - length (arriving (cs_os c) (cs_file c)))%nat with 0%nat by lia.
    cbn [firstn]. apply app_nil_r.
Qed.

Lemma from_descriptor_reader fd file os heap c :
  bytes_ok file ->
  lz77_cstream_from_descriptor fd file os true heap = Object c ->
  descriptor_reader c /\ cs_file c = file /\ cs_os c = os.
Proof.
  intros Hok. unfold lz77_cstream_from_descriptor.
  destruct (Z.ltb_spec fd 0); [discriminate|]. cbn [negb]. intros [= <-].
  unfold descriptor_reader. cs_simpl. repeat split; try assumption; try lia; discriminate.
Qed.

Lemma piecewise_reader_created :
  lz77_cstream_from_descriptor 3 (header_bytes 4 2 ++ [128; 0]) [5; 9] true heap_limit
  = Object piecewise_reader.
Proof. reflexivity. Qed.

Lemma cstream_open_reader_witness :
  exists c',
    cstream_open piecewise_reader = Ret (0, c')
    /\ cs_window_maxsize c' = 4 /\ cs_lookahead_maxsize c' = 2.
Proof.
  destruct (cstream_open_reader piecewise_reader) as (r & c' & Hopen & _ & _ & Hsizes).
  - right.
    refine (proj1 (from_descriptor_reader 3 (header_bytes 4 2 ++ [128; 0]) [5; 9]
                     heap_limit _ _ piecewise_reader_created)).
    unfold bytes_ok. change (header_bytes 4 2 ++ [128; 0])
      with [76; 90; 55; 55; 16; 0; 0; 0; 0; 4; 0; 2; 128; 0].
    repeat (constructor; [lia|]). constructor.
  - assert (r = 0) as ->.
    { vm_compute in Hopen. injection Hopen as <- _. reflexivity. }
    exists c'. split; [exact Hopen|]. exact (Hsizes eq_refl).
Defined.

(** ** The search tree across a refill of the data buffer *)








(** ** C3: the window positions the search tree holds *)

Lemma view_ok_frame (u : lz77_ustream) : view_ok u -> frame u.
Proof. unfold view_ok, frame. tauto. Qed.


















